(* ===== verification/_CoqProject ===== *)
-Q . S2P
Prelude.v
CppString.v
StrProc.v
Common.v
FileStore.v
CppMap.v
Http.v
Json.v
Mode.v
ChunkerProcessor.v
ChunkerManager.v
MultiResp.v
Daemon.v
Delivery.v
DeliveryFacts.v
Configuration.v
ConfMode.v
ConfModeFacts.v
OpMode.v
OpDelivery.v
NodeJson.v
Bodies.v
Scripts.v
Permissions.v
Auth.v
AuthFacts.v
SessionLock.v
Server.v
ServerLoop.v
ServerDelivery.v
