(* ===== verification/Prelude.v ===== *)
(** * vyatta-rest: a verification development of the REST server

    The C++ under [src/src/server] is two programs.  The REST server
    ([main.cc]) is a FastCGI process that authenticates a request and hands
    it to one of five modes; the chunker daemon ([chunker2_main.cc]) runs
    operational commands in the background, collects their output in files
    and answers questions about them over a socket.  This library
    models both, from the environment variables of a request to the bytes of
    its response, and from the text of a message to the processes it starts.

    ** The parts

    Every file models the source files it names, a definition per function,
    with the function's name where Rocq allows it.

    - [Prelude], [CppString], [CppMap]: results of code that can fail, and
      the parts of [std::string], [<cstdlib>], [printf] and [std::map] the
      sources use, on lists of characters and on ordered association lists
      (the order of keys is the class [MapKey]).
    - [StrProc] (rl_str_proc.cc): the splitter all text goes through.
    - [Common] (common.cc): the class [Rest] and [Timer].
    - [FileStore]: the file system calls of a lock, on names and inodes.
    - [Http] (http.cc): parameters, session, JSON builder, error responses.
    - [Json]: the grammar of JSON, and when the builder's text is in it.
    - [Mode] (mode.cc): what scripts print, and the class [Mode], the
      interface of a request handler.
    - [ChunkerProcessor], [ChunkerManager] (chunker2_processor.cc,
      chunker2_manager.cc): the start of a command, its reader and writer;
      the table of commands and the protocol.
    - [MultiResp] (multirespcmd.cc): the server's client of the daemon.
    - [Daemon] (chunker2_main.cc): the daemon's loop, and the abstract table
      of jobs it refines, through client and protocol.
    - [Delivery], [DeliveryFacts]: the output of a command as interleaved
      steps of the reader process, the daemon, its other clients and the
      client, whose request and read are two steps.
    - [Configuration] (configuration.cc), [ConfMode] and [ConfModeFacts]
      (confmode.cc): the configuration tree and the requests below
      [/rest/conf].
    - [OpMode] (opmode.cc), [Scripts] (appmode.cc, servicemode.cc),
      [Permissions] (permissions.cc): the other modes.
    - [OpDelivery]: [OpMode] on top of [Delivery], from the POST of a command
      to the 410 that ends its output.
    - [NodeJson], [Bodies]: which bodies of [ConfMode] and [OpMode] are JSON,
      from the daemons' texts to the bodies.
    - [Auth], [AuthFacts] (authenticate.cc, authbasic.cc, authsession.cc):
      passwords and the session file.
    - [SessionLock] (class [Lock] of authsession.cc): several processes at
      the session file, a step per system call.
    - [Server] (main.cc, process.cc, command.cc) and [ServerLoop] (main.cc):
      one request, and the loop with the identity of the process.
    - [ServerDelivery]: [Server] on top of [OpDelivery], from the requests
      the server is handed to what a client reads out of its responses.

    ** How the code is modelled

    A handler takes the session and the files and returns them with the list
    of what it did outside: messages to the chunker daemon, calls of the
    configuration daemon, shell commands, changes of identity.  Files are a
    [gmap] from paths to contents.  What the operating system, PAM, libcurl,
    jansson, the two Vyatta daemons and uninitialised memory decide is a
    field of an environment record or an argument; no theorem fixes it
    beyond the hypotheses it states.  An uncaught exception, an overrun
    buffer, a null pointer made into a string and an endless loop are values
    of [fault], so that "this cannot happen" is a theorem and not a feature
    of the model.  Machine integers are [N] or [Z] with their wrap-around
    written out ([u32], [u64], [ulong]); positions in strings are [nat].

    ** What is shown

    - Commands: a client that posts a command and gets its location reads
      every character of the output, in order, before it is told the end, if
      the output is less than 4 GiB of text without NUL characters and the
      word the end is told with, and if the end mark is not left, after more
      output, between the two looks that the daemon's answer, or the
      client's read, takes at the files ([server_output_complete], from
      [op_output_complete]); it reads exactly the output if the command does
      not write between an answer and its read either ([delivery_exact]).
      Without these conditions pieces are read twice ([delivery_repeats]) or
      never ([end_race_loses], [read_race_loses]); that the answers are 200,
      202 or 410 and the GETs come to an end needs none of them
      ([server_output_ends]).  It is the requesting user's command, with that
      user's identity and arguments ([op_post_starts],
      [op_command_arguments], [start_new_identity]); the daemon keeps its
      table well formed and is an implementation of an abstract table
      ([process_invariant], [daemon_refines], [op_list_correct],
      [op_output_owner]).
    - Requests: nothing happens that was not authenticated and is not the
      user's own ([request_acts_for_user], [validate_sound],
      [request_unauthenticated], [conf_needs_rights],
      [service_user_confined]); the process gives the user's ids up again
      ([server_restores_identity]); every response is well formed
      ([response_framed]).  These are proved from the laws of the class
      [Mode], which each of the five modes discharges in its own file.
    - Sessions: the session file is refreshed and cleaned as intended
      ([session_refresh], [session_unknown]), also by several processes at
      the same time ([session_file_serial], [request_bounded]), up to the
      one that gives up waiting ([lock_timeout_breaks_exclusion]);
      description files are read back and looked up ([conf_modify_file_roundtrip],
      [tag_lookup_correct], [post_create_correct]).
    - Text: the splitter, the tokenizer, the escapes, the JSON of the
      bodies, the templates and the rules of the daemons
      ([str_proc_equivalence], [tokenizer_termination],
      [post_escape_roundtrip], [conf_body_json], [template_node_json],
      and the lemmas [op_body_json], [op_list_json], [opc_args_json] and
      [maptojson_correct]).
    - Failures the code has: the theorems of kind error and bounds
      ([delivery_repeats], [user_tag_injection], [cookie_crash],
      [lock_timeout_breaks_exclusion], [service_index_termination], and the
      lemmas [start_overflow], [separator_in_command],
      [stale_errno_drops_chunk], [unopened_drops_chunk],
      [large_output_skipped], [end_race_loses], [read_race_loses],
      [conf_no_crash], [description_race], [op_list_quote_breaks], [value_quote_breaks],
      [opc_args_quote_splits],
      [kill_all_undefined], [groups_not_reset], [timer_elapsed_spec] and
      others) characterise when they happen.

    ** Fuel

    Loops that are not structural take fuel, which a theorem shows to be
    enough: [mass_replace] needs one round more than the source has
    characters ([mass_replace_correct]); [str_proc] four times the length of
    the text, since a tab becomes four spaces ([str_proc_equivalence]); the
    tokenizer, the reading of lines and the scan of the session file one
    round more than there are characters, since each round consumes one
    ([tokenizer_termination], [session_refresh]); [mkdir_p] one more than the
    path is long.  The loop over the services alone takes its fuel from
    outside, because it need not end ([service_index_termination]).

    ** Not modelled

    The macros of [debug.h] only log.  Sleeping, [umask], file modes, socket
    set-up and the [fork] that makes a daemon have no counterpart; memory
    allocation succeeds, but for the null pointers of libcurl.  In
    [Delivery] an answer of the daemon and a read of the client each look at
    the files twice, and other steps may come between; each look is atomic,
    the files open and can be written, and the delivery is that of one
    command to one client.  In [SessionLock] the scan of the session file is
    one step, the temporary file being complete only when it is closed; what
    other programs do, the one that records logins
    ([lib/Vyatta/WebGUI2/SessionKey.pm]) among them, is any change of the
    files at any time, and the theorem that requests are serial is about the
    runs in which they change nothing while a request holds the lock.  In
    [Scripts] a script reads the files and changes none.  In
    [ServerDelivery] authentication and the read of a GET happen at one
    moment, and the server does not debug.  Bytes from 128 on count as
    text in [Json].  The Perl libraries and scripts, the command templates, the
    YANG model and the packaging are outside the programs. *)

From stdpp Require Export prelude gmap strings.
From Stdlib Require Export Ascii.

(** ** Results of C++ code that may not return normally

    [Fault OutOfRange] is an uncaught [std::out_of_range] (the process
    aborts); [Fault BufferOverflow] and [Fault BadIterator] are undefined
    behaviour of a [sprintf] into a fixed array and of an increment of an
    erased iterator; [Fault NullString] is a [std::string] made from a null
    pointer; [Fault OutOfFuel] is a loop the fuel of its definition
    does not cover. *)

Inductive fault :=
| OutOfRange
| BufferOverflow
| BadIterator
| NullString
| OutOfFuel.

Inductive res (A : Type) :=
| Ok (a : A)
| Fault (f : fault).
Arguments Ok {A} a.
Arguments Fault {A} f.

#[export] Instance fault_eq_dec : EqDecision fault.
Proof. solve_decision. Defined.

#[export] Instance res_eq_dec {A} `{EqDecision A} : EqDecision (res A).
Proof. solve_decision. Defined.

Definition res_bind {A B} (m : res A) (f : A -> res B) : res B :=
  match m with
  | Ok a => f a
  | Fault e => Fault e
  end.

Declare Scope rest_scope.
Delimit Scope rest_scope with rest.

Notation "'let*' x := m 'in' k" := (res_bind m (fun x => k))
  (at level 10, x name, m at level 100, k at level 200) : rest_scope.
Notation "'let*' ' p := m 'in' k" := (res_bind m (fun x => match x with p => k end))
  (at level 10, p strict pattern, m at level 100, k at level 200) : rest_scope.
Open Scope rest_scope.

Lemma res_bind_ok {A B} (m : res A) (f : A -> res B) b :
  res_bind m f = Ok b -> exists a, m = Ok a /\ f a = Ok b.
Proof. destruct m; naive_solver. Qed.

Definition is_ok {A} (m : res A) : Prop := exists a, m = Ok a.

(** The computation returns, and its result satisfies [P]. *)
Definition yields {A} (m : res A) (P : A -> Prop) : Prop := exists a, m = Ok a /\ P a.

Lemma yields_ok {A} (a : A) P : P a -> yields (Ok a) P.
Proof. intros Ha. by exists a. Qed.

Lemma yields_bind {A B} (m : res A) (f : A -> res B) P Q :
  yields m P -> (forall a, P a -> yields (f a) Q) -> yields (res_bind m f) Q.
Proof. intros (a & -> & Ha) Hf. by apply Hf. Qed.

Lemma yields_mono {A} (m : res A) (P Q : A -> Prop) : yields m P -> (forall a, P a -> Q a) -> yields m Q.
Proof. intros (a & -> & Ha) HPQ. apply yields_ok. auto. Qed.

Lemma yields_inv {A} (m : res A) (P : A -> Prop) a : yields m P -> m = Ok a -> P a.
Proof. intros (b & -> & Hb) [= ->]. exact Hb. Qed.

(** ** Tactics *)

(** Opens every [let*] whose result is known to be [Ok]. *)
Ltac inv_bind :=
  repeat match goal with
  | H : res_bind _ _ = Ok _ |- _ =>
      let a := fresh "a" in let Ha := fresh "Ha" in
      apply res_bind_ok in H as (a & Ha & H)
  | H : Ok _ = Ok _ |- _ => injection H as H; subst
  | H : Fault _ = Ok _ |- _ => discriminate H
  end.

Create HintDb rest discriminated.
Create Rewrite HintDb rest.

(** Decides that a character does not occur in appended pieces. *)
Ltac notin :=
  repeat first [rewrite not_elem_of_app | rewrite not_elem_of_cons];
  repeat split; try done; try apply not_elem_of_nil.

Lemma elem_of_drop {A} (x : A) n l : x ∈ drop n l -> x ∈ l.
Proof. intros H. rewrite <- (take_drop n l). apply elem_of_app. by right. Qed.

Lemma elem_of_take {A} (x : A) n l : x ∈ take n l -> x ∈ l.
Proof. intros H. rewrite <- (take_drop n l). apply elem_of_app. by left. Qed.

(** Proves a closed decidable proposition by evaluation. *)
Ltac by_compute := refine (bool_decide_unpack _ _); vm_compute; exact I.
