(* ===== verification/CppString.v ===== *)
(** * C and C++ strings and numbers

    The parts of [std::string], [<cstdlib>] and [printf] that the sources
    use, on lists of characters.  Positions are [nat] and [npos] is [None];
    where a source lets [npos] flow into arithmetic the wrap-around is
    written out at that place. *)

From S2P Require Import Prelude.

Abbreviation str := (list ascii).

Definition lit (s : string) : str := String.list_ascii_of_string s.
Arguments lit s%_stdpp : simpl never.

(** A double quote: a literal cannot hold one. *)
Definition dquote : ascii := ascii_of_nat 34.
Definition quote : ascii := ascii_of_nat 39.
Definition backslash : ascii := ascii_of_nat 92.
Definition nl : ascii := ascii_of_nat 10.
Definition cr : ascii := ascii_of_nat 13.
Definition tab : ascii := ascii_of_nat 9.
Definition space : ascii := ascii_of_nat 32.
Definition slash : ascii := ascii_of_nat 47.
Definition semi : ascii := ascii_of_nat 59.
Definition colon : ascii := ascii_of_nat 58.
Definition comma : ascii := ascii_of_nat 44.
Definition tilde : ascii := ascii_of_nat 126.
Definition nul : ascii := ascii_of_nat 0.

(** ** [std::string] *)

Fixpoint is_prefix (p s : str) : bool :=
  match p, s with
  | [], _ => true
  | _ :: _, [] => false
  | a :: p', b :: s' => bool_decide (a = b) && is_prefix p' s'
  end.

(** Index of the first occurrence of [p] in [s]. *)
Fixpoint find0 (s p : str) : option nat :=
  if is_prefix p s then Some 0
  else match s with
       | [] => None
       | _ :: s' => S <$> find0 s' p
       end.

(** [s.find(p, pos)] *)
Definition find (s p : str) (pos : nat) : option nat :=
  if decide (pos <= length s) then Nat.add pos <$> find0 (drop pos s) p else None.

(** [s.rfind(p)] *)
Fixpoint rfind (s p : str) : option nat :=
  match s with
  | [] => if is_prefix p [] then Some 0 else None
  | _ :: s' =>
      match rfind s' p with
      | Some i => Some (S i)
      | None => if is_prefix p s then Some 0 else None
      end
  end.

(** [s.find(p) != npos] *)
Definition contains (s p : str) : bool := bool_decide (is_Some (find0 s p)).

(** [s.find(p) == 0] *)
Definition starts_with (s p : str) : bool := is_prefix p s.

(** [s.substr(pos, n)], for a [pos] that is at most [s.size()]. *)
Definition sub (s : str) (pos n : nat) : str := take n (drop pos s).

(** [s.substr(pos, n)] with its exception. *)
Definition substr (s : str) (pos n : nat) : res str :=
  if decide (pos <= length s) then Ok (sub s pos n) else Fault OutOfRange.

(** [s.substr(pos)] with its exception. *)
Definition substr_from (s : str) (pos : nat) : res str :=
  if decide (pos <= length s) then Ok (drop pos s) else Fault OutOfRange.

(** [s.replace(pos, n, r)], for a [pos] that is at most [s.size()]. *)
Definition replace (s : str) (pos n : nat) (r : str) : str :=
  take pos s ++ r ++ drop (pos + n) s.

(** [s.find_first_not_of(set)], [s.find_first_of(set)], [s.find_last_not_of(set)] *)
Fixpoint find_first_not_of (s set : str) : option nat :=
  match s with
  | [] => None
  | c :: s' => if decide (c ∈ set) then S <$> find_first_not_of s' set else Some 0
  end.

Fixpoint find_first_of (s set : str) : option nat :=
  match s with
  | [] => None
  | c :: s' => if decide (c ∈ set) then Some 0 else S <$> find_first_of s' set
  end.

Fixpoint find_last_not_of (s set : str) : option nat :=
  match s with
  | [] => None
  | c :: s' =>
      match find_last_not_of s' set with
      | Some i => Some (S i)
      | None => if decide (c ∈ set) then None else Some 0
      end
  end.

(** [s[i]]: reading one past the end yields the terminator. *)
Definition char_at (s : str) (i : nat) : ascii := default nul (s !! i).

(** [string(p)] of a C array: the characters before the first NUL. *)
Fixpoint cstr (s : str) : str :=
  match s with
  | [] => []
  | c :: s' => if decide (c = nul) then [] else c :: cstr s'
  end.

(** [std::string::compare] as a strict order (unsigned bytes). *)
Fixpoint str_compare (s t : str) : comparison :=
  match s, t with
  | [], [] => Eq
  | [], _ :: _ => Lt
  | _ :: _, [] => Gt
  | a :: s', b :: t' =>
      match N.compare (N_of_ascii a) (N_of_ascii b) with
      | Eq => str_compare s' t'
      | c => c
      end
  end.

(** [tolower] of the C locale and [strncasecmp(a, b, n) == 0]. *)
Definition to_lower (c : ascii) : ascii :=
  let n := N_of_ascii c in
  if decide (65 <= n <= 90)%N then ascii_of_N (n + 32) else c.

Definition strncaseeq (n : nat) (a b : str) : bool :=
  bool_decide (to_lower <$> take n (cstr a) = to_lower <$> take n (cstr b)).

(** [strncmp(a, b, n) == 0] *)
Definition strneq (n : nat) (a b : str) : bool :=
  bool_decide (take n (cstr a) = take n (cstr b)).

(** ** Numbers *)

Definition u64 : N := 2 ^ 64.
Definition u32 : N := 2 ^ 32.

Definition digit_char (d : N) : ascii :=
  ascii_of_N (if decide (d < 10)%N then 48 + d else 55 + d)%N.

Definition char_digit (c : ascii) : option N :=
  let n := N_of_ascii c in
  if decide (48 <= n <= 57)%N then Some (n - 48)%N
  else if decide (65 <= n <= 90)%N then Some (n - 55)%N
  else if decide (97 <= n <= 122)%N then Some (n - 87)%N
  else None.

(** The digits of [n] in base [b], most significant first, before [acc]. *)
Fixpoint digits (fuel : nat) (b n : N) (acc : list N) : list N :=
  match fuel with
  | O => acc
  | S f => if decide (n < b)%N then n :: acc else digits f b (n / b) (n mod b :: acc)%N
  end.

Definition base_digits (b n : N) : list N := digits (S (N.to_nat (N.size n))) b n [].

(** [%lu], and [%ld] of an [unsigned long]. *)
Definition dec (n : N) : str := digit_char <$> base_digits 10 n.
Definition dec_signed (n : N) : str :=
  if decide (n < 2 ^ 63)%N then dec n else lit "-" ++ dec (u64 - n).

(** [%.8lX] *)
Definition hex8 (n : N) : str :=
  let d := base_digits 16 n in
  digit_char <$> replicate (8 - length d) 0%N ++ d.

(** The longest prefix of digits below [b], as their values. *)
Fixpoint take_digits (b : N) (s : str) : list N :=
  match s with
  | [] => []
  | c :: s' =>
      match char_digit c with
      | Some d => if decide (d < b)%N then d :: take_digits b s' else []
      | None => []
      end
  end.

Definition digits_value (b : N) (l : list N) : N :=
  foldl (fun acc d => acc * b + d)%N 0%N l.

Definition is_space (c : ascii) : bool :=
  let n := N_of_ascii c in bool_decide (n = 32%N \/ (9 <= n <= 13)%N).

Fixpoint skip_space (s : str) : str :=
  match s with
  | c :: s' => if is_space c then skip_space s' else s
  | [] => []
  end.

(** The value saturates at [ULONG_MAX]; a minus sign negates modulo 2^64. *)
Definition saturate (n : N) : N := if decide (n < u64)%N then n else (u64 - 1)%N.

(** The optional sign that [strtoul] and [strtol] read. *)
Definition split_sign (s : str) : bool * str :=
  match s with
  | c :: s' =>
      if decide (c = ascii_of_nat 45) then (true, s')
      else if decide (c = ascii_of_nat 43) then (false, s')
      else (false, s)
  | [] => (false, [])
  end.

(** [strtoul(s, NULL, 10)] *)
Definition strtoul (s : str) : N :=
  let '(neg, s') := split_sign (skip_space (cstr s)) in
  let n := digits_value 10 (take_digits 10 s') in
  if decide (n < u64)%N then (if neg then (u64 - n) mod u64 else n)%N else (u64 - 1)%N.

(** [strtol(s, NULL, 10)] on 64 bits. *)
Definition strtol (s : str) : Z :=
  let '(neg, s') := split_sign (skip_space (cstr s)) in
  let n := Z.of_N (digits_value 10 (take_digits 10 s')) in
  let z := if neg then Z.opp n else n in
  (Z.max (- 2 ^ 63) (Z.min (2 ^ 63 - 1) z))%Z.

(** [strtoull("0x" + s, NULL, 0)]: with no hexadecimal digit after the
    prefix only the leading zero is read. *)
Definition strtoull_0x (s : str) : N :=
  saturate (digits_value 16 (take_digits 16 (cstr s))).

(** [sprintf] into an array of [n] characters. *)
Definition sprintf_into (n : nat) (s : str) : res str :=
  if decide (length s < n) then Ok s else Fault BufferOverflow.

(** ** Lemmas on searches *)

Lemma is_prefix_spec p s : is_prefix p s = true <-> p `prefix_of` s.
Proof.
  revert s; induction p as [|a p IH]; intros [|b s]; simpl.
  - naive_solver apply prefix_nil.
  - naive_solver apply prefix_nil.
  - split; [done|]. intros H%prefix_nil_inv. done.
  - rewrite andb_true_iff, bool_decide_eq_true, IH. split.
    + intros [-> ?]. by apply prefix_cons.
    + intros H. split; [by eapply prefix_cons_inv_1 | by eapply prefix_cons_inv_2].
Qed.

Lemma is_prefix_app p s : is_prefix p (p ++ s) = true.
Proof. apply is_prefix_spec, prefix_app_r, reflexivity. Qed.

Lemma is_prefix_notin c p s : c ∉ s -> is_prefix (c :: p) s = false.
Proof.
  intros Hc. destruct s as [|b s]; [done|]. simpl.
  rewrite bool_decide_eq_false_2; [done|]. set_solver.
Qed.

Lemma find0_nil_pat s : find0 s [] = Some 0.
Proof. by destruct s. Qed.

Lemma find0_Some s p i :
  find0 s p = Some i ->
  i <= length s /\ p `prefix_of` drop i s /\ (forall j, j < i -> is_prefix p (drop j s) = false).
Proof.
  revert i; induction s as [|c s IH]; intros i; simpl.
  - destruct (is_prefix p []) eqn:E; [|done]. intros [= <-].
    apply is_prefix_spec in E. repeat split; [lia | done | lia].
  - destruct (is_prefix p (c :: s)) eqn:E.
    + intros [= <-]. apply is_prefix_spec in E. repeat split; [lia | done | lia].
    + intros (i' & Hi' & ->)%fmap_Some. destruct (IH _ Hi') as (Hl & Hp & Hmin).
      repeat split; [simpl; lia | done |].
      intros [|j] Hj; [done | apply Hmin; lia].
Qed.

Lemma find0_None s p : find0 s p = None -> forall j, is_prefix p (drop j s) = false.
Proof.
  induction s as [|c s IH]; simpl.
  - destruct (is_prefix p []) eqn:E; [done|]. intros _ j. by rewrite drop_nil.
  - destruct (is_prefix p (c :: s)) eqn:E; [done|].
    intros H%fmap_None. intros [|j]; [done | by apply IH].
Qed.

(** An occurrence after text that lacks the first character of the pattern. *)
Lemma find0_app c p a b :
  c ∉ a -> find0 (a ++ c :: p ++ b) (c :: p) = Some (length a).
Proof.
  induction a as [|x a IH]; intros Hc; cbn [app find0].
  - pose proof (is_prefix_app (c :: p) b) as Hp. cbn [app] in Hp. by rewrite Hp.
  - apply not_elem_of_cons in Hc as [Hx Ha].
    cbn [is_prefix]. rewrite bool_decide_eq_false_2 by done. cbn.
    by rewrite (IH Ha).
Qed.

(** Text that lacks the first character of the pattern is skipped. *)
Lemma find0_skip c p a s :
  c ∉ a -> find0 (a ++ s) (c :: p) = Nat.add (length a) <$> find0 s (c :: p).
Proof.
  induction a as [|x a IH]; intros Hc.
  - cbn [app length]. destruct (find0 s (c :: p)); reflexivity.
  - apply not_elem_of_cons in Hc as [Hx Ha]. cbn [app find0 is_prefix].
    rewrite bool_decide_eq_false_2 by done. cbn [andb]. rewrite IH by done.
    destruct (find0 s (c :: p)); reflexivity.
Qed.

(** A text cut at every occurrence of the first character [c] of a pattern:
    [bs] are the pieces, each of which followed a [c].  The pattern occurs
    first at the first piece it is a prefix of. *)
Fixpoint chunk_pos (p : str) (bs : list str) : option nat :=
  match bs with
  | [] => None
  | b :: bs' => if is_prefix p b then Some 0 else Nat.add (S (length b)) <$> chunk_pos p bs'
  end.

Definition chunks (c : ascii) (bs : list str) : str := bs ≫= cons c.

Lemma is_prefix_chunks c p b bs :
  c ∉ p -> is_prefix p (b ++ chunks c bs) = is_prefix p b.
Proof.
  revert b; induction p as [|x p IH]; intros b Hp; [done|].
  apply not_elem_of_cons in Hp as [Hx Hp]. destruct b as [|y b].
  - destruct bs as [|d bs]; [done|]. cbn.
    by rewrite bool_decide_eq_false_2 by done.
  - cbn [app is_prefix]. by rewrite IH.
Qed.

Lemma find0_chunks c p bs :
  c ∉ p -> Forall (fun b => c ∉ b) bs -> find0 (chunks c bs) (c :: p) = chunk_pos p bs.
Proof.
  intros Hp. induction 1 as [|b bs Hb Hbs IH]; [done|].
  unfold chunks. rewrite bind_cons. cbn [app find0 is_prefix chunk_pos].
  rewrite bool_decide_eq_true_2 by done. cbn [andb]. fold (chunks c bs).
  rewrite is_prefix_chunks by done. destruct (is_prefix p b); [done|].
  rewrite find0_skip, IH by done. by destruct (chunk_pos p bs).
Qed.

Lemma chunk_pos_app p bs1 b bs2 :
  Forall (fun b => is_prefix p b = false) bs1 -> is_prefix p b = true ->
  forall c, chunk_pos p (bs1 ++ b :: bs2) = Some (length (chunks c bs1)).
Proof.
  intros H1 H2 c. induction H1 as [|d bs1 Hd _ IH]; cbn [app chunk_pos]; [by rewrite H2|].
  rewrite Hd, IH. unfold chunks. rewrite bind_cons, length_app. done.
Qed.

Lemma contains_chunks c p bs :
  c ∉ p -> Forall (fun b => c ∉ b) bs -> contains (chunks c bs) (c :: p) = existsb (is_prefix p) bs.
Proof.
  intros Hp Hb. unfold contains. rewrite find0_chunks by done. clear.
  induction bs as [|b bs IH]; [done|]. cbn [chunk_pos existsb].
  destruct (is_prefix p b); [done|]. rewrite <- IH. cbn [orb].
  apply bool_decide_ext. by rewrite fmap_is_Some.
Qed.

Lemma find0_notin c p s : c ∉ s -> find0 s (c :: p) = None.
Proof.
  induction s as [|x s IH]; intros Hc; [done|].
  apply not_elem_of_cons in Hc as [Hx Hs]. cbn [find0 is_prefix].
  rewrite bool_decide_eq_false_2 by done. cbn. by rewrite (IH Hs).
Qed.

Lemma find0_char_split s c i :
  find0 s [c] = Some i -> s = take i s ++ c :: drop (S i) s /\ (c ∉ take i s) /\ i < length s.
Proof.
  revert i; induction s as [|x s IH]; intros i; cbn [find0 is_prefix]; [done|].
  rewrite andb_true_r. case_bool_decide as E; [subst x|].
  - intros [= <-]. repeat split; [set_solver | simpl; lia].
  - intros (i' & Hi' & ->)%fmap_Some. destruct (IH _ Hi') as (Hs & Hn & Hl).
    simpl. repeat split; [by f_equal | by apply not_elem_of_cons | lia].
Qed.

Lemma find0_char_None s c : find0 s [c] = None <-> c ∉ s.
Proof.
  split; [|apply find0_notin].
  induction s as [|x s IH]; cbn [find0 is_prefix]; [set_solver|].
  rewrite andb_true_r. case_bool_decide as E; [done|].
  intros H%fmap_None. apply not_elem_of_cons. auto.
Qed.

Lemma find_0 s p : find s p 0 = find0 s p.
Proof.
  unfold find. rewrite decide_True by lia. rewrite drop_0.
  destruct (find0 s p); done.
Qed.

Lemma find_app_r a s p : find (a ++ s) p (length a) = Nat.add (length a) <$> find0 s p.
Proof.
  unfold find. rewrite decide_True by (rewrite length_app; lia).
  by rewrite drop_app_length.
Qed.

Lemma find_Some_le s p pos i :
  find s p pos = Some i -> pos <= i /\ i + length p <= length s.
Proof.
  unfold find. case_decide as Hp; [|done].
  intros (j & Hj & ->)%fmap_Some. apply find0_Some in Hj as (Hl & Hpre & _).
  rewrite length_drop in Hl. apply prefix_length in Hpre.
  rewrite !length_drop in Hpre. lia.
Qed.

(** ** C strings *)

Lemma cstr_id s : nul ∉ s -> cstr s = s.
Proof.
  induction s as [|c s IH]; intros H; [done|]. simpl.
  rewrite decide_False by set_solver. f_equal. apply IH. set_solver.
Qed.

Lemma cstr_app s t : nul ∉ s -> cstr (s ++ nul :: t) = s.
Proof.
  induction s as [|c s IH]; intros H; [done|]. simpl.
  rewrite decide_False by set_solver. f_equal. apply IH. set_solver.
Qed.

Lemma cstr_notin s : nul ∉ cstr s.
Proof. induction s as [|c s IH]; simpl; [set_solver|]. case_decide; [set_solver|]. by apply not_elem_of_cons. Qed.

Lemma cstr_prefix s : cstr s `prefix_of` s.
Proof.
  induction s as [|c s IH]; simpl; [done|].
  case_decide; [apply prefix_nil | by apply prefix_cons].
Qed.

Lemma cstr_cstr s : cstr (cstr s) = cstr s.
Proof. apply cstr_id, cstr_notin. Qed.

(** ** Printing and reading numbers *)

Lemma digits_value_from b l n :
  foldl (fun acc d => acc * b + d)%N n l = (n * b ^ N.of_nat (length l) + digits_value b l)%N.
Proof.
  unfold digits_value. revert n; induction l as [|d l IH]; intros n; cbn [foldl length].
  - rewrite N.pow_0_r. lia.
  - rewrite (IH (n * b + d)%N), (IH (0 * b + d)%N), Nat2N.inj_succ, N.pow_succ_r'. lia.
Qed.

Lemma digits_value_app b l1 l2 :
  digits_value b (l1 ++ l2) =
  (digits_value b l1 * b ^ N.of_nat (length l2) + digits_value b l2)%N.
Proof. unfold digits_value at 1. rewrite foldl_app. apply digits_value_from. Qed.

Lemma digits_value_zeros b k l : digits_value b (replicate k 0%N ++ l) = digits_value b l.
Proof.
  rewrite digits_value_app. assert (digits_value b (replicate k 0%N) = 0)%N as ->; [|lia].
  unfold digits_value. induction k; simpl; [done|]. by rewrite N.add_0_r.
Qed.

Lemma digits_spec b f n acc :
  (2 <= b)%N -> (n < 2 ^ N.of_nat f)%N ->
  exists d, digits (S f) b n acc = d ++ acc /\ digits_value b d = n /\
    Forall (fun x => x < b)%N d /\ d <> [] /\
    (forall k, (n < b ^ N.of_nat (S k))%N -> length d <= S k).
Proof.
  intros Hb. revert n acc; induction f as [|f IH]; intros n acc Hn; cbn [digits].
  - exists [n]. assert (n = 0)%N as -> by (change (2 ^ N.of_nat 0)%N with 1%N in Hn; lia).
    rewrite decide_True by lia. repeat split; [repeat constructor; lia | done | simpl; lia].
  - case_decide as Hlt.
    { exists [n]. repeat split; [repeat constructor; lia | done | simpl; lia]. }
    rewrite Nat2N.inj_succ, N.pow_succ_r' in Hn.
    assert (n / b < 2 ^ N.of_nat f)%N as Hdiv.
    { apply N.Div0.div_lt_upper_bound; nia. }
    destruct (IH (n / b)%N (n mod b :: acc)%N Hdiv) as (d & Hd & Hv & Hall & Hne & Hlen).
    exists (d ++ [n mod b])%N. cbn [digits] in Hd. rewrite Hd, <- app_assoc.
    repeat split.
    + rewrite digits_value_app, Hv. unfold digits_value. simpl.
      rewrite N.pow_1_r. pose proof (N.Div0.div_mod n b). lia.
    + apply Forall_app. split; [done|]. repeat constructor. apply N.mod_lt. lia.
    + by destruct d.
    + intros k Hk. rewrite length_app. simpl.
      destruct k as [|k]; [rewrite N.pow_1_r in Hk; lia|].
      enough (length d <= S k) by lia. apply Hlen.
      apply N.Div0.div_lt_upper_bound.
      rewrite (Nat2N.inj_succ (S k)), N.pow_succ_r' in Hk. done.
Qed.

Lemma base_digits_spec b n :
  (2 <= b)%N ->
  digits_value b (base_digits b n) = n /\ Forall (fun x => x < b)%N (base_digits b n) /\
  base_digits b n <> [] /\
  (forall k, (n < b ^ N.of_nat (S k))%N -> length (base_digits b n) <= S k).
Proof.
  intros Hb. unfold base_digits.
  destruct (digits_spec b (N.to_nat (N.size n)) n [] Hb) as (d & -> & Hd); [|by rewrite app_nil_r].
  rewrite N2Nat.id. apply N.size_gt.
Qed.

Lemma N_of_digit_char d :
  (d < 36)%N -> N_of_ascii (digit_char d) = (if decide (d < 10)%N then 48 + d else 55 + d)%N.
Proof. intros Hd. unfold digit_char. apply N_ascii_embedding. case_decide; lia. Qed.

Lemma char_digit_char d : (d < 36)%N -> char_digit (digit_char d) = Some d.
Proof.
  intros Hd. unfold char_digit. rewrite (N_of_digit_char d Hd).
  repeat case_decide; try lia; f_equal; lia.
Qed.

Lemma digit_char_ne d c :
  (d < 36)%N -> char_digit c = None -> digit_char d <> c.
Proof. intros Hd Hc <-. by rewrite char_digit_char in Hc. Qed.

Lemma digits_notin c l :
  char_digit c = None -> Forall (fun x => x < 36)%N l -> c ∉ digit_char <$> l.
Proof.
  intros Hc Hl Hin. apply list_elem_of_fmap in Hin as (d & Hd & Hin).
  rewrite Forall_forall in Hl. symmetry in Hd.
  by apply (digit_char_ne d c (Hl d Hin) Hc).
Qed.

Lemma take_digits_app b l s :
  (b <= 36)%N -> Forall (fun x => x < b)%N l -> take_digits b s = [] ->
  take_digits b ((digit_char <$> l) ++ s) = l.
Proof.
  intros Hb Hl Hs. induction Hl as [|d l Hd Hl IH]; [done|]. cbn.
  rewrite char_digit_char, decide_True by lia. by f_equal.
Qed.

Lemma take_digits_all b l :
  (b <= 36)%N -> Forall (fun x => x < b)%N l -> take_digits b (digit_char <$> l) = l.
Proof.
  intros Hb Hl. rewrite <- (app_nil_r (digit_char <$> l)). by apply take_digits_app.
Qed.

Lemma Forall_lt_mono (a b : N) l :
  (a <= b)%N -> Forall (fun x => x < a)%N l -> Forall (fun x => x < b)%N l.
Proof. intros Hab Hl. eapply Forall_impl; [done|]. simpl. intros; lia. Qed.

(** The decimal form of a number holds digits only. *)
Lemma dec_notin n c : char_digit c = None -> c ∉ dec n.
Proof.
  intros Hc. apply digits_notin; [done|].
  apply (Forall_lt_mono 10 36); [lia|]. by apply (base_digits_spec 10 n).
Qed.

(** A number of [k] digits is below [b ^ k]. *)
Lemma digits_value_lt b l :
  Forall (fun x => x < b)%N l -> (digits_value b l < b ^ N.of_nat (length l))%N.
Proof.
  induction l as [|d l IH] using rev_ind; [done|].
  intros [Hl [Hd _]%Forall_cons]%Forall_app. specialize (IH Hl). rewrite digits_value_app, length_app.
  change (digits_value b [d]) with (0 * b + d)%N.
  replace (b ^ N.of_nat (length [d]))%N with b by (symmetry; apply N.pow_1_r).
  replace (N.of_nat (length l + length [d])) with (N.succ (N.of_nat (length l))) by (cbn [length]; lia).
  rewrite N.pow_succ_r'.
  nia.
Qed.

(** The length of the decimal form. *)
Lemma length_dec_le n k : (n < 10 ^ N.of_nat (S k))%N -> length (dec n) <= S k.
Proof.
  intros Hn. unfold dec. rewrite length_fmap. destruct (base_digits_spec 10 n) as (_ & _ & _ & H); [lia|].
  by apply H.
Qed.

Lemma length_dec_gt n k : (10 ^ N.of_nat k <= n)%N -> k < length (dec n).
Proof.
  intros Hn. unfold dec. rewrite length_fmap.
  destruct (base_digits_spec 10 n) as (Hv & Hall & _ & _); [lia|].
  apply digits_value_lt in Hall. rewrite Hv in Hall. destruct (decide (k < length (base_digits 10 n))); [done|].
  assert (10 ^ N.of_nat (length (base_digits 10 n)) <= 10 ^ N.of_nat k)%N by (apply N.pow_le_mono_r; lia). lia.
Qed.

Lemma dec_not_nil n : dec n <> [].
Proof.
  unfold dec. destruct (base_digits_spec 10 n) as (_ & _ & H & _); [lia|].
  by destruct (base_digits 10 n).
Qed.

Lemma dec_head n : exists d l, dec n = digit_char d :: l /\ (d < 10)%N.
Proof.
  unfold dec. destruct (base_digits_spec 10 n) as (_ & Hall & Hne & _); [lia|].
  destruct (base_digits 10 n) as [|d l]; [done|].
  exists d, (digit_char <$> l). split; [done|]. by inversion Hall.
Qed.

Lemma split_sign_digits d s :
  (d < 10)%N -> skip_space (digit_char d :: s) = digit_char d :: s /\
  split_sign (digit_char d :: s) = (false, digit_char d :: s).
Proof.
  intros Hd. pose proof (N_of_digit_char d ltac:(lia)) as Hn.
  rewrite decide_True in Hn by done. split.
  - cbn [skip_space]. unfold is_space. rewrite Hn, bool_decide_eq_false_2; [done | lia].
  - cbn [split_sign]. by rewrite !decide_False by (apply digit_char_ne; [lia | done]).
Qed.

Lemma strtoul_dec n : (n < u64)%N -> strtoul (dec n) = n.
Proof.
  intros Hn. unfold strtoul. rewrite cstr_id by (by apply dec_notin).
  destruct (dec_head n) as (d & l & Hd & Hlt).
  destruct (split_sign_digits d l Hlt) as [Hsk Hsp].
  rewrite Hd, Hsk, Hsp, <- Hd. unfold dec.
  destruct (base_digits_spec 10 n) as (Hv & Hall & _); [lia|].
  rewrite take_digits_all by (done || lia). by rewrite Hv, decide_True.
Qed.

Lemma dec_inj n m : dec n = dec m -> n = m.
Proof.
  unfold dec. intros H. apply (f_equal (take_digits 10)) in H.
  destruct (base_digits_spec 10 n) as (Hn & Hn' & _); [lia|].
  destruct (base_digits_spec 10 m) as (Hm & Hm' & _); [lia|].
  rewrite !take_digits_all in H by (done || lia). congruence.
Qed.

(** *** Eight hexadecimal digits *)

Definition hex8_digits (n : N) : list N :=
  let d := base_digits 16 n in replicate (8 - length d) 0%N ++ d.

Lemma hex8_digits_spec n :
  (n < u32)%N ->
  length (hex8_digits n) = 8 /\ digits_value 16 (hex8_digits n) = n /\
  Forall (fun x => x < 16)%N (hex8_digits n).
Proof.
  intros Hn. destruct (base_digits_spec 16 n) as (Hv & Hall & _ & Hlen); [lia|].
  unfold hex8_digits. repeat split.
  - rewrite length_app, length_replicate.
    enough (length (base_digits 16 n) <= 8) by lia. by apply (Hlen 7).
  - by rewrite digits_value_zeros.
  - apply Forall_app. split; [|done]. apply Forall_replicate. lia.
Qed.

Lemma hex8_length n : (n < u32)%N -> length (hex8 n) = 8.
Proof. intros Hn. unfold hex8. rewrite length_fmap. by apply hex8_digits_spec. Qed.

Lemma hex8_pair a b :
  hex8 a ++ hex8 b = digit_char <$> hex8_digits a ++ hex8_digits b.
Proof. by rewrite fmap_app. Qed.

Lemma strtoull_hex8 a b :
  (a < u32)%N -> (b < u32)%N -> strtoull_0x (hex8 a ++ hex8 b) = (a * u32 + b)%N.
Proof.
  intros Ha Hb. destruct (hex8_digits_spec a Ha) as (La & Va & Fa).
  destruct (hex8_digits_spec b Hb) as (Lb & Vb & Fb).
  rewrite hex8_pair. unfold strtoull_0x. rewrite cstr_id.
  - rewrite take_digits_all by (by apply Forall_app || lia).
    rewrite digits_value_app, Va, Vb, Lb. unfold saturate.
    rewrite decide_True; [done|]. change (16 ^ N.of_nat 8)%N with u32.
    change u64 with (u32 * u32)%N. nia.
  - apply digits_notin; [done|]. apply Forall_app.
    split; by apply (Forall_lt_mono 16 36).
Qed.

(** ** Replacing every occurrence: a reference definition

    One pass from left to right over [s]; [k] characters of a replaced
    occurrence are still to be skipped. *)

Fixpoint repl (v r : str) (k : nat) (s : str) : str :=
  match s with
  | [] => []
  | c :: s' =>
      match k with
      | S k' => repl v r k' s'
      | O => if is_prefix v s then r ++ repl v r (length v - 1) s' else c :: repl v r 0 s'
      end
  end.

Definition replace_all (v r s : str) : str := repl v r 0 s.

Lemma repl_skip v r k s : repl v r k s = replace_all v r (drop k s).
Proof.
  unfold replace_all. revert k; induction s as [|c s IH]; intros [|k]; try done. simpl. apply IH.
Qed.

Lemma replace_all_None v r s : find0 s v = None -> replace_all v r s = s.
Proof.
  unfold replace_all. induction s as [|c s IH]; [done|]. cbn [find0 repl].
  destruct (is_prefix v (c :: s)) eqn:E; [done|].
  intros H%fmap_None. f_equal. by apply IH.
Qed.

Lemma replace_all_Some v r s i :
  v <> [] -> find0 s v = Some i ->
  replace_all v r s = take i s ++ r ++ replace_all v r (drop (i + length v) s).
Proof.
  intros Hv. unfold replace_all. revert i; induction s as [|c s IH]; intros i; cbn [find0 repl].
  - by destruct v.
  - destruct (is_prefix v (c :: s)) eqn:E.
    + intros [= <-]. rewrite repl_skip. by destruct v as [|a v]; simpl; rewrite ?Nat.sub_0_r.
    + intros (j & Hj & ->)%fmap_Some. simpl. f_equal. by apply IH.
Qed.

(** A one-character victim is substituted character by character. *)
Definition subst_char (c : ascii) (r : str) (x : ascii) : str :=
  if decide (x = c) then r else [x].

Lemma replace_all_char c r s : replace_all [c] r s = s ≫= subst_char c r.
Proof.
  unfold replace_all. induction s as [|x s IH]; [done|].
  cbn [repl is_prefix mbind list_bind]. rewrite andb_true_r. unfold subst_char at 1.
  case_bool_decide as E; case_decide; try congruence; simpl; by rewrite IH.
Qed.

Lemma replace_all_app c p r a b :
  c ∉ a -> replace_all (c :: p) r (a ++ c :: p ++ b) = a ++ r ++ replace_all (c :: p) r b.
Proof.
  intros Hc. rewrite (replace_all_Some _ _ _ (length a)) by (done || by apply find0_app).
  rewrite take_app_length, drop_app_add. change (c :: p ++ b) with ((c :: p) ++ b).
  by rewrite drop_app_length.
Qed.

(** A pattern behind pieces that all start differently. *)
Lemma replace_all_after_chunks c p r a bs rest :
  c ∉ a -> Forall (fun b => (c ∉ b) /\ forall t, is_prefix p (b ++ t) = false) bs ->
  replace_all (c :: p) r ((a ++ chunks c bs) ++ (c :: p) ++ rest) =
  (a ++ chunks c bs) ++ r ++ replace_all (c :: p) r rest.
Proof.
  intros Ha Hbs.
  assert (find0 ((a ++ chunks c bs) ++ (c :: p) ++ rest) (c :: p) = Some (length (a ++ chunks c bs))) as Hf.
  { rewrite <- app_assoc, find0_skip, length_app by done. clear Ha.
    enough (find0 (chunks c bs ++ (c :: p) ++ rest) (c :: p) = Some (length (chunks c bs))) as -> by done.
    induction Hbs as [|b bs [Hb Hp] _ IH].
    - cbn [chunks mbind list_bind app find0]. change (c :: p ++ rest) with ((c :: p) ++ rest).
      by rewrite is_prefix_app.
    - unfold chunks. rewrite bind_cons. cbn [app find0 is_prefix].
      rewrite bool_decide_eq_true_2 by done. cbn [andb]. rewrite <- app_assoc, Hp.
      rewrite find0_skip by done. fold (chunks c bs). change (c :: p ++ rest) with ((c :: p) ++ rest).
      rewrite IH. cbn. by rewrite length_app. }
  rewrite (replace_all_Some (c :: p) r _ (length (a ++ chunks c bs))) by done.
  by rewrite take_app_length, drop_app_add, drop_app_length.
Qed.

Lemma replace_all_notin c p r s : c ∉ s -> replace_all (c :: p) r s = s.
Proof. intros. by apply replace_all_None, find0_notin. Qed.

(** Replacing inside the second part of an append. *)
Lemma replace_app pre s i n r :
  replace (pre ++ s) (length pre + i) n r = (pre ++ take i s ++ r) ++ drop (i + n) s.
Proof.
  unfold replace. rewrite take_app_add, <- Nat.add_assoc, drop_app_add.
  by rewrite <- !app_assoc.
Qed.

(** ** Last occurrence of a character *)

Lemma rfind_char_None s c : c ∉ s -> rfind s [c] = None.
Proof.
  induction s as [|x s IH]; intros Hc; [done|]. apply not_elem_of_cons in Hc as [Hx Hs].
  cbn [rfind is_prefix]. rewrite (IH Hs). by rewrite bool_decide_eq_false_2.
Qed.

Lemma rfind_char_app a c b : c ∉ b -> rfind (a ++ c :: b) [c] = Some (length a).
Proof.
  intros Hc. induction a as [|x a IH]; cbn [app rfind is_prefix].
  - rewrite (rfind_char_None _ _ Hc). by rewrite bool_decide_eq_true_2.
  - by rewrite IH.
Qed.

Lemma rfind_char_lt s c i : rfind s [c] = Some i -> i < length s.
Proof.
  revert i; induction s as [|x s IH]; intros i; [done|]. cbn [rfind length].
  destruct (rfind s [c]) as [j|]; [intros [= <-]; specialize (IH j eq_refl); lia|].
  case_match; [intros [= <-]; lia | done].
Qed.

Lemma find0_char_app c a b : c ∉ a -> find0 (a ++ c :: b) [c] = Some (length a).
Proof. apply (find0_app c []). Qed.

(** ** Splitting on a character *)

(** The pieces of [s] between occurrences of [c]. *)
Fixpoint split_on (c : ascii) (s : str) : list str :=
  match s with
  | [] => [[]]
  | x :: s' =>
      if decide (x = c) then [] :: split_on c s'
      else match split_on c s' with
           | h :: t => (x :: h) :: t
           | [] => [[x]]
           end
  end.

Lemma split_on_notin c f : c ∉ f -> split_on c f = [f].
Proof.
  induction f as [|x f IH]; intros Hc; [done|]. apply not_elem_of_cons in Hc as [Hx Hf].
  simpl. rewrite decide_False by done. by rewrite IH.
Qed.

Lemma split_on_app c f s : c ∉ f -> split_on c (f ++ c :: s) = f :: split_on c s.
Proof.
  induction f as [|x f IH]; intros Hc; simpl.
  - by rewrite decide_True.
  - apply not_elem_of_cons in Hc as [Hx Hf]. rewrite decide_False by done. by rewrite IH.
Qed.

Lemma split_on_pieces c s : Forall (fun f => c ∉ f) (split_on c s).
Proof.
  induction s as [|x s IH]; simpl; [repeat constructor; set_solver|].
  case_decide; [constructor; [set_solver | done]|].
  destruct (split_on c s) as [|h t].
  - repeat constructor. apply not_elem_of_cons. set_solver.
  - inversion IH; subst. constructor; [|done]. by apply not_elem_of_cons.
Qed.

Lemma elem_of_split_on c s f x : f ∈ split_on c s -> x ∈ f -> x ∈ s.
Proof.
  revert f; induction s as [|y s IH]; intros f; simpl.
  { intros ->%list_elem_of_singleton. done. }
  case_decide.
  - intros [-> | Hf]%elem_of_cons Hx; [by apply elem_of_nil in Hx|].
    apply elem_of_cons. right. by eapply IH.
  - destruct (split_on c s) as [|h t] eqn:E; intros [-> | Hf]%elem_of_cons Hx.
    + by apply list_elem_of_singleton in Hx as ->; apply elem_of_cons; left.
    + by apply elem_of_nil in Hf.
    + apply elem_of_cons in Hx as [-> | Hx]; apply elem_of_cons; [by left | right].
      apply (IH h); [apply elem_of_cons; by left | done].
    + apply elem_of_cons. right. apply (IH f); [by apply elem_of_cons; right | done].
Qed.

Lemma split_on_nonempty c s : split_on c s <> [].
Proof. destruct s as [|x s]; [done|]. simpl. case_decide; [done|]. by case_match. Qed.

Lemma split_on_segments c h segs :
  c ∉ h -> Forall (fun s => c ∉ s) segs -> split_on c (h ++ (segs ≫= cons c)) = h :: segs.
Proof.
  intros Hh Hs. revert h Hh; induction Hs as [|s segs Hs _ IH]; intros h Hh.
  - simpl. rewrite app_nil_r. by apply split_on_notin.
  - rewrite bind_cons. cbn [app]. rewrite split_on_app by done. f_equal. by apply IH.
Qed.

Lemma split_on_find c s i :
  find0 s [c] = Some i -> split_on c s = take i s :: split_on c (drop (S i) s).
Proof.
  intros (Hs & Hn & _)%find0_char_split. rewrite Hs at 1. by apply split_on_app.
Qed.

(** ** Joining with a separator *)

Fixpoint join (sep : str) (l : list str) : str :=
  match l with
  | [] => []
  | [f] => f
  | f :: l' => f ++ sep ++ join sep l'
  end.

(** Terminating every piece with a one-character separator and dropping the
    last character is joining. *)
Lemma join_terminated c a l :
  l <> [] ->
  take (length (a ++ (l ≫= (fun s => s ++ [c]))) - 1) (a ++ (l ≫= (fun s => s ++ [c]))) =
  a ++ join [c] l.
Proof.
  intros Hl. revert a; induction l as [|s l IH]; intros a; [done|].
  rewrite bind_cons. destruct l as [|t l].
  - simpl. rewrite app_nil_r, !app_assoc, length_app. simpl.
    by rewrite Nat.add_sub, take_app_length.
  - rewrite !app_assoc, (IH ltac:(done) ((a ++ s) ++ [c])). by rewrite <- !app_assoc.
Qed.
