(* ===== verification/StrProc.v ===== *)
(** * [StrProc] (rl_str_proc.cc): splitting a string on a token

    The constructor's four loops, each with fuel, the three [get]
    accessors, and the reference definition the constructor is shown to
    compute. *)

From S2P Require Import Prelude CppString.

(** ** The constructor *)

Definition tabtospace : str := replicate 4 space.

(** Converts tabs to four spaces. *)
Fixpoint tab_loop (fuel : nat) (tmp : str) (pos : nat) : res str :=
  match fuel with
  | O => Fault OutOfFuel
  | S f =>
      match find tmp [tab] pos with
      | None => Ok tmp
      | Some p => tab_loop f (replace tmp p 1 tabtospace) (p + length tabtospace)
      end
  end.

(** Removes the newline if there is exactly one. *)
Definition drop_single_nl (tmp : str) : str :=
  match find tmp [nl] 0 with
  | Some pos => if decide (rfind tmp [nl] = Some pos) then replace tmp pos 1 [] else tmp
  | None => tmp
  end.

(** Turns every occurrence of the token into the internal separator; the
    search resumes at the replaced position, not after it. *)
Fixpoint token_loop (fuel : nat) (token tmp : str) (start : nat) : res str :=
  match fuel with
  | O => Fault OutOfFuel
  | S f =>
      match find tmp token start with
      | None => Ok tmp
      | Some st => token_loop f token (replace tmp st (length token) [tilde]) st
      end
  end.

(** Collects the fields.  With [end == npos] the last [substr] wraps to
    position 0 and the loop breaks. *)
Fixpoint split_loop (fuel : nat) (tmp : str) (coll : list str) : res (list str) :=
  match fuel with
  | O => Fault OutOfFuel
  | S f =>
      match find_first_not_of tmp [tilde] with
      | None => Ok coll
      | Some start =>
          let tmp := sub tmp start (length tmp - start) in
          match find_first_of tmp [tilde] with
          | None => Ok (coll ++ [tmp])
          | Some e => split_loop f (sub tmp (e + 1) (length tmp - e - 1)) (coll ++ [sub tmp 0 e])
          end
      end
  end.

(** [StrProc(in_str, token)], with [fuel] for the token loop. *)
Definition str_proc_fuel (fuel : nat) (in_str token : str) : res (list str) :=
  let* tmp := tab_loop (S (length in_str)) in_str 0 in
  let tmp := drop_single_nl tmp in
  let* tmp := token_loop fuel token tmp 0 in
  split_loop (S (length tmp)) tmp [].

Definition str_proc (in_str token : str) : res (list str) :=
  str_proc_fuel (S (4 * length in_str)) in_str token.

(** ** Accessors *)

(** [size_t(i)] of an [int]. *)
Definition size_t_of_int (i : Z) : Z := (i mod 2 ^ 64)%Z.

(** [get(int i)] *)
Definition sp_get (coll : list str) (i : Z) : str :=
  if decide (Z.of_nat (length coll) <= size_t_of_int i)%Z then []
  else default [] (coll !! Z.to_nat i).

(** The loop of [get(int start, int end)], over the fields from [start]. *)
Definition sp_join (fields : list str) : str := fields ≫= (fun f => f ++ [space]).

(** [get(int start, int end)]: [tmp.substr(0, tmp.length() - 1)] is [tmp]
    itself when [tmp] is empty, since the length wraps to [npos]. *)
Definition sp_get_range (coll : list str) (start en : Z) : str :=
  if decide (Z.of_nat (length coll) <= size_t_of_int start)%Z then []
  else
    let tmp := sp_join (take (Z.to_nat (en - start)) (drop (Z.to_nat start) coll)) in
    take (length tmp - 1) tmp.

(** ** Reference definition *)

Definition fields (s : str) : list str := filter (fun f => f <> []) (split_on tilde s).

(** The text after the tab and newline passes. *)
Definition prepare (s : str) : str := drop_single_nl (replace_all [tab] tabtospace s).

Definition str_proc_spec (in_str token : str) : list str :=
  fields (replace_all token [tilde] (prepare in_str)).

(** ** The loops compute the reference *)

Lemma tab_loop_spec fuel pre s :
  length s < fuel ->
  tab_loop fuel (pre ++ s) (length pre) = Ok (pre ++ replace_all [tab] tabtospace s).
Proof.
  revert pre s; induction fuel as [|f IH]; intros pre s Hf; [lia|].
  cbn [tab_loop]. rewrite find_app_r. destruct (find0 s [tab]) as [i|] eqn:E; simpl.
  - rewrite (replace_all_Some _ _ _ i) by done.
    apply find0_char_split in E as (Hs & _ & Hi).
    rewrite replace_app.
    replace (length pre + i + 4) with (length (pre ++ take i s ++ tabtospace))
      by (rewrite !length_app, length_take; simpl; lia).
    rewrite IH by (rewrite length_drop; lia). by rewrite <- !app_assoc.
  - by rewrite replace_all_None.
Qed.

(** The separator cannot start an occurrence of a token that lacks it. *)
Lemma token_loop_after_tilde fuel token p rest :
  tilde ∉ token -> token <> [] ->
  token_loop fuel token (p ++ tilde :: rest) (length p) =
  token_loop fuel token ((p ++ [tilde]) ++ rest) (length (p ++ [tilde])).
Proof.
  intros Ht Hne. destruct fuel as [|f]; [done|]. cbn [token_loop].
  rewrite !find_app_r, <- app_assoc. cbn [app find0].
  destruct token as [|c t]; [done|]. cbn [is_prefix].
  rewrite bool_decide_eq_false_2 by set_solver. simpl.
  rewrite length_app. simpl. destruct (find0 rest (c :: t)) as [i|]; simpl; [|done].
  by replace (length p + 1 + i) with (length p + S i) by lia.
Qed.

Lemma token_loop_spec fuel token pre s :
  tilde ∉ token -> token <> [] -> length s < fuel ->
  token_loop fuel token (pre ++ s) (length pre) = Ok (pre ++ replace_all token [tilde] s).
Proof.
  intros Ht Hne. revert pre s; induction fuel as [|f IH]; intros pre s Hf; [lia|].
  cbn [token_loop]. rewrite find_app_r. destruct (find0 s token) as [i|] eqn:E; simpl.
  - rewrite (replace_all_Some _ _ _ i) by done. pose proof E as Hlen.
    apply find0_Some in Hlen as (Hi & Hp & _). apply prefix_length in Hp.
    rewrite length_drop in Hp.
    assert (length token <> 0) by (by destruct token).
    rewrite replace_app, !app_assoc, <- app_assoc.
    replace (length pre + i) with (length (pre ++ take i s))
      by (rewrite length_app, length_take; lia).
    cbn [app]. rewrite token_loop_after_tilde by done.
    rewrite IH by (rewrite length_drop; lia). by rewrite <- !app_assoc.
  - by rewrite replace_all_None.
Qed.

Lemma fields_nil : fields [] = [].
Proof. done. Qed.

Lemma fields_tilde s : fields (tilde :: s) = fields s.
Proof.
  unfold fields. cbn [split_on]. rewrite decide_True by done. by rewrite filter_cons_False by auto.
Qed.

Lemma fields_notin f : tilde ∉ f -> f <> [] -> fields f = [f].
Proof. intros. unfold fields. by rewrite split_on_notin, filter_cons_True, filter_nil. Qed.

Lemma fields_app f s : tilde ∉ f -> f <> [] -> fields (f ++ tilde :: s) = f :: fields s.
Proof. intros. unfold fields. by rewrite split_on_app, filter_cons_True. Qed.

Lemma find_first_of_find0 s c : find_first_of s [c] = find0 s [c].
Proof.
  induction s as [|x s IH]; [done|]. cbn [find_first_of find0 is_prefix].
  rewrite andb_true_r, IH. case_bool_decide as E1; case_decide as E2; try done;
    rewrite list_elem_of_singleton in E2; congruence.
Qed.

Lemma find_first_not_of_None s : find_first_not_of s [tilde] = None -> fields s = [].
Proof.
  induction s as [|x s IH]; [done|]. cbn [find_first_not_of]. case_decide as E; [|done].
  apply list_elem_of_singleton in E as ->. intros H%fmap_None. rewrite fields_tilde. by apply IH.
Qed.

Lemma find_first_not_of_Some s n :
  find_first_not_of s [tilde] = Some n ->
  fields s = fields (drop n s) /\ n < length s /\ drop n s !! 0 <> Some tilde.
Proof.
  revert n; induction s as [|x s IH]; intros n; [done|]. cbn [find_first_not_of].
  case_decide as E.
  - apply list_elem_of_singleton in E as ->. intros (m & Hm & ->)%fmap_Some.
    rewrite fields_tilde. destruct (IH _ Hm) as (? & ? & ?). simpl. repeat split; [done | lia | done].
  - intros [= <-]. repeat split; [simpl; lia|]. simpl. intros [= ->]. by apply E, list_elem_of_singleton.
Qed.

Lemma sub_suffix s n : sub s n (length s - n) = drop n s.
Proof. unfold sub. apply take_ge. rewrite length_drop. lia. Qed.

Lemma split_loop_spec fuel tmp coll :
  length tmp < fuel -> split_loop fuel tmp coll = Ok (coll ++ fields tmp).
Proof.
  revert tmp coll; induction fuel as [|f IH]; intros tmp coll Hf; [lia|]. cbn [split_loop].
  destruct (find_first_not_of tmp [tilde]) as [n|] eqn:E.
  2: { by rewrite (find_first_not_of_None _ E), app_nil_r. }
  destruct (find_first_not_of_Some _ _ E) as (-> & Hn & Hhd).
  rewrite sub_suffix, find_first_of_find0.
  assert (length (drop n tmp) < S f) as Hd by (rewrite length_drop; lia).
  remember (drop n tmp) as t eqn:Ht. assert (t <> []) as Hne.
  { intros ->. apply (f_equal length) in Ht. rewrite length_drop in Ht. simpl in Ht. lia. }
  destruct (find0 t [tilde]) as [e|] eqn:Ee.
  - destruct (find0_char_split _ _ _ Ee) as (Hsplit & Hnot & Hlt).
    replace (length t - e - 1) with (length t - (e + 1)) by lia.
    rewrite sub_suffix, IH by (rewrite length_drop; lia).
    rewrite Hsplit at 3. rewrite fields_app, <- app_assoc.
    + unfold sub. rewrite drop_0, Nat.add_1_r. done.
    + done.
    + destruct e; [|by destruct t]. rewrite Hsplit in Hhd. by destruct Hhd.
  - apply find0_char_None in Ee. by rewrite fields_notin.
Qed.

Lemma length_prepare s : length (prepare s) <= 4 * length s.
Proof.
  assert (length (replace_all [tab] tabtospace s) <= 4 * length s) as Hl.
  { rewrite replace_all_char. induction s as [|c s IH]; [simpl; lia|].
    rewrite bind_cons, length_app. unfold subst_char at 1.
    case_decide; change (length tabtospace) with 4; cbn [length]; lia. }
  unfold prepare, drop_single_nl. destruct (find _ _ _) as [p|]; [|lia].
  case_decide; [|lia]. unfold replace. rewrite !length_app, length_take, length_drop. cbn [length]. lia.
Qed.

(** Any amount of fuel that covers the text gives the same fields. *)
Lemma str_proc_fuel_spec fuel s t :
  tilde ∉ t -> t <> [] -> length (prepare s) < fuel ->
  str_proc_fuel fuel s t = Ok (str_proc_spec s t).
Proof.
  intros Ht Hne Hf. unfold str_proc_fuel.
  pose proof (tab_loop_spec (S (length s)) [] s) as Htab. cbn [app length] in Htab. rewrite Htab by lia.
  cbn [res_bind]. change (drop_single_nl _) with (prepare s).
  pose proof (token_loop_spec fuel t [] (prepare s) Ht Hne Hf) as Htok.
  cbn [app length] in Htok. rewrite Htok. cbn [res_bind]. rewrite split_loop_spec by lia. done.
Qed.

Lemma str_proc_ok s t :
  tilde ∉ t -> t <> [] -> str_proc s t = Ok (str_proc_spec s t).
Proof.
  intros. apply str_proc_fuel_spec; [done | done |]. pose proof (length_prepare s). lia.
Qed.

(** ** Round trips: splitting what was joined with the token *)

(** A field that survives: not empty, free of the internal separator, of
    tabs, of newlines and of the first character of the token. *)
Definition clean_field (c : ascii) (f : str) : Prop :=
  f <> [] /\ (tilde ∉ f) /\ (tab ∉ f) /\ (nl ∉ f) /\ (c ∉ f).

#[export] Instance clean_field_dec c f : Decision (clean_field c f).
Proof. unfold clean_field. apply _. Defined.

Lemma prepare_id s : tab ∉ s -> nl ∉ s -> prepare s = s.
Proof.
  intros Ht Hn. unfold prepare. rewrite replace_all_notin by done.
  unfold drop_single_nl. by rewrite find_0, find0_notin.
Qed.

Lemma prepare_one_nl p q :
  tab ∉ p ++ q -> nl ∉ p ++ q -> prepare (p ++ nl :: q) = p ++ q.
Proof.
  rewrite !not_elem_of_app. intros [Htp Htq] [Hp Hq]. unfold prepare.
  rewrite replace_all_notin by notin.
  unfold drop_single_nl. rewrite find_0, find0_char_app by done.
  rewrite rfind_char_app by done. rewrite decide_True by done.
  unfold replace. by rewrite take_app_length, drop_app_add.
Qed.

Lemma prepare_line s : tab ∉ s -> nl ∉ s -> prepare (s ++ [nl]) = s.
Proof. intros. rewrite prepare_one_nl by notin. by rewrite app_nil_r. Qed.

Lemma replace_all_join c t l rest :
  Forall (clean_field c) l -> l <> [] ->
  replace_all (c :: t) [tilde] (join (c :: t) l ++ c :: t ++ rest) =
  join [tilde] l ++ tilde :: replace_all (c :: t) [tilde] rest.
Proof.
  intros Hl Hne. induction Hl as [|f l Hf Hl IH]; [done|].
  destruct Hf as (_ & _ & _ & _ & Hc). destruct l as [|g l].
  - simpl. by rewrite replace_all_app.
  - cbn [join]. rewrite <- !app_assoc. cbn [app].
    rewrite replace_all_app by done. cbn [app]. f_equal. f_equal. by apply IH.
Qed.

Lemma replace_all_join_end c t l :
  Forall (clean_field c) l ->
  replace_all (c :: t) [tilde] (join (c :: t) l) = join [tilde] l.
Proof.
  induction 1 as [|f l Hf Hl IH]; [done|]. destruct Hf as (_ & _ & _ & _ & Hc).
  destruct l as [|g l]; [by apply replace_all_notin|].
  cbn [join app] in *. rewrite replace_all_app by done. cbn [app]. f_equal. f_equal. apply IH.
Qed.

Lemma fields_join c l : Forall (clean_field c) l -> fields (join [tilde] l) = l.
Proof.
  induction 1 as [|f l Hf Hl IH]; [done|]. destruct Hf as (Hne & Ht & _).
  destruct l as [|g l]; [by apply fields_notin|].
  cbn [join app] in *. rewrite fields_app by done. by rewrite IH.
Qed.

Lemma fields_join_app c l rest :
  Forall (clean_field c) l -> l <> [] ->
  fields (join [tilde] l ++ tilde :: rest) = l ++ fields rest.
Proof.
  intros Hl Hne. induction Hl as [|f l Hf Hl IH]; [done|]. destruct Hf as (Hfn & Ht & _).
  destruct l as [|g l]; [by apply fields_app|].
  cbn [join app] in *. rewrite <- app_assoc. cbn [app]. rewrite fields_app by done.
  f_equal. by apply IH.
Qed.

Lemma elem_of_join x sep l : x ∈ join sep l -> x ∈ sep \/ exists f, f ∈ l /\ x ∈ f.
Proof.
  induction l as [|f l IH]; [set_solver|]. destruct l as [|g l]; [set_solver|].
  cbn [join] in *. rewrite !elem_of_app. set_solver.
Qed.

Lemma join_notin x c sep l :
  Forall (clean_field c) l -> x ∉ sep -> (x = tab \/ x = nl) -> x ∉ join sep l.
Proof.
  intros Hl Hs Hx Hin. apply elem_of_join in Hin as [?|(f & Hf & Hin)]; [done|].
  rewrite Forall_forall in Hl. destruct (Hl f Hf) as (_ & _ & Ht & Hn & _).
  by destruct Hx as [-> | ->].
Qed.

(** Splitting inverts joining, with or without a final newline. *)
Lemma str_proc_join c t l :
  Forall (clean_field c) l -> tilde ∉ c :: t -> tab ∉ c :: t -> nl ∉ c :: t ->
  str_proc (join (c :: t) l) (c :: t) = Ok l /\
  str_proc (join (c :: t) l ++ [nl]) (c :: t) = Ok l.
Proof.
  intros Hl Ht Htab Hnl. rewrite !str_proc_ok by done. unfold str_proc_spec.
  assert (tab ∉ join (c :: t) l) by (eapply join_notin; eauto).
  assert (nl ∉ join (c :: t) l) by (eapply join_notin; eauto).
  rewrite prepare_id, prepare_line by done.
  by rewrite replace_all_join_end, (fields_join c).
Qed.

(** ** Termination for every token *)

Lemma token_loop_long fuel token tmp start :
  2 <= length token -> length tmp < fuel -> is_ok (token_loop fuel token tmp start).
Proof.
  intros Ht. revert tmp start; induction fuel as [|f IH]; intros tmp start Hf; [lia|].
  cbn [token_loop]. destruct (find tmp token start) as [i|] eqn:E; [|by eexists].
  apply find_Some_le in E as [_ Hi]. apply IH. unfold replace.
  rewrite !length_app, length_take, length_drop. simpl. lia.
Qed.

(** Replacing the separator by itself, or inserting it for an empty token,
    finds the same position again. *)
Lemma token_loop_stuck fuel tmp start token :
  (token = [] /\ start <= length tmp) \/
  (token = [tilde] /\ is_Some (find tmp token start)) ->
  token_loop fuel token tmp start = Fault OutOfFuel.
Proof.
  revert tmp start; induction fuel as [|f IH]; intros tmp start H; [done|]. cbn [token_loop].
  destruct H as [[-> Hs]|[-> [i Hi]]].
  - unfold find. rewrite decide_True, find0_nil_pat by done. simpl. apply IH. left.
    split; [done|]. unfold replace. rewrite !length_app, length_take, length_drop. simpl. lia.
  - rewrite Hi. apply IH. right. split; [done|].
    apply find_Some_le in Hi as [_ Hi]. simpl in Hi. unfold replace, find.
    rewrite decide_True by (rewrite !length_app, length_take; simpl; lia).
    rewrite drop_app_le, drop_ge by (rewrite length_take; lia).
    cbn [app find0 is_prefix]. by eexists.
Qed.

Lemma str_proc_fuel_long fuel s t :
  2 <= length t -> length (prepare s) < fuel -> is_ok (str_proc_fuel fuel s t).
Proof.
  intros Ht Hf. unfold str_proc_fuel.
  pose proof (tab_loop_spec (S (length s)) [] s) as Htab.
  cbn [app length] in Htab. rewrite Htab by lia. cbn [res_bind].
  change (drop_single_nl _) with (prepare s).
  destruct (token_loop_long fuel t (prepare s) 0 Ht Hf) as [r ->]. cbn [res_bind].
  rewrite split_loop_spec by lia. by eexists.
Qed.

Lemma str_proc_fuel_stuck fuel s t :
  t = [] \/ (t = [tilde] /\ tilde ∈ prepare s) -> str_proc_fuel fuel s t = Fault OutOfFuel.
Proof.
  intros H. unfold str_proc_fuel. pose proof (tab_loop_spec (S (length s)) [] s) as Htab.
  cbn [app length] in Htab. rewrite Htab by lia. cbn [res_bind].
  change (drop_single_nl _) with (prepare s). rewrite token_loop_stuck; [done|].
  destruct H as [-> | [-> Hin]]; [left; split; [done | lia] | right; split; [done|]].
  rewrite find_0. destruct (find0 (prepare s) [tilde]) eqn:E; [by eexists|].
  by apply find0_char_None in E.
Qed.

Lemma str_proc_fuel_tilde s :
  tilde ∉ prepare s ->
  str_proc_fuel (S (length (prepare s))) s [tilde] = Ok (fields (prepare s)).
Proof.
  intros Hin. unfold str_proc_fuel. pose proof (tab_loop_spec (S (length s)) [] s) as Htab.
  cbn [app length] in Htab. rewrite Htab by lia. cbn [res_bind].
  change (drop_single_nl _) with (prepare s). cbn [token_loop].
  rewrite find_0, find0_notin by done. cbn [res_bind]. rewrite split_loop_spec by lia. done.
Qed.

Lemma prepare_no_tab s : tab ∉ prepare s.
Proof.
  assert (tab ∉ replace_all [tab] tabtospace s) as Hno.
  { rewrite replace_all_char. intros (x & Hx & _)%list_elem_of_bind.
    unfold subst_char in Hx. case_decide; [|by apply list_elem_of_singleton in Hx].
    repeat (apply elem_of_cons in Hx as [?|Hx]; [done|]). by apply elem_of_nil in Hx. }
  unfold prepare, drop_single_nl. destruct (find _ _ _) as [p|]; [|done].
  case_decide; [|done]. unfold replace. intros Hin. apply Hno.
  rewrite <- (take_drop p (replace_all [tab] tabtospace s)), elem_of_app.
  apply elem_of_app in Hin as [Hin | Hin]; [by left | right].
  cbn [app] in Hin. rewrite <- drop_drop in Hin. by eapply elem_of_drop.
Qed.

(** ** Properties *)

(** For a one-character token other than the internal separator,
    the constructor terminates, computes the reference split, and every
    field it stores is non-empty and free of the token, of the separator and
    of tabs. *)
Theorem str_proc_fields_clean (c : ascii) (s : str) :
  c <> tilde ->
  exists fs, str_proc s [c] = Ok fs /\ fs = str_proc_spec s [c] /\
    Forall (fun f => f <> [] /\ (tilde ∉ f) /\ (c ∉ f) /\ (tab ∉ f)) fs.
Proof.
  intros Hc. exists (str_proc_spec s [c]). split; [|split; [done|]].
  { apply str_proc_ok; [notin | done]. }
  apply Forall_forall. intros f Hf. unfold str_proc_spec, fields in Hf.
  apply list_elem_of_filter in Hf as [Hne Hf]. split; [done|].
  split; [by apply (proj1 (Forall_forall _ _) (split_on_pieces _ _) _ Hf)|].
  assert (forall x, x ∈ f -> x ∈ replace_all [c] [tilde] (prepare s)) as Hsub.
  { intros x. by apply (elem_of_split_on tilde). }
  split; intros Hin; apply Hsub in Hin.
  - rewrite replace_all_char in Hin. apply list_elem_of_bind in Hin as (x & Hx & _).
    unfold subst_char in Hx. case_decide; apply list_elem_of_singleton in Hx; congruence.
  - rewrite replace_all_char in Hin. apply list_elem_of_bind in Hin as (x & Hx & Hin).
    unfold subst_char in Hx. case_decide; apply list_elem_of_singleton in Hx; [done|].
    subst x. by apply prepare_no_tab in Hin.
Qed.

Lemma str_proc_fields_clean_witness :
  comma <> tilde /\
  exists fs, str_proc (lit "a,,b~c,d") [comma] = Ok fs /\
    fs = str_proc_spec (lit "a,,b~c,d") [comma] /\
    Forall (fun f => f <> [] /\ (tilde ∉ f) /\ (comma ∉ f) /\ (tab ∉ f)) fs.
Proof. split; [done|]. apply (str_proc_fields_clean comma). done. Defined.

(** Claim C33: the four loops of the constructor compute the reference
    definition: for every token that is not empty and does not hold the
    internal separator, the result is the text, prepared, with the token
    replaced, cut into its non-empty fields; and that fuel bounds nothing:
    the constructor returns for exactly the tokens that are not empty and
    are not the internal separator (unless the text lacks the separator),
    and on the others its loop never ends. *)
Theorem str_proc_equivalence (s t : str) :
  (tilde ∉ t -> t <> [] -> str_proc s t = Ok (str_proc_spec s t)) /\
  ((exists fuel fs, str_proc_fuel fuel s t = Ok fs) <->
   t <> [] /\ (t <> [tilde] \/ tilde ∉ prepare s)).
Proof.
  split; [apply str_proc_ok|]. split.
  - intros (fuel & fs & Hok). split.
    + intros ->. by rewrite str_proc_fuel_stuck in Hok by auto.
    + destruct (decide (t = [tilde])) as [->|]; [right|by left].
      intros Hin. by rewrite str_proc_fuel_stuck in Hok by auto.
  - intros [Hne Ht]. exists (S (length (prepare s))).
    destruct (decide (2 <= length t)) as [Hl|Hl].
    + apply str_proc_fuel_long; [done | lia].
    + destruct t as [|c [|]]; [done | | simpl in Hl; lia].
      destruct (decide (c = tilde)) as [->|Hc].
      * destruct Ht as [?|Hin]; [done|]. exists (fields (prepare s)).
        by apply str_proc_fuel_tilde.
      * eexists. apply str_proc_fuel_spec; [notin | done | lia].
Qed.
