(* ===== verification/Common.v ===== *)
(** * The [Rest] class (common.hh, common.cc)

    Enumerations and constants, the string helpers, session tokens, the
    configuration-session description files and the translation of a REST
    path into a command line.  Files are a map from paths to contents; what
    the operating system and libcurl decide is a parameter. *)

From S2P Require Import Prelude CppString.

(** ** Enumerations *)

Inductive KEY :=
| HTTP_REQ_URI
| HTTP_REQ_AUTHORIZATION
| HTTP_REQ_COOKIE
| HTTP_REQ_QUERY_STRING
| HTTP_REQ_METHOD
| HTTP_REQ_CONTENT_LENGTH
| HTTP_REQ_VYATTA_SPECIFICATION_VERSION
| HTTP_REQ_ACCEPT
| HTTP_REQ_HOST
| HTTP_REQ_PRAGMA
| HTTP_RESP_DEBUG
| HTTP_RESP_CODE
| HTTP_RESP_WWWAUTH
| HTTP_RESP_CONTENT_TYPE
| HTTP_RESP_LOCATION
| HTTP_RESP_COOKIE
| HTTP_RESP_VYATTA_SPECIFICATION_VERSION
| HTTP_RESP_CACHE_CONTROL
| HTTP_RESP_CONTENT_DISPOSITION
| HTTP_BODY.

Inductive AUTH_ACCESS_TYPE :=
| AUTH_TYPE_NONE
| AUTH_TYPE_BASIC
| AUTH_TYPE_VYATTA_SESSION.

Inductive NodeType :=
| NONE | TEXT | IPV4 | IPV4NET | IPV6 | IPV6NET | U32 | BOOL | MACADDR.

#[export] Instance KEY_eq_dec : EqDecision KEY.
Proof. solve_decision. Defined.
#[export] Instance AUTH_ACCESS_TYPE_eq_dec : EqDecision AUTH_ACCESS_TYPE.
Proof. solve_decision. Defined.
#[export] Instance NodeType_eq_dec : EqDecision NodeType.
Proof. solve_decision. Defined.

(** The value of a key as an [int], which is its place in a [std::map]. *)
Definition key_index (k : KEY) : nat :=
  match k with
  | HTTP_REQ_URI => 0
  | HTTP_REQ_AUTHORIZATION => 1
  | HTTP_REQ_COOKIE => 2
  | HTTP_REQ_QUERY_STRING => 3
  | HTTP_REQ_METHOD => 4
  | HTTP_REQ_CONTENT_LENGTH => 5
  | HTTP_REQ_VYATTA_SPECIFICATION_VERSION => 6
  | HTTP_REQ_ACCEPT => 7
  | HTTP_REQ_HOST => 8
  | HTTP_REQ_PRAGMA => 9
  | HTTP_RESP_DEBUG => 10
  | HTTP_RESP_CODE => 11
  | HTTP_RESP_WWWAUTH => 12
  | HTTP_RESP_CONTENT_TYPE => 13
  | HTTP_RESP_LOCATION => 14
  | HTTP_RESP_COOKIE => 15
  | HTTP_RESP_VYATTA_SPECIFICATION_VERSION => 16
  | HTTP_RESP_CACHE_CONTROL => 17
  | HTTP_RESP_CONTENT_DISPOSITION => 18
  | HTTP_BODY => 19
  end.

(** ** Constants *)

Definition REST_SERVER_VERSION : str := lit "0.3".
Definition JSON_INPUT : str := lit "/tmp/json_input".
Definition MAX_BODY_SIZE : N := 33554432.
Definition CONF_REQ_ROOT : str := lit "/rest/conf".
Definition OP_REQ_ROOT : str := lit "/rest/op".
Definition APP_REQ_ROOT : str := lit "/rest/app".
Definition PERM_REQ_ROOT : str := lit "/rest/perm".
Definition SERVICE_REQ_ROOT : str := lit "/rest/service".
Definition AUTH_BASIC : str := lit "Basic".
Definition AUTH_VYATTA_SESSION : str := lit "Vyatta-Session".
Definition AUTH_VYATTA_PATH_LOC : str := lit "vyatta2_path_loc".
Definition PRAGMA_NO_VYATTA_SESSION_UPDATE : str := lit "no-vyatta-session-update".
Definition PRAGMA_SERVICE_USER : str := lit "vyatta-service-user".
Definition CONFIG_TMP_DIR : str := lit "/tmp/".
Definition LOCAL_CHANGES_ONLY : str := lit "/rw/".
Definition LOCAL_CONFIG_DIR : str := lit "/u/".
Definition CONF_COMMAND_DIR : str := lit "/opt/vyatta/share/vyatta-cfg/templates".
Definition SERVICE_COMMAND_DIR : str := lit "/opt/vyatta/share/vyatta-service/templates".
Definition CHUNKER_RESP_TOK_DIR : str := lit "/opt/vyatta/tmp/webgui2/".
Definition CHUNKER_RESP_TOK_BASE : str := lit "multi_".
Definition CHUNKER_RESP_PID : str := lit "/tmp".
Definition CHUNKER_SOCKET : str := lit "/tmp/browser_pager2".
Definition CHUNKER_READ_SIZE : nat := N.to_nat 98304.
Definition VYATTA_MODIFY_FILE : str := CONFIG_TMP_DIR ++ lit ".vyattamodify_".

Definition g_type_str (t : NodeType) : str :=
  match t with
  | NONE => lit "none"
  | TEXT => lit "text"
  | IPV4 => lit "ipv4"
  | IPV4NET => lit "ipv4net"
  | IPV6 => lit "ipv6"
  | IPV6NET => lit "ipv6net"
  | U32 => lit "u32"
  | BOOL => lit "bool"
  | MACADDR => lit "macaddr"
  end.

(** ** String helpers *)

(** [ulltostring] *)
Definition ulltostring (n : N) : str := dec n.

(** [Rest::ulltostring(strtoull(("0x" + id).c_str(), NULL, 0))]: the id of a
    session as the configuration daemon knows it. *)
Definition conv_conf_id (id : str) : str := ulltostring (strtoull_0x id).

(** The loop of [mass_replace]: [j] is the last match, [offset] what is
    added to it before the next search. *)
Fixpoint mass_replace_loop (fuel : nat) (victim replacement answer : str) (j offset : nat)
    : res str :=
  match fuel with
  | O => Fault OutOfFuel
  | S f =>
      match find answer victim (j + offset) with
      | None => Ok answer
      | Some j' =>
          mass_replace_loop f victim replacement
            (replace answer j' (length victim) replacement) j' (length replacement)
      end
  end.

Definition mass_replace (source victim replacement : str) : res str :=
  mass_replace_loop (S (length source)) victim replacement source 0 0.

(** [trim] *)
Definition trim (src : str) : str :=
  match find_first_not_of src [space; tab], find_last_not_of src [space; tab] with
  | Some startpos, Some endpos => sub src startpos (endpos - startpos + 1)
  | _, _ => []
  end.

(** ** Tokens *)

(** One [fgetc] into a [char]: a byte 0xFF compares equal to [EOF]. *)
Definition read_byte (s : str) : option (N * str) :=
  match s with
  | [] => None
  | c :: s' => if decide (N_of_ascii c = 255)%N then None else Some (N_of_ascii c, s')
  end.

(** Four bytes, least significant first, as an [unsigned]. *)
Definition read_id (s : str) : option (N * str) :=
  '(b0, s) ← read_byte s;
  '(b1, s) ← read_byte s;
  '(b2, s) ← read_byte s;
  '(b3, s) ← read_byte s;
  Some ((b0 + b1 * 2 ^ 8 + b2 * 2 ^ 16 + b3 * 2 ^ 24)%N, s).

(** [generate_token]: [attempts] are what successive [fopen("/dev/urandom")]
    yield, [None] for a failure.  A failed open uses up one of the [ct]
    tries, a failed read does not. *)
Fixpoint generate_token_loop (ct : nat) (attempts : list (option str))
    : res (str * list (option str)) :=
  match ct with
  | O => Ok ([], attempts)
  | S ct' =>
      match attempts with
      | [] => Fault OutOfFuel
      | None :: rest => generate_token_loop ct' rest
      | Some bytes :: rest =>
          match ('(id1, bytes) ← read_id bytes; '(id2, _) ← read_id bytes; Some (id1, id2)) with
          | Some (id1, id2) => Ok (hex8 id1 ++ hex8 id2, rest)
          | None => generate_token_loop ct rest
          end
      end
  end.

Definition generate_token : list (option str) -> res (str * list (option str)) :=
  generate_token_loop 5.

(** ** Running a command *)

(** The lines [getline] returns, each with its newline. *)
Fixpoint getlines (s : str) : list str :=
  match s with
  | [] => []
  | c :: s' =>
      if decide (c = nl) then [c] :: getlines s'
      else match getlines s' with
           | l :: ls => (c :: l) :: ls
           | [] => [[c]]
           end
  end.

(** How a child ended: [WIFEXITED] with its code, or another wait status. *)
Inductive wait_status := Exited (code : N) | OtherStatus (raw : N).

(** [Rest::execute(cmd, sout, true)]: [child] is what [popen] and [pclose]
    give for the command, [None] when [popen] fails; every line read is
    followed by a space. *)
Definition execute (child : option (str * wait_status)) (sout : str) : N * str :=
  match child with
  | None => (0%N, sout)
  | Some (out, st) =>
      let sout := sout ++ (getlines out ≫= (fun l => cstr l ++ [space])) in
      match st with
      | Exited code => (code, sout)
      | OtherStatus raw => (raw, sout)
      end
  end.

(** ** Description files of configuration sessions *)

(** Regular files by path. *)
Abbreviation files := (gmap str str).

(** [fgets(buf, n, fp)]: the characters read and what is left; at most
    [n - 1] are read, and none past a newline. *)
Fixpoint fgets_go (k : nat) (s : str) : str * str :=
  match k, s with
  | S k', c :: s' =>
      if decide (c = nl) then ([c], s')
      else let '(l, rest) := fgets_go k' s' in (c :: l, rest)
  | _, _ => ([], s)
  end.

Definition fgets (n : nat) (s : str) : option (str * str) :=
  match s with
  | [] => None
  | _ => Some (fgets_go (n - 1) s)
  end.

(** [create_conf_modify_file]: [opens] says whether [fopen(.., "w")]
    succeeds and [puts] whether [fputs] does; the open truncates. *)
Definition create_conf_modify_file (opens puts : bool) (fs : files) (id user description : str)
    : bool * files :=
  let file := VYATTA_MODIFY_FILE ++ id in
  if opens then
    if puts then (true, <[file := cstr (user ++ lit "/" ++ description)]> fs)
    else (false, <[file := []]> fs)
  else (false, fs).

(** [read_conf_modify_file]: the outcome with the two by-reference
    arguments.  An empty file leaves them as they were. *)
Definition read_conf_modify_file (fs : files) (id user description : str) : bool * str * str :=
  match fs !! (VYATTA_MODIFY_FILE ++ id) with
  | None => (false, user, description)
  | Some content =>
      match fgets CHUNKER_READ_SIZE content with
      | None => (true, user, description)
      | Some (buf, _) =>
          let s := cstr buf in
          match find s [slash] 0 with
          | None => (false, user, description)
          | Some pos => (true, sub s 0 pos, drop (pos + 1) s)
          end
      end
  end.

(** The loop of [read_conf_modify_file_from_tag] over the directory. *)
Fixpoint tag_loop (fs : files) (names : list str) (tag user : str) : option str :=
  match names with
  | [] => None
  | conf_file :: names' =>
      if decide (length conf_file < 22) then tag_loop fs names' tag user
      else
        let f_id := drop 14 conf_file in
        let '(_, f_user, f_tag) := read_conf_modify_file fs f_id [] [] in
        if decide (f_tag <> [] /\ tag = f_tag /\ f_user = user) then Some f_id
        else tag_loop fs names' tag user
  end.

(** [read_conf_modify_file_from_tag]: [listing] is what [opendir] and
    [readdir] give for [CONFIG_TMP_DIR]; the result is the new [id]. *)
Definition read_conf_modify_file_from_tag (fs : files) (listing : option (list str))
    (tag user : str) : option str :=
  match listing with
  | None => None
  | Some names => tag_loop fs names tag user
  end.

(** ** From a REST path to a command line *)

(** The three cases of quoting a value. *)
Definition quote_value (token : str) : str :=
  if decide (char_at token 0 = quote /\ char_at token (length token - 1) = quote)
  then [space] ++ token
  else if decide (char_at token 0 = dquote /\ char_at token (length token - 1) = dquote)
  then [space; quote] ++ sub token 1 (length token - 2) ++ [quote]
  else [space; quote] ++ token ++ [quote].

Section Translate.
(** [curl_easy_unescape], as bytes; [None] is the null pointer it returns
    when it fails. *)
Variable unescape : str -> option str.

(** [string(curl_easy_unescape(..))] *)
Definition decode (token : str) : res str :=
  match unescape token with Some t => Ok (cstr t) | None => Fault NullString end.

(** The [while] loop: the command so far, the tokens seen and the
    position of the last separator. *)
Fixpoint translate_loop (fuel : nat) (in_cmd : str) (old_pos ct : nat) (cmd : str)
    : res (str * nat * nat) :=
  match fuel with
  | O => Fault OutOfFuel
  | S f =>
      match find in_cmd [slash] (old_pos + 1) with
      | None => Ok (cmd, ct, old_pos)
      | Some cur_pos =>
          let* token := decode (sub in_cmd (old_pos + 1) (cur_pos - (old_pos + 1))) in
          let cmd := if decide (ct = 0) then sub in_cmd 0 cur_pos
                     else cmd ++ quote_value token in
          translate_loop f in_cmd cur_pos (ct + 1) cmd
      end
  end.

Definition translate_rest_to_cli (in_cmd : str) : res str :=
  let* '(cmd, ct, old_pos) := translate_loop (S (length in_cmd)) in_cmd 0 0 [] in
  if decide (0 < ct) then
    let* t := decode (drop (old_pos + 1) in_cmd) in Ok (cmd ++ quote_value t)
  else Ok cmd.
End Translate.

(** ** [mass_replace] *)

Lemma mass_replace_loop_spec fuel v r pre s j off :
  v <> [] -> length s < fuel -> j + off = length pre ->
  mass_replace_loop fuel v r (pre ++ s) j off = Ok (pre ++ replace_all v r s).
Proof.
  intros Hv. revert pre s j off; induction fuel as [|f IH]; intros pre s j off Hf Hj; [lia|].
  cbn [mass_replace_loop]. rewrite Hj, find_app_r.
  destruct (find0 s v) as [i|] eqn:E; simpl.
  - rewrite (replace_all_Some _ _ _ i) by done.
    apply find0_Some in E as (Hi & Hp & _). apply prefix_length in Hp. rewrite length_drop in Hp.
    assert (length v <> 0) by (by destruct v). rewrite replace_app, IH.
    + by rewrite <- !app_assoc.
    + rewrite length_drop. lia.
    + rewrite !length_app, length_take. lia.
  - by rewrite replace_all_None.
Qed.

Lemma mass_replace_ok s v r : v <> [] -> mass_replace s v r = Ok (replace_all v r s).
Proof. intros. unfold mass_replace. apply (mass_replace_loop_spec _ v r [] s); [done | lia | done]. Qed.

Lemma mass_replace_char s c r : mass_replace s [c] r = Ok (s ≫= subst_char c r).
Proof. by rewrite mass_replace_ok, replace_all_char. Qed.
#[export] Hint Rewrite mass_replace_char : rest.

Lemma mass_replace_loop_empty fuel r answer j off :
  j + off <= length answer -> mass_replace_loop fuel [] r answer j off = Fault OutOfFuel.
Proof.
  revert answer j off; induction fuel as [|f IH]; intros answer j off H; [done|].
  cbn [mass_replace_loop]. unfold find. rewrite decide_True, find0_nil_pat by done. simpl.
  apply IH. unfold replace. rewrite !length_app, length_take, length_drop. lia.
Qed.

(** [mass_replace] terminates for every non-empty victim and
    replaces exactly the non-overlapping occurrences a single left-to-right
    pass finds; for an empty victim its loop never ends, whatever the fuel. *)
Theorem mass_replace_correct (source victim replacement : str) :
  (victim <> [] ->
   mass_replace source victim replacement = Ok (replace_all victim replacement source)) /\
  (victim = [] -> forall fuel,
   mass_replace_loop fuel victim replacement source 0 0 = Fault OutOfFuel).
Proof.
  split; [apply mass_replace_ok|]. intros -> fuel. apply mass_replace_loop_empty. lia.
Qed.

(** ** [trim] *)

Lemma find_first_not_of_split s set n :
  find_first_not_of s set = Some n ->
  Forall (fun c => c ∈ set) (take n s) /\ exists c, s !! n = Some c /\ c ∉ set.
Proof.
  revert n; induction s as [|c s IH]; intros n; [done|]. cbn [find_first_not_of].
  case_decide as E.
  - intros (m & Hm & ->)%fmap_Some. destruct (IH _ Hm) as [Hf Hc]. split; [by constructor | done].
  - intros [= <-]. split; [constructor | by exists c].
Qed.

Lemma find_last_not_of_split s set n :
  find_last_not_of s set = Some n ->
  Forall (fun c => c ∈ set) (drop (S n) s) /\ exists c, s !! n = Some c /\ c ∉ set.
Proof.
  revert n; induction s as [|c s IH]; intros n; [done|]. cbn [find_last_not_of].
  destruct (find_last_not_of s set) as [m|] eqn:E.
  - intros [= <-]. by apply IH.
  - case_decide as Hc; [done|]. intros [= <-]. split; [|by exists c]. cbn [drop].
    clear IH Hc. induction s as [|d s IH]; [constructor|]. cbn [find_last_not_of] in E.
    destruct (find_last_not_of s set); [done|]. case_decide; [|done]. constructor; auto.
Qed.

Lemma find_not_of_None s set :
  find_first_not_of s set = None <-> find_last_not_of s set = None.
Proof.
  induction s as [|c s IH]; [done|]. cbn. case_decide.
  - rewrite fmap_None, IH. destruct (find_last_not_of s set); [|done]. naive_solver.
  - destruct (find_last_not_of s set); naive_solver.
Qed.

Lemma find_first_not_of_all s set :
  find_first_not_of s set = None -> Forall (fun c => c ∈ set) s.
Proof.
  induction s as [|c s IH]; [constructor|]. cbn. case_decide as E; [|done].
  intros H%fmap_None. constructor; auto.
Qed.

(** [trim] removes exactly the blanks at both ends: what it drops
    is spaces and tabs, and what it keeps is empty or starts and ends with
    another character. *)
Theorem trim_correct (src : str) :
  exists pre post,
    src = pre ++ trim src ++ post /\
    Forall (fun c => c ∈ [space; tab]) pre /\ Forall (fun c => c ∈ [space; tab]) post /\
    (forall c, head (trim src) = Some c -> c ∉ [space; tab]) /\
    (forall c, last (trim src) = Some c -> c ∉ [space; tab]).
Proof.
  unfold trim. destruct (find_first_not_of src [space; tab]) as [st|] eqn:E1.
  2: { exists src, []. rewrite !app_nil_r. repeat split; try done.
       by apply find_first_not_of_all. }
  destruct (find_last_not_of src [space; tab]) as [en|] eqn:E2.
  2: { apply find_not_of_None in E2. congruence. }
  apply find_first_not_of_split in E1 as (Hpre & c1 & Hc1 & Hn1).
  apply find_last_not_of_split in E2 as (Hpost & c2 & Hc2 & Hn2).
  assert (st <= en) as Hle.
  { destruct (decide (st <= en)); [done|]. exfalso. apply Hn2.
    rewrite Forall_forall in Hpre. apply Hpre. apply list_elem_of_lookup. exists en.
    by rewrite lookup_take_lt by lia. }
  exists (take st src), (drop (S en) src).
  assert (sub src st (en - st + 1) = drop st (take (S en) src)) as ->.
  { unfold sub. rewrite take_drop_commute. f_equal. f_equal. lia. }
  repeat split; [| done | done | |].
  - rewrite <- (take_drop (S en) src) at 1. rewrite app_assoc. f_equal.
    rewrite <- (take_drop st (take (S en) src)) at 1. f_equal.
    rewrite take_take. f_equal. lia.
  - intros c Hc. rewrite head_lookup, lookup_drop, Nat.add_0_r, lookup_take_lt in Hc by lia.
    congruence.
  - intros c Hc. pose proof (lookup_lt_Some _ _ _ Hc2) as Hlt. rewrite last_lookup in Hc.
    rewrite length_drop, length_take, lookup_drop in Hc.
    replace (st + _) with en in Hc by lia. rewrite lookup_take_lt in Hc by lia. congruence.
Qed.

(** ** Tokens *)

Lemma read_byte_bound s b r : read_byte s = Some (b, r) -> (b < 2 ^ 8)%N.
Proof.
  destruct s as [|c s]; [done|]. unfold read_byte. case_decide; [done|].
  intros [= <- _]. apply N_ascii_bounded.
Qed.

Lemma read_id_bound s n r : read_id s = Some (n, r) -> (n < u32)%N.
Proof.
  unfold read_id. intros H.
  repeat match goal with
  | H : (_ ≫= _) = Some _ |- _ => apply bind_Some in H as ([? ?] & ?%read_byte_bound & H)
  end.
  injection H as <- _. unfold u32. lia.
Qed.

Lemma generate_token_loop_shape ct attempts t rest :
  generate_token_loop ct attempts = Ok (t, rest) ->
  t = [] \/ exists id1 id2, (id1 < u32)%N /\ (id2 < u32)%N /\ t = hex8 id1 ++ hex8 id2.
Proof.
  revert ct; induction attempts as [|a attempts IH]; intros [|ct]; cbn [generate_token_loop].
  - intros [= <- _]. by left.
  - done.
  - intros [= <- _]. by left.
  - destruct a as [bytes|]; [|apply IH].
    destruct (read_id bytes) as [[id1 r1]|] eqn:E1; simpl; [|apply IH].
    destruct (read_id r1) as [[id2 r2]|] eqn:E2; simpl; [|apply IH].
    intros [= <- _]. right. exists id1, id2. eauto using read_id_bound.
Qed.

(** A token is empty (the five opens failed) or sixteen upper-case
    hexadecimal digits, the two 32-bit numbers read; the session id derived
    from it is their 64-bit combination, with no overflow. *)
Theorem generate_token_shape attempts t rest :
  generate_token attempts = Ok (t, rest) ->
  t = [] \/
  exists id1 id2, (id1 < u32)%N /\ (id2 < u32)%N /\
    t = hex8 id1 ++ hex8 id2 /\ length t = 16 /\
    conv_conf_id t = dec (id1 * u32 + id2)%N /\ (id1 * u32 + id2 < u64)%N.
Proof.
  intros [-> | (id1 & id2 & H1 & H2 & ->)]%generate_token_loop_shape; [by left|].
  right. exists id1, id2. repeat split; try done.
  - by rewrite length_app, !hex8_length.
  - unfold conv_conf_id, ulltostring. by rewrite strtoull_hex8.
  - change u64 with (u32 * u32)%N. nia.
Qed.

Lemma generate_token_shape_witness :
  generate_token [None; Some (lit "ab"); Some (lit "abcdefgh")] = Ok (lit "6463626168676665", []) /\
  (lit "6463626168676665" = [] \/
  exists id1 id2, (id1 < u32)%N /\ (id2 < u32)%N /\
    lit "6463626168676665" = hex8 id1 ++ hex8 id2 /\ length (lit "6463626168676665") = 16 /\
    conv_conf_id (lit "6463626168676665") = dec (id1 * u32 + id2)%N /\
    (id1 * u32 + id2 < u64)%N).
Proof.
  assert (generate_token [None; Some (lit "ab"); Some (lit "abcdefgh")]
          = Ok (lit "6463626168676665", [])) as H by (vm_compute; reflexivity).
  split; [exact H | exact (generate_token_shape _ _ _ H)].
Defined.

(** Two configuration sessions whose tokens differ have different
    ids in the configuration daemon. *)
Theorem conv_conf_id_injective a1 a2 t1 t2 r1 r2 :
  generate_token a1 = Ok (t1, r1) -> generate_token a2 = Ok (t2, r2) ->
  t1 <> [] -> t2 <> [] -> conv_conf_id t1 = conv_conf_id t2 -> t1 = t2.
Proof.
  intros [-> | (a & b & Ha & Hb & ->)]%generate_token_loop_shape
         [-> | (c & d & Hc & Hd & ->)]%generate_token_loop_shape; try done.
  intros _ _ Heq. unfold conv_conf_id, ulltostring in Heq. apply dec_inj in Heq.
  rewrite !strtoull_hex8 in Heq by done.
  assert (a = c /\ b = d) as [-> ->]; [|done]. unfold u32 in *. lia.
Qed.

Lemma conv_conf_id_injective_witness :
  generate_token [Some (lit "abcdefgh")] = Ok (lit "6463626168676665", []) /\
  lit "6463626168676665" = lit "6463626168676665".
Proof.
  assert (generate_token [Some (lit "abcdefgh")] = Ok (lit "6463626168676665", [])) as H
    by (vm_compute; reflexivity).
  split; [exact H|].
  apply (conv_conf_id_injective _ _ _ _ _ _ H H); try discriminate. reflexivity.
Defined.

(** ** Description files *)

Lemma fgets_go_line k s :
  nl ∉ s -> length s <= k -> fgets_go k s = (s, []).
Proof.
  revert k; induction s as [|c s IH]; intros k Hn Hk; [by destruct k|].
  destruct k as [|k]; [simpl in Hk; lia|]. apply not_elem_of_cons in Hn as [Hc Hs].
  simpl. rewrite decide_False by done. rewrite IH; [done | done | simpl in Hk; lia].
Qed.

(** The content [create_conf_modify_file] writes reads back. *)
Definition describes (content user description : str) : Prop :=
  content = user ++ slash :: description /\
  (slash ∉ user) /\ (nl ∉ content) /\ (nul ∉ content) /\ length content < CHUNKER_READ_SIZE.

Lemma read_describes fs id u0 d0 content user description :
  fs !! (VYATTA_MODIFY_FILE ++ id) = Some content -> describes content user description ->
  read_conf_modify_file fs id u0 d0 = (true, user, description).
Proof.
  intros Hfs (-> & Hu & Hnl & Hnul & Hlen). unfold read_conf_modify_file. rewrite Hfs.
  unfold fgets. rewrite fgets_go_line by (done || lia).
  destruct (user ++ slash :: description) eqn:E; [by destruct user|]. rewrite <- E in *.
  rewrite cstr_id by done. rewrite find_0, find0_char_app by done.
  unfold sub. by rewrite drop_0, take_app_length, drop_app_add.
Qed.

(** Claim C19: what [create_conf_modify_file] stores for a configuration
    session, [read_conf_modify_file] gives back, for a user name without a
    slash and texts that fit one line of the buffer. *)
Theorem conf_modify_file_roundtrip fs id user description u0 d0 :
  slash ∉ user -> nl ∉ user ++ description -> nul ∉ user ++ description ->
  length user + length description + 1 < CHUNKER_READ_SIZE ->
  let '(ok, fs') := create_conf_modify_file true true fs id user description in
  ok = true /\ read_conf_modify_file fs' id u0 d0 = (true, user, description).
Proof.
  intros Hs Hn Hz Hl. unfold create_conf_modify_file. split; [done|].
  rewrite !not_elem_of_app in *. destruct Hn as [Hn1 Hn2], Hz as [Hz1 Hz2].
  change (lit "/") with [slash]. cbn [app].
  rewrite cstr_id by (notin; done).
  eapply read_describes; [apply lookup_insert_eq|]. split; [done|].
  repeat split; [done | notin; done | notin; done |].
  rewrite length_app. simpl. lia.
Qed.

Lemma conf_modify_file_roundtrip_witness :
  let '(ok, fs') := create_conf_modify_file true true ∅ (lit "00AA") (lit "vyatta") (lit "lab") in
  ok = true /\ read_conf_modify_file fs' (lit "00AA") [] [] = (true, lit "vyatta", lit "lab").
Proof.
  apply (conf_modify_file_roundtrip ∅ (lit "00AA") (lit "vyatta") (lit "lab") [] []);
    by_compute.
Defined.

Lemma tag_loop_sound fs names tag user id :
  tag_loop fs names tag user = Some id ->
  tag <> [] /\ read_conf_modify_file fs id [] [] = (true, user, tag).
Proof.
  induction names as [|n names IH]; [done|]. cbn [tag_loop]. case_decide; [done|].
  destruct (read_conf_modify_file fs (drop 14 n) [] []) as [[ok u] d] eqn:E.
  case_decide as Hd; [|done]. destruct Hd as (Hne & -> & ->). intros [= <-].
  split; [done|]. rewrite E. destruct ok; [done|]. exfalso. apply Hne.
  unfold read_conf_modify_file in E. repeat case_match; by simplify_eq.
Qed.

Lemma tag_loop_complete fs names tag user id content :
  lit ".vyattamodify_" ++ id ∈ names -> 8 <= length id -> tag <> [] ->
  fs !! (VYATTA_MODIFY_FILE ++ id) = Some content -> describes content user tag ->
  is_Some (tag_loop fs names tag user).
Proof.
  intros Hin Hid Htag Hfs Hdesc. induction names as [|n names IH]; [by apply elem_of_nil in Hin|].
  cbn [tag_loop]. apply elem_of_cons in Hin as [<- | Hin].
  - rewrite decide_False by (rewrite length_app; change (length (lit ".vyattamodify_")) with 14; lia).
    change 14 with (length (lit ".vyattamodify_")). rewrite drop_app_length.
    rewrite (read_describes _ _ _ _ _ _ _ Hfs Hdesc), decide_True by done. by eexists.
  - case_decide; [by apply IH|].
    destruct (read_conf_modify_file fs (drop 14 n) [] []) as [[? ?] ?].
    case_decide; [by eexists | by apply IH].
Qed.

(** Looking a configuration session up by its description returns
    only a session of that user with that description, and, when the
    directory lists every description file, fails only if the user has no
    session with that (non-empty) description. *)
Theorem tag_lookup_correct fs names tag user :
  (forall id, is_Some (fs !! (VYATTA_MODIFY_FILE ++ id)) -> lit ".vyattamodify_" ++ id ∈ names) ->
  match read_conf_modify_file_from_tag fs (Some names) tag user with
  | Some id => tag <> [] /\ read_conf_modify_file fs id [] [] = (true, user, tag)
  | None => forall id content, 8 <= length id -> fs !! (VYATTA_MODIFY_FILE ++ id) = Some content ->
      describes content user tag -> tag = []
  end.
Proof.
  intros Hall. simpl. destruct (tag_loop fs names tag user) as [id|] eqn:E.
  { by apply tag_loop_sound in E. }
  intros id content Hid Hfs Hdesc. destruct (decide (tag = [])) as [|Hne]; [done|].
  destruct (tag_loop_complete fs names tag user id content) as [? ?]; try done; [|congruence].
  apply Hall. by eexists.
Qed.

Lemma tag_lookup_correct_witness :
  let fs := {[ VYATTA_MODIFY_FILE ++ lit "00112233" := lit "joe/lab" ]} : files in
  read_conf_modify_file fs (lit "00112233") [] [] = (true, lit "joe", lit "lab").
Proof.
  intros fs.
  pose proof (tag_lookup_correct fs [lit ".vyattamodify_00112233"] (lit "lab") (lit "joe")) as H.
  assert (read_conf_modify_file_from_tag fs (Some [lit ".vyattamodify_00112233"])
            (lit "lab") (lit "joe") = Some (lit "00112233")) as E by (vm_compute; reflexivity).
  rewrite E in H. apply H. intros id [c Hc].
  apply lookup_singleton_Some in Hc as [Hc _]. apply app_inj_1 in Hc as [_ <-]; [|done].
  apply list_elem_of_singleton. reflexivity.
Defined.

(** ** Translation *)

(** libcurl never returns a null pointer. *)
Definition never_null (unescape : str -> option str) : Prop := forall t, is_Some (unescape t).

Section TranslateFacts.
Variable unescape : str -> option str.

(** The text of a segment that is decoded. *)
Definition unescaped (seg : str) : str := default [] (cstr <$> unescape seg).

Definition segment_arg (seg : str) : str := quote_value (unescaped seg).

Lemma decode_cases t :
  decode unescape t = Ok (unescaped t) \/ decode unescape t = Fault NullString /\ ~ never_null unescape.
Proof.
  unfold decode, unescaped. destruct (unescape t) as [u|] eqn:E; [by left | right].
  split; [done|]. intros H. destruct (H t) as [u Hu]. congruence.
Qed.

Lemma translate_loop_tail fuel pre s old ct cmd :
  0 < ct -> length pre = old + 1 -> length s < fuel ->
  (exists cmd' ct' pos,
    translate_loop unescape fuel (pre ++ s) old ct cmd = Ok (cmd', ct', pos) /\ 0 < ct' /\
    cmd' ++ segment_arg (drop (pos + 1) (pre ++ s)) =
    cmd ++ (split_on slash s ≫= segment_arg)) \/
  (translate_loop unescape fuel (pre ++ s) old ct cmd = Fault NullString /\ ~ never_null unescape).
Proof.
  revert pre s old ct cmd; induction fuel as [|f IH]; intros pre s old ct cmd Hct Hpre Hf; [lia|].
  cbn [translate_loop]. rewrite <- Hpre, find_app_r.
  destruct (find0 s [slash]) as [i|] eqn:E; cbn [fmap option_fmap option_map].
  - destruct (find0_char_split _ _ _ E) as (Hs & Hn & Hi).
    replace (length pre + i - length pre) with i by lia.
    assert (sub (pre ++ s) (length pre) i = take i s) as ->
      by (unfold sub; by rewrite drop_app_length).
    destruct (decode_cases (take i s)) as [-> | [-> Hnull]]; cbn [res_bind]; [|by right].
    rewrite decide_False by lia.
    assert (pre ++ s = (pre ++ take i s ++ [slash]) ++ drop (S i) s) as Hre.
    { rewrite <- !app_assoc. simpl. by rewrite <- Hs. }
    destruct (IH (pre ++ take i s ++ [slash]) (drop (S i) s) (length pre + i) (ct + 1)
                (cmd ++ quote_value (unescaped (take i s)))) as [(cmd' & ct' & pos & H1 & H2 & H3)|H];
      [lia | rewrite !length_app, length_take; simpl; lia | rewrite length_drop; lia | |].
    2: { right. by rewrite Hre. }
    left. rewrite <- Hre in H1, H3. exists cmd', ct', pos. split; [done|]. split; [done|].
    rewrite H3, <- app_assoc. by rewrite (split_on_find _ _ _ E), bind_cons.
  - apply find0_char_None in E. left. exists cmd, ct, old. split; [done|]. split; [done|].
    rewrite split_on_notin by done. simpl. rewrite app_nil_r, <- Hpre.
    by rewrite drop_app_length.
Qed.

(** The command of a path, by its segments. *)
Definition translated (path : str) : str :=
  match path with
  | [] => []
  | x :: r =>
      match split_on slash r with
      | h :: ((_ :: _) as t) => (x :: h) ++ (t ≫= segment_arg)
      | _ => []
      end
  end.

Lemma translate_cases path :
  translate_rest_to_cli unescape path = Ok (translated path) \/
  translate_rest_to_cli unescape path = Fault NullString /\ ~ never_null unescape.
Proof.
  destruct path as [|x r]; [by left|]. unfold translate_rest_to_cli, translated.
  change (length (x :: r)) with (S (length r)). remember (S (length r)) as f eqn:Hf. cbn [translate_loop].
  change (x :: r) with ([x] ++ r). change (0 + 1) with (length [x]). rewrite find_app_r.
  destruct (find0 r [slash]) as [i|] eqn:E; cbn [fmap option_fmap option_map length Nat.add app].
  2: { left. apply find0_char_None in E. by rewrite split_on_notin. }
  destruct (find0_char_split _ _ _ E) as (Hr & Hn & Hi).
  destruct (decode_cases (sub (x :: r) 1 (S i - 1))) as [-> | [-> Hnull]]; cbn [res_bind]; [|by right].
  assert (x :: r = ([x] ++ take i r ++ [slash]) ++ drop (S i) r) as Hre.
  { simpl. f_equal. rewrite <- app_assoc. cbn [app]. by rewrite <- Hr. }
  rewrite decide_True by done.
  destruct (translate_loop_tail f ([x] ++ take i r ++ [slash]) (drop (S i) r)
              (S i) 1 (sub (x :: r) 0 (S i))) as [(cmd' & ct' & pos & H1 & H2 & H3)|[H Hnull]];
    [lia | rewrite !length_app, length_take; simpl; lia | rewrite length_drop, Hf; lia | |].
  2: { right. rewrite <- Hre in H. by rewrite H. }
  rewrite <- Hre in H1, H3. rewrite H1. cbn [res_bind]. rewrite decide_True by done.
  destruct (decode_cases (drop (pos + 1) (x :: r))) as [-> | [-> Hnull]]; cbn [res_bind]; [left | by right].
  fold (segment_arg (drop (pos + 1) (x :: r))). rewrite H3.
  rewrite (split_on_find _ _ _ E). unfold sub. simpl.
  destruct (split_on slash (drop (S i) r)) eqn:Es; [|done].
  exfalso. by eapply split_on_nonempty.
Qed.

Lemma translate_single x h : slash ∉ h -> translate_rest_to_cli unescape (x :: h) = Ok [].
Proof.
  intros Hh. unfold translate_rest_to_cli. cbn [length translate_loop].
  change (x :: h) with ([x] ++ h). change (0 + 1) with (length [x]).
  rewrite find_app_r, find0_notin by done. done.
Qed.

Lemma translate_spec path :
  never_null unescape -> translate_rest_to_cli unescape path = Ok (translated path).
Proof. intros Hn. by destruct (translate_cases path) as [H|[_ H]]. Qed.

Lemma translated_segments x h segs :
  slash ∉ h -> Forall (fun s => slash ∉ s) segs -> segs <> [] ->
  translated ((x :: h) ++ (segs ≫= cons slash)) = (x :: h) ++ (segs ≫= segment_arg).
Proof.
  intros Hh Hsegs Hne. unfold translated. cbn [app]. rewrite split_on_segments by done. by destruct segs.
Qed.

(** A REST path becomes its first segment as it stands followed
    by every later segment, URL-decoded and quoted; a path of a single
    segment becomes the empty command. *)
Theorem translate_rest_to_cli_correct (x : ascii) (h : str) (segs : list str) :
  never_null unescape -> slash ∉ h -> Forall (fun s => slash ∉ s) segs ->
  translate_rest_to_cli unescape ((x :: h) ++ (segs ≫= cons slash)) =
  Ok (match segs with
      | [] => []
      | _ => (x :: h) ++ (segs ≫= segment_arg)
      end).
Proof.
  intros Hn Hh Hsegs. rewrite translate_spec by done. f_equal. unfold translated. cbn [app].
  rewrite split_on_segments by done. by destruct segs.
Qed.
End TranslateFacts.

(** A function that decodes nothing. *)
Lemma never_null_Some : never_null Some.
Proof. intros t. by eexists. Qed.

Lemma translate_rest_to_cli_correct_witness :
  translate_rest_to_cli Some (lit "show/interfaces/a b") = Ok (lit "show 'interfaces' 'a b'").
Proof.
  change (lit "show/interfaces/a b") with
    ((ascii_of_nat 115 :: lit "how") ++ ([lit "interfaces"; lit "a b"] ≫= cons slash)).
  rewrite (translate_rest_to_cli_correct Some (ascii_of_nat 115) (lit "how")
             [lit "interfaces"; lit "a b"] never_null_Some); [vm_compute; reflexivity | by_compute | by_compute].
Defined.

(** ** [Timer] *)

Record timeval := mkTimeval { tv_sec : Z; tv_usec : Z }.

#[export] Instance timeval_eq_dec : EqDecision timeval.
Proof. solve_decision. Defined.

Definition ulong (z : Z) : Z := (z mod 2 ^ 64)%Z.

(** [Timer::~Timer]: the elapsed seconds and microseconds that are logged. *)
Definition timer_elapsed (start_time end_time : timeval) : Z * Z :=
  let usecs := ulong (Z.abs (tv_usec start_time - tv_usec end_time)) in
  let secs := ulong (tv_sec end_time - tv_sec start_time) in
  if decide (tv_usec end_time <= tv_usec start_time)%Z
  then (ulong (secs - 1), ulong (1000000 - usecs))
  else (secs, usecs).

Definition timeval_ok (t : timeval) : Prop :=
  (0 <= tv_sec t < 2 ^ 63 /\ 0 <= tv_usec t < 1000000)%Z.

Definition microseconds (t : timeval) : Z := (tv_sec t * 1000000 + tv_usec t)%Z.

(** The elapsed time is exact when the clock went forward, unless it did so
    by whole seconds: then a second is shown as a million microseconds, and
    for no time at all the seconds wrap around. *)
Lemma timer_elapsed_spec (s t : timeval) :
  timeval_ok s -> timeval_ok t -> (microseconds s <= microseconds t)%Z ->
  let '(secs, usecs) := timer_elapsed s t in
  (secs * 1000000 + usecs =
     microseconds t - microseconds s + (if decide (s = t) then 2 ^ 64 * 1000000 else 0))%Z /\
  (usecs = 1000000 <-> tv_usec s = tv_usec t)%Z.
Proof.
  destruct s as [s u], t as [t v]. unfold timeval_ok, microseconds, timer_elapsed, ulong. cbn [tv_sec tv_usec].
  intros Hs Ht Hle. assert (2 ^ 64 = 2 * 2 ^ 63)%Z as Hw by done.
  assert (1000000 < 2 ^ 63)%Z as Hm by done. revert Hs Ht Hw Hm. generalize (2 ^ 63)%Z as h. intros h Hs Ht Hw Hm.
  rewrite Hw. rewrite (Z.mod_small (Z.abs _)) by lia. rewrite (Z.mod_small (t - s)) by nia.
  case_decide as Hu.
  - rewrite (Z.mod_small (1000000 - _)) by lia. case_decide as Heq.
    + injection Heq as -> ->. replace (t - t - 1)%Z with (-1)%Z by lia.
      replace ((-1) mod (2 * h))%Z with (2 * h - 1)%Z; [lia|].
      apply (Z.mod_unique_pos _ _ (-1)); lia.
    + assert (s <> t) by (intros ->; apply Heq; f_equal; nia).
      rewrite Z.mod_small by nia. lia.
  - rewrite decide_False by (intros [= -> ->]; lia). lia.
Qed.

(** ** [mkdir_p] *)

(** What [mkdir] does: a directory is made, its parent is missing
    ([ENOENT]), or another error. *)
Inductive mkdir_result := Made | Missing | Failed.

Section MkdirP.
Variable mkdir : gset str -> str -> mkdir_result.

(** [mkdir_p] on the directories there are: whether it returns 0, and the
    directories afterwards. *)
Fixpoint mkdir_p (fuel : nat) (path : str) (dirs : gset str) : res (bool * gset str) :=
  match fuel with
  | O => Fault OutOfFuel
  | S f =>
      match mkdir dirs path with
      | Made => Ok (true, {[path]} ∪ dirs)
      | Failed => Ok (false, dirs)
      | Missing =>
          match rfind path [slash] with
          | None => Ok (false, dirs)
          | Some pos =>
              let* '(ok, dirs) := mkdir_p f (take pos path) dirs in
              if ok : bool then
                match mkdir dirs path with
                | Made => Ok (true, {[path]} ∪ dirs)
                | _ => Ok (false, dirs)
                end
              else Ok (false, dirs)
          end
      end
  end.

(** The recursion ends at the latest at the first character; directories
    are only added, and success means that the path is one of them. *)
Lemma mkdir_p_spec fuel path dirs :
  length path < fuel ->
  exists ok dirs', mkdir_p fuel path dirs = Ok (ok, dirs') /\ dirs ⊆ dirs' /\ (ok = true -> path ∈ dirs').
Proof.
  revert path dirs; induction fuel as [|f IH]; intros path dirs Hf; [lia|]. cbn [mkdir_p].
  destruct (mkdir dirs path); [eexists _, _; split; [done|]; set_solver | |eexists _, _; by split].
  destruct (rfind path [slash]) as [pos|] eqn:E; [|eexists _, _; by split].
  apply rfind_char_lt in E.
  destruct (IH (take pos path) dirs) as (ok & dirs' & -> & Hsub & _); [rewrite length_take; lia|]. cbn [res_bind].
  destruct ok; [|eexists _, _; by split].
  destruct (mkdir dirs' path); (eexists _, _; split; [done|]; set_solver).
Qed.
End MkdirP.
