(* ===== verification/FileStore.v ===== *)
(** * Files behind their names

    The other components see a file as the text behind its path.  Where
    several processes open, rename and remove the same files at the same
    time that is not enough: an open file is an inode, which keeps its
    identity while its name is moved.  This file models the calls of
    [Lock] on names and inodes, and relates each to the simple view. *)

From S2P Require Import Prelude CppString Common.

(** The names and the inodes behind them. *)
Record store := mkStore {
  st_names : gmap str nat;
  st_data : gmap nat str;
}.

(** Every name has its own inode. *)
Definition store_ok (st : store) : Prop :=
  (forall p i, st_names st !! p = Some i -> is_Some (st_data st !! i)) /\
  (forall p q i, st_names st !! p = Some i -> st_names st !! q = Some i -> p = q).

(** The files as the rest of the development sees them. *)
Definition view (st : store) : files := omap (fun i => st_data st !! i) (st_names st).

(** ** The calls *)

(** A new empty file under a name. *)
Definition create (p : str) (st : store) : nat * store :=
  let i := fresh (dom (st_data st)) in
  (i, mkStore (<[p := i]> (st_names st)) (<[i := []]> (st_data st))).

(** [open(p, O_CREAT | O_EXCL)] *)
Definition open_excl (p : str) (st : store) : option store :=
  match st_names st !! p with
  | Some _ => None
  | None => Some (create p st).2
  end.

(** [fopen(p, "r+")] *)
Definition open_r (p : str) (st : store) : option nat := st_names st !! p.

(** [fopen(p, "w")] *)
Definition open_w (p : str) (st : store) : nat * store :=
  match st_names st !! p with
  | Some i => (i, mkStore (st_names st) (<[i := []]> (st_data st)))
  | None => create p st
  end.

(** What a reader of an open file gets. *)
Definition read_inode (i : nat) (st : store) : str := default [] (st_data st !! i).

(** Text written from the start of an open file; what another process has
    written behind it stays. *)
Definition write_inode (i : nat) (text : str) (st : store) : store :=
  mkStore (st_names st) (<[i := text ++ drop (length text) (read_inode i st)]> (st_data st)).

(** [rename(p, q)] *)
Definition rename (p q : str) (st : store) : store :=
  match st_names st !! p with
  | Some i => mkStore (<[q := i]> (delete p (st_names st))) (st_data st)
  | None => st
  end.

(** [unlink(p)] *)
Definition unlink (p : str) (st : store) : store := mkStore (delete p (st_names st)) (st_data st).

(** ** The calls on the view *)

Lemma lookup_view st p : view st !! p = st_names st !! p ≫= (fun i => st_data st !! i).
Proof. apply lookup_omap. Qed.

Lemma view_some st p i c : st_names st !! p = Some i -> st_data st !! i = Some c -> view st !! p = Some c.
Proof. intros Hp Hi. by rewrite lookup_view, Hp. Qed.

Lemma view_none st p : store_ok st -> view st !! p = None <-> st_names st !! p = None.
Proof.
  intros [Hd _]. rewrite lookup_view. destruct (st_names st !! p) as [i|] eqn:E; [|done].
  cbn. apply Hd in E as [c ->]. done.
Qed.

Lemma read_view st p i : store_ok st -> st_names st !! p = Some i -> view st !! p = Some (read_inode i st).
Proof.
  intros [Hd _] Hp. destruct (Hd _ _ Hp) as [c Hc]. unfold read_inode. rewrite Hc.
  by apply (view_some st p i c).
Qed.

(** Changing the inode of one name changes that name only. *)
Lemma view_update st p i c :
  store_ok st -> st_names st !! p = Some i ->
  view (mkStore (st_names st) (<[i := c]> (st_data st))) = <[p := c]> (view st).
Proof.
  intros [_ Hinj] Hp. apply map_eq. intros q. rewrite lookup_view. cbn [st_names st_data].
  destruct (decide (q = p)) as [->|Hq].
  - rewrite Hp, lookup_insert_eq. cbn. apply lookup_insert_eq.
  - rewrite lookup_insert_ne, lookup_view by done. destruct (st_names st !! q) as [j|] eqn:E; [|done].
    cbn. apply lookup_insert_ne. intros ->. by apply Hq, (Hinj q p j).
Qed.

Lemma fresh_inode st p i : store_ok st -> st_names st !! p = Some i -> i <> fresh (dom (st_data st)).
Proof.
  intros [Hd _] Hp ->. apply (is_fresh (dom (st_data st))). apply elem_of_dom. by apply (Hd p).
Qed.

Lemma view_create p st : store_ok st -> view (create p st).2 = <[p := []]> (view st).
Proof.
  intros Hok. apply map_eq. intros q. rewrite lookup_view. cbn [create snd st_names st_data].
  destruct (decide (q = p)) as [->|Hq].
  - rewrite !lookup_insert_eq. cbn. apply lookup_insert_eq.
  - rewrite !lookup_insert_ne, lookup_view by done. destruct (st_names st !! q) as [j|] eqn:E; [|done].
    cbn. apply lookup_insert_ne. by apply not_eq_sym, (fresh_inode st q).
Qed.

Lemma create_ok p st : store_ok st -> store_ok (create p st).2.
Proof.
  intros Hok. pose proof Hok as [Hd Hinj]. split; cbn [create snd st_names st_data].
  - intros q i. rewrite lookup_insert_Some, lookup_insert_is_Some. intros [[_ <-]|[Hq Hi]]; [by left|].
    right. split; [by apply not_eq_sym, (fresh_inode st q) | by apply (Hd q)].
  - intros q r i. rewrite !lookup_insert_Some. intros [[<- <-]|[Hq Hi]] [[<- Hr]|[Hne Hr]]; try done.
    + by apply (fresh_inode st r) in Hr.
    + by apply (fresh_inode st q) in Hi.
    + by apply (Hinj q r i).
Qed.

Lemma update_ok st i c : store_ok st -> store_ok (mkStore (st_names st) (<[i := c]> (st_data st))).
Proof.
  intros [Hd Hinj]. split; [|done]. intros p j Hp. apply lookup_insert_is_Some'. right. by apply (Hd p).
Qed.

Lemma open_excl_view p st :
  store_ok st ->
  match open_excl p st with
  | Some st' => view st !! p = None /\ view st' = <[p := []]> (view st) /\ store_ok st'
  | None => is_Some (view st !! p)
  end.
Proof.
  intros Hok. unfold open_excl. destruct (st_names st !! p) as [i|] eqn:E.
  - rewrite (read_view st p i) by done. by eexists.
  - split; [by apply view_none|]. split; [by apply view_create | by apply create_ok].
Qed.

Lemma open_w_view p st :
  store_ok st ->
  view (open_w p st).2 = <[p := []]> (view st) /\ store_ok (open_w p st).2 /\
  st_names (open_w p st).2 !! p = Some (open_w p st).1.
Proof.
  intros Hok. unfold open_w. destruct (st_names st !! p) as [i|] eqn:E; cbn [fst snd].
  - split; [by apply view_update|]. split; [by apply update_ok | done].
  - split; [by apply view_create|]. split; [by apply create_ok | apply lookup_insert_eq].
Qed.

(** A file that is still empty. *)
Lemma write_view p i text st :
  store_ok st -> st_names st !! p = Some i -> view st !! p = Some [] ->
  view (write_inode i text st) = <[p := text]> (view st) /\ store_ok (write_inode i text st).
Proof.
  intros Hok Hp Hv. rewrite (read_view st p i) in Hv by done. injection Hv as Hv.
  unfold write_inode. rewrite Hv, drop_nil, app_nil_r. split; [by apply view_update | by apply update_ok].
Qed.

Lemma rename_view p q st :
  store_ok st -> p <> q ->
  view (rename p q st) = match view st !! p with
                         | Some c => delete p (<[q := c]> (view st))
                         | None => view st
                         end /\
  store_ok (rename p q st).
Proof.
  intros Hok Hpq. unfold rename. destruct (st_names st !! p) as [i|] eqn:E.
  2: { split; [|done]. by apply (view_none st) in E as ->. }
  rewrite (read_view st p i) by done. pose proof Hok as [Hd Hinj]. split; [|split].
  - apply map_eq. intros r. rewrite lookup_view. cbn [st_names st_data].
    destruct (decide (r = p)) as [->|Hr]; [by rewrite lookup_insert_ne, !lookup_delete_eq by done|].
    rewrite lookup_delete_ne by done. destruct (decide (r = q)) as [->|Hq].
    + rewrite !lookup_insert_eq. cbn. rewrite <- (read_view st p i), lookup_view, E by done. done.
    + by rewrite !lookup_insert_ne, lookup_delete_ne, lookup_view by done.
  - intros r j. cbn [st_names st_data]. rewrite lookup_insert_Some, lookup_delete_Some.
    intros [[_ <-]|(_ & _ & Hj)]; [by apply (Hd p) | by apply (Hd r)].
  - intros r s j. cbn [st_names]. rewrite !lookup_insert_Some, !lookup_delete_Some.
    intros [[<- <-]|(H1 & H2 & H3)] [[<- H4]|(H4 & H5 & H6)]; try done.
    + exfalso. by apply H5, (Hinj p s i).
    + exfalso. subst j. by apply H2, (Hinj p r i).
    + by apply (Hinj r s j).
Qed.

Lemma unlink_view p st : store_ok st -> view (unlink p st) = delete p (view st) /\ store_ok (unlink p st).
Proof.
  intros [Hd Hinj]. split; [|split]; cbn [unlink st_names st_data].
  - apply map_eq. intros q. rewrite lookup_view. cbn [unlink st_names st_data].
    destruct (decide (q = p)) as [->|Hq]; [by rewrite !lookup_delete_eq|].
    by rewrite !lookup_delete_ne, lookup_view by done.
  - intros q i [_ Hi]%lookup_delete_Some. by apply (Hd q).
  - intros q r i [_ Hq]%lookup_delete_Some [_ Hr]%lookup_delete_Some. by apply (Hinj q r i).
Qed.

(** ** What other programs do to files *)

Inductive file_change :=
| WriteFile (p text : str)
| RenameFile (p q : str)
| RemoveFile (p : str).

Definition change_file (st : store) (c : file_change) : store :=
  match c with
  | WriteFile p text => let '(i, st) := open_w p st in write_inode i text st
  | RenameFile p q => if decide (p = q) then st else rename p q st
  | RemoveFile p => unlink p st
  end.

Lemma change_file_ok st c : store_ok st -> store_ok (change_file st c).
Proof.
  intros Hok. destruct c as [p text|p q|p]; cbn [change_file].
  - destruct (open_w_view p st Hok) as (_ & Hok' & _). destruct (open_w p st) as [i st']. by apply update_ok.
  - case_decide; [done|]. by apply rename_view.
  - by apply unlink_view.
Qed.

Lemma change_files_ok cs st : store_ok st -> store_ok (foldl change_file st cs).
Proof. revert st; induction cs as [|c cs IH]; intros st Hok; [done|]. by apply IH, change_file_ok. Qed.
