(* ===== verification/CppMap.v ===== *)
(** * [std::map]

    An association list kept in the order of its keys, which is the order
    an iterator visits.  The order is a class, with instances for the keys
    the sources use. *)

From Stdlib Require Export Sorting.Sorted.
From S2P Require Import Prelude CppString Common.

(** ** Ordered keys *)

Class MapKey (K : Type) := {
  key_eq_dec : EqDecision K;
  key_compare : K -> K -> comparison;
  key_compare_eq a b : key_compare a b = Eq <-> a = b;
  key_compare_opp a b : key_compare b a = CompOpp (key_compare a b);
  key_compare_lt_trans a b c :
    key_compare a b = Lt -> key_compare b c = Lt -> key_compare a c = Lt;
}.
#[export] Existing Instance key_eq_dec | 1000.

Section Map.
Context {K V : Type} `{MapKey K}.

Abbreviation cmap := (list (K * V)).

(** [m.find(k)] *)
Fixpoint mget (k : K) (m : cmap) : option V :=
  match m with
  | [] => None
  | (k', v) :: m' => if decide (k = k') then Some v else mget k m'
  end.

(** [m[k] = v] *)
Fixpoint mset (k : K) (v : V) (m : cmap) : cmap :=
  match m with
  | [] => [(k, v)]
  | (k', v') :: m' =>
      match key_compare k k' with
      | Lt => (k, v) :: m
      | Eq => (k, v) :: m'
      | Gt => (k', v') :: mset k v m'
      end
  end.

(** [m.insert(pair(k, v))]: an existing entry stays. *)
Definition minsert (k : K) (v : V) (m : cmap) : cmap :=
  match mget k m with
  | Some _ => m
  | None => mset k v m
  end.

(** [m.erase(k)] *)
Definition merase (k : K) (m : cmap) : cmap := filter (fun p => p.1 <> k) m.

(** The invariant of the representation. *)
Definition msorted (m : cmap) : Prop :=
  StronglySorted (fun a b => key_compare a b = Lt) m.*1.

Lemma key_compare_refl k : key_compare k k = Eq.
Proof. by apply key_compare_eq. Qed.

Lemma mget_mset_eq k v m : mget k (mset k v m) = Some v.
Proof.
  induction m as [|[k' v'] m IH]; simpl; [by rewrite decide_True|].
  destruct (key_compare k k') eqn:E; simpl; try (by rewrite decide_True).
  rewrite decide_False; [done|]. intros ->. by rewrite key_compare_refl in E.
Qed.

Lemma mget_mset_ne k j v m : j <> k -> mget j (mset k v m) = mget j m.
Proof.
  intros Hne. induction m as [|[k' v'] m IH]; simpl; [by rewrite decide_False|].
  destruct (key_compare k k') eqn:E; simpl.
  - apply key_compare_eq in E as ->. by rewrite !(decide_False (P := j = k')).
  - by rewrite (decide_False (P := j = k)).
  - case_decide; [done | apply IH].
Qed.

Lemma mset_mset k v w m : mset k v (mset k w m) = mset k v m.
Proof.
  induction m as [|[k' v'] m IH]; simpl; [by rewrite key_compare_refl|].
  destruct (key_compare k k') eqn:E; simpl; rewrite ?key_compare_refl; try done.
  by rewrite E, IH.
Qed.

Lemma mget_merase k j m : mget j (merase k m) = if decide (j = k) then None else mget j m.
Proof.
  unfold merase. induction m as [|[k' v'] m IH]; [by case_decide|].
  rewrite filter_cons. cbn [fst]. destruct (decide (k' <> k)) as [E|E]; cbn [mget].
  - rewrite IH. repeat case_decide; congruence.
  - rewrite IH. apply dec_stable in E. repeat case_decide; congruence.
Qed.

Lemma mset_keys k v m x : x ∈ (mset k v m).*1 -> x = k \/ x ∈ m.*1.
Proof.
  induction m as [|[k' v'] m IH]; simpl; [set_solver|].
  destruct (key_compare k k') eqn:E; simpl; rewrite ?elem_of_cons.
  - apply key_compare_eq in E as ->. tauto.
  - tauto.
  - intros [->|Hx]; [tauto|]. destruct (IH Hx); tauto.
Qed.

Lemma msorted_mset k v m : msorted m -> msorted (mset k v m).
Proof.
  unfold msorted. induction m as [|[k' v'] m IH]; simpl.
  { intros _. repeat constructor. }
  intros Hs. inversion Hs as [|? ? Hs' Hall]; subst.
  destruct (key_compare k k') eqn:E; simpl.
  - apply key_compare_eq in E as ->. done.
  - constructor; [done|]. constructor; [done|].
    eapply Forall_impl; [exact Hall|]. simpl. intros. by eapply key_compare_lt_trans.
  - constructor; [by apply IH|]. apply Forall_forall. intros x [->|Hx]%mset_keys.
    + by rewrite key_compare_opp, E.
    + rewrite Forall_forall in Hall. by apply Hall.
Qed.

Lemma msorted_minsert k v m : msorted m -> msorted (minsert k v m).
Proof. unfold minsert. case_match; [done | apply msorted_mset]. Qed.

Lemma msorted_merase k m : msorted m -> msorted (merase k m).
Proof.
  unfold msorted, merase. induction m as [|[k' v'] m IH]; [done|].
  intros Hs. inversion Hs as [|? ? Hs' Hall]; subst.
  rewrite filter_cons. case_decide; [|by apply IH]. simpl. constructor; [by apply IH|].
  apply Forall_forall. intros x (p & -> & Hp)%list_elem_of_fmap.
  apply list_elem_of_filter in Hp as [_ Hp]. rewrite Forall_forall in Hall.
  apply Hall. by apply list_elem_of_fmap_2.
Qed.

Lemma mget_None k m : mget k m = None <-> k ∉ m.*1.
Proof.
  induction m as [|[k' v'] m IH]; simpl; [split; [intros _; apply not_elem_of_nil | done]|].
  rewrite not_elem_of_cons, <- IH. case_decide; naive_solver.
Qed.

Lemma mget_Some_elem k v m : mget k m = Some v -> (k, v) ∈ m.
Proof.
  induction m as [|[k' v'] m IH]; simpl; [done|]. rewrite elem_of_cons. case_decide.
  - intros [= ->]. subst. by left.
  - intros ?. right. by apply IH.
Qed.
Lemma mget_elem k v m : msorted m -> (k, v) ∈ m -> mget k m = Some v.
Proof.
  unfold msorted. induction m as [|[k' v'] m IH]; [intros _ []%elem_of_nil|].
  cbn [fmap list_fmap fst]. intros Hs. inversion Hs as [|? ? Hs' Hall]; subst.
  intros [[= -> ->]|Hin]%elem_of_cons; cbn [mget]; [by rewrite decide_True|].
  rewrite decide_False; [by apply IH|]. intros ->. rewrite Forall_forall in Hall.
  specialize (Hall k' (list_elem_of_fmap_2' fst _ _ _ Hin eq_refl)).
  by rewrite key_compare_refl in Hall.
Qed.

(** A concatenation over a map to which one key contributes. *)
Lemma bind_single {A} m k (f : K * V -> list A) :
  msorted m -> (forall p, p ∈ m -> p.1 <> k -> f p = []) ->
  m ≫= f = match mget k m with Some v => f (k, v) | None => [] end.
Proof.
  unfold msorted. induction m as [|[k' v'] m IH]; intros Hs Hf; [done|].
  cbn [fmap list_fmap fst] in Hs. inversion Hs as [|? ? Hs' Hall]; subst.
  rewrite bind_cons. cbn [mget]. case_decide as E.
  - subst k'. rewrite IH; [|done|intros p Hp; apply Hf; apply elem_of_cons; by right].
    destruct (mget k m) as [v|] eqn:G; [|by rewrite app_nil_r].
    assert (k ∈ m.*1) as Hin.
    { destruct (decide (k ∈ m.*1)) as [|Hn]; [done|]. apply mget_None in Hn. congruence. }
    rewrite Forall_forall in Hall. specialize (Hall k Hin). by rewrite key_compare_refl in Hall.
  - rewrite Hf; [|apply elem_of_cons; by left | done]. cbn [app].
    apply IH; [done|]. intros p Hp. apply Hf. apply elem_of_cons. by right.
Qed.

End Map.

Abbreviation cmap K V := (list (K * V)).

#[export] Hint Resolve msorted_mset msorted_minsert msorted_merase : rest.
#[export] Hint Rewrite @mget_mset_eq : rest.
#[export] Hint Rewrite @mget_mset_ne using done : rest.

(** ** Instances *)

Lemma key_index_inj a b : key_index a = key_index b -> a = b.
Proof. destruct a, b; done. Qed.

#[export] Program Instance KEY_MapKey : MapKey KEY := {|
  key_compare a b := Nat.compare (key_index a) (key_index b)
|}.
Next Obligation.
  intros a b. simpl. rewrite Nat.compare_eq_iff. split; [apply key_index_inj | by intros ->].
Qed.
Next Obligation. intros a b. simpl. apply Nat.compare_antisym. Qed.
Next Obligation. intros a b c. simpl. rewrite !Nat.compare_lt_iff. lia. Qed.

Lemma N_of_ascii_inj a b : N_of_ascii a = N_of_ascii b -> a = b.
Proof.
  intros E. rewrite <- (ascii_N_embedding a), <- (ascii_N_embedding b). by rewrite E.
Qed.

Lemma str_compare_eq a b : str_compare a b = Eq <-> a = b.
Proof.
  revert b; induction a as [|x a IH]; intros [|y b]; simpl; try done.
  destruct (N.compare_spec (N_of_ascii x) (N_of_ascii y)) as [E|E|E].
  - apply N_of_ascii_inj in E as ->. rewrite IH. naive_solver.
  - split; [done|]. intros [= -> ->]. lia.
  - split; [done|]. intros [= -> ->]. lia.
Qed.

Lemma str_compare_opp a b : str_compare b a = CompOpp (str_compare a b).
Proof.
  revert b; induction a as [|x a IH]; intros [|y b]; simpl; try done.
  rewrite N.compare_antisym.
  destruct (N.compare (N_of_ascii x) (N_of_ascii y)); simpl; [apply IH | done | done].
Qed.

Lemma str_compare_lt_trans a b c :
  str_compare a b = Lt -> str_compare b c = Lt -> str_compare a c = Lt.
Proof.
  revert b c; induction a as [|x a IH]; intros [|y b] [|z c]; simpl; try done.
  destruct (N.compare_spec (N_of_ascii x) (N_of_ascii y)) as [E1|E1|E1]; [| |done];
  destruct (N.compare_spec (N_of_ascii y) (N_of_ascii z)) as [E2|E2|E2]; try done;
  destruct (N.compare_spec (N_of_ascii x) (N_of_ascii z)) as [E3|E3|E3]; try done; try lia.
  apply IH.
Qed.

#[export] Instance str_MapKey : MapKey str := {|
  key_compare := str_compare;
  key_compare_eq := str_compare_eq;
  key_compare_opp := str_compare_opp;
  key_compare_lt_trans := str_compare_lt_trans;
|}.
