(* ===== verification/Http.v ===== *)
(** * HTTP, Session, JSON and Error (http.hh, http.cc)

    The parameter collections of a request and a response, the session that
    holds them, the JSON builder and the error responses.  The jansson
    library, which reformats a response body, is a parameter. *)

From S2P Require Import Prelude CppString Common CppMap.

Definition crlf : str := [cr; nl].

(** ** [HTTP] *)

Record HTTP := mkHTTP {
  _param_coll : cmap KEY str;
  _http_debug : bool;
  _verbatim_body : bool;
}.

Definition new_HTTP (debug : bool) : HTTP := mkHTTP [] debug false.

(** [get(Rest::KEY)] *)
Definition http_get (h : HTTP) (key : KEY) : str := default [] (mget key (_param_coll h)).

(** [set(key, const string &)] *)
Definition http_set (h : HTTP) (key : KEY) (val : str) : HTTP :=
  mkHTTP (mset key val (_param_coll h)) (_http_debug h) (_verbatim_body h).

(** [set(key, const char * )]: a null pointer changes nothing. *)
Definition http_set_c (h : HTTP) (key : KEY) (val : option str) : HTTP :=
  match val with
  | Some v => http_set h key (cstr v)
  | None => h
  end.

(** [append] *)
Definition http_append (h : HTTP) (key : KEY) (val : str) : HTTP :=
  http_set h key (http_get h key ++ lit "," ++ val).

(** [erase] *)
Definition http_erase (h : HTTP) (key : KEY) : HTTP :=
  mkHTTP (merase key (_param_coll h)) (_http_debug h) (_verbatim_body h).

Definition set_verbatim (h : HTTP) : HTTP := mkHTTP (_param_coll h) (_http_debug h) true.

(** The header name each response key is written with. *)
Definition header_name (k : KEY) : option str :=
  match k with
  | HTTP_RESP_DEBUG => Some (lit "vyatta-debug: ")
  | HTTP_RESP_WWWAUTH => Some (lit "WWW-Authenticate: ")
  | HTTP_RESP_CONTENT_TYPE => Some (lit "Content-Type: ")
  | HTTP_RESP_LOCATION => Some (lit "Location: ")
  | HTTP_RESP_COOKIE => Some (lit "Set-Cookie: ")
  | HTTP_RESP_CACHE_CONTROL => Some (lit "Cache-Control: ")
  | HTTP_RESP_CONTENT_DISPOSITION => Some (lit "Content-Disposition: ")
  | HTTP_RESP_VYATTA_SPECIFICATION_VERSION => Some (lit "Vyatta-Specification-Version: ")
  | _ => None
  end.

Section Serialize.
(** [json_loads] with [JSON_DECODE_ANY] followed by a compact
    [json_dumps]; [None] when either fails. *)
Variable reformat : str -> option str.

(** The body as it is sent. *)
Definition out_body (h : HTTP) (body : str) : str :=
  if decide (body <> [] /\ _verbatim_body h = false)
  then match reformat (cstr body) with
       | Some obuf => cstr obuf
       | None => body
       end
  else body.

(** One turn of the loop over the parameters: the text and the body. *)
Definition serialize_step (h : HTTP) (acc : str * str) (p : KEY * str) : str * str :=
  let '(o, body) := acc in
  match header_name p.1 with
  | Some name => (o ++ name ++ p.2 ++ crlf, body)
  | None =>
      if decide (p.1 = HTTP_BODY) then
        let body := out_body h p.2 in
        (o ++ lit "Content-Length: " ++ dec (N.of_nat (length body)) ++ crlf, body)
      else (o, body)
  end.

(** [HTTP::serialize]: the text sent, and the object, whose over-long body
    is cleared. *)
Definition http_serialize (h : HTTP) : str * HTTP :=
  let o := match mget HTTP_RESP_CODE (_param_coll h) with
           | Some code => lit "Status: " ++ code ++ crlf
           | None => []
           end in
  let '(o, h) :=
    match mget HTTP_BODY (_param_coll h) with
    | Some body =>
        if decide (MAX_BODY_SIZE < N.of_nat (length body))%N
        then (lit "Status: 500" ++ crlf, http_set h HTTP_BODY [])
        else (o, h)
    | None => (o, h)
    end in
  let '(o, body) := foldl (serialize_step h) (o, []) (_param_coll h) in
  (if decide (body <> []) then o ++ crlf ++ body else o ++ crlf, h).
End Serialize.

(** [HTTP::dump] *)
Definition dump_name (k : KEY) : str :=
  match k with
  | HTTP_REQ_URI => lit "req: uri"
  | HTTP_REQ_METHOD => lit "req: request_method"
  | HTTP_REQ_CONTENT_LENGTH => lit "req: content_length"
  | HTTP_REQ_AUTHORIZATION => lit "req: authorization"
  | HTTP_BODY => lit "body"
  | HTTP_RESP_DEBUG => lit "resp: debug"
  | HTTP_RESP_CODE => lit "resp: resp_code"
  | HTTP_RESP_CACHE_CONTROL => lit "resp: cache_control"
  | k => [ascii_of_nat (key_index k)]
  end.

Definition http_dump (h : HTTP) : str :=
  _param_coll h ≫= (fun p => dump_name p.1 ++ lit ":" ++ p.2 ++ crlf).

(** ** [Session] *)

Inductive AccessLevel := k_VYATTACFG | k_VYATTAOP | k_VYATTASERVICE_USER.

#[export] Instance AccessLevel_eq_dec : EqDecision AccessLevel.
Proof. solve_decision. Defined.

Record Session := mkSession {
  _debug : bool;
  _request : HTTP;
  _response : HTTP;
  _user : str;
  _access_level : AccessLevel;
  _service_user : bool;
  _auth_type : AUTH_ACCESS_TYPE;
  _session_key : str;
}.

Definition new_Session (debug : bool) : Session :=
  mkSession debug (new_HTTP debug) (new_HTTP debug) [] k_VYATTAOP false AUTH_TYPE_NONE [].

Definition upd_request (f : HTTP -> HTTP) (s : Session) : Session :=
  mkSession (_debug s) (f (_request s)) (_response s) (_user s) (_access_level s)
    (_service_user s) (_auth_type s) (_session_key s).
Definition upd_response (f : HTTP -> HTTP) (s : Session) : Session :=
  mkSession (_debug s) (_request s) (f (_response s)) (_user s) (_access_level s)
    (_service_user s) (_auth_type s) (_session_key s).
Definition set_user (u : str) (s : Session) : Session :=
  mkSession (_debug s) (_request s) (_response s) u (_access_level s)
    (_service_user s) (_auth_type s) (_session_key s).
Definition set_access (a : AccessLevel) (s : Session) : Session :=
  mkSession (_debug s) (_request s) (_response s) (_user s) a
    (_service_user s) (_auth_type s) (_session_key s).
Definition set_service_user (b : bool) (s : Session) : Session :=
  mkSession (_debug s) (_request s) (_response s) (_user s) (_access_level s)
    b (_auth_type s) (_session_key s).
Definition set_auth_type (a : AUTH_ACCESS_TYPE) (s : Session) : Session :=
  mkSession (_debug s) (_request s) (_response s) (_user s) (_access_level s)
    (_service_user s) a (_session_key s).
Definition set_session_key (k : str) (s : Session) : Session :=
  mkSession (_debug s) (_request s) (_response s) (_user s) (_access_level s)
    (_service_user s) (_auth_type s) k.

Definition resp_set (k : KEY) (v : str) : Session -> Session :=
  upd_response (fun h => http_set h k v).
Definition resp_append (k : KEY) (v : str) : Session -> Session :=
  upd_response (fun h => http_append h k v).
Definition req_get (s : Session) (k : KEY) : str := http_get (_request s) k.
Definition resp_get (s : Session) (k : KEY) : str := http_get (_response s) k.

(** [Session::vyatta_debug] *)
Definition vyatta_debug (dbgstr : str) (s : Session) : Session :=
  if _debug s then resp_append HTTP_RESP_DEBUG dbgstr s else s.

Lemma vyatta_debug_off d s : _debug s = false -> vyatta_debug d s = s.
Proof. unfold vyatta_debug. by intros ->. Qed.

(** An authenticated session with a request for a method and a path. *)
Definition request_session (method path : str) (auth : AUTH_ACCESS_TYPE) (acc : AccessLevel) (u : str) : Session :=
  let s := new_Session false in
  mkSession false (http_set (http_set (_request s) HTTP_REQ_URI path) HTTP_REQ_METHOD method)
    (_response s) u acc false auth [].

(** ** [JSON] *)

Inductive JSON := mkJSON {
  _coll : cmap str JSON;
  _array : cmap str (list str);
  _value : cmap str str;
}.

Definition new_JSON : JSON := mkJSON [] [] [].

Definition dq (s : str) : str := dquote :: s ++ [dquote].

(** [add_array]: the value is a reference, quoted in place unless it is
    already; the second result is what the caller's string becomes. *)
Definition add_array (j : JSON) (key val : str) (quoted : bool) : JSON * str :=
  if decide (key = [] \/ val = []) then (j, val)
  else
    let val := if quoted then val else dq val in
    match mget key (_array j) with
    | None => (mkJSON (_coll j) (minsert key [val] (_array j)) (_value j), val)
    | Some c => (mkJSON (_coll j) (mset key (c ++ [val]) (_array j)) (_value j), val)
    end.

(** [add_value(key, string)] *)
Definition add_value (j : JSON) (key val : str) : JSON :=
  if decide (key = [] \/ val = []) then j
  else mkJSON (_coll j) (_array j) (mset key val (_value j)).

(** [add_value(key, unsigned long)], formatted as a [long] in an array of 20
    characters. *)
Definition add_value_ul (j : JSON) (key : str) (val : N) : res JSON :=
  if decide (key = []) then Ok j
  else
    let* buf := sprintf_into 20 (dec_signed val) in
    Ok (mkJSON (_coll j) (_array j) (mset key buf (_value j))).

(** [get_elements] *)
Definition get_elements (j : JSON) (key : str) : list str := default [] (mget key (_array j)).

(** [add_hash]: the child the caller's pointer is set to. *)
Definition add_hash (j : JSON) (key : str) : bool * JSON * option JSON :=
  if decide (key = []) then (false, j, None)
  else
    let coll := minsert key new_JSON (_coll j) in
    (true, mkJSON coll (_array j) (_value j), mget key coll).

(** [get_hash] *)
Fixpoint get_hash (j : JSON) (keys : list str) : JSON :=
  match keys with
  | [] => new_JSON
  | key :: keys' =>
      match mget key (_coll j) with
      | None => new_JSON
      | Some child => match keys' with [] => child | _ => get_hash child keys' end
      end
  end.

(** [rep.substr(0, rep.length() - 1)]; the length wraps for an empty string. *)
Definition chop (s : str) : str := take (length s - 1) s.

Definition serialize_array (rep : str) (p : str * list str) : str :=
  let rep :=
    match p.2 with
    | [] => rep
    | js =>
        let rep := rep ++ dq p.1 ++ lit ":[" in
        let rep := foldl (fun rep j => rep ++ j ++ lit ",") rep js in
        chop rep ++ lit "]"
    end in
  rep ++ lit ",".

Definition serialize_value (rep : str) (p : str * str) : str :=
  rep ++ dq p.1 ++ lit ":" ++ dq p.2 ++ lit ",".

(** [JSON::serialize(rep)] *)
Fixpoint json_serialize (j : JSON) (rep : str) : str :=
  match j with
  | mkJSON [] [] [] => rep
  | mkJSON coll array value =>
      let rep := rep ++ lit "{" in
      let rep := foldl serialize_array rep array in
      let rep := foldl serialize_value rep value in
      let rep := chop rep ++ lit "}" in
      (fix children (l : cmap str JSON) (rep : str) : str :=
         match l with
         | [] => rep
         | (_, c) :: l' => children l' (rep ++ lit "," ++ json_serialize c [])
         end) coll rep
  end.

(** [json.serialize(resp); session._response.set(Rest::HTTP_BODY, resp)] *)
Definition set_json (j : JSON) (s : Session) : Session := resp_set HTTP_BODY (json_serialize j []) s.

(** ** [Error] *)

Inductive ERROR_TYPE :=
| E_OK
| CREATED
| ACCEPTED
| VALIDATION_FAILURE
| CONFIGURATION_ERROR
| APPMODE_SCRIPT_ERROR
| SERVICEMODE_SCRIPT_ERROR
| CONFMODE_DUP_DESC_ERROR
| AUTHORIZATION_FAILURE
| COMMAND_NOT_FOUND
| OPMODE_PROCESS_FINISHED
| SERVER_ERROR
| SERVER_COMMAND_ERROR
| ENTITLEMENT_ERROR.

#[export] Instance ERROR_TYPE_eq_dec : EqDecision ERROR_TYPE.
Proof. solve_decision. Defined.

(** [http_response_error]: status, message, error number. *)
Definition http_response_error (t : ERROR_TYPE) : str * str * str :=
  match t with
  | E_OK => (lit "200", [], [])
  | CREATED => (lit "201", [], [])
  | ACCEPTED => (lit "202", [], [])
  | VALIDATION_FAILURE => (lit "400", lit "Validation failure", lit "0")
  | CONFIGURATION_ERROR => (lit "400", [], [])
  | APPMODE_SCRIPT_ERROR => (lit "400", [], [])
  | SERVICEMODE_SCRIPT_ERROR => (lit "400", lit "Service command error", lit "1")
  | CONFMODE_DUP_DESC_ERROR => (lit "400", lit "Duplicate configuration description", lit "1")
  | AUTHORIZATION_FAILURE => (lit "401", lit "Authorization failure", lit "0")
  | COMMAND_NOT_FOUND => (lit "404", lit "Command not found", lit "0")
  | OPMODE_PROCESS_FINISHED => (lit "410", [], [])
  | SERVER_ERROR => (lit "500", lit "Server error", lit "0")
  | SERVER_COMMAND_ERROR => (lit "500", [], [])
  | ENTITLEMENT_ERROR => (lit "503", lit "Entitlement error", lit "2")
  end.

(** The body of an error response. *)
Definition error_body (type : ERROR_TYPE) (msg : str) : str :=
  let '(_, text, num) := http_response_error type in
  let json := new_JSON in
  let json := add_value json (lit "message") (if decide (msg = []) then text else text ++ lit ": " ++ msg) in
  let json := add_value json (lit "error") num in
  json_serialize json [].

(** [Error(session, type, msg)] *)
Definition Error_msg (type : ERROR_TYPE) (msg : str) (s : Session) : Session :=
  let '(code, _, _) := http_response_error type in
  let resp := error_body type msg in
  let s := if decide (resp <> []) then resp_set HTTP_BODY resp s else s in
  resp_set HTTP_RESP_CODE code s.

(** [Error(session, type)] *)
Definition Error (type : ERROR_TYPE) (s : Session) : Session := Error_msg type [] s.

(** ** Laws of the parameter collections *)

Lemma http_get_set_eq h k v : http_get (http_set h k v) k = v.
Proof. unfold http_get. simpl. by rewrite mget_mset_eq. Qed.

Lemma http_get_set_ne h k k' v : k' <> k -> http_get (http_set h k v) k' = http_get h k'.
Proof. intros. unfold http_get. simpl. by rewrite mget_mset_ne. Qed.

Lemma http_get_append_ne h k k' v : k' <> k -> http_get (http_append h k v) k' = http_get h k'.
Proof. intros. unfold http_append. by apply http_get_set_ne. Qed.

Lemma http_get_erase_ne h k k' : k' <> k -> http_get (http_erase h k) k' = http_get h k'.
Proof. intros. unfold http_get. simpl. by rewrite mget_merase, decide_False. Qed.

#[export] Hint Rewrite http_get_set_eq : rest.
#[export] Hint Rewrite http_get_set_ne http_get_append_ne http_get_erase_ne using done : rest.

(** The parameters of a message are in the order of their keys. *)
Definition http_wf (h : HTTP) : Prop := msorted (_param_coll h).

Lemma http_wf_new d : http_wf (new_HTTP d).
Proof. constructor. Qed.

Lemma http_wf_set h k v : http_wf h -> http_wf (http_set h k v).
Proof. apply msorted_mset. Qed.

Lemma http_wf_append h k v : http_wf h -> http_wf (http_append h k v).
Proof. apply msorted_mset. Qed.

Lemma http_wf_erase h k : http_wf h -> http_wf (http_erase h k).
Proof. apply msorted_merase. Qed.

Lemma http_wf_set_c h k v : http_wf h -> http_wf (http_set_c h k v).
Proof. destruct v; [apply http_wf_set | done]. Qed.

#[export] Hint Resolve http_wf_new http_wf_set http_wf_append http_wf_erase http_wf_set_c : rest.

(** ** The serialized response *)

(** The header lines of some parameters. *)
Definition header_lines (l : cmap KEY str) : str :=
  l ≫= (fun p => match header_name p.1 with
                 | Some name => name ++ p.2 ++ crlf
                 | None => []
                 end).

Definition status_line (h : HTTP) : str :=
  match mget HTTP_RESP_CODE (_param_coll h) with
  | Some code => lit "Status: " ++ code ++ crlf
  | None => []
  end.

(** The body, which has the greatest key, comes last. *)
Lemma body_last (m : cmap KEY str) b :
  msorted m -> mget HTTP_BODY m = Some b ->
  exists l, m = l ++ [(HTTP_BODY, b)] /\ HTTP_BODY ∉ l.*1.
Proof.
  unfold msorted. induction m as [|[k v] m IH]; [done|].
  simpl. intros Hs. inversion Hs as [|? ? Hs' Hall]; subst. case_decide as E.
  - intros [= ->]. subst k. exists []. destruct m as [|[k' v'] m].
    + split; [done | apply not_elem_of_nil].
    + simpl in Hall. inversion Hall as [|? ? Hlt]; subst. by destruct k'.
  - intros Hg. destruct (IH Hs' Hg) as (l & -> & Hl). exists ((k, v) :: l).
    split; [done|]. by apply not_elem_of_cons.
Qed.

Lemma mset_last_body (l : cmap KEY str) b v :
  HTTP_BODY ∉ l.*1 -> mset HTTP_BODY v (l ++ [(HTTP_BODY, b)]) = l ++ [(HTTP_BODY, v)].
Proof.
  induction l as [|[k w] l IH]; intros Hn; [done|]. apply not_elem_of_cons in Hn as [Hk Hl].
  cbn [app mset]. replace (key_compare HTTP_BODY k) with Gt by (by destruct k). by rewrite IH.
Qed.

Section SerializeFacts.
Variable reformat : str -> option str.

Lemma serialize_fold h o b l :
  HTTP_BODY ∉ l.*1 ->
  foldl (serialize_step reformat h) (o, b) l = (o ++ header_lines l, b).
Proof.
  revert o; induction l as [|[k v] l IH]; intros o Hn; [by rewrite app_nil_r|].
  apply not_elem_of_cons in Hn as [Hk Hl]. cbn [foldl]. unfold serialize_step at 2.
  unfold header_lines. rewrite bind_cons. cbn [fst snd].
  destruct (header_name k) as [name|] eqn:E.
  - rewrite IH by done. by rewrite !app_assoc.
  - rewrite decide_False by (intros ->; done). by rewrite IH.
Qed.

Lemma serialize_body_step h o b v :
  foldl (serialize_step reformat h) (o, b) [(HTTP_BODY, v)] =
  (o ++ lit "Content-Length: " ++ dec (N.of_nat (length (out_body reformat h v))) ++ crlf,
   out_body reformat h v).
Proof. cbn [foldl serialize_step header_name fst snd]. by rewrite decide_True. Qed.

Lemma out_body_nil h : out_body reformat h [] = [].
Proof. unfold out_body. by rewrite decide_False by naive_solver. Qed.

Lemma serialize_tail (o body : str) :
  (if decide (body <> []) then o ++ crlf ++ body else o ++ crlf) = o ++ crlf ++ body.
Proof. case_decide as E; [done|]. rewrite E. by rewrite app_nil_r. Qed.

(** A response with a body is sent as its status line, its
    headers in key order, a Content-Length that is exactly the number of
    bytes of the body that follows the blank line, and that body; a body
    over the maximum is replaced by an empty one under status 500. *)
Theorem http_serialize_framing (h : HTTP) (b : str) :
  http_wf h -> mget HTTP_BODY (_param_coll h) = Some b ->
  exists l, _param_coll h = l ++ [(HTTP_BODY, b)] /\
    let over := bool_decide (MAX_BODY_SIZE < N.of_nat (length b))%N in
    let body := if over then [] else out_body reformat h b in
    (http_serialize reformat h).1 =
      (if over then lit "Status: 500" ++ crlf else status_line h) ++ header_lines l ++
      lit "Content-Length: " ++ dec (N.of_nat (length body)) ++ crlf ++ crlf ++ body.
Proof.
  intros Hwf Hb. destruct (body_last _ _ Hwf Hb) as (l & Hl & Hn). exists l. split; [done|].
  unfold http_serialize. rewrite Hb. fold (status_line h). case_bool_decide as Ho.
  - rewrite decide_True by done. cbn [_param_coll http_set].
    rewrite Hl, (mset_last_body _ _ _ Hn), foldl_app, serialize_fold by done.
    rewrite serialize_body_step, out_body_nil. cbn [fst]. rewrite serialize_tail.
    by rewrite <- !app_assoc.
  - rewrite decide_False by done. rewrite Hl, foldl_app, serialize_fold by done.
    rewrite serialize_body_step. cbn [fst]. rewrite serialize_tail. by rewrite <- !app_assoc.
Qed.

(** Without a body there is no length either. *)
Lemma http_serialize_plain (h : HTTP) :
  mget HTTP_BODY (_param_coll h) = None ->
  (http_serialize reformat h).1 = status_line h ++ header_lines (_param_coll h) ++ crlf.
Proof.
  intros Hb. unfold http_serialize. rewrite Hb. fold (status_line h).
  rewrite serialize_fold by (by apply mget_None). rewrite decide_False by (by intros H). by rewrite <- app_assoc.
Qed.
End SerializeFacts.

Lemma http_serialize_framing_witness :
  let h := http_set (http_set (new_HTTP false) HTTP_BODY (lit "{}")) HTTP_RESP_CODE (lit "200") in
  exists l, _param_coll h = l ++ [(HTTP_BODY, lit "{}")] /\
    let over := bool_decide (MAX_BODY_SIZE < N.of_nat (length (lit "{}")))%N in
    let body := if over then [] else out_body Some h (lit "{}") in
    (http_serialize Some h).1 =
      (if over then lit "Status: 500" ++ crlf else status_line h) ++ header_lines l ++
      lit "Content-Length: " ++ dec (N.of_nat (length body)) ++ crlf ++ crlf ++ body.
Proof.
  intros h. apply (http_serialize_framing Some h (lit "{}")).
  - unfold h. auto with rest.
  - vm_compute. reflexivity.
Defined.

(** ** Serialized JSON *)

(** An object without nested hashes and without empty arrays. *)
Definition json_flat (j : JSON) : Prop := _coll j = [] /\ Forall (fun p => p.2 <> []) (_array j).

Definition array_member (p : str * list str) : str :=
  dq p.1 ++ lit ":[" ++ join (lit ",") p.2 ++ lit "]".
Definition value_member (p : str * str) : str := dq p.1 ++ lit ":" ++ dq p.2.

Definition json_members (j : JSON) : list str :=
  (array_member <$> _array j) ++ (value_member <$> _value j).

Lemma json_flat_new : json_flat new_JSON.
Proof. split; [done | constructor]. Qed.

Lemma Forall_mset {V} (P : V -> Prop) k v (m : cmap str V) :
  P v -> Forall (fun p => P p.2) m -> Forall (fun p => P p.2) (mset k v m).
Proof.
  intros Hv. induction 1 as [|[k' v'] m Hk Hm IH]; simpl; [by repeat constructor|].
  case_match; by repeat constructor.
Qed.

Lemma json_flat_add_array j k v q : json_flat j -> json_flat (add_array j k v q).1.
Proof.
  intros [Hc Ha]. unfold add_array. case_decide; [done|].
  destruct (mget k (_array j)) eqn:E; split; simpl; try done.
  - apply (Forall_mset (fun l => l <> [])); [by destruct l | done].
  - unfold minsert. rewrite E. by apply (Forall_mset (fun l => l <> [])).
Qed.

Lemma add_value_ne j k v :
  k <> [] ->
  add_value j k v =
  if decide (v = []) then j else mkJSON (_coll j) (_array j) (mset k v (_value j)).
Proof. intros. unfold add_value. repeat case_decide; naive_solver. Qed.

Lemma json_flat_add_value j k v : json_flat j -> json_flat (add_value j k v).
Proof. intros [Hc Ha]. unfold add_value. case_decide; done. Qed.

#[export] Hint Resolve json_flat_new json_flat_add_array json_flat_add_value : rest.

(** The array of [add_value_ul] is too short for exactly the values whose
    [long] is negative with 19 digits: their sign leaves no room for the
    terminator. *)
Lemma add_value_ul_overflow j key val :
  key <> [] -> (val < u64)%N ->
  add_value_ul j key val = Fault BufferOverflow <-> (2 ^ 63 <= val <= u64 - 10 ^ 18)%N.
Proof.
  intros Hk Hv. unfold add_value_ul, sprintf_into. rewrite decide_False by done.
  transitivity (20 <= length (dec_signed val)); [case_decide; naive_solver lia|].
  unfold dec_signed. case_decide as Hs.
  - assert (length (dec val) <= 19) by (apply (length_dec_le val 18); etrans; [exact Hs | done]). lia.
  - rewrite length_app. change (length (lit "-")) with 1. split; intros H.
    + split; [lia|]. destruct (decide (u64 - val < 10 ^ 18)%N) as [Hd|]; [|unfold u64 in *; lia].
      apply (length_dec_le _ 17) in Hd. lia.
    + assert (10 ^ N.of_nat 18 <= u64 - val)%N as Hd%length_dec_gt by (change (N.of_nat 18) with 18%N; unfold u64 in *; lia).
      lia.
Qed.

Lemma foldl_terminated rep (l : list str) :
  foldl (fun rep j => rep ++ j ++ lit ",") rep l = rep ++ (l ≫= (fun j => j ++ lit ",")).
Proof.
  revert rep; induction l as [|j l IH]; intros rep; [by rewrite app_nil_r|].
  cbn [foldl]. rewrite IH, bind_cons. by rewrite <- !app_assoc.
Qed.

Lemma chop_terminated a l :
  l <> [] -> chop (a ++ (l ≫= (fun s => s ++ lit ","))) = a ++ join (lit ",") l.
Proof. apply (join_terminated comma). Qed.

Lemma serialize_arrays rep l :
  Forall (fun p => p.2 <> []) l ->
  foldl serialize_array rep l = rep ++ ((array_member <$> l) ≫= (fun m => m ++ lit ",")).
Proof.
  intros Hl. revert rep; induction Hl as [|[k v] l Hv Hl IH]; intros rep; [by rewrite app_nil_r|].
  cbn [foldl]. rewrite IH, fmap_cons, bind_cons. unfold serialize_array. cbn [fst snd] in *.
  destruct v as [|x v]; [done|]. rewrite foldl_terminated, chop_terminated by done.
  unfold array_member. cbn [fst snd]. by rewrite <- !app_assoc.
Qed.

Lemma serialize_values rep l :
  foldl serialize_value rep l = rep ++ ((value_member <$> l) ≫= (fun m => m ++ lit ",")).
Proof.
  revert rep; induction l as [|[k v] l IH]; intros rep; [by rewrite app_nil_r|].
  cbn [foldl]. rewrite IH, fmap_cons, bind_cons. unfold serialize_value, value_member.
  cbn [fst snd]. by rewrite <- !app_assoc.
Qed.

Lemma json_serialize_members (j : JSON) (rep : str) :
  json_flat j ->
  json_serialize j rep =
  match json_members j with
  | [] => rep
  | ms => rep ++ lit "{" ++ join (lit ",") ms ++ lit "}"
  end.
Proof.
  destruct j as [coll arr val]. intros [Hc Ha]. simpl in Hc, Ha. subst coll.
  unfold json_members. cbn [_array _value].
  destruct arr as [|p arr]; [destruct val as [|q val]; [done|]|];
    cbn [json_serialize]; rewrite serialize_arrays, serialize_values, <- ?app_assoc, <- ?bind_app
      by (done || constructor); rewrite ?app_assoc, chop_terminated by done; simpl;
    by rewrite <- !app_assoc.
Qed.

(** What the server does to a JSON object between its construction and its
    serialization. *)
Inductive json_op :=
| AddArray (key val : str) (quoted : bool)
| AddValue (key val : str).

Definition apply_op (j : JSON) (op : json_op) : JSON :=
  match op with
  | AddArray k v q => (add_array j k v q).1
  | AddValue k v => add_value j k v
  end.

Definition json_build (ops : list json_op) : JSON := foldl apply_op new_JSON ops.

Lemma json_build_flat ops : json_flat (json_build ops).
Proof.
  unfold json_build. assert (json_flat new_JSON) as Hj by auto with rest. revert Hj.
  generalize new_JSON as j. induction ops as [|op ops IH]; intros j Hj; [done|].
  apply IH. destruct op; simpl; auto with rest.
Qed.

(** An object built with [add_array] and [add_value] is written as
    a brace, its members in key order (arrays first) separated by single
    commas, and a brace, after what the output held; an object without
    members writes nothing. *)
Theorem json_serialize_built (ops : list json_op) (rep : str) :
  json_serialize (json_build ops) rep =
  match json_members (json_build ops) with
  | [] => rep
  | ms => rep ++ lit "{" ++ join (lit ",") ms ++ lit "}"
  end.
Proof. apply json_serialize_members, json_build_flat. Qed.

(** Adding values one by one to one array of an object that lacks it. *)
Definition add_all (j : JSON) (key : str) (vals : list str) (quoted : bool) : JSON :=
  foldl (fun j v => (add_array j key v quoted).1) j vals.

Definition array_value (quoted : bool) (v : str) : str := if quoted then v else dq v.

Lemma add_all_more coll arr val key vals q l :
  key <> [] ->
  add_all (mkJSON coll (mset key l arr) val) key vals q =
  mkJSON coll (mset key (l ++ (array_value q <$> filter (fun v => v <> []) vals)) arr) val.
Proof.
  intros Hk. unfold add_all. revert l; induction vals as [|v vals IH]; intros l.
  - cbn. by rewrite app_nil_r.
  - cbn [foldl]. rewrite filter_cons. unfold add_array at 2. case_decide as Hv.
    + assert (v = []) as -> by naive_solver. rewrite decide_False by naive_solver. apply IH.
    + rewrite decide_True by naive_solver. cbn [_array _coll _value]. rewrite mget_mset_eq.
      cbn [fst]. rewrite mset_mset, IH, fmap_cons, <- app_assoc. done.
Qed.

Lemma add_all_new j key vals q :
  key <> [] -> mget key (_array j) = None ->
  add_all j key vals q =
  match filter (fun v => v <> []) vals with
  | [] => j
  | vs => mkJSON (_coll j) (mset key (array_value q <$> vs) (_array j)) (_value j)
  end.
Proof.
  intros Hk. revert j; induction vals as [|v vals IH]; intros j Hl; [done|].
  unfold add_all. cbn [foldl]. unfold add_array at 2. rewrite filter_cons. case_decide as Hv.
  - assert (v = []) as -> by naive_solver. rewrite decide_False by naive_solver. by apply IH.
  - rewrite decide_True by naive_solver. rewrite Hl. cbn [fst]. unfold minsert. rewrite Hl.
    apply (add_all_more (_coll j) (_array j) (_value j) key vals q [array_value q v]). done.
Qed.

Lemma json_flat_add_all j key vals q : json_flat j -> json_flat (add_all j key vals q).
Proof.
  unfold add_all. revert j; induction vals as [|v vals IH]; intros j Hj; [done|]. cbn [foldl].
  by apply IH, json_flat_add_array.
Qed.

(** A message in an error response, as JSON members. *)
Definition error_members (type : ERROR_TYPE) (msg : str) : list str :=
  let '(_, text, num) := http_response_error type in
  let text := if decide (msg = []) then text else text ++ lit ": " ++ msg in
  (if decide (num = []) then [] else [value_member (lit "error", num)]) ++
  (if decide (text = []) then [] else [value_member (lit "message", text)]).

Lemma error_body_spec type msg :
  error_body type msg =
  match error_members type msg with
  | [] => []
  | ms => lit "{" ++ join (lit ",") ms ++ lit "}"
  end.
Proof.
  unfold error_body, error_members. destruct (http_response_error type) as [[code text] num].
  generalize (if decide (msg = []) then text else text ++ lit ": " ++ msg) as t. intros t.
  rewrite json_serialize_members by auto with rest.
  rewrite !add_value_ne by done.
  destruct (decide (t = [])) as [->|Ht], (decide (num = [])) as [->|Hn]; done.
Qed.

(** ** Error responses *)

(** Two sessions that differ in their responses only. *)
Definition same_but_response (s s' : Session) : Prop :=
  _debug s' = _debug s /\ _request s' = _request s /\ _user s' = _user s /\
  _access_level s' = _access_level s /\ _service_user s' = _service_user s /\
  _auth_type s' = _auth_type s /\ _session_key s' = _session_key s.

#[export] Instance same_but_response_preorder : PreOrder same_but_response.
Proof.
  split; [by repeat split|]. intros s t u. unfold same_but_response. naive_solver congruence.
Qed.

Lemma same_but_response_upd f s : same_but_response s (upd_response f s).
Proof. by repeat split. Qed.

Lemma same_but_response_debug d s : same_but_response s (vyatta_debug d s).
Proof. unfold vyatta_debug. destruct (_debug s) eqn:E; [apply same_but_response_upd | done]. Qed.

Lemma user_debug d s : _user (vyatta_debug d s) = _user s.
Proof. by destruct (same_but_response_debug d s) as (_ & _ & H & _). Qed.

Lemma access_debug d s : _access_level (vyatta_debug d s) = _access_level s.
Proof. by destruct (same_but_response_debug d s) as (_ & _ & _ & H & _). Qed.

Lemma req_debug d s k : req_get (vyatta_debug d s) k = req_get s k.
Proof. unfold req_get. by destruct (same_but_response_debug d s) as (_ & -> & _). Qed.
#[export] Hint Rewrite user_debug access_debug req_debug : rest.

Lemma same_but_response_error t m s : same_but_response s (Error_msg t m s).
Proof.
  unfold Error_msg. destruct (http_response_error t) as [[code ?] ?].
  case_decide; by repeat split.
Qed.

#[export] Hint Resolve same_but_response_upd same_but_response_debug same_but_response_error : rest.

(** The response part of a session is well formed. *)
Definition response_wf (s : Session) : Prop := http_wf (_response s).

Lemma response_wf_new d : response_wf (new_Session d).
Proof. apply http_wf_new. Qed.

Lemma response_wf_set k v s : response_wf s -> response_wf (resp_set k v s).
Proof. apply http_wf_set. Qed.

Lemma response_wf_append k v s : response_wf s -> response_wf (resp_append k v s).
Proof. apply http_wf_append. Qed.

Lemma response_wf_debug d s : response_wf s -> response_wf (vyatta_debug d s).
Proof. unfold vyatta_debug. case_match; [apply response_wf_append | done]. Qed.

Lemma response_wf_error t m s : response_wf s -> response_wf (Error_msg t m s).
Proof.
  intros. unfold Error_msg. destruct (http_response_error t) as [[code ?] ?].
  apply response_wf_set. case_decide; [by apply response_wf_set | done].
Qed.

#[export] Hint Resolve response_wf_new response_wf_set response_wf_append response_wf_debug
  response_wf_error : rest.

Lemma resp_get_set_eq k v s : resp_get (resp_set k v s) k = v.
Proof. apply http_get_set_eq. Qed.

Lemma resp_get_set_ne k k' v s : k' <> k -> resp_get (resp_set k v s) k' = resp_get s k'.
Proof. apply http_get_set_ne. Qed.

Lemma resp_get_debug k d s :
  k <> HTTP_RESP_DEBUG -> resp_get (vyatta_debug d s) k = resp_get s k.
Proof. intros. unfold vyatta_debug. case_match; [by apply http_get_append_ne | done]. Qed.

#[export] Hint Rewrite resp_get_set_eq : rest.
#[export] Hint Rewrite resp_get_set_ne resp_get_debug using done : rest.

Lemma Error_code t m s :
  resp_get (Error_msg t m s) HTTP_RESP_CODE = (http_response_error t).1.1.
Proof.
  unfold Error_msg. destruct (http_response_error t) as [[code ?] ?]. apply resp_get_set_eq.
Qed.
#[export] Hint Rewrite Error_code : rest.

(** An error response carries the status of its type; its body is
    the JSON object with the error number and the message (prefixed by the
    type's text), or the body set before when the type has neither; no other
    part of the response, and nothing else of the session, changes. *)
Theorem error_response_correct (type : ERROR_TYPE) (msg : str) (s : Session) :
  let s' := Error_msg type msg s in
  resp_get s' HTTP_RESP_CODE = (http_response_error type).1.1 /\
  resp_get s' HTTP_BODY =
    match error_members type msg with
    | [] => resp_get s HTTP_BODY
    | ms => lit "{" ++ join (lit ",") ms ++ lit "}"
    end /\
  (forall k, k <> HTTP_RESP_CODE -> k <> HTTP_BODY -> resp_get s' k = resp_get s k) /\
  same_but_response s s'.
Proof.
  split; [apply Error_code|]. split; [|split; [|apply same_but_response_error]].
  - unfold Error_msg. rewrite error_body_spec.
    destruct (http_response_error type) as [[code ?] ?]. rewrite resp_get_set_ne by done.
    destruct (error_members type msg) as [|m ms]; [done|].
    rewrite decide_True by done. by rewrite resp_get_set_eq.
  - intros k Hk1 Hk2. unfold Error_msg. destruct (http_response_error type) as [[code ?] ?].
    rewrite resp_get_set_ne by done. case_decide; [by rewrite resp_get_set_ne | done].
Qed.
