(* ===== verification/Json.v ===== *)
(** * JSON texts (RFC 8259)

    The grammar of JSON, and the conditions under which the text [Http]
    writes is in it.  The server builds its bodies by putting text between
    quotes; the functions that escape it, and those that do not, are told
    apart by the theorems here and in the files of the modes.  A character
    is a byte; bytes from 128 on stand for parts of characters that need no
    escape. *)

From S2P Require Import Prelude CppString CppMap Http.

(** ** The grammar *)

Definition jspace (c : ascii) : bool :=
  bool_decide (c = space) || bool_decide (c = tab) || bool_decide (c = nl) || bool_decide (c = cr).

Definition jdigit (c : ascii) : bool := (48 <=? N_of_ascii c)%N && (N_of_ascii c <=? 57)%N.

Definition jhex (c : ascii) : bool :=
  jdigit c || (65 <=? N_of_ascii c)%N && (N_of_ascii c <=? 70)%N ||
  (97 <=? N_of_ascii c)%N && (N_of_ascii c <=? 102)%N.

(** A character that stands for itself in a string. *)
Definition jplain (c : ascii) : bool :=
  (32 <=? N_of_ascii c)%N && negb (bool_decide (c = dquote)) && negb (bool_decide (c = backslash)).

(** The characters behind a backslash. *)
Definition jescapes : str := dquote :: backslash :: lit "/bfnrt".

(** The inside of a string. *)
Inductive jtext : str -> Prop :=
| jtext_nil : jtext []
| jtext_plain c s : jplain c = true -> jtext s -> jtext (c :: s)
| jtext_escape c s : c ∈ jescapes -> jtext s -> jtext (backslash :: c :: s)
| jtext_unicode a b c d s :
    Forall (fun x => jhex x = true) [a; b; c; d] -> jtext s ->
    jtext (backslash :: lit "u" ++ [a; b; c; d] ++ s).

Definition jdigits (s : str) : Prop := s <> [] /\ Forall (fun c => jdigit c = true) s.

(** No leading zeros, an optional fraction, an optional exponent. *)
Inductive jnumber : str -> Prop :=
| jnumber_intro sign int frac exp :
    sign ∈ [[]; lit "-"] ->
    jdigits int -> (forall x s, int = x :: s -> x = ascii_of_nat 48 -> s = []) ->
    (frac = [] \/ exists ds, frac = lit "." ++ ds /\ jdigits ds) ->
    (exp = [] \/ exists e sg ds, exp = e ++ sg ++ ds /\ e ∈ [lit "e"; lit "E"] /\
                                 sg ∈ [[]; lit "+"; lit "-"] /\ jdigits ds) ->
    jnumber (sign ++ int ++ frac ++ exp).

Inductive jkind := JValue | JMembers | JElements.

Inductive json : jkind -> str -> Prop :=
| json_string t : jtext t -> json JValue (dq t)
| json_number n : jnumber n -> json JValue n
| json_literal l : l ∈ [lit "true"; lit "false"; lit "null"] -> json JValue l
| json_empty_object w : forallb jspace w = true -> json JValue (lit "{" ++ w ++ lit "}")
| json_object ms : json JMembers ms -> json JValue (lit "{" ++ ms ++ lit "}")
| json_empty_array w : forallb jspace w = true -> json JValue (lit "[" ++ w ++ lit "]")
| json_array es : json JElements es -> json JValue (lit "[" ++ es ++ lit "]")
| json_member w1 t w2 w3 v w4 :
    forallb jspace w1 = true -> jtext t -> forallb jspace w2 = true -> forallb jspace w3 = true ->
    json JValue v -> forallb jspace w4 = true ->
    json JMembers (w1 ++ dq t ++ w2 ++ lit ":" ++ w3 ++ v ++ w4)
| json_more_members ms ns : json JMembers ms -> json JMembers ns -> json JMembers (ms ++ lit "," ++ ns)
| json_element w1 v w2 :
    forallb jspace w1 = true -> json JValue v -> forallb jspace w2 = true -> json JElements (w1 ++ v ++ w2)
| json_more_elements es fs : json JElements es -> json JElements fs -> json JElements (es ++ lit "," ++ fs).

(** ** Texts and lists *)

Lemma jtext_app a b : jtext a -> jtext b -> jtext (a ++ b).
Proof.
  intros Ha Hb. induction Ha; cbn [app]; [done | by apply jtext_plain | by apply jtext_escape|].
  by apply (jtext_unicode a b0 c d (s ++ b)).
Qed.

Lemma jtext_chars s : Forall (fun c => jplain c = true) s -> jtext s.
Proof. induction 1; by constructor. Qed.

Lemma jtext_bind (f : ascii -> str) s : Forall (fun c => jtext (f c)) s -> jtext (s ≫= f).
Proof. induction 1; [constructor|]. rewrite bind_cons. by apply jtext_app. Qed.

Lemma jtext_notin s : Forall (fun c => (32 <= N_of_ascii c)%N) s -> dquote ∉ s -> backslash ∉ s -> jtext s.
Proof.
  intros Hs Hd Hb. apply jtext_chars. rewrite Forall_forall in Hs |- *. intros c Hc. unfold jplain.
  rewrite !bool_decide_eq_false_2 by (intros ->; done). cbn [negb].
  rewrite !andb_true_r. apply N.leb_le. by apply Hs.
Qed.

(** Text that only needs its quotes and line ends escaped. *)
Definition simple (c : ascii) : Prop := ((32 <= N_of_ascii c)%N \/ c = nl) /\ c <> backslash.

#[export] Instance simple_dec c : Decision (simple c).
Proof. unfold simple. apply _. Defined.

Lemma jplain_spec c : jplain c = true <-> (32 <= N_of_ascii c)%N /\ c <> dquote /\ c <> backslash.
Proof.
  unfold jplain. rewrite !andb_true_iff, !negb_true_iff, !bool_decide_eq_false, N.leb_le. tauto.
Qed.

Lemma Forall_cstr (P : ascii -> Prop) s : Forall P s -> Forall P (cstr s).
Proof.
  induction 1 as [|c s Hc Hs IH]; [constructor|]. cbn [cstr]. repeat case_match; by repeat constructor.
Qed.

(** Numerals. *)
Lemma jtext_dec n : jtext (dec n).
Proof.
  apply jtext_chars. unfold dec. destruct (base_digits_spec 10 n) as (_ & Hall & _); [lia|].
  apply Forall_fmap. eapply Forall_impl; [exact Hall|]. intros d Hd. cbn in Hd |- *.
  assert (N_of_ascii (digit_char d) = 48 + d)%N as Hc by (rewrite N_of_digit_char, decide_True by lia; done).
  unfold jplain. rewrite Hc, !bool_decide_eq_false_2; [cbn [negb]; rewrite !andb_true_r; apply N.leb_le; lia|intros E; rewrite E in Hc..].
  - change (92 = 48 + d)%N in Hc. lia.
  - change (34 = 48 + d)%N in Hc. lia.
Qed.

Lemma jtext_dec_signed n : jtext (dec_signed n).
Proof. unfold dec_signed. case_decide; [|apply jtext_app; [by apply jtext_chars; repeat constructor|]]; apply jtext_dec. Qed.

Lemma json_member_text k v : jtext k -> json JValue v -> json JMembers (dq k ++ lit ":" ++ v).
Proof.
  intros Hk Hv. pose proof (json_member [] k [] [] v [] eq_refl Hk eq_refl eq_refl Hv eq_refl) as H.
  cbn [app] in H. by rewrite app_nil_r in H.
Qed.

Lemma json_join_members l : Forall (json JMembers) l -> l <> [] -> json JMembers (join (lit ",") l).
Proof.
  induction 1 as [|m l Hm Hl IH]; intros Hne; [done|]. destruct l as [|n l]; [done|].
  apply json_more_members; [done | by apply IH].
Qed.

Lemma json_join_elements l : Forall (json JValue) l -> l <> [] -> json JElements (join (lit ",") l).
Proof.
  assert (forall v, json JValue v -> json JElements v) as Hone.
  { intros v Hv. pose proof (json_element [] v [] eq_refl Hv eq_refl) as H. cbn [app] in H. by rewrite app_nil_r in H. }
  induction 1 as [|m l Hm Hl IH]; intros Hne; [done|]. destruct l as [|n l]; [by apply Hone|].
  apply json_more_elements; [by apply Hone | by apply IH].
Qed.

(** ** The builder *)

(** What the members of an object have to be. *)
Definition json_clean (j : JSON) : Prop :=
  _coll j = [] /\
  Forall (fun p => jtext p.1 /\ p.2 <> [] /\ Forall (json JValue) p.2) (_array j) /\
  Forall (fun p => jtext p.1 /\ jtext p.2) (_value j).

Lemma json_clean_new : json_clean new_JSON.
Proof. by repeat constructor. Qed.

Lemma Forall_mset_pair {V} (P : str * V -> Prop) k v (m : cmap str V) :
  P (k, v) -> Forall P m -> Forall P (mset k v m).
Proof.
  intros Hv. induction 1 as [|[k' v'] m Hk Hm IH]; simpl; [by repeat constructor|].
  case_match; subst; by repeat constructor.
Qed.

Lemma json_clean_add_value j k v : json_clean j -> jtext k -> jtext v -> json_clean (add_value j k v).
Proof.
  intros (Hc & Ha & Hv) Hk Ht. unfold add_value. case_decide; [done|]. split_and!; try done.
  by apply Forall_mset_pair.
Qed.

Lemma json_clean_add_array j k v (q : bool) :
  json_clean j -> jtext k -> (if q then json JValue v else jtext v) -> json_clean (add_array j k v q).1.
Proof.
  intros (Hc & Ha & Hv) Hk Ht. unfold add_array. case_decide; [done|].
  assert (json JValue (if q then v else dq v)) as Hval by (destruct q; [done | by constructor]).
  destruct (mget k (_array j)) as [c|] eqn:E; split_and!; try done; cbn.
  - apply Forall_mset_pair; [|done]. split; [done|]. split; [by destruct c|].
    apply mget_Some_elem in E. rewrite Forall_forall in Ha. destruct (Ha _ E) as (_ & _ & Hl).
    apply Forall_app. split; [done | by apply Forall_singleton].
  - unfold minsert. rewrite E. apply Forall_mset_pair; [|done].
    split; [done|]. split; [done | by apply Forall_singleton].
Qed.

Lemma json_clean_add_all j k vals (q : bool) :
  json_clean j -> jtext k -> Forall (fun v => if q then json JValue v else jtext v) vals ->
  json_clean (add_all j k vals q).
Proof.
  unfold add_all. intros Hj Hk Hv. revert j Hj. induction Hv as [|v vals Hv _ IH]; intros j Hj; [done|].
  cbn [foldl]. apply IH. by apply json_clean_add_array.
Qed.

(** Its text is nothing, or JSON. *)
Lemma json_clean_serialize j : json_clean j -> json_serialize j [] = [] \/ json JValue (json_serialize j []).
Proof.
  intros (Hc & Ha & Hv). rewrite json_serialize_members.
  2: { split; [done|]. eapply Forall_impl; [exact Ha|]. by intros p (_ & ? & _). }
  assert (Forall (json JMembers) (json_members j)) as Hm.
  { unfold json_members. apply Forall_app. split; apply Forall_fmap.
    - eapply Forall_impl; [exact Ha|]. intros p (Hk & Hne & Hl). apply json_member_text; [done|].
      apply json_array. by apply json_join_elements.
    - eapply Forall_impl; [exact Hv|]. intros p [Hk Ht]. apply json_member_text; [done|]. by constructor. }
  destruct (json_members j) as [|m ms]; [by left | right]. cbn [app]. apply json_object. by apply json_join_members.
Qed.

(** An object written by hand: its members are strings. *)
Definition object_text (ms : list (str * str)) : str :=
  lit "{" ++ join (lit ",") (value_member <$> ms) ++ lit "}".

Lemma object_text_json ms :
  ms <> [] -> Forall (fun p => jtext p.1 /\ jtext p.2) ms -> json JValue (object_text ms).
Proof.
  intros Hne Hms. apply json_object, json_join_members; [|by destruct ms].
  apply Forall_fmap. eapply Forall_impl; [exact Hms|]. intros p [Hk Ht].
  apply json_member_text; [done|]. by constructor.
Qed.

(** Shows an object written by hand to be one of string members. *)
Ltac object_form ms :=
  match goal with |- json JValue ?x =>
    replace x with (object_text ms)
      by (unfold object_text; cbn [fmap list_fmap join]; unfold value_member; cbn [fst snd];
          rewrite <- !app_assoc; reflexivity)
  end;
  apply object_text_json; [discriminate|];
  repeat (constructor; [split; [apply jtext_chars; by_compute|]|]); [..|constructor].

(** ** What is not JSON *)

(** The double quotes of a text. *)
Definition quotes (s : str) : nat := length (filter (fun c => c = dquote) s).

Lemma quotes_app a b : quotes (a ++ b) = quotes a + quotes b.
Proof. unfold quotes. by rewrite filter_app, length_app. Qed.

Lemma quotes_none s : dquote ∉ s -> quotes s = 0.
Proof.
  intros Hs. unfold quotes. induction s as [|c s IH]; [done|]. apply not_elem_of_cons in Hs as [Hc Hs].
  rewrite filter_cons, decide_False by done. by apply IH.
Qed.

Lemma jtext_quotes t : jtext t -> backslash ∉ t -> quotes t = 0.
Proof.
  intros Ht Hb. apply quotes_none. induction Ht as [|c s Hc _ IH|c s|a b c d s]; [apply not_elem_of_nil|..].
  - rewrite not_elem_of_cons in Hb |- *. split; [|by apply IH; destruct Hb].
    intros <-. by vm_compute in Hc.
  - exfalso. apply Hb. by left.
  - exfalso. apply Hb. by left.
Qed.

Lemma jspace_quotes w : forallb jspace w = true -> quotes w = 0.
Proof.
  intros Hw. apply quotes_none. intros Hin. rewrite forallb_forall in Hw. apply list_elem_of_In in Hin.
  apply Hw in Hin. by vm_compute in Hin.
Qed.

Lemma jnumber_quotes n : jnumber n -> quotes n = 0.
Proof.
  assert (forall ds, jdigits ds -> quotes ds = 0) as Hd.
  { intros ds [_ H]. apply quotes_none. rewrite Forall_forall in H. intros Hin. apply H in Hin. by vm_compute in Hin. }
  intros [sign int frac exp Hs Hi _ Hf He]. rewrite !quotes_app, (Hd int Hi).
  rewrite !elem_of_cons in Hs.
  assert (quotes frac = 0) as -> by (destruct Hf as [->|(ds & -> & H)]; [done | rewrite quotes_app, (Hd ds H); done]).
  assert (quotes exp = 0) as ->.
  { destruct He as [->|(e & sg & ds & -> & Hee & Hsg & H)]; [done|]. rewrite !quotes_app, (Hd ds H).
    rewrite !elem_of_cons in Hee. rewrite !elem_of_cons in Hsg.
    destruct Hee as [->|[->|[]%elem_of_nil]], Hsg as [->|[->|[->|[]%elem_of_nil]]]; done. }
  destruct Hs as [->|[->|[]%elem_of_nil]]; done.
Qed.

Lemma quotes_dq t : quotes (dq t) = 2 + quotes t.
Proof.
  unfold dq, quotes. rewrite filter_cons, decide_True by done. rewrite filter_app. cbn [length]. rewrite length_app. simpl. lia.
Qed.

(** A text without backslashes and with an odd number of double quotes is no
    JSON. *)
Lemma json_quotes k s : json k s -> backslash ∉ s -> Nat.even (quotes s) = true.
Proof.
  induction 1 as [t Ht|n Hn|l Hl|w Hw|ms _ IH|w Hw|es _ IH|w1 t w2 w3 v w4 H1 Ht H2 H3 _ IH H4
                 |ms ns _ IH1 _ IH2|w1 v w2 H1 _ IH H2|es fs _ IH1 _ IH2]; intros Hb;
    repeat rewrite ?not_elem_of_app, ?not_elem_of_cons in Hb;
    rewrite ?quotes_app, ?quotes_dq.
  - unfold dq in Hb. rewrite not_elem_of_cons, not_elem_of_app in Hb. by rewrite (jtext_quotes t) by (done || apply Hb).
  - by rewrite (jnumber_quotes n).
  - rewrite !elem_of_cons in Hl. destruct Hl as [->|[->|[->|[]%elem_of_nil]]]; done.
  - by rewrite (jspace_quotes w).
  - rewrite Nat.add_0_r. apply IH. apply Hb.
  - by rewrite (jspace_quotes w).
  - rewrite Nat.add_0_r. apply IH. apply Hb.
  - rewrite (jspace_quotes w1), (jspace_quotes w2), (jspace_quotes w3), (jspace_quotes w4) by done.
    unfold dq in Hb. rewrite not_elem_of_cons, not_elem_of_app in Hb.
    rewrite (jtext_quotes t) by (done || apply Hb). cbn. rewrite Nat.add_0_r. apply IH, Hb.
  - rewrite !Nat.even_add, IH1, IH2 by apply Hb. done.
  - rewrite (jspace_quotes w1), (jspace_quotes w2), Nat.add_0_r by done. apply IH, Hb.
  - rewrite !Nat.even_add, IH1, IH2 by apply Hb. done.
Qed.
