(* ===== verification/Mode.v ===== *)
(** * [Mode] (mode.hh, mode.cc)

    The base class of the handlers: [process], as an interface with the laws
    the dispatch relies on, and the two functions for scripts:
    [handle_cmd_output] turns what a script printed into response headers
    and body; [system_out] collects what it prints. *)

From S2P Require Import Prelude CppString StrProc Common CppMap Http.

(** ** Running a script *)

(** What the parent's [read] of the pipe gives, round by round; the end is
    end of file, an error, or an error of [select]. *)
Inductive read_event :=
| ReadData (data : str)
| ReadAgain
| ReadEnd.

(** A script: whether the pipe could be made, what is read from it, and
    [WEXITSTATUS] of the status of the child [wait] returns. *)
Record child_run := mkRun {
  run_pipe : bool;
  run_reads : list read_event;
  run_status : N;
}.

(** The loop of the parent: the characters collected. *)
Fixpoint read_loop (reads : list read_event) (data : str) : str :=
  match reads with
  | ReadData d :: reads' => if decide (d = []) then data else read_loop reads' (data ++ d)
  | ReadAgain :: reads' => read_loop reads' data
  | _ => data
  end.

(** [Mode::system_out] *)
Definition system_out (run : child_run) (out : str) : Z * str :=
  if run_pipe run then (Z.of_N (run_status run), read_loop (run_reads run) []) else ((-1)%Z, out).

(** ** Output *)

(** One header line of a script. *)
Definition header_override (s : Session) (line : str) : Session :=
  if strncaseeq 13 (lit "Content-Type:") line then
    if decide (14 < length line) then
      upd_response set_verbatim
        (resp_set HTTP_RESP_CONTENT_TYPE (cstr (drop 14 line)) s)
    else s
  else if strncaseeq 11 (lit "Set-Cookie:") line then
    if decide (12 < length line) then resp_set HTTP_RESP_COOKIE (cstr (drop 12 line)) s else s
  else if strncaseeq 14 (lit "Cache-Control:") line then
    if decide (14 < length line) then
      let cache_control := cstr (drop 14 line) in
      if contains cache_control (lit "vyatta-disable")
      then upd_response (fun h => http_erase h HTTP_RESP_CACHE_CONTROL) s
      else resp_set HTTP_RESP_CACHE_CONTROL cache_control s
    else s
  else if strncaseeq 20 (lit "Content-Disposition:") line then
    if decide (20 < length line) then
      resp_set HTTP_RESP_CONTENT_DISPOSITION (cstr (drop 20 line)) s
    else s
  else s.

(** The mark between the headers and the body of a script's output. *)
Definition header_mark : str := [cr; nl; nl].

(** [Mode::handle_cmd_output] *)
Definition handle_cmd_output (cmdout : str) (s : Session) : res Session :=
  match find cmdout header_mark 0 with
  | Some pos =>
      let header := sub cmdout 0 pos in
      let* coll := str_proc header [nl] in
      let s := foldl header_override s coll in
      if decide (pos < length cmdout)
      then let* cmdout := substr_from cmdout (pos + 3) in
           Ok (resp_set HTTP_BODY cmdout s)
      else Ok s
  | None => Ok (resp_set HTTP_BODY cmdout s)
  end.

(** The response keys a script may set. *)
Definition script_key (k : KEY) : bool :=
  bool_decide (k ∈ [HTTP_RESP_CONTENT_TYPE; HTTP_RESP_COOKIE; HTTP_RESP_CACHE_CONTROL;
                    HTTP_RESP_CONTENT_DISPOSITION]).

Lemma resp_get_erase k k' s :
  k' <> k -> resp_get (upd_response (fun h => http_erase h k) s) k' = resp_get s k'.
Proof. apply http_get_erase_ne. Qed.

Lemma header_override_keys s line k :
  script_key k = false -> resp_get (header_override s line) k = resp_get s k.
Proof.
  intros Hk. unfold header_override.
  repeat case_match; try done;
    rewrite ?resp_get_erase by (by intros ->);
    first [done | by rewrite resp_get_set_ne by (by intros ->) |
           change (resp_get (upd_response set_verbatim ?x) k) with (resp_get x k);
           by rewrite resp_get_set_ne by (by intros ->) | idtac].
Qed.

Lemma header_override_frame s line : same_but_response s (header_override s line).
Proof. unfold header_override. repeat case_match; by repeat split. Qed.

Lemma header_override_wf s line : response_wf s -> response_wf (header_override s line).
Proof.
  intros Hs. unfold header_override. repeat case_match; try done; try by apply response_wf_set.
  apply http_wf_erase, Hs.
Qed.

Lemma overrides_facts coll s :
  same_but_response s (foldl header_override s coll) /\
  (response_wf s -> response_wf (foldl header_override s coll)) /\
  (forall k, script_key k = false -> resp_get (foldl header_override s coll) k = resp_get s k).
Proof.
  revert s; induction coll as [|l coll IH]; intros s; [done|]. cbn [foldl].
  destruct (IH (header_override s l)) as (H1 & H2 & H3). split; [|split].
  - etrans; [apply header_override_frame | done].
  - intros Hs. by apply H2, header_override_wf.
  - intros k Hk. rewrite H3 by done. by apply header_override_keys.
Qed.

(** What the output means: the header lines and the body. *)
Definition script_parts (cmdout : str) : list str * str :=
  match find cmdout header_mark 0 with
  | Some pos => (str_proc_spec (take pos cmdout) [nl], drop (pos + 3) cmdout)
  | None => ([], cmdout)
  end.

Lemma handle_cmd_output_parts cmdout s :
  handle_cmd_output cmdout s =
  Ok (resp_set HTTP_BODY (script_parts cmdout).2
        (foldl header_override s (script_parts cmdout).1)).
Proof.
  unfold handle_cmd_output, script_parts.
  destruct (find cmdout header_mark 0) as [pos|] eqn:E; [|done].
  apply find_Some_le in E as [_ Hle]. change (length header_mark) with 3 in Hle.
  rewrite str_proc_ok by (notin || done). cbn [res_bind].
  rewrite decide_True by lia. unfold substr_from. rewrite decide_True by lia.
  unfold sub. by rewrite drop_0.
Qed.

(** Claim C29: a script's output always yields a response: the body is what
    follows the first header mark (the whole output without a mark), and
    the header lines can change the content type, cookie, cache control and
    disposition only, never the status, the location or who the session
    belongs to. *)
Theorem handle_cmd_output_correct (cmdout : str) (s : Session) :
  exists s', handle_cmd_output cmdout s = Ok s' /\
    resp_get s' HTTP_BODY = (script_parts cmdout).2 /\
    (forall k, script_key k = false -> k <> HTTP_BODY -> resp_get s' k = resp_get s k) /\
    same_but_response s s' /\ (response_wf s -> response_wf s').
Proof.
  rewrite handle_cmd_output_parts. eexists; split; [done|].
  destruct (overrides_facts (script_parts cmdout).1 s) as (H1 & H2 & H3).
  split; [|split; [|split]].
  - apply resp_get_set_eq.
  - intros k Hk Hb. rewrite resp_get_set_ne by done. by apply H3.
  - etrans; [exact H1 | apply same_but_response_upd].
  - intros Hs. by apply response_wf_set, H2.
Qed.

(** A script line free of the characters the split treats specially. *)
Definition plain_line (a : str) : Prop :=
  (nl ∉ a) /\ (cr ∉ a) /\ (tab ∉ a) /\ (tilde ∉ a).

Lemma find_two_headers a b body :
  plain_line a -> plain_line b ->
  find0 ((a ++ cr :: nl :: b) ++ header_mark ++ body) header_mark =
  Some (length (a ++ cr :: nl :: b)).
Proof.
  intros (Hna & Hra & _) (Hnb & Hrb & _). unfold header_mark.
  rewrite <- app_assoc, find0_skip by done. cbn [app find0].
  assert (is_prefix [cr; nl; nl] (cr :: nl :: b ++ cr :: nl :: nl :: body) = false) as ->.
  { destruct b as [|x b]; [done|]. apply not_elem_of_cons in Hnb as [Hx _].
    cbn [app is_prefix]. rewrite (bool_decide_eq_false_2 (nl = x)) by done. by rewrite !andb_false_r. }
  cbn [is_prefix]. rewrite (bool_decide_eq_false_2 (cr = nl)) by done. cbn [andb].
  rewrite find0_skip by done. cbn [find0 is_prefix andb].
  rewrite !bool_decide_eq_true_2 by done. cbn [andb fmap option_fmap option_map].
  rewrite !length_app. cbn [length]. f_equal. lia.
Qed.

(** When a script prints exactly two header lines, the single
    newline between them is removed before the split, so both become one
    line and only the first is recognised. *)
Theorem two_header_lines_merge (a b body : str) (s : Session) :
  plain_line a -> plain_line b ->
  handle_cmd_output ((a ++ cr :: nl :: b) ++ header_mark ++ body) s =
  Ok (resp_set HTTP_BODY body (header_override s (a ++ cr :: b))).
Proof.
  intros Ha Hb. rewrite handle_cmd_output_parts. unfold script_parts.
  rewrite find_0, find_two_headers by done.
  rewrite take_app_length, drop_app_add. change (drop 3 (header_mark ++ body)) with body.
  cbn [fst snd]. destruct Ha as (Hna & Hra & Hta & Hla), Hb as (Hnb & Hrb & Htb & Hlb).
  replace (str_proc_spec (a ++ cr :: nl :: b) [nl]) with [a ++ cr :: b]; [done|].
  unfold str_proc_spec. change (a ++ cr :: nl :: b) with (a ++ [cr] ++ nl :: b).
  rewrite app_assoc, prepare_one_nl by notin. rewrite <- app_assoc. cbn [app].
  rewrite replace_all_notin by notin. rewrite fields_notin; [done | notin | by destruct a].
Qed.

Lemma two_header_lines_merge_witness :
  handle_cmd_output ((lit "Content-Type: text/html" ++ cr :: nl :: lit "Set-Cookie: k=v")
                     ++ header_mark ++ lit "hi") (new_Session false) =
  Ok (resp_set HTTP_BODY (lit "hi")
        (header_override (new_Session false)
           (lit "Content-Type: text/html" ++ cr :: lit "Set-Cookie: k=v"))).
Proof. apply two_header_lines_merge; repeat split; by_compute. Defined.

(** ** The interface of a mode *)

(** What handling a request may do to its session: answer it.  Who is
    authenticated and what was requested stay, and so does the order of the
    response's parameters. *)
Definition responded (s s' : Session) : Prop :=
  same_but_response s s' /\ (response_wf s -> response_wf s').

#[export] Instance responded_preorder : PreOrder responded.
Proof.
  split; [by intros s; split|]. intros s t u [H1 H2] [H3 H4]. split; [by etrans | auto].
Qed.

Create HintDb responds discriminated.

Section Responded.
Context (s t : Session) (Hst : responded s t).

Lemma responded_upd f : (forall h, http_wf h -> http_wf (f h)) -> responded s (upd_response f t).
Proof.
  intros Hf. etrans; [exact Hst|]. split; [apply same_but_response_upd|]. apply Hf.
Qed.

Lemma responded_verbatim : responded s (upd_response set_verbatim t).
Proof. by apply responded_upd. Qed.

Lemma responded_set k v : responded s (resp_set k v t).
Proof. apply responded_upd. intros h. apply http_wf_set. Qed.

Lemma responded_debug d : responded s (vyatta_debug d t).
Proof.
  unfold vyatta_debug. destruct (Http._debug t); [|done]. apply responded_upd. intros h. apply http_wf_append.
Qed.

Lemma responded_error type msg : responded s (Error_msg type msg t).
Proof.
  etrans; [exact Hst|]. split; [apply same_but_response_error | apply response_wf_error].
Qed.

Lemma responded_plain_error type : responded s (Error type t).
Proof. apply responded_error. Qed.

Lemma responded_json json : responded s (set_json json t).
Proof. apply responded_set. Qed.
End Responded.

Lemma responded_refl s : responded s s.
Proof. done. Qed.

Lemma responded_output cmdout s s' : handle_cmd_output cmdout s = Ok s' -> responded s s'.
Proof.
  rewrite handle_cmd_output_parts. intros [= <-].
  destruct (overrides_facts (script_parts cmdout).1 s) as (H1 & H2 & _).
  by apply responded_set.
Qed.

#[export] Hint Resolve responded_refl responded_verbatim responded_set responded_debug responded_error
  responded_plain_error responded_json : responds.

(** A handler that refuses a request. *)
Definition refused (s s' : Session) : Prop :=
  responded s s' /\ resp_get s' HTTP_RESP_CODE ∈ [lit "400"; lit "401"].

Lemma refused_error type s t :
  responded s t -> (http_response_error type).1.1 ∈ [lit "400"; lit "401"] -> refused s (Error type t).
Proof. intros Hs Hc. split; [by apply responded_plain_error|]. unfold Error. by rewrite Error_code. Qed.

(** A mode's [process], with its events, and what [allowed] lets an event
    of a session be. *)
Class Mode {E : Type} (process : Session -> files -> res (Session * files * list E))
    (allowed : Session -> files -> E -> Prop) := {
  mode_refuses s fs :
    _auth_type s = AUTH_TYPE_NONE -> exists s', process s fs = Ok (s', fs, []) /\ refused s s';
  mode_responds s fs s' fs' evs : process s fs = Ok (s', fs', evs) -> responded s s';
  mode_allowed s fs s' fs' evs :
    process s fs = Ok (s', fs', evs) -> Forall (allowed s fs) evs;
  mode_allowed_frame s s' fs ev : same_but_response s s' -> allowed s' fs ev -> allowed s fs ev;
}.

(** Follows a handler that returned to the sessions it returns. *)
Ltac opens H :=
  repeat match type of H with
  | res_bind _ _ = Ok _ => let a := fresh "a" in let E := fresh "E" in apply res_bind_ok in H as (a & E & H)
  | context [decide ?P] => destruct (decide P)
  | (if ?b then _ else _) = _ => destruct b eqn:?
  | match ?x with _ => _ end = _ => destruct x eqn:?
  end;
  try (injection H; clear H; intros; subst).

Ltac responds H := opens H; cbn [fst snd] in *; repeat case_match; simplify_eq; auto 10 with responds.
