(* ===== verification/ChunkerProcessor.v ===== *)
(** * [ChunkerProcessor] (chunker2_processor.hh, chunker2_processor.cc)

    The part of the chunker daemon that runs one operational command: the
    guards and the two forks of [start_new], the change of identity, the
    argument vector handed to the command runner, the pid file, and the
    reader that copies the command's output into the token's data file.
    What the system calls answer is a record of parameters. *)

From S2P Require Import Prelude CppString Common CppMap Http Json.

Record ChunkerProcessor := mkProcessor {
  _proc_chunk_size : N;
  _pid_path : str;
  _proc_debug : bool;
}.

(** [init] *)
Definition processor_init (chunk_size : N) (pid_path : str) (debug : bool) : ChunkerProcessor :=
  mkProcessor chunk_size pid_path debug.

(** ** [tokenizeOpCmd] *)

(** The text after an opening quote at [strloc]: up to the closing quote, or
    the rest of the command when [quote_close] is [npos]. *)
Definition quoted (cmd : str) (strloc : nat) : str :=
  match find cmd [quote] (strloc + 1) with
  | Some quote_close => sub cmd (strloc + 1) (quote_close - strloc - 1)
  | None => drop (strloc + 1) cmd
  end.

(** The loop.  Without a closing quote [quote_close + 1] wraps to zero and
    the scan starts again. *)
Fixpoint tokenize_loop (fuel : nat) (cmd : str) (strloc : nat) (arr : list str)
    : res (list str) :=
  match fuel with
  | O => Fault OutOfFuel
  | S f =>
      match find cmd [space] strloc with
      | None =>
          let* substr :=
            (if decide (find cmd [quote] strloc = Some strloc) then Ok (quoted cmd strloc)
             else substr_from cmd strloc) in
          if decide (substr <> [] /\ substr <> [quote; quote]) then Ok (arr ++ [cstr substr])
          else Ok arr
      | Some seploc =>
          if decide (find cmd [quote] strloc = Some strloc) then
            let strloc' := match find cmd [quote] (strloc + 1) with
                           | Some quote_close => quote_close + 1
                           | None => 0
                           end in
            tokenize_loop f cmd strloc' (arr ++ [cstr (quoted cmd strloc)])
          else
            let* substr := substr cmd strloc (seploc - strloc) in
            tokenize_loop f cmd (seploc + 1)
              (if decide (substr <> []) then arr ++ [cstr substr] else arr)
      end
  end.

Definition tokenizeOpCmd (opmodecmd : str) : res (list str) :=
  tokenize_loop (S (S (length opmodecmd))) opmodecmd 0 [].

(** ** [writer] *)

(** The JSON argument list passed in the environment. *)
Definition opc_args (opcmdarr : list str) : str :=
  lit "OPC_ARGS=" ++
  json_serialize (foldl (fun j a => (add_array j (lit "args") a false).1) new_JSON opcmdarr) [].

(** [pid_output]: the value returned and the files. *)
Definition pid_output (opens : bool) (fs : files) (path : str) (pgrp : N) : Z * files :=
  if opens then (Z.of_N pgrp, <[path := dec pgrp ++ [nl]]> fs) else ((-1)%Z, fs).

(** What the process running the command does, in order. *)
Inductive sys_event :=
| SetLoginUid (uid : N)
| SetGroups (groups : list N)
| SetGid (gid : N)
| SetUid (uid : N)
| PidFile (path : str)
| Execve (path : str) (envp : list str).

#[export] Instance sys_event_eq_dec : EqDecision sys_event.
Proof. solve_decision. Defined.

(** [writer] up to the [execve]; the pid file, whose text is what
    [pid_output] writes, is named by its event. *)
Definition pid_event (p : ChunkerProcessor) (token : str) : list sys_event :=
  if decide (_pid_path p <> []) then [PidFile (_pid_path p ++ lit "/" ++ token)] else [].

Definition writer (p : ChunkerProcessor) (token cmd user : str) : res (list sys_event) :=
  let* opcmdarr := tokenizeOpCmd cmd in
  Ok (pid_event p token ++ [Execve (lit "/opt/vyatta/bin/opc")
                [lit "EFFECTIVE_USER=" ++ user;
                 lit "VYATTA_PROCESS_CLIENT=gui2_rest";
                 opc_args opcmdarr]]).

(** ** [start_new] *)

Record passwd := mkPasswd { pw_uid : N; pw_gid : N; pw_groups : list N }.

(** The answers of the system calls [start_new] depends on; [env_fork1] and
    [env_fork2] say whether its two [fork]s create a process. *)
Record start_env := mkStartEnv {
  env_fork1 : bool;
  env_fork2 : bool;
  env_pipe : bool;
  env_getpwnam : str -> option passwd;
  env_setloginuid : bool;
  env_setgroups : bool;
  env_setgid : bool;
  env_setuid : bool;
}.

(** How [start_new] ends in one of the processes it runs in. *)
Inductive proc_end := Returns (b : bool) | Exits (code : N).

#[export] Instance proc_end_eq_dec : EqDecision proc_end.
Proof. solve_decision. Defined.

(** The process of the second [fork]: it takes the identity of the user and
    runs the command.  [getgrouplist] fails for more than ten groups. *)
Definition worker (e : start_env) (p : ChunkerProcessor) (token cmd user : str) (pw : passwd)
    : res (list sys_event * proc_end) :=
  if negb (env_setloginuid e) then Ok ([], Exits 1)
  else
    let log := [SetLoginUid (pw_uid pw)] in
    if decide (10 < length (pw_groups pw)) then Ok (log, Returns false)
    else if negb (env_setgroups e) then Ok (log, Returns false)
    else
      let log := log ++ [SetGroups (pw_groups pw)] in
      if negb (env_setgid e) then Ok (log, Returns false)
      else
        let log := log ++ [SetGid (pw_gid pw)] in
        if negb (env_setuid e) then Ok (log, Returns false)
        else
          let log := log ++ [SetUid (pw_uid pw)] in
          let* w := writer p token cmd user in
          Ok (log ++ w, Exits 0).

(** [start_new] in the calling process, in the process of the first [fork]
    and in the one of the second, [None] where there is no such process.  A
    [fork] that fails answers -1, which the code takes for the parent's side:
    after the second, the reader reads an empty pipe and the process exits. *)
Definition start_new (e : start_env) (p : ChunkerProcessor) (token cmd user : str)
    : res (proc_end * option proc_end * option (list sys_event * proc_end)) :=
  if decide (cmd = [] \/ token = [] \/ user = []) then Ok (Returns false, None, None)
  else if negb (env_fork1 e) then Ok (Returns true, None, None)
  else if negb (env_pipe e) then Ok (Returns true, Some (Exits 1), None)
  else match env_getpwnam e user with
       | None => Ok (Returns true, Some (Returns false), None)
       | Some pw =>
           if negb (env_fork2 e) then Ok (Returns true, Some (Exits 0), None)
           else
             let* w := worker e p token cmd user pw in
             Ok (Returns true, Some (Exits 0), Some w)
       end.

(** What the caller of [start_new] sees. *)
Definition start_new_parent (token cmd user : str) : bool :=
  negb (bool_decide (cmd = [] \/ token = [] \/ user = [])).

(** ** [reader] *)

Definition chunk_file (token : str) : str :=
  CHUNKER_RESP_TOK_DIR ++ CHUNKER_RESP_TOK_BASE ++ token.

Definition end_file (token : str) : str :=
  CHUNKER_RESP_TOK_DIR ++ CHUNKER_RESP_TOK_BASE ++ token ++ lit "_end".

(** [fopen(file, "a")], [fwrite] and [fclose]. *)
Definition append_file (fs : files) (file data : str) : files :=
  <[file := default [] (fs !! file) ++ data]> fs.

Section Reader.
(** Whether [fopen] succeeds on a path. *)
Variable opens : str -> bool.

(** [process_chunk]: what is returned for the next round, and the files. *)
Definition process_chunk (fs : files) (s token : str) : str * files :=
  let file := chunk_file token in
  ([], if opens file then append_file fs file s else fs).

(** [process_chunk_end] *)
Definition process_chunk_end (fs : files) (s token : str) : files :=
  let chunk := match rfind s [nl] with
               | Some pos => sub s 0 pos
               | None => s
               end in
  let file := chunk_file token in
  let fs := if opens file then append_file fs file chunk else fs in
  let file := end_file token in
  if opens file then <[file := lit "end"]> fs else fs.

(** [reader]: [reads] are the results of the successive [read] calls that
    return data, each at most the chunk size. *)
Fixpoint reader_loop (fs : files) (tmp token : str) (reads : list str) : files :=
  match reads with
  | [] => process_chunk_end fs tmp token
  | buf :: reads' =>
      let tmp := tmp ++ cstr buf in
      let '(tmp, fs) := process_chunk fs tmp token in
      reader_loop fs tmp token reads'
  end.

Definition reader (fs : files) (token : str) (reads : list str) : files :=
  reader_loop fs [] token reads.
End Reader.

(** ** [parse] *)

Definition blanks : str := [space; tab; nl].

(** The arguments a line is cut into: blanks are overwritten with NUL, and
    blanks at the end of the line leave one empty argument. *)
Fixpoint parse_line (fuel : nat) (line : str) : res (list str) :=
  match fuel with
  | O => Fault OutOfFuel
  | S f =>
      match line with
      | [] => Ok []
      | _ =>
          let line := match find_first_not_of line blanks with
                      | Some i => drop i line
                      | None => []
                      end in
          let n := default (length line) (find_first_of line blanks) in
          let* rest := parse_line f (drop n line) in
          Ok (take n line :: rest)
      end
  end.

Definition parse (line : str) : res (list str) := parse_line (S (length line)) line.

(** ** The tokenizer on a translated command *)

Lemma find_here pre s c :
  find (pre ++ s) [c] (length pre) = Some (length pre) <-> head s = Some c.
Proof.
  rewrite find_app_r. destruct s as [|x s]; [done|]. cbn [find0 is_prefix head].
  rewrite andb_true_r. case_bool_decide as E; simpl.
  - rewrite E. split; [done|]. intros _. f_equal. lia.
  - split; [|naive_solver]. destruct (find0 s [c]) as [i|]; [|done]. intros [= H]. simpl in H. lia.
Qed.

Lemma quoted_closed pre a rest :
  quote ∉ a -> quoted (pre ++ quote :: a ++ quote :: rest) (length pre) = a.
Proof.
  intros Ha. unfold quoted. change (quote :: a ++ quote :: rest) with ([quote] ++ a ++ quote :: rest).
  rewrite app_assoc. replace (length pre + 1) with (length (pre ++ [quote])) by (rewrite length_app; done).
  rewrite find_app_r, find0_char_app by done. cbn [fmap option_fmap option_map].
  unfold sub. rewrite drop_app_length, length_app. cbn [length].
  replace (length pre + 1 + length a - length pre - 1) with (length a) by lia.
  apply take_app_length.
Qed.

(** A word up to the next space. *)
Lemma tok_word f pre w rest arr :
  space ∉ w -> head (w ++ space :: rest) <> Some quote ->
  tokenize_loop (S f) (pre ++ w ++ space :: rest) (length pre) arr =
  tokenize_loop f ((pre ++ w ++ [space]) ++ rest) (length (pre ++ w ++ [space]))
    (if decide (w <> []) then arr ++ [cstr w] else arr).
Proof.
  intros Hw Hq. cbn [tokenize_loop]. rewrite find_app_r, find0_char_app by done.
  cbn [fmap option_fmap option_map]. rewrite decide_False by (by rewrite find_here).
  unfold substr. rewrite decide_True by (rewrite length_app; lia). cbn [res_bind].
  unfold sub. rewrite drop_app_length.
  replace (length pre + length w - length pre) with (length w) by lia. rewrite take_app_length.
  replace (length pre + length w + 1) with (length (pre ++ w ++ [space]))
    by (rewrite !length_app; simpl; lia).
  f_equal. rewrite <- !app_assoc. done.
Qed.

(** A quoted argument with a space somewhere behind its opening quote. *)
Lemma tok_quoted f pre a rest arr :
  quote ∉ a -> space ∈ a ++ rest ->
  tokenize_loop (S f) (pre ++ quote :: a ++ quote :: rest) (length pre) arr =
  tokenize_loop f ((pre ++ quote :: a ++ [quote]) ++ rest) (length (pre ++ quote :: a ++ [quote]))
    (arr ++ [cstr a]).
Proof.
  intros Ha Hs. cbn [tokenize_loop]. rewrite find_app_r.
  destruct (find0 (quote :: a ++ quote :: rest) [space]) as [i|] eqn:E.
  2: { apply find0_char_None in E. exfalso. apply E. set_solver. }
  cbn [fmap option_fmap option_map]. rewrite decide_True by (by rewrite find_here).
  rewrite quoted_closed by done.
  change (quote :: a ++ quote :: rest) with ([quote] ++ a ++ quote :: rest).
  rewrite app_assoc. replace (length pre + 1) with (length (pre ++ [quote])) by (rewrite length_app; done).
  rewrite find_app_r, find0_char_app by done. cbn [fmap option_fmap option_map].
  f_equal; [rewrite <- !app_assoc; cbn [app]; by rewrite <- app_assoc |].
  rewrite !length_app. cbn [length app]. rewrite length_app. cbn [length]. lia.
Qed.

(** The last piece of a command. *)
Lemma tok_last f pre a arr :
  quote ∉ a -> space ∉ a ->
  tokenize_loop (S f) (pre ++ quote :: a ++ [quote]) (length pre) arr =
  Ok (if decide (a <> []) then arr ++ [cstr a] else arr).
Proof.
  intros Ha Hs. cbn [tokenize_loop]. rewrite find_app_r, find0_notin by notin.
  cbn [fmap option_fmap option_map]. rewrite decide_True by (by rewrite find_here).
  rewrite quoted_closed by done. cbn [res_bind].
  assert (a <> [quote; quote]) by (intros ->; apply Ha; apply elem_of_cons; by left).
  repeat case_decide; naive_solver.
Qed.

Lemma tok_nil f pre arr : tokenize_loop (S f) pre (length pre) arr = Ok arr.
Proof.
  pose proof (find_app_r pre [] [space]) as Hs. pose proof (find_app_r pre [] [quote]) as Hq.
  rewrite app_nil_r in Hs, Hq. cbn [tokenize_loop]. rewrite Hs, Hq. cbn.
  rewrite decide_False by done. unfold substr_from. rewrite decide_True by lia. cbn [res_bind].
  rewrite drop_all. by rewrite decide_False by naive_solver.
Qed.

(** The arguments as they appear on a command line. *)
Definition cli_args (args : list str) : str := args ≫= (fun a => [space; quote] ++ a ++ [quote]).

(** An empty argument at the end of the command is lost. *)
Fixpoint drop_empty_last (l : list str) : list str :=
  match l with
  | [] => []
  | [a] => if decide (a = []) then [] else [a]
  | a :: l' => a :: drop_empty_last l'
  end.

Lemma tok_args f pre a args arr :
  Forall (fun a => (quote ∉ a) /\ nul ∉ a) (a :: args) -> 2 * length args + 2 <= f ->
  tokenize_loop f (pre ++ quote :: a ++ quote :: cli_args args) (length pre) arr =
  Ok (arr ++ drop_empty_last (a :: args)).
Proof.
  revert f pre a arr; induction args as [|b args IH]; intros f pre a arr H Hf;
    inversion H as [|? ? [Hq Hn] Hall]; subst; destruct f as [|[|f]]; try (simpl in Hf; lia).
  - change (cli_args []) with (@nil ascii). destruct (decide (space ∈ a)) as [Hs|Hs].
    + rewrite tok_quoted by (done || rewrite app_nil_r; done).
      rewrite app_nil_r, tok_nil, cstr_id by done. cbn [drop_empty_last].
      rewrite decide_False; [done|]. intros ->. by apply elem_of_nil in Hs.
    + rewrite tok_last, cstr_id by done. cbn [drop_empty_last].
      repeat case_decide; try done. by rewrite app_nil_r.
  - change (cli_args (b :: args)) with (space :: quote :: (b ++ [quote]) ++ cli_args args).
    rewrite <- app_assoc. rewrite tok_quoted by (done || set_solver).
    rewrite cstr_id by done.
    change (space :: quote :: b ++ [quote] ++ cli_args args)
      with ([] ++ space :: quote :: b ++ quote :: cli_args args).
    rewrite tok_word by (notin || done). rewrite decide_False by naive_solver.
    rewrite IH by (done || simpl in *; lia). cbn [drop_empty_last]. by rewrite <- app_assoc.
Qed.

Lemma tokenize_cli w args :
  w <> [] -> space ∉ w -> head w <> Some quote -> nul ∉ w ->
  Forall (fun a => (quote ∉ a) /\ nul ∉ a) args -> args <> [] ->
  tokenizeOpCmd (w ++ cli_args args) = Ok (w :: drop_empty_last args).
Proof.
  intros Hne Hs Hq Hn Hall Hargs. destruct args as [|a args]; [done|].
  unfold tokenizeOpCmd.
  change (cli_args (a :: args)) with (space :: quote :: (a ++ [quote]) ++ cli_args args).
  rewrite <- app_assoc. cbn [app].
  assert (2 * length args <= length (cli_args args)) as Hlen.
  { clear. unfold cli_args. induction args as [|b args IH]; [done|]. rewrite bind_cons, !length_app. simpl in *. lia. }
  change (w ++ space :: quote :: a ++ quote :: cli_args args)
    with ([] ++ w ++ space :: (quote :: a ++ quote :: cli_args args)) at 2.
  change 0 with (length (@nil ascii)).
  rewrite tok_word by (done || by destruct w). rewrite decide_True, cstr_id by done.
  rewrite tok_args; [done | done |].
  rewrite length_app. cbn [length]. rewrite length_app. cbn [length].
  destruct w; [done|]. cbn [length]. lia.
Qed.

(** The value a segment stands for: one pair of double quotes is removed. *)
Definition segment_value (v : str) : str :=
  if decide (char_at v 0 = dquote /\ char_at v (length v - 1) = dquote)
  then sub v 1 (length v - 2) else v.

Lemma char_at_notin v i c : c <> nul -> c ∉ v -> char_at v i <> c.
Proof.
  intros Hc Hv He. unfold char_at in He. destruct (v !! i) as [x|] eqn:E; simpl in He.
  - subst x. apply Hv. by eapply list_elem_of_lookup_2.
  - congruence.
Qed.

Lemma quote_value_plain v :
  quote ∉ v -> quote_value v = [space; quote] ++ segment_value v ++ [quote].
Proof.
  intros Hv. unfold quote_value, segment_value. rewrite decide_False.
  - case_decide; done.
  - intros [H _]. by apply (char_at_notin v 0 quote) in Hv.
Qed.

Lemma segment_value_notin v c : c ∉ v -> c ∉ segment_value v.
Proof.
  unfold segment_value. case_decide; [|done]. intros Hv Hc. apply Hv.
  unfold sub in Hc. by apply elem_of_take, elem_of_drop in Hc.
Qed.

Lemma filter_drop_empty_last l :
  filter (fun v => v <> []) (drop_empty_last l) = filter (fun v => v <> []) l.
Proof.
  induction l as [|a [|b l] IH]; [done| |].
  - cbn [drop_empty_last]. case_decide; [by subst | done].
  - change (drop_empty_last (a :: b :: l)) with (a :: drop_empty_last (b :: l)).
    by rewrite !filter_cons, IH.
Qed.

Lemma opc_args_spec l :
  opc_args l =
  lit "OPC_ARGS=" ++
  match filter (fun v => v <> []) l with
  | [] => []
  | vs => lit "{" ++ dq (lit "args") ++ lit ":[" ++ join (lit ",") (dq <$> vs) ++ lit "]}"
  end.
Proof.
  unfold opc_args. f_equal.
  change (foldl _ new_JSON l) with (add_all new_JSON (lit "args") l false).
  rewrite add_all_new by done. destruct (filter (fun v => v <> []) l) as [|v vs]; [done|].
  rewrite json_serialize_members by (split; repeat constructor; done).
  unfold json_members. cbn [_array _value new_JSON mset fmap list_fmap app].
  unfold array_member. cbn [fst snd join]. change (array_value false) with dq.
  rewrite <- !app_assoc. done.
Qed.

Section FromRest.
Variable unescape : str -> option str.

(** When no decoded segment holds a single quote, translating the path and
    cutting the command line up again gives the first segment and the values
    the decoded segments stand for, and the runner is handed the non-empty
    ones.  A value is a segment less one pair of double quotes around it. *)
Theorem op_arguments_handed (w : str) (segs : list str) :
  never_null unescape -> w <> [] -> segs <> [] ->
  (slash ∉ w) -> (space ∉ w) -> (nul ∉ w) -> head w <> Some quote ->
  Forall (fun s => (slash ∉ s) /\ quote ∉ unescaped unescape s) segs ->
  exists cmd toks,
    translate_rest_to_cli unescape (w ++ (segs ≫= cons slash)) = Ok cmd /\
    tokenizeOpCmd cmd = Ok toks /\
    toks = w :: drop_empty_last ((fun s => segment_value (unescaped unescape s)) <$> segs) /\
    opc_args toks =
      lit "OPC_ARGS={" ++ dq (lit "args") ++ lit ":[" ++
      join (lit ",") (dq <$> w :: filter (fun v => v <> [])
                               ((fun s => segment_value (unescaped unescape s)) <$> segs)) ++
      lit "]}".
Proof.
  intros Hnn Hw Hsegs Hsl Hsp Hnul Hq Hall. destruct w as [|x h]; [done|].
  apply not_elem_of_cons in Hsl as [Hx Hh].
  assert (Forall (fun s => slash ∉ s) segs) as Hslash
    by (eapply Forall_impl; [exact Hall | naive_solver]).
  set (vals := (fun s => segment_value (unescaped unescape s)) <$> segs).
  assert ((segs ≫= segment_arg unescape) = cli_args vals) as Hargs.
  { subst vals. clear -Hall. induction Hall as [|s segs [_ Hs] _ IH]; [done|].
    rewrite bind_cons, fmap_cons, IH. unfold cli_args. rewrite bind_cons. f_equal.
    by apply quote_value_plain. }
  eexists ((x :: h) ++ cli_args vals), _. split; [|split; [|split; [reflexivity|]]].
  - rewrite translate_spec, translated_segments by done. by rewrite Hargs.
  - apply (tokenize_cli (x :: h)); [done..| |by subst vals; destruct segs].
    subst vals. apply Forall_fmap. eapply Forall_impl; [exact Hall|]. intros s [_ Hs]. simpl.
    split; apply segment_value_notin; [done|].
    unfold unescaped. destruct (unescape s); [apply cstr_notin | apply not_elem_of_nil].
  - rewrite opc_args_spec, filter_cons, decide_True by done.
    by rewrite filter_drop_empty_last.
Qed.

(** The strings of a JSON text in which none of them needs an escape: what
    stands between its first double quote and its second, between its third
    and its fourth, and so on. *)
Fixpoint every_second (l : list str) : list str :=
  match l with
  | _ :: v :: l' => v :: every_second l'
  | _ => []
  end.

Definition json_strings (t : str) : list str := every_second (split_on dquote t).

(** A segment that is handed on as it is: its decoded text is neither empty
    nor holds a single quote, and stands for itself in a JSON string. *)
Definition passed_on (s : str) : Prop :=
  (slash ∉ s) /\ (quote ∉ unescaped unescape s) /\ unescaped unescape s <> [] /\
  Forall (fun c => jplain c = true) (unescaped unescape s).

Lemma jplain_dquote s : Forall (fun c => jplain c = true) s -> dquote ∉ s.
Proof. rewrite Forall_forall. intros H Hin. apply H in Hin. by vm_compute in Hin. Qed.

Lemma segment_value_id v : dquote ∉ v -> segment_value v = v.
Proof.
  intros Hv. unfold segment_value. rewrite decide_False; [done|].
  intros [H _]. by apply (char_at_notin v 0 dquote) in Hv.
Qed.

Lemma strings_join e vs :
  Forall (fun v => dquote ∉ v) vs -> vs <> [] -> dquote ∉ e ->
  forall o, dquote ∉ o -> json_strings (o ++ join (lit ",") (dq <$> vs) ++ e) = vs.
Proof.
  intros Hvs Hne He. induction Hvs as [|v vs Hv Hvs IH]; [done|]. intros o Ho.
  unfold json_strings. rewrite fmap_cons. destruct vs as [|b vs].
  - cbn [fmap list_fmap join]. unfold dq at 1. cbn [app]. rewrite <- app_assoc. cbn [app].
    rewrite !split_on_app, split_on_notin by done. done.
  - specialize (IH ltac:(done) (lit ",") ltac:(by_compute)). unfold json_strings in IH.
    change (join (lit ",") (dq v :: (dq <$> b :: vs)))
      with (dq v ++ lit "," ++ join (lit ",") (dq <$> b :: vs)).
    unfold dq at 1. cbn [app]. rewrite <- !app_assoc. cbn [app].
    rewrite !split_on_app by done. cbn [every_second]. by f_equal.
Qed.

(** Claim C12: the arguments of an operational command survive the whole way
    from the REST path to the command runner.  For segments that are not
    empty and decode to text without single or double quotes, backslashes
    and control characters, whatever blanks it holds, translating the path
    and cutting the command line up again gives the first segment and the
    decoded ones; the runner is handed a JSON text, and whoever reads its
    strings gets exactly these arguments, in order.  (libcurl decodes them
    without returning a null pointer.) *)
Theorem op_command_arguments (w : str) (segs : list str) :
  never_null unescape -> w <> [] -> segs <> [] ->
  (slash ∉ w) -> (space ∉ w) -> head w <> Some quote ->
  Forall (fun c => jplain c = true) w -> Forall passed_on segs ->
  exists cmd t,
    translate_rest_to_cli unescape (w ++ (segs ≫= cons slash)) = Ok cmd /\
    tokenizeOpCmd cmd = Ok (w :: (unescaped unescape <$> segs)) /\
    opc_args (w :: (unescaped unescape <$> segs)) = lit "OPC_ARGS=" ++ t /\
    json JValue t /\ json_strings t = lit "args" :: w :: (unescaped unescape <$> segs).
Proof.
  intros Hnn Hw Hsegs Hsl Hsp Hq Hpw Hall.
  assert (nul ∉ w) as Hnul.
  { rewrite Forall_forall in Hpw. intros Hin. apply Hpw in Hin. by vm_compute in Hin. }
  destruct (op_arguments_handed w segs) as (cmd & toks & Hcmd & Htoks & -> & _); [done..| |].
  { eapply Forall_impl; [exact Hall|]. intros s (H1 & H3 & _). done. }
  assert ((fun s => segment_value (unescaped unescape s)) <$> segs = unescaped unescape <$> segs) as Hid.
  { apply list_fmap_ext. intros i s Hs. apply segment_value_id, jplain_dquote.
    rewrite Forall_lookup in Hall. by destruct (Hall _ _ Hs) as (_ & _ & _ & H). }
  rewrite Hid in Htoks. set (vals := unescaped unescape <$> segs) in *.
  assert (Forall (fun v => v <> [] /\ Forall (fun c => jplain c = true) v) (w :: vals)) as Hvals.
  { constructor; [done|]. apply Forall_fmap. eapply Forall_impl; [exact Hall|].
    by intros s (_ & _ & H2 & H4). }
  assert (filter (fun v => v <> []) vals = vals) as Hf.
  { clear -Hvals. apply Forall_cons in Hvals as [_ Hvals]. induction Hvals as [|v l [Hv _] _ IH]; [done|].
    rewrite filter_cons, decide_True by done. by f_equal. }
  assert (drop_empty_last vals = vals) as Hl.
  { clear -Hvals. apply Forall_cons in Hvals as [_ Hvals]. induction Hvals as [|v l [Hv _] _ IH]; [done|].
    destruct l as [|b l]; [cbn; by rewrite decide_False|].
    change (v :: drop_empty_last (b :: l) = v :: b :: l). by f_equal. }
  rewrite Hl in Htoks.
  eexists cmd, (lit "{" ++ (dq (lit "args") ++ lit ":" ++
                  (lit "[" ++ join (lit ",") (dq <$> w :: vals) ++ lit "]")) ++ lit "}").
  split; [done|]. split; [done|]. split; [|split].
  - rewrite opc_args_spec, filter_cons, decide_True, Hf by done. rewrite <- !app_assoc. done.
  - apply json_object, json_member_text; [by apply jtext_chars; repeat constructor|].
    apply json_array, json_join_elements; [|done]. apply Forall_fmap.
    eapply Forall_impl; [exact Hvals|]. intros v [_ Hv]. by apply json_string, jtext_chars.
  - assert (Forall (fun v => dquote ∉ v) (w :: vals)) as Hd.
    { eapply Forall_impl; [exact Hvals|]. intros v [_ Hv]. by apply jplain_dquote. }
    pose proof (strings_join (lit "]}") (w :: vals) Hd ltac:(done) ltac:(by_compute)
                  (lit ":[") ltac:(by_compute)) as Hs.
    unfold json_strings in Hs |- *. unfold dq at 1. rewrite <- !app_assoc. cbn [app].
    change (lit "{" ++ dquote :: lit "args" ++ dquote :: ?x) with (lit "{" ++ dquote :: (lit "args" ++ dquote :: x)).
    rewrite !split_on_app by by_compute. cbn [every_second]. f_equal. exact Hs.
Qed.
End FromRest.

Lemma op_command_arguments_witness :
  let vals := unescaped Some <$> [lit "log"; lit "two words"] in
  exists cmd t,
    translate_rest_to_cli Some (lit "show" ++ ([lit "log"; lit "two words"] ≫= cons slash)) = Ok cmd /\
    tokenizeOpCmd cmd = Ok (lit "show" :: vals) /\
    opc_args (lit "show" :: vals) = lit "OPC_ARGS=" ++ t /\
    json JValue t /\ json_strings t = lit "args" :: lit "show" :: vals.
Proof.
  apply (op_command_arguments Some (lit "show") [lit "log"; lit "two words"]); [apply never_null_Some | by_compute..].
Defined.

(** ** Termination of the tokenizer *)

Lemma find_bounds s c pos i :
  find s [c] pos = Some i -> pos <= i < length s /\ s !! i = Some c.
Proof.
  unfold find. case_decide as Hp; [|done].
  intros (j & Hj & ->)%fmap_Some. destruct (find0_char_split _ _ _ Hj) as (Hs & _ & Hl).
  rewrite length_drop in Hl. split; [lia|].
  rewrite <- lookup_drop, Hs, lookup_app_r by (rewrite length_take; lia).
  rewrite length_take, Nat.min_l by (rewrite length_drop; lia). by rewrite Nat.sub_diag.
Qed.

Lemma find_exists s c pos i :
  pos <= i -> s !! i = Some c -> is_Some (find s [c] pos).
Proof.
  intros Hp Hi. unfold find. pose proof (lookup_lt_Some _ _ _ Hi).
  rewrite decide_True by lia. apply fmap_is_Some.
  destruct (find0 (drop pos s) [c]) eqn:E; [done|]. apply find0_char_None in E.
  exfalso. apply E. apply (list_elem_of_lookup_2 _ (i - pos)).
  rewrite lookup_drop. by replace (pos + (i - pos)) with i by lia.
Qed.

Lemma tokenize_loop_ends cmd strloc arr fuel :
  (quote ∉ cmd) \/ last cmd = Some quote ->
  strloc <= length cmd -> length cmd - strloc + 2 <= fuel ->
  exists toks, tokenize_loop fuel cmd strloc arr = Ok toks.
Proof.
  intros Hc. revert strloc arr; induction fuel as [|f IH]; intros strloc arr Hs Hf; [lia|].
  cbn [tokenize_loop]. destruct (find cmd [space] strloc) as [seploc|] eqn:E.
  2: { unfold substr_from. rewrite (decide_True (P := strloc <= length cmd)) by done.
       case_decide; cbn [res_bind]; case_decide; by eexists. }
  apply find_bounds in E as [Hsep Hsp]. case_decide as Hq.
  2: { unfold substr. rewrite decide_True by done. apply IH; lia. }
  apply find_bounds in Hq as [_ Hq]. destruct Hc as [Hc|Hc].
  { exfalso. apply Hc. by eapply list_elem_of_lookup_2. }
  destruct (decide (seploc = strloc)) as [->|]; [by rewrite Hq in Hsp|].
  assert (is_Some (find cmd [quote] (strloc + 1))) as [qc Hqc].
  { apply (find_exists _ _ _ (pred (length cmd))); [lia|]. by rewrite <- last_lookup. }
  rewrite Hqc. apply find_bounds in Hqc as [Hqc _]. apply IH; lia.
Qed.

Lemma quote_value_last v : last (quote_value v) = Some quote.
Proof.
  unfold quote_value. case_decide as Hv.
  - destruct Hv as [H0 Hl]. destruct v as [|x v]; [done|].
    rewrite last_app, last_lookup. unfold char_at in Hl. cbn [length] in *.
    destruct ((x :: v) !! pred (S (length v))) eqn:E; [|apply lookup_ge_None in E; simpl in *; lia].
    simpl in Hl. replace (length v - 0) with (pred (S (length v))) in Hl by lia.
    rewrite E in Hl. simpl in Hl. by subst.
  - case_decide; rewrite app_assoc; apply last_snoc.
Qed.

Lemma tokenize_stuck fuel s arr :
  (quote ∉ s) -> space ∈ s -> tokenize_loop fuel (quote :: s) 0 arr = Fault OutOfFuel.
Proof.
  intros Hq Hs. revert arr; induction fuel as [|f IH]; intros arr; [done|].
  cbn [tokenize_loop]. rewrite !find_0.
  destruct (find0 (quote :: s) [space]) as [i|] eqn:E.
  2: { apply find0_char_None in E. exfalso. apply E. apply elem_of_cons. by right. }
  cbn [find0 is_prefix]. rewrite bool_decide_eq_true_2 by done. cbn [andb].
  rewrite decide_True by done.
  pose proof (find_app_r [quote] s [quote]) as Hf. rewrite find0_notin in Hf by done.
  cbn in Hf. change (0 + 1) with 1. rewrite Hf. apply IH.
Qed.

(** Claim C22: the tokenizer returns on every command line the server builds
    from a REST path, whatever the path and its decoding, and there is such a
    command line unless libcurl returns a null pointer; on a command of
    another client that opens with a quote it never closes, and holds a
    space, it collects tokens for ever. *)
Theorem tokenizer_termination (unescape : str -> option str) (path s : str) (arr : list str) (fuel : nat) :
  (exists cmd toks, tokenizeOpCmd cmd = Ok toks /\
    (translate_rest_to_cli unescape path = Ok cmd \/
     translate_rest_to_cli unescape path = Fault NullString /\ ~ never_null unescape)) /\
  ((quote ∉ s) -> space ∈ s -> tokenize_loop fuel (quote :: s) 0 arr = Fault OutOfFuel).
Proof.
  split; [|apply tokenize_stuck]. exists (translated unescape path).
  enough (exists toks, tokenizeOpCmd (translated unescape path) = Ok toks) as [toks Ht]
    by (exists toks; split; [exact Ht | apply translate_cases]).
  destruct path as [|x r]; [by exists []|]. unfold translated.
  destruct (split_on slash r) as [|h [|seg segs]]; [by exists []..|].
  destruct (tokenize_loop_ends ((x :: h) ++ ((seg :: segs) ≫= segment_arg unescape)) 0 []
              (S (S (length ((x :: h) ++ ((seg :: segs) ≫= segment_arg unescape)))))) as [toks Ht];
    [right | lia | lia | by exists toks].
  clear. rewrite last_app. enough (last ((seg :: segs) ≫= segment_arg unescape) = Some quote) as -> by done.
  revert seg; induction segs as [|b segs IH]; intros seg; rewrite bind_cons.
  - rewrite app_nil_r. apply quote_value_last.
  - rewrite last_app, IH. done.
Qed.

(** ** Identity of the command's process *)

(** The events before a command runs under a user's identity. *)
Definition take_identity (pw : passwd) : list sys_event :=
  [SetLoginUid (pw_uid pw); SetGroups (pw_groups pw); SetGid (pw_gid pw); SetUid (pw_uid pw)].

Definition is_execve (ev : sys_event) : bool :=
  match ev with Execve _ _ => true | _ => false end.

(** Claim C13: [start_new] refuses an empty token, command or user without
    creating a process, and a [fork] that fails creates none, though the
    caller is still told of success.  A process that reaches [execve] does so after it
    took the login id, the groups, the group and the user id of exactly the
    user it was started for, and passes that user's name in the environment;
    a process in which one of these steps fails runs no command. *)
Theorem start_new_identity (e : start_env) (p : ChunkerProcessor) (token cmd user : str) r :
  start_new e p token cmd user = Ok r ->
  r.1.1 = Returns (start_new_parent token cmd user) /\
  (start_new_parent token cmd user && env_fork1 e = false -> r.1.2 = None /\ r.2 = None) /\
  (env_fork2 e = false -> r.2 = None) /\
  (forall log en, r.2 = Some (log, en) ->
     exists pw, env_getpwnam e user = Some pw /\
       (en = Exits 0 <->
        env_setloginuid e && env_setgroups e && env_setgid e && env_setuid e &&
        bool_decide (length (pw_groups pw) <= 10) = true) /\
       (en <> Exits 0 -> existsb is_execve log = false) /\
       (en = Exits 0 -> exists toks, tokenizeOpCmd cmd = Ok toks /\
          log = take_identity pw ++ pid_event p token ++
                [Execve (lit "/opt/vyatta/bin/opc")
                   [lit "EFFECTIVE_USER=" ++ user; lit "VYATTA_PROCESS_CLIENT=gui2_rest";
                    opc_args toks]])).
Proof.
  unfold start_new, start_new_parent. case_decide as Hg.
  { intros [= <-]. by rewrite bool_decide_eq_true_2. }
  rewrite bool_decide_eq_false_2 by done.
  destruct (env_fork1 e); [cbn [negb] | by intros [= <-]].
  destruct (env_pipe e); [cbn [negb] | by intros [= <-]].
  destruct (env_getpwnam e user) as [pw|]; [|by intros [= <-]].
  destruct (env_fork2 e); [cbn [negb] | by intros [= <-]].
  intros H. inv_bind. cbn [fst snd]. repeat split; [done..|].
  intros log en [= ->]. exists pw. split; [done|]. revert Ha. unfold worker.
  destruct (env_setloginuid e); cbn [negb andb]; [|by intros [= <- <-]].
  case_decide; [rewrite bool_decide_eq_false_2 by lia | rewrite bool_decide_eq_true_2 by lia].
  { rewrite andb_false_r. by intros [= <- <-]. }
  destruct (env_setgroups e); cbn [negb andb]; [|by intros [= <- <-]].
  destruct (env_setgid e); cbn [negb andb]; [|by intros [= <- <-]].
  destruct (env_setuid e); cbn [negb andb]; [|by intros [= <- <-]].
  intros H'. inv_bind. unfold writer in Ha. inv_bind.
  split; [done|]. split; [done|]. intros _. by eexists.
Qed.

Definition test_env (u : str) : start_env :=
  mkStartEnv true true true (fun v => if decide (v = u) then Some (mkPasswd 1000 100 [100; 27]%N) else None)
    true true true true.

Lemma start_new_identity_witness :
  let user := lit "vyatta" in
  let r := (Returns true, Some (Exits 0),
            Some (take_identity (mkPasswd 1000 100 [100; 27]%N) ++ [PidFile (lit "/tmp/T1")] ++
                  [Execve (lit "/opt/vyatta/bin/opc")
                     [lit "EFFECTIVE_USER=vyatta"; lit "VYATTA_PROCESS_CLIENT=gui2_rest";
                      opc_args [lit "show"; lit "version"]]], Exits 0)) in
  r.1.1 = Returns (start_new_parent (lit "T1") (lit "show 'version'") user) /\
  (start_new_parent (lit "T1") (lit "show 'version'") user && true = false ->
   r.1.2 = None /\ r.2 = None) /\
  (true = false -> r.2 = None) /\
  (forall log en, r.2 = Some (log, en) ->
     exists pw, env_getpwnam (test_env user) user = Some pw /\
       (en = Exits 0 <-> bool_decide (length (pw_groups pw) <= 10) = true) /\
       (en <> Exits 0 -> existsb is_execve log = false) /\
       (en = Exits 0 -> exists toks, tokenizeOpCmd (lit "show 'version'") = Ok toks /\
          log = take_identity pw ++ pid_event (mkProcessor 98304 (lit "/tmp") false) (lit "T1") ++
                [Execve (lit "/opt/vyatta/bin/opc")
                   [lit "EFFECTIVE_USER=" ++ user; lit "VYATTA_PROCESS_CLIENT=gui2_rest";
                    opc_args toks]])).
Proof.
  intros user r.
  apply (start_new_identity (test_env user) (mkProcessor 98304 (lit "/tmp") false) (lit "T1")
           (lit "show 'version'") user r).
  vm_compute. reflexivity.
Defined.

(** When the system knows no user of the requested name, or the
    user is in more than ten groups, a forked process neither runs the
    command nor exits: [start_new] returns in it, under the identity of the
    daemon, to the loop that serves requests. *)
Theorem start_new_leaks_process (e : start_env) (p : ChunkerProcessor) (token cmd user : str) :
  start_new_parent token cmd user = true -> env_fork1 e && env_fork2 e = true ->
  env_pipe e = true -> env_setloginuid e = true ->
  (env_getpwnam e user = None ->
   start_new e p token cmd user = Ok (Returns true, Some (Returns false), None)) /\
  (forall pw, env_getpwnam e user = Some pw -> 10 < length (pw_groups pw) ->
   start_new e p token cmd user =
   Ok (Returns true, Some (Exits 0), Some ([SetLoginUid (pw_uid pw)], Returns false))).
Proof.
  unfold start_new, start_new_parent. intros Hg [Hf1 Hf2]%andb_true_iff Hp Hl.
  apply negb_true_iff, bool_decide_eq_false in Hg. rewrite decide_False by done. rewrite Hf1, Hp, Hf2.
  split; [by intros -> | intros pw -> Hpw]. unfold worker. rewrite Hl. cbn [negb].
  by rewrite decide_True.
Qed.

Lemma start_new_leaks_process_witness :
  (env_getpwnam (test_env (lit "vyatta")) (lit "nobody1") = None ->
   start_new (test_env (lit "vyatta")) (mkProcessor 98304 (lit "/tmp") false) (lit "T1")
     (lit "show 'version'") (lit "nobody1") = Ok (Returns true, Some (Returns false), None)) /\
  (forall pw, env_getpwnam (test_env (lit "vyatta")) (lit "nobody1") = Some pw ->
   10 < length (pw_groups pw) ->
   start_new (test_env (lit "vyatta")) (mkProcessor 98304 (lit "/tmp") false) (lit "T1")
     (lit "show 'version'") (lit "nobody1") =
   Ok (Returns true, Some (Exits 0), Some ([SetLoginUid (pw_uid pw)], Returns false))).
Proof. apply start_new_leaks_process; vm_compute; reflexivity. Defined.

(** ** What the reader leaves behind *)

Lemma chunk_file_ne_end token : chunk_file token <> end_file token.
Proof.
  unfold chunk_file, end_file. intros H. apply (f_equal length) in H.
  rewrite !length_app in H. change (length (lit "_end")) with 4 in H. lia.
Qed.

Lemma append_file_eq fs file d : append_file fs file d !! file = Some (default [] (fs !! file) ++ d).
Proof. apply lookup_insert_eq. Qed.

Lemma append_file_ne fs file d f : f <> file -> append_file fs file d !! f = fs !! f.
Proof. intros. by apply lookup_insert_ne. Qed.

Lemma append_file_app fs file a b :
  append_file (append_file fs file a) file b = append_file fs file (a ++ b).
Proof.
  unfold append_file at 1. rewrite append_file_eq. unfold append_file.
  by rewrite insert_insert_eq, app_assoc.
Qed.

Lemma reader_loop_spec opens fs token reads :
  opens (chunk_file token) = true -> opens (end_file token) = true ->
  reader_loop opens fs [] token reads =
  <[end_file token := lit "end"]> (append_file fs (chunk_file token) (reads ≫= cstr)).
Proof.
  intros Hc He. revert fs; induction reads as [|r reads IH]; intros fs.
  - cbn. unfold process_chunk_end. cbn. by rewrite Hc, He.
  - cbn [reader_loop process_chunk app]. rewrite Hc, IH, append_file_app, bind_cons. done.
Qed.

(** Claim C21: the reader appends exactly what it read to the token's data
    file, for output without NUL bytes byte for byte however it was cut into
    reads, then leaves the end mark, and touches no other file. *)
Theorem reader_copies_output (opens : str -> bool) (fs : files) (token : str) (reads : list str) :
  opens (chunk_file token) = true -> opens (end_file token) = true ->
  Forall (fun r => nul ∉ r) reads ->
  let fs' := reader opens fs token reads in
  fs' !! chunk_file token = Some (default [] (fs !! chunk_file token) ++ concat reads) /\
  fs' !! end_file token = Some (lit "end") /\
  (forall f, f <> chunk_file token -> f <> end_file token -> fs' !! f = fs !! f).
Proof.
  intros Hc He Hn fs'. unfold fs', reader. rewrite reader_loop_spec by done.
  assert ((reads ≫= cstr) = concat reads) as ->.
  { clear -Hn. induction Hn as [|r reads Hr _ IH]; [done|]. rewrite bind_cons, IH. by rewrite cstr_id. }
  split; [|split].
  - rewrite lookup_insert_ne by (intros H; by apply (chunk_file_ne_end token)). apply append_file_eq.
  - apply lookup_insert_eq.
  - intros f Hf Hf'. rewrite lookup_insert_ne by done. by apply append_file_ne.
Qed.

Lemma reader_copies_output_witness :
  let fs' := reader (fun _ => true) ∅ (lit "T1") [lit "ab"; lit "cd" ++ [nl]] in
  fs' !! chunk_file (lit "T1") =
    Some (default [] ((∅ : files) !! chunk_file (lit "T1")) ++ concat [lit "ab"; lit "cd" ++ [nl]]) /\
  fs' !! end_file (lit "T1") = Some (lit "end") /\
  (forall f, f <> chunk_file (lit "T1") -> f <> end_file (lit "T1") -> fs' !! f = (∅ : files) !! f).
Proof. apply reader_copies_output; by_compute. Defined.
