(* ===== verification/ChunkerManager.v ===== *)
(** * [ChunkerManager] (chunker2_manager.hh, chunker2_manager.cc)
    and the daemon's main program (chunker2_main.cc)

    The table of running operational commands and the handling of one
    message: [<command>], [<process>], [<details>], [<next>] and [<delete>].
    What a step does to the outside is a list of events. *)

From S2P Require Import Prelude CppString StrProc Common CppMap ChunkerProcessor.

Inductive ProcStatus := K_NONE | K_RUNNING | K_DEAD.

#[export] Instance ProcStatus_eq_dec : EqDecision ProcStatus.
Proof. solve_decision. Defined.

Record ProcessData := mkProcessData {
  _proc : ChunkerProcessor;
  _start_time : N;
  _last_update : N;
  _command : str;
  _token : str;
  _user : str;
  _read_offset : N;
  _status : ProcStatus;
}.

Definition set_last_update (t : N) (pd : ProcessData) : ProcessData :=
  mkProcessData (_proc pd) (_start_time pd) t (_command pd) (_token pd) (_user pd)
    (_read_offset pd) (_status pd).
Definition set_read_offset (o : N) (pd : ProcessData) : ProcessData :=
  mkProcessData (_proc pd) (_start_time pd) (_last_update pd) (_command pd) (_token pd) (_user pd)
    o (_status pd).
Definition set_status (st : ProcStatus) (pd : ProcessData) : ProcessData :=
  mkProcessData (_proc pd) (_start_time pd) (_last_update pd) (_command pd) (_token pd) (_user pd)
    (_read_offset pd) st.

Record ChunkerManager := mkManager {
  _proc_coll : cmap str ProcessData;
  _pid : str;
  _kill_timeout : N;
  _chunk_size : N;
  _debug : bool;
}.

Definition new_ChunkerManager (pid : str) (kill_timeout chunk_size : N) (debug : bool) : ChunkerManager :=
  mkManager [] pid kill_timeout chunk_size debug.

Definition upd_coll (f : cmap str ProcessData -> cmap str ProcessData) (m : ChunkerManager)
    : ChunkerManager :=
  mkManager (f (_proc_coll m)) (_pid m) (_kill_timeout m) (_chunk_size m) (_debug m).

(** What the manager does besides changing its table and files. *)
Inductive mgr_event :=
| Started (token statement user : str)
| Respond (resp : str)
| RunCmd (cmd : str).

#[export] Instance mgr_event_eq_dec : EqDecision mgr_event.
Proof. solve_decision. Defined.

(** ** Parsing a message *)

(** [command.substr(start_pos + |open|, stop_pos - start_pos - |open|)] for
    the first occurrences of the two marks: a closing mark before the end of
    the opening one wraps the length, which then reaches to the end. *)
Definition between (command open close : str) : option str :=
  match find command open 0, find command close 0 with
  | Some start_pos, Some stop_pos =>
      let from := start_pos + length open in
      Some (if decide (from <= stop_pos) then sub command from (stop_pos - from)
            else drop from command)
  | _, _ => None
  end.

(** ** Responses *)

Definition sep : str := lit "%3A".

(** The description of a command, up to its user. *)
Definition describe (pd : ProcessData) : str :=
  dec_signed (_start_time pd) ++ sep ++ _command pd ++ sep ++ _token pd ++ sep ++ _user pd.

(** One item of the answer to [<process>] and [<details>]. *)
Definition process_item (pd : ProcessData) : str :=
  describe pd ++ sep ++ dec_signed (_read_offset pd) ++ lit "%2C".

(** The [<next>] branch for a user's own command: the entry afterwards and
    the response, when the size of the data file is taken in the files [fs]
    and the end mark looked for in the files [fs_end], a moment later. *)
Definition next_chunk_at (chunk_size : N) (fs fs_end : files) (token : str) (pd : ProcessData)
    : ProcessData * str :=
  let resp := describe pd in
  let pd := if decide (_status pd = K_DEAD) then set_read_offset (u64 - 1) pd else pd in
  let resp := resp ++ sep ++ dec_signed (_read_offset pd) ++ [nl] in
  match fs !! chunk_file token with
  | None => (pd, resp)
  | Some data =>
      let st_size := N.of_nat (length data) in
      let limit := ((_read_offset pd + chunk_size) mod u64)%N in
      if decide (limit < st_size mod u32)%N then (set_read_offset limit pd, resp)
      else
        let pd := set_read_offset st_size pd in
        match fs_end !! end_file token with
        | Some _ => (set_status K_DEAD pd, resp)
        | None => (pd, resp)
        end
  end.

Definition next_chunk (chunk_size : N) (fs : files) (token : str) (pd : ProcessData) : ProcessData * str :=
  next_chunk_at chunk_size fs fs token pd.

Section System.
(** The bytes on the stack behind what [fread] put into [pid], and whether
    [stat] finds a path after the given number of attempts. *)
Variable stack : str.
Variable stat_exists : str -> nat -> bool.

(** ** [kill_process] *)

(** The three attempts: the events and [killed]. *)
Fixpoint kill_loop (ct : nat) (term_cmd exist_file : str) : list mgr_event * bool :=
  match ct with
  | O => ([], false)
  | S ct' =>
      if stat_exists exist_file (3 - ct) then
        let '(ev, killed) := kill_loop ct' term_cmd exist_file in (RunCmd term_cmd :: ev, killed)
      else ([RunCmd term_cmd], true)
  end.

Definition pid_file (key : str) : str := CHUNKER_RESP_PID ++ lit "/" ++ key.

(** [string(pid)] for the 80 bytes read from the file: the array is not
    terminated, so the stack behind them is part of it. *)
Definition pid_text (content : str) : str := cstr (take 80 content ++ stack).

Definition kill_process (m : ChunkerManager) (fs : files) (key : str)
    : ChunkerManager * files * list mgr_event :=
  match fs !! pid_file key with
  | None => (m, fs, [])
  | Some content =>
      if decide (content = []) then (m, fs, [])
      else
        let fs := delete (pid_file key) fs in
        let pid := pid_text content in
        let term_cmd := lit "kill -15 -" ++ pid in
        let kill_cmd := lit "kill -9 -" ++ pid in
        let exist_file := lit "/proc/" ++ pid ++ lit "/stat" in
        let '(ev, killed) := kill_loop 3 term_cmd exist_file in
        (upd_coll (merase key) m, fs, if killed : bool then ev else ev ++ [RunCmd kill_cmd])
  end.

(** [kill_all]: incrementing the iterator of an erased entry is undefined. *)
Fixpoint kill_all_loop (keys : list str) (m : ChunkerManager) (fs : files)
    : res (ChunkerManager * files * list mgr_event) :=
  match keys with
  | [] => Ok (m, fs, [])
  | key :: keys' =>
      if decide (key = []) then kill_all_loop keys' m fs
      else
        let '(m, fs, ev) := kill_process m fs key in
        match mget key (_proc_coll m) with
        | None => Fault BadIterator
        | Some _ =>
            let* '(m, fs, ev') := kill_all_loop keys' m fs in Ok (m, fs, ev ++ ev')
        end
  end.

Definition kill_all (m : ChunkerManager) (fs : files) : res (ChunkerManager * files * list mgr_event) :=
  kill_all_loop (_proc_coll m).*1 m fs.

Definition clean_cmd : str := lit "rm -f " ++ CHUNKER_RESP_TOK_DIR ++ lit "/* >/dev/null".

(** [shutdown] *)
Definition shutdown (m : ChunkerManager) (fs : files) : res (ChunkerManager * files * list mgr_event) :=
  let* '(m, fs, ev) := kill_all m fs in Ok (m, fs, ev ++ [RunCmd clean_cmd]).

(** [init], as far as it runs commands. *)
Definition init_cmds : list mgr_event :=
  [RunCmd clean_cmd; RunCmd (lit "rm -f " ++ CHUNKER_SOCKET)].

(** ** [process] *)

(** The [<command>] branch. *)
Definition process_command (m : ChunkerManager) (cur_time : N) (token statement user : str)
    : ChunkerManager * list mgr_event :=
  let fresh :=
    let proc := processor_init (_chunk_size m) (_pid m) (_debug m) in
    if start_new_parent token statement user then
      (upd_coll (minsert token (mkProcessData proc cur_time cur_time statement token user 0 K_RUNNING)) m,
       [Started token statement user])
    else (m, []) in
  match mget token (_proc_coll m) with
  | Some pd =>
      if decide (statement = []) then (upd_coll (mset token (set_last_update cur_time pd)) m, [])
      else fresh
  | None => fresh
  end.

(** The [<process>] and [<details>] branches. *)
Definition process_list (m : ChunkerManager) (user : str) : str :=
  _proc_coll m ≫= (fun p => if decide (_user p.2 <> user) then [] else process_item p.2).

Definition process_details (m : ChunkerManager) (token user : str) : str :=
  _proc_coll m ≫= (fun p =>
    if decide (_user p.2 <> user) then []
    else if decide (token <> _token p.2) then [] else process_item p.2).

(** The [<next>] branch, with the files at its two lookups. *)
Definition process_next_at (m : ChunkerManager) (fs fs_end : files) (token user : str) : ChunkerManager * str :=
  match mget token (_proc_coll m) with
  | Some pd =>
      if decide (user <> _user pd) then (m, [])
      else
        let '(pd, resp) := next_chunk_at (_chunk_size m) fs fs_end token pd in
        (upd_coll (mset token pd) m, resp)
  | None => (m, lit "  ")
  end.

Definition process_next (m : ChunkerManager) (fs : files) (token user : str) : ChunkerManager * str :=
  process_next_at m fs fs token user.

(** [process], when the files are [fs] as the message is handled and
    [fs_end] at the second lookup of a [<next>]. *)
Definition process_at (m : ChunkerManager) (fs fs_end : files) (cur_time sock : N) (buf : str)
    : ChunkerManager * files * list mgr_event :=
  if decide (sock = 0%N) then (m, fs, [])
  else
    let command := cstr buf in
    match between command (lit "<token>") (lit "</token>") with
    | None => (m, fs, [])
    | Some token =>
        let statement := default [] (between command (lit "<statement>") (lit "</statement>")) in
        let user := default [] (between command (lit "<user>") (lit "</user>")) in
        if contains command (lit "<command>") then
          let '(m, ev) := process_command m cur_time token statement user in (m, fs, ev)
        else if contains command (lit "<process>") then
          (m, fs, [Respond (process_list m user)])
        else if contains command (lit "<details>") then
          (m, fs, [Respond (process_details m token user)])
        else if contains command (lit "<next>") then
          let '(m, resp) := process_next_at m fs fs_end token user in (m, fs_end, [Respond resp])
        else if contains command (lit "<delete>") then kill_process m fs token
        else (m, fs, [])
    end.

(** [process] undisturbed. *)
Definition process (m : ChunkerManager) (fs : files) (cur_time sock : N) (buf : str)
    : ChunkerManager * files * list mgr_event :=
  process_at m fs fs cur_time sock buf.

(** [read] of one connection: [msg] is what the client wrote, [None] when
    the [read] call fails, which stores the terminator before the buffer. *)
Definition manager_read (m : ChunkerManager) (fs : files) (cur_time sock : N) (msg : option str)
    : res (ChunkerManager * files * list mgr_event) :=
  match msg with
  | None => Fault BufferOverflow
  | Some msg => Ok (process m fs cur_time sock (take 1024 msg))
  end.
End System.

(** [run_cmd] on what [system] returns. *)
Inductive system_result := SysFailed | SysExited (code : N) | SysSignaled (sig : N) | SysOther.

Definition run_cmd (status : system_result) : bool :=
  match status with
  | SysExited code => bool_decide (code = 0%N)
  | _ => false
  end.

(** ** The daemon's options (chunker2_main.cc) *)

Inductive chunker_option :=
| OptS (optarg : str) | OptI (optarg : str) | OptP (optarg : str) | OptK (optarg : str)
| OptD | OptOther.

Record chunker_config := mkConfig {
  cfg_chunk_size : N;
  cfg_pid_path : str;
  cfg_process_pid_path : str;
  cfg_kill_timeout : N;
  cfg_debug : bool;
}.

Definition default_config : chunker_config :=
  mkConfig (N.of_nat CHUNKER_READ_SIZE) CHUNKER_RESP_PID [] 300 false.

(** One option; [None] is the usage message and [exit(0)].  [chunk_size] is
    a [long], so a parsed value above [LONG_MAX] compares as negative. *)
Definition apply_option (c : chunker_config) (o : chunker_option) : option chunker_config :=
  match o with
  | OptS a =>
      let n := strtoul a in
      let n := if decide (n < 1024 \/ 131072 < n)%N then N.of_nat CHUNKER_READ_SIZE else n in
      Some (mkConfig n (cfg_pid_path c) (cfg_process_pid_path c) (cfg_kill_timeout c) (cfg_debug c))
  | OptI a => Some (mkConfig (cfg_chunk_size c) a (cfg_process_pid_path c) (cfg_kill_timeout c) (cfg_debug c))
  | OptP a => Some (mkConfig (cfg_chunk_size c) (cfg_pid_path c) a (cfg_kill_timeout c) (cfg_debug c))
  | OptK a =>
      Some (mkConfig (cfg_chunk_size c) (cfg_pid_path c) (cfg_process_pid_path c)
              (N.min (strtoul a) 86400) (cfg_debug c))
  | OptD => Some (mkConfig (cfg_chunk_size c) (cfg_pid_path c) (cfg_process_pid_path c) (cfg_kill_timeout c) true)
  | OptOther => None
  end.

Definition parse_options (l : list chunker_option) : option chunker_config :=
  foldl (fun c o => c ≫= (fun c => apply_option c o)) (Some default_config) l.

(** The manager [main] serves requests with. *)
Definition main_manager (c : chunker_config) : ChunkerManager :=
  new_ChunkerManager (cfg_pid_path c) (cfg_kill_timeout c) (cfg_chunk_size c) (cfg_debug c).

(** ** Parsing a well-formed message *)

Definition lt : ascii := ascii_of_nat 60.

Lemma chunks_app c bs1 bs2 : chunks c (bs1 ++ bs2) = chunks c bs1 ++ chunks c bs2.
Proof. apply bind_app. Qed.

(** The text between two marks, in a message cut at its [<]s. *)
Lemma between_span o c bs1 text mid tail bs2 :
  (lt ∉ o) -> (lt ∉ c) -> Forall (fun b => lt ∉ b) (bs1 ++ (o ++ text) :: mid ++ (c ++ tail) :: bs2) ->
  Forall (fun b => is_prefix o b = false) bs1 ->
  Forall (fun b => is_prefix c b = false) (bs1 ++ (o ++ text) :: mid) ->
  between (chunks lt (bs1 ++ (o ++ text) :: mid ++ (c ++ tail) :: bs2)) (lt :: o) (lt :: c) =
  Some (text ++ chunks lt mid).
Proof.
  intros Ho Hc Hall H1 H2. unfold between. rewrite !find_0, !find0_chunks by done.
  rewrite (chunk_pos_app o bs1 (o ++ text) _ H1 (is_prefix_app o text) lt).
  replace (bs1 ++ (o ++ text) :: mid ++ (c ++ tail) :: bs2)
    with ((bs1 ++ (o ++ text) :: mid) ++ (c ++ tail) :: bs2) by (by rewrite <- app_assoc).
  rewrite (chunk_pos_app c _ (c ++ tail) _ H2 (is_prefix_app c tail) lt).
  assert (forall b l, chunks lt (b :: l) = lt :: b ++ chunks lt l) as Hcons by done.
  rewrite !chunks_app, !Hcons, !length_app. cbn [length]. rewrite !length_app.
  rewrite decide_True by lia. f_equal. unfold sub.
  replace (length (chunks lt bs1) + S (length o + length text + length (chunks lt mid)) -
           (length (chunks lt bs1) + S (length o)))
    with (length (text ++ chunks lt mid)) by (rewrite length_app; lia).
  rewrite <- app_assoc, drop_app_add. cbn [app drop].
  rewrite <- !app_assoc, drop_app_length, app_assoc. apply take_app_length.
Qed.

Lemma between_chunks o c bs1 text tail bs2 :
  (lt ∉ o) -> (lt ∉ c) -> Forall (fun b => lt ∉ b) (bs1 ++ (o ++ text) :: (c ++ tail) :: bs2) ->
  Forall (fun b => is_prefix o b = false) bs1 ->
  Forall (fun b => is_prefix c b = false) (bs1 ++ [o ++ text]) ->
  between (chunks lt (bs1 ++ (o ++ text) :: (c ++ tail) :: bs2)) (lt :: o) (lt :: c) = Some text.
Proof.
  intros Ho Hc Hall H1 H2. etrans; [by apply (between_span o c bs1 text [] tail bs2)|].
  by rewrite app_nil_r.
Qed.

(** ** Invariant of the table *)

Record entry_ok (m : ChunkerManager) (key : str) (pd : ProcessData) : Prop := {
  entry_key : _token pd = key;
  entry_named : start_new_parent (_token pd) (_command pd) (_user pd) = true;
  entry_status : _status pd <> K_NONE;
  entry_proc : _proc pd = processor_init (_chunk_size m) (_pid m) (_debug m);
}.

Definition manager_ok (m : ChunkerManager) : Prop :=
  msorted (_proc_coll m) /\ forall key pd, mget key (_proc_coll m) = Some pd -> entry_ok m key pd.

(** What never changes about an entry, and a command that ended stays so. *)
Definition same_entry (pd pd' : ProcessData) : Prop :=
  _proc pd' = _proc pd /\ _start_time pd' = _start_time pd /\ _command pd' = _command pd /\
  _token pd' = _token pd /\ _user pd' = _user pd /\ (_status pd = K_DEAD -> _status pd' = K_DEAD) /\
  (_status pd <> K_NONE -> _status pd' <> K_NONE).

#[export] Instance same_entry_preorder : PreOrder same_entry.
Proof. split; [by repeat split | unfold same_entry; intros ???; naive_solver congruence]. Qed.

(** How a step may change the table. *)
Definition table_step (m m' : ChunkerManager) : Prop :=
  _pid m' = _pid m /\ _chunk_size m' = _chunk_size m /\ _debug m' = _debug m /\
  forall key pd pd', mget key (_proc_coll m) = Some pd -> mget key (_proc_coll m') = Some pd' ->
    same_entry pd pd'.

Lemma next_chunk_at_same c fs fs_end token pd : same_entry pd (next_chunk_at c fs fs_end token pd).1.
Proof. unfold next_chunk_at. repeat case_match; repeat case_decide; repeat split; naive_solver. Qed.

Lemma next_chunk_same c fs token pd : same_entry pd (next_chunk c fs token pd).1.
Proof. apply next_chunk_at_same. Qed.

Lemma entry_ok_same m key pd pd' : entry_ok m key pd -> same_entry pd pd' -> entry_ok m key pd'.
Proof.
  intros [H1 H2 H3 H4] (E1 & _ & E3 & E4 & E5 & _ & E7).
  split; rewrite ?E1, ?E3, ?E4, ?E5; auto.
Qed.

Lemma manager_ok_mset m key pd :
  manager_ok m -> entry_ok m key pd -> manager_ok (upd_coll (mset key pd) m).
Proof.
  intros [Hs Hm] Hpd. split; [by apply msorted_mset|]. intros k e. cbn.
  destruct (decide (k = key)) as [->|Hk].
  - rewrite mget_mset_eq. intros [= <-]. by destruct Hpd.
  - rewrite mget_mset_ne by done. intros He. by destruct (Hm _ _ He).
Qed.

Lemma manager_ok_merase m key : manager_ok m -> manager_ok (upd_coll (merase key) m).
Proof.
  intros [Hs Hm]. split; [by apply msorted_merase|]. intros k e. cbn.
  rewrite mget_merase. case_decide; [done|]. intros He. by destruct (Hm _ _ He).
Qed.

Lemma table_step_refl m : table_step m m.
Proof. unfold table_step. split_and!; [done..|]. intros; by simplify_eq. Qed.

Lemma table_step_mset m key pd pd' :
  mget key (_proc_coll m) = Some pd -> same_entry pd pd' -> table_step m (upd_coll (mset key pd') m).
Proof.
  intros Hk He. unfold table_step. split_and!; [done..|]. intros k e e' H H'. cbn in H'.
  destruct (decide (k = key)) as [->|Hne].
  - rewrite mget_mset_eq in H'. by simplify_eq.
  - rewrite mget_mset_ne in H' by done. by simplify_eq.
Qed.

Lemma process_command_ok m t token statement user :
  manager_ok m ->
  manager_ok (process_command m t token statement user).1 /\
  table_step m (process_command m t token statement user).1.
Proof.
  intros Hm. unfold process_command.
  destruct (mget token (_proc_coll m)) as [pd|] eqn:E; [case_decide|]; cbn.
  - pose proof (proj2 Hm _ _ E) as He. assert (same_entry pd (set_last_update t pd)) by (by repeat split).
    split; [by apply manager_ok_mset; [|eapply entry_ok_same] | by eapply table_step_mset].
  - destruct (start_new_parent token statement user) eqn:G; cbn; [|by split; [|apply table_step_refl]].
    unfold minsert. split.
    + destruct Hm as [Hs Hm]. split; cbn; rewrite E; [done|].
      intros k e He. by destruct (Hm _ _ He).
    + unfold table_step. split_and!; [done..|]. cbn. rewrite E. intros; by simplify_eq.
  - destruct (start_new_parent token statement user) eqn:G; cbn; [|by split; [|apply table_step_refl]].
    set (pd := mkProcessData _ _ _ _ _ _ _ _).
    assert (upd_coll (minsert token pd) m = upd_coll (mset token pd) m) as ->
      by (unfold upd_coll, minsert; by rewrite E).
    split; [apply manager_ok_mset; [done | by split]|].
    unfold table_step. split_and!; [done..|]. cbn. intros k e e' H H'.
    rewrite mget_mset_ne in H' by (intros ->; congruence). by simplify_eq.
Qed.

Lemma process_next_ok m fs fs_end token user :
  manager_ok m ->
  manager_ok (process_next_at m fs fs_end token user).1 /\ table_step m (process_next_at m fs fs_end token user).1.
Proof.
  intros Hm. unfold process_next_at. destruct (mget token (_proc_coll m)) as [pd|] eqn:E.
  2: by split; [|apply table_step_refl].
  case_decide; [by split; [|apply table_step_refl]|].
  pose proof (next_chunk_at_same (_chunk_size m) fs fs_end token pd) as Hs.
  destruct (next_chunk_at (_chunk_size m) fs fs_end token pd) as [pd' resp]. cbn in *.
  split; [|by eapply table_step_mset].
  apply manager_ok_mset; [done|]. eapply entry_ok_same; [|done]. by apply Hm.
Qed.

Lemma kill_process_ok stack ex m fs key :
  manager_ok m ->
  manager_ok (kill_process stack ex m fs key).1.1 /\
  table_step m (kill_process stack ex m fs key).1.1.
Proof.
  intros Hm. unfold kill_process.
  destruct (fs !! pid_file key); [case_decide|]; [by split; [|apply table_step_refl]| |
    by split; [|apply table_step_refl]].
  destruct (kill_loop ex 3 _ _) as [ev killed]. cbn [fst]. split; [by apply manager_ok_merase|].
  unfold table_step. split_and!; [done..|]. cbn. intros k e e'. rewrite mget_merase.
  case_decide; [done|]. intros; by simplify_eq.
Qed.

(** Every message keeps the table well formed. *)
Lemma process_keeps_table (stack : str) (ex : str -> nat -> bool) (m : ChunkerManager) (fs fs_end : files)
    (cur_time sock : N) (buf : str) :
  manager_ok m ->
  let m' := (process_at stack ex m fs fs_end cur_time sock buf).1.1 in
  manager_ok m' /\ table_step m m'.
Proof.
  intros Hm. unfold process_at. case_decide; cbn; [by split; [|apply table_step_refl]|].
  destruct (between _ _ _) as [token|]; cbn; [|by split; [|apply table_step_refl]].
  repeat case_match; cbn; simplify_eq;
    try (by split; [|apply table_step_refl]); try (by apply kill_process_ok).
  - match goal with H : process_command ?a ?b ?c ?d ?e = _ |- _ =>
      pose proof (process_command_ok a b c d e Hm) as Hp; by rewrite H in Hp end.
  - match goal with H : process_next_at ?a ?b ?c ?d ?e = _ |- _ =>
      pose proof (process_next_ok a b c d e Hm) as Hp; by rewrite H in Hp end.
Qed.

Lemma process_at_keeps stack ex m fs fs_end t sock buf :
  manager_ok m -> manager_ok (process_at stack ex m fs fs_end t sock buf).1.1.
Proof. intros Hm. by apply process_keeps_table. Qed.

Lemma process_keeps stack ex m fs t sock buf :
  manager_ok m -> manager_ok (process stack ex m fs t sock buf).1.1.
Proof. apply process_at_keeps. Qed.

(** Claim C17: whatever message arrives, the table stays well formed: its keys
    are the tokens of its entries in order, no entry lacks a token, command
    or user, and none changes its owner, command, token or start time; a
    command marked as ended is never running again. *)
Theorem process_invariant (stack : str) (ex : str -> nat -> bool) (m : ChunkerManager) (fs : files)
    (cur_time sock : N) (buf : str) :
  manager_ok m ->
  let m' := (process stack ex m fs cur_time sock buf).1.1 in
  manager_ok m' /\ table_step m m'.
Proof. apply process_keeps_table. Qed.

Lemma process_invariant_witness :
  let m' := (process [] (fun _ _ => false) (main_manager default_config) ∅ 7 3
     (lit "<vyatta><command><token>T1</token><statement>show 'version'</statement><user>u</user></command></vyatta>")).1.1 in
  manager_ok m' /\ table_step (main_manager default_config) m'.
Proof.
  apply (process_invariant [] (fun _ _ => false) (main_manager default_config) ∅ 7 3).
  split; [constructor | done].
Defined.

(** ** Ownership *)

Definition owned (user : str) (p : str * ProcessData) : Prop := _user p.2 = user.

#[export] Instance owned_dec user p : Decision (owned user p).
Proof. unfold owned. apply _. Defined.

Lemma bind_filter {A} (P : A -> Prop) `{forall x, Decision (P x)} (f : A -> str) (l : list A) :
  (forall x, ~ P x -> f x = []) -> l ≫= f = filter P l ≫= f.
Proof.
  intros Hf. induction l as [|x l IH]; [done|].
  rewrite bind_cons, filter_cons. case_decide; [by rewrite bind_cons, IH|]. by rewrite Hf, IH.
Qed.

(** What a user learns from the list and details requests depends
    only on that user's own commands, and a request for the next chunk of
    somebody else's command is answered with nothing and leaves the command
    as it was. *)
Theorem queries_respect_owner (m m' : ChunkerManager) (fs : files) (token user : str) :
  (filter (owned user) (_proc_coll m) = filter (owned user) (_proc_coll m') ->
   process_list m user = process_list m' user /\
   process_details m token user = process_details m' token user) /\
  (forall pd, mget token (_proc_coll m) = Some pd -> _user pd <> user ->
   process_next m fs token user = (m, [])).
Proof.
  split.
  - intros H. unfold process_list, process_details.
    rewrite !(bind_filter (owned user) _ (_proc_coll m)) by (intros x Hx; by rewrite decide_True).
    rewrite !(bind_filter (owned user) _ (_proc_coll m')) by (intros x Hx; by rewrite decide_True).
    by rewrite H.
  - intros pd Hm Hu. unfold process_next, process_next_at. rewrite Hm. by rewrite decide_True.
Qed.

(** ** Ending a command *)

(** Whether [kill_process] goes as far as to send a signal. *)
Definition killable (fs : files) (key : str) : bool :=
  negb (bool_decide (default [] (fs !! pid_file key) = [])).

Lemma kill_process_unkillable stack ex m fs key :
  killable fs key = false -> kill_process stack ex m fs key = (m, fs, []).
Proof.
  intros Hk. apply negb_false_iff, bool_decide_eq_true in Hk. unfold kill_process.
  destruct (fs !! pid_file key); [|done]. by rewrite decide_True.
Qed.

Lemma kill_process_killable stack ex m fs key :
  killable fs key = true ->
  (kill_process stack ex m fs key).1 = (upd_coll (merase key) m, delete (pid_file key) fs).
Proof.
  intros Hk. apply negb_true_iff, bool_decide_eq_false in Hk. unfold kill_process.
  destruct (fs !! pid_file key); [|done]. rewrite decide_False by done.
  by destruct (kill_loop ex 3 _ _).
Qed.

Lemma kill_all_loop_spec stack ex m fs keys :
  (forall key, key ∈ keys -> is_Some (mget key (_proc_coll m))) ->
  kill_all_loop stack ex keys m fs =
  if existsb (fun key => negb (bool_decide (key = [])) && killable fs key) keys
  then Fault BadIterator else Ok (m, fs, []).
Proof.
  induction keys as [|key keys IH]; intros Hk; [done|]. cbn [kill_all_loop existsb].
  case_decide as E.
  { rewrite bool_decide_eq_true_2 by done. cbn [negb andb orb]. apply IH.
    intros k Hin. apply Hk. apply elem_of_cons. by right. }
  rewrite bool_decide_eq_false_2 by done. cbn [negb andb].
  destruct (killable fs key) eqn:K.
  - pose proof (kill_process_killable stack ex m fs key K) as Hp.
    destruct (kill_process stack ex m fs key) as [[m1 fs1] ev]. cbn in Hp. injection Hp as -> ->.
    cbn. by rewrite mget_merase, decide_True.
  - rewrite kill_process_unkillable by done. cbn [orb].
    destruct (Hk key) as [pd ->]; [apply elem_of_cons; by left|].
    rewrite IH by (intros k Hin; apply Hk; apply elem_of_cons; by right).
    by destruct (existsb _ keys).
Qed.

(** Shutting the daemon down is defined only when there is nothing
    to stop: as soon as one command has a pid file to be killed by, the loop
    over the table increments the iterator of the entry it erased; otherwise
    it changes nothing. *)
Theorem kill_all_undefined (stack : str) (ex : str -> nat -> bool) (m : ChunkerManager) (fs : files) :
  kill_all stack ex m fs =
  if existsb (fun key => negb (bool_decide (key = [])) && killable fs key) (_proc_coll m).*1
  then Fault BadIterator else Ok (m, fs, []).
Proof.
  apply kill_all_loop_spec. intros key Hkey.
  destruct (mget key (_proc_coll m)) eqn:E; [done|]. by apply mget_None in E.
Qed.

(** For a pid file as the daemon itself writes it, one [kill -15]
    is run, followed by whatever lies on the stack behind the text read; as
    the newline of the file is kept, the process is taken for gone at once,
    so that [kill -9] is never sent. *)
Theorem kill_process_signals (stack : str) (ex : str -> nat -> bool) (m : ChunkerManager)
    (fs fs' : files) (token : str) (pgrp : N) :
  (pgrp < 2 ^ 32)%N -> (forall path k, nl ∈ path -> ex path k = false) ->
  fs = (pid_output true fs' (CHUNKER_RESP_PID ++ lit "/" ++ token) pgrp).2 ->
  kill_process stack ex m fs token =
  (upd_coll (merase token) m, delete (pid_file token) fs',
   [RunCmd (lit "kill -15 -" ++ dec pgrp ++ nl :: cstr stack)]).
Proof.
  intros Hp Hex ->. unfold kill_process, pid_output. cbn [snd].
  unfold pid_file at 1. rewrite lookup_insert_eq. rewrite decide_False by (by destruct (dec pgrp)).
  rewrite delete_insert_eq.
  assert (pid_text stack (dec pgrp ++ [nl]) = dec pgrp ++ nl :: cstr stack) as ->.
  { unfold pid_text. rewrite take_ge.
    - rewrite <- app_assoc. cbn [app]. assert (nul ∉ dec pgrp) as Hn by (by apply dec_notin).
      revert Hn. generalize (dec pgrp) as d. clear. induction d as [|x d IH]; intros Hn; [done|].
      apply not_elem_of_cons in Hn as [Hx Hd]. cbn. rewrite decide_False by done. by rewrite IH.
    - destruct (base_digits_spec 10 pgrp) as (_ & _ & _ & Hl); [lia|].
      rewrite length_app. unfold dec. rewrite length_fmap. cbn [length].
      enough (length (base_digits 10 pgrp) <= 10) by lia. apply (Hl 9).
      etrans; [exact Hp | done]. }
  cbn [kill_loop]. rewrite Hex; [done|]. set_solver.
Qed.

Lemma kill_process_signals_witness :
  kill_process (lit "xyz") (fun _ _ => false) (main_manager default_config)
    (pid_output true ∅ (CHUNKER_RESP_PID ++ lit "/" ++ lit "T1") 4711).2 (lit "T1") =
  (upd_coll (merase (lit "T1")) (main_manager default_config), delete (pid_file (lit "T1")) ∅,
   [RunCmd (lit "kill -15 -" ++ dec 4711 ++ nl :: cstr (lit "xyz"))]).
Proof. apply (kill_process_signals (lit "xyz") (fun _ _ => false)); done. Defined.
