(* ===== verification/MultiResp.v ===== *)
(** * [MultiResponseCommand] (multirespcmd.hh, multirespcmd.cc)

    The server's client of the chunker daemon: the five requests as
    formatted messages, the parsing of the answers, and the reading of the
    data file.  A request is sent through [write_ok] and [answer]: whether
    [write] succeeds and what one [read] returns for a message. *)

From S2P Require Import Prelude CppString StrProc Common CppMap ChunkerProcessor ChunkerManager.

Record ProcessData := mkPD {
  _username : str;
  _start_time : N;
  _last_update : N;
  _id : str;
  _command : str;
}.

(** ** Messages *)

Definition CHUNKER_COMMAND_FORMAT (token statement user : str) : str :=
  lit "<vyatta><command><token>" ++ cstr token ++ lit "</token><statement>" ++ cstr statement ++
  lit "</statement><user>" ++ cstr user ++ lit "</user></command></vyatta>".

(** The formats that carry a token and a user only. *)
Definition request_format (request : str) (token user : str) : str :=
  lit "<vyatta><" ++ request ++ lit "><token>" ++ cstr token ++ lit "</token><user>" ++ cstr user ++
  lit "</user></" ++ request ++ lit "></vyatta>".

Definition CHUNKER_PROCESS_FORMAT : str -> str -> str := request_format (lit "process").
Definition CHUNKER_DETAILS_FORMAT : str -> str -> str := request_format (lit "details").
Definition CHUNKER_NEXT_FORMAT : str -> str -> str := request_format (lit "next").
Definition CHUNKER_DELETE_FORMAT : str -> str -> str := request_format (lit "delete").

(** The whole zeroed array of 1024 characters is written. *)
Definition wire (s : str) : str := s ++ replicate (1024 - length s) nul.

(** [string(out)] of what one [read] left in the zeroed array [out]: 8192
    bytes without a NUL are not terminated. *)
Definition reply_size : nat := N.to_nat 8192.

Definition received (out : str) : res str :=
  let out := take reply_size out in
  if decide (length out < reply_size \/ nul ∈ out) then Ok (cstr out) else Fault BufferOverflow.

Section Client.
Variable write_ok : bool.
Variable answer : str -> option str.
(** The value of the members a [ProcessData] leaves uninitialised. *)
Variable indeterminate : N.

Definition new_ProcessData : ProcessData := mkPD [] indeterminate indeterminate [] [].

(** [start]: the token, and the message sent. *)
Definition start (attempts : list (option str)) (user cmd : str) : res (str * option str) :=
  let* '(tok, _) := generate_token attempts in
  if decide (length tok < 16) then Ok ([], None)
  else
    let* buffer := sprintf_into 1024 (CHUNKER_COMMAND_FORMAT tok cmd user) in
    if write_ok then Ok (tok, Some (wire buffer)) else Ok ([], None).

(** One item of an answer. *)
Definition parse_item (item : str) : res ProcessData :=
  let* sp2 := str_proc item (lit "%3A") in
  Ok (mkPD (sp_get sp2 3) (strtoul (sp_get sp2 0)) indeterminate (sp_get sp2 2) (sp_get sp2 1)).

Fixpoint parse_items (coll : list str) : res (list ProcessData) :=
  match coll with
  | [] => Ok []
  | item :: coll' =>
      let* pd := parse_item item in
      let* procs := parse_items coll' in
      Ok (pd :: procs)
  end.

(** Sends a request and reads the answer; [None] when a call fails. *)
Definition request (msg : str) : res (option str) :=
  let* buffer := sprintf_into 1024 msg in
  if write_ok then
    match answer (wire buffer) with
    | None => Ok None
    | Some out => let* out := received out in Ok (Some out)
    end
  else Ok None.

Definition get_process_details (user id : str) : res ProcessData :=
  if decide (user = [] \/ id = []) then Ok new_ProcessData
  else
    let* out := request (CHUNKER_DETAILS_FORMAT id user) in
    match out with
    | None => Ok new_ProcessData
    | Some out =>
        let* coll := str_proc out (lit "%2C") in
        match coll with
        | [] => Ok new_ProcessData
        | item :: _ => parse_item item
        end
    end.

Definition get_processes (user : str) : res (list ProcessData) :=
  if decide (user = []) then Ok []
  else
    let* out := request (CHUNKER_PROCESS_FORMAT (lit "123456") user) in
    match out with
    | None => Ok []
    | Some out => let* coll := str_proc out (lit "%2C") in parse_items coll
    end.

(** The [fread] loop over what is left of the file: at most six rounds, and
    none after the end of the file. *)
Fixpoint fread_loop (ct left : nat) (rest resp : str) : str :=
  match ct with
  | O => resp
  | S ct' =>
      if decide (left = 0) then resp
      else
        let buf := take left rest in
        let resp := resp ++ cstr buf in
        if decide (length buf < left) then resp
        else fread_loop ct' (left - length buf) (drop left rest) resp
  end.

(** [get_chunk]: the text, and the files.  The files are [fs] when the data
    file is looked up, and [fs'] when it is read or the end mark is looked up;
    [opened] tells whether [fopen] and [fseek] work on a file that is there. *)
Definition get_chunk (opened errno_einval : bool) (fs fs' : files) (user token : str) : res (str * files) :=
  if decide (user = [] \/ token = []) then Ok ([], fs)
  else
    let* out := request (CHUNKER_NEXT_FORMAT token user) in
    match out with
    | None => Ok ([], fs)
    | Some out =>
        let* sp2 := str_proc out (lit "%3A") in
        let chunk := sp_get sp2 4 in
        if decide (chunk = []) then Ok ([], fs)
        else
          let chunk_pos := strtol chunk in
          if decide (chunk_pos = 0%Z /\ errno_einval = true) then Ok ([], fs)
          else
            match fs !! chunk_file token, decide (0 <= chunk_pos)%Z with
            | Some _, left _ =>
                match fs' !! chunk_file token with
                | Some data =>
                    if opened : bool
                    then Ok (fread_loop 6 CHUNKER_READ_SIZE (drop (Z.to_nat chunk_pos) data) [], fs')
                    else Ok ([], fs')
                | None => Ok ([], fs')
                end
            | _, _ =>
                match fs' !! end_file token with
                | Some _ => Ok (lit "END", delete (chunk_file token) (delete (end_file token) fs'))
                | None => Ok ([], fs')
                end
            end
    end.

(** [kill]: the message sent. *)
Definition kill (user tok : str) : res (option str) :=
  if decide (user = [] \/ tok = []) then Ok None
  else
    let* buffer := sprintf_into 1024 (CHUNKER_DELETE_FORMAT tok user) in
    Ok (if write_ok then Some (wire buffer) else None).
End Client.

(** ** A message at the daemon *)

Definition request_chunks (req token user : str) : list str :=
  [lit "vyatta>"; req ++ lit ">"; lit "token>" ++ token; lit "/token>"; lit "user>" ++ user;
   lit "/user>"; lit "/" ++ req ++ lit ">"; lit "/vyatta>"].

Definition command_chunks (token statement user : str) : list str :=
  [lit "vyatta>"; lit "command>"; lit "token>" ++ token; lit "/token>";
   lit "statement>" ++ statement; lit "/statement>"; lit "user>" ++ user; lit "/user>";
   lit "/command>"; lit "/vyatta>"].

(** Text that passes through a message unchanged. *)
Definition clean (s : str) : Prop := (lt ∉ s) /\ nul ∉ s.

#[export] Instance clean_dec s : Decision (clean s).
Proof. unfold clean. apply _. Defined.

Lemma request_format_chunks req token user :
  nul ∉ token -> nul ∉ user ->
  request_format req token user = chunks lt (request_chunks req token user).
Proof.
  intros Ht Hu. unfold request_format. rewrite !cstr_id by done.
  unfold chunks, request_chunks, lt. rewrite !bind_cons. cbn [mbind list_bind app].
  rewrite <- !app_assoc. reflexivity.
Qed.

Lemma command_format_chunks token statement user :
  nul ∉ token -> nul ∉ statement -> nul ∉ user ->
  CHUNKER_COMMAND_FORMAT token statement user = chunks lt (command_chunks token statement user).
Proof.
  intros Ht Hs Hu. unfold CHUNKER_COMMAND_FORMAT. by rewrite !cstr_id.
Qed.

Lemma cstr_wire s : nul ∉ s -> length s < 1024 -> cstr (take 1024 (wire s)) = s.
Proof.
  intros Hn Hl. unfold wire. rewrite take_ge by (rewrite length_app, length_replicate; lia).
  replace (1024 - length s) with (S (1023 - length s)) by lia. apply (cstr_app s).
  done.
Qed.

Lemma chunks_notin c x bs : x <> c -> Forall (fun b => x ∉ b) bs -> x ∉ chunks c bs.
Proof.
  intros Hx. induction 1 as [|b bs Hb _ IH]; [apply not_elem_of_nil|].
  unfold chunks. rewrite bind_cons. cbn [app]. notin.
Qed.

Section Parsed.
Context (req token user : str) (Hreq : clean req) (Htok : clean token) (Huser : clean user).
Context (Hname : forall o, o ∈ [lit "token>"; lit "/token>"; lit "user>"; lit "/user>"; lit "statement>"] ->
                           is_prefix o (req ++ lit ">") = false).

Lemma request_chunks_clean : Forall (fun b => lt ∉ b) (request_chunks req token user).
Proof.
  destruct Hreq, Htok, Huser. unfold request_chunks. repeat constructor; notin; by_compute.
Qed.

Lemma request_token :
  between (chunks lt (request_chunks req token user)) (lit "<token>") (lit "</token>") = Some token.
Proof.
  apply (between_chunks (lit "token>") (lit "/token>") [lit "vyatta>"; req ++ lit ">"] token []);
    [by_compute.. | exact request_chunks_clean | |];
    repeat constructor; try reflexivity; apply Hname; by_compute.
Qed.

Lemma request_user :
  between (chunks lt (request_chunks req token user)) (lit "<user>") (lit "</user>") = Some user.
Proof.
  apply (between_chunks (lit "user>") (lit "/user>")
           [lit "vyatta>"; req ++ lit ">"; lit "token>" ++ token; lit "/token>"] user []);
    [by_compute.. | exact request_chunks_clean | |];
    repeat constructor; try reflexivity; apply Hname; by_compute.
Qed.
End Parsed.

(** The daemon's branch for a request from this client. *)
Definition serve_request_at (stack : str) (ex : str -> nat -> bool) (m : ChunkerManager) (fs fs_end : files)
    (req token user : str) : ChunkerManager * files * list mgr_event :=
  if decide (req = lit "process") then (m, fs, [Respond (process_list m user)])
  else if decide (req = lit "details") then (m, fs, [Respond (process_details m token user)])
  else if decide (req = lit "next") then
    let '(m, resp) := process_next_at m fs fs_end token user in (m, fs_end, [Respond resp])
  else kill_process stack ex m fs token.

Definition serve_request (stack : str) (ex : str -> nat -> bool) (m : ChunkerManager) (fs : files)
    (req token user : str) : ChunkerManager * files * list mgr_event :=
  serve_request_at stack ex m fs fs req token user.

Definition requests : list str := [lit "process"; lit "details"; lit "next"; lit "delete"].

Lemma process_request_at stack ex m fs fs_end t sock req token user :
  req ∈ requests -> clean token -> clean user -> sock <> 0%N ->
  length (request_format req token user) < 1024 ->
  process_at stack ex m fs fs_end t sock (take 1024 (wire (request_format req token user))) =
  serve_request_at stack ex m fs fs_end req token user.
Proof.
  intros Hreq Htok Huser Hsock Hlen.
  assert (clean req) as Hr.
  { unfold requests in Hreq. rewrite !elem_of_cons in Hreq.
    destruct Hreq as [->|[->|[->|[->|[]%elem_of_nil]]]]; by_compute. }
  assert (forall o, o ∈ [lit "token>"; lit "/token>"; lit "user>"; lit "/user>"; lit "statement>"] ->
            is_prefix o (req ++ lit ">") = false) as Hname.
  { apply Forall_forall. unfold requests in Hreq. rewrite !elem_of_cons in Hreq.
    destruct Hreq as [->|[->|[->|[->|[]%elem_of_nil]]]]; repeat constructor. }
  unfold process_at. rewrite decide_False by done.
  rewrite request_format_chunks in * by (apply Htok || apply Huser).
  rewrite cstr_wire; [| |exact Hlen].
  2: { apply chunks_notin; [done|]. destruct Hr, Htok, Huser. unfold request_chunks.
       repeat constructor; notin; by_compute. }
  rewrite request_token, request_user by done.
  assert (forall p, lt ∉ p -> contains (chunks lt (request_chunks req token user)) (lt :: p) =
            existsb (is_prefix p) (request_chunks req token user)) as Hc.
  { intros p Hp. apply contains_chunks; [done|]. by apply request_chunks_clean. }
  change (lit "<command>") with (lt :: lit "command>").
  change (lit "<process>") with (lt :: lit "process>").
  change (lit "<details>") with (lt :: lit "details>").
  change (lit "<next>") with (lt :: lit "next>").
  change (lit "<delete>") with (lt :: lit "delete>").
  rewrite !Hc by by_compute.
  unfold requests in Hreq. rewrite !elem_of_cons in Hreq.
  destruct Hreq as [->|[->|[->|[->|[]%elem_of_nil]]]]; reflexivity.
Qed.

Lemma process_request stack ex m fs t sock req token user :
  req ∈ requests -> clean token -> clean user -> sock <> 0%N ->
  length (request_format req token user) < 1024 ->
  process stack ex m fs t sock (take 1024 (wire (request_format req token user))) =
  serve_request stack ex m fs req token user.
Proof. apply process_request_at. Qed.

Lemma command_chunks_clean token statement user :
  clean token -> clean statement -> clean user ->
  Forall (fun b => lt ∉ b) (command_chunks token statement user) /\
  Forall (fun b => nul ∉ b) (command_chunks token statement user).
Proof.
  intros [] [] []. unfold command_chunks. split; repeat constructor; notin; by_compute.
Qed.

Section ParsedCommand.
Context (token statement user : str).
Context (Htok : clean token) (Hstmt : clean statement) (Huser : clean user).

Lemma command_token :
  between (chunks lt (command_chunks token statement user)) (lit "<token>") (lit "</token>") = Some token.
Proof.
  destruct (command_chunks_clean _ _ _ Htok Hstmt Huser) as [Hlt _].
  apply (between_chunks (lit "token>") (lit "/token>") [lit "vyatta>"; lit "command>"] token []);
    [by_compute.. | exact Hlt | |]; repeat constructor.
Qed.

Lemma command_statement :
  between (chunks lt (command_chunks token statement user)) (lit "<statement>") (lit "</statement>") =
  Some statement.
Proof.
  destruct (command_chunks_clean _ _ _ Htok Hstmt Huser) as [Hlt _].
  apply (between_chunks (lit "statement>") (lit "/statement>")
    [lit "vyatta>"; lit "command>"; lit "token>" ++ token; lit "/token>"] statement []);
    [by_compute.. | exact Hlt | |]; repeat constructor.
Qed.

Lemma command_user :
  between (chunks lt (command_chunks token statement user)) (lit "<user>") (lit "</user>") = Some user.
Proof.
  destruct (command_chunks_clean _ _ _ Htok Hstmt Huser) as [Hlt _].
  apply (between_chunks (lit "user>") (lit "/user>")
    [lit "vyatta>"; lit "command>"; lit "token>" ++ token; lit "/token>";
     lit "statement>" ++ statement; lit "/statement>"] user []);
    [by_compute.. | exact Hlt | |]; repeat constructor.
Qed.
End ParsedCommand.

Lemma process_start stack ex m fs t sock token statement user :
  clean token -> clean statement -> clean user -> sock <> 0%N ->
  length (CHUNKER_COMMAND_FORMAT token statement user) < 1024 ->
  process stack ex m fs t sock (take 1024 (wire (CHUNKER_COMMAND_FORMAT token statement user))) =
  let '(m, ev) := process_command m t token statement user in (m, fs, ev).
Proof.
  intros Ht Hs Hu Hsock Hlen. destruct (command_chunks_clean _ _ _ Ht Hs Hu) as [Hlt Hnul].
  unfold process, process_at. rewrite decide_False by done.
  rewrite command_format_chunks in * by (apply Ht || apply Hs || apply Hu).
  rewrite cstr_wire; [|by apply chunks_notin | exact Hlen].
  rewrite command_token, command_statement, command_user by done.
  change (lit "<command>") with (lt :: lit "command>").
  by rewrite contains_chunks by (by_compute || done).
Qed.

(** ** Starting a command *)

Lemma token_notin attempts tok rest c :
  generate_token attempts = Ok (tok, rest) -> char_digit c = None -> c ∉ tok.
Proof.
  intros [-> | (a & b & Ha & Hb & ->)]%generate_token_loop_shape Hc; [apply not_elem_of_nil|].
  destruct (hex8_digits_spec a Ha) as (_ & _ & Fa), (hex8_digits_spec b Hb) as (_ & _ & Fb).
  rewrite hex8_pair. apply digits_notin; [done|]. apply Forall_app; split; by apply (Forall_lt_mono 16 36).
Qed.

Lemma token_clean attempts tok rest :
  generate_token attempts = Ok (tok, rest) -> tok <> [] -> clean tok.
Proof. intros Ht _. split; by eapply token_notin. Qed.

Lemma start_message write_ok attempts user cmd tok msg :
  start write_ok attempts user cmd = Ok (tok, Some msg) ->
  exists rest, generate_token attempts = Ok (tok, rest) /\ 16 <= length tok /\
    length (CHUNKER_COMMAND_FORMAT tok cmd user) < 1024 /\
    msg = wire (CHUNKER_COMMAND_FORMAT tok cmd user).
Proof.
  unfold start. intros H. apply res_bind_ok in H as ([t rest] & Ht & H).
  case_decide; [done|]. apply res_bind_ok in H as (buffer & Hb & H).
  unfold sprintf_into in Hb. case_decide; [|done]. injection Hb as <-.
  destruct write_ok; [|done]. injection H as -> <-. exists rest. split_and!; [done | lia | done | done].
Qed.

Lemma start_ok attempts user cmd tok rest :
  generate_token attempts = Ok (tok, rest) -> 16 <= length tok ->
  length (CHUNKER_COMMAND_FORMAT tok cmd user) < 1024 ->
  start true attempts user cmd = Ok (tok, Some (wire (CHUNKER_COMMAND_FORMAT tok cmd user))).
Proof.
  intros Htok Hlen Hfmt. unfold start. rewrite Htok. cbn [res_bind]. rewrite decide_False by lia.
  unfold sprintf_into. by rewrite decide_True.
Qed.

(** What [start] sends arrives: for a user and a command line
    without NUL and [<], the daemon starts exactly that command as that user
    and files it under the token [start] returns. *)
Lemma start_registers attempts user cmd tok msg stack ex m fs t sock :
  start true attempts user cmd = Ok (tok, Some msg) ->
  clean cmd -> clean user -> cmd <> [] -> user <> [] -> sock <> 0%N ->
  mget tok (_proc_coll m) = None ->
  process stack ex m fs t sock (take 1024 msg) =
  (upd_coll (mset tok (mkProcessData (processor_init (_chunk_size m) (_pid m) (_debug m))
                         t t cmd tok user 0 K_RUNNING)) m, fs, [Started tok cmd user]).
Proof.
  intros (rest & Htok & Hlen & Hfmt & ->)%start_message Hcmd Huser Hc Hu Hsock Hnew.
  assert (tok <> []) as Hne by (intros ->; simpl in Hlen; lia).
  rewrite process_start by (done || by eapply token_clean).
  unfold process_command, start_new_parent. rewrite Hnew, bool_decide_eq_false_2 by naive_solver.
  unfold minsert, upd_coll. by rewrite Hnew.
Qed.

(** Claim C39: a command line that holds user tags of its own is run as the
    user named there: the daemon takes the first tag of the message, and the
    tag of the requesting user comes after the command. *)
Theorem user_tag_injection stack ex m fs t sock token user s victim r :
  clean token -> clean user -> clean s -> clean victim -> clean r ->
  token <> [] -> victim <> [] -> sock <> 0%N -> mget token (_proc_coll m) = None ->
  let cmd := s ++ lit "<user>" ++ victim ++ lit "</user>" ++ r in
  length (CHUNKER_COMMAND_FORMAT token cmd user) < 1024 ->
  (process stack ex m fs t sock (take 1024 (wire (CHUNKER_COMMAND_FORMAT token cmd user)))).2 =
  [Started token cmd victim].
Proof.
  intros Htok Huser Hs Hv Hr Hne Hvne Hsock Hnew cmd Hlen.
  set (bs := [lit "vyatta>"; lit "command>"; lit "token>" ++ token; lit "/token>";
              lit "statement>" ++ s; lit "user>" ++ victim; lit "/user>" ++ r; lit "/statement>";
              lit "user>" ++ user; lit "/user>"; lit "/command>"; lit "/vyatta>"]).
  destruct Htok as [Ht1 Ht2], Huser as [Hu1 Hu2], Hs as [Hs1 Hs2], Hv as [Hv1 Hv2], Hr as [Hr1 Hr2].
  assert (Forall (fun b => lt ∉ b) bs) as Hlt by (unfold bs; repeat constructor; notin; by_compute).
  assert (Forall (fun b => nul ∉ b) bs) as Hnul by (unfold bs; repeat constructor; notin; by_compute).
  assert (CHUNKER_COMMAND_FORMAT token cmd user = chunks lt bs) as Hmsg.
  { unfold CHUNKER_COMMAND_FORMAT, cmd. rewrite !cstr_id by (notin; by_compute).
    unfold chunks, bs. rewrite !bind_cons. cbn [mbind list_bind app]. rewrite <- !app_assoc. reflexivity. }
  unfold process, process_at. rewrite decide_False by done. rewrite Hmsg in *.
  rewrite cstr_wire by (done || by apply chunks_notin).
  assert (between (chunks lt bs) (lit "<token>") (lit "</token>") = Some token) as ->.
  { apply (between_chunks (lit "token>") (lit "/token>") [lit "vyatta>"; lit "command>"] token []);
      [by_compute.. | exact Hlt | |]; repeat constructor. }
  assert (between (chunks lt bs) (lit "<statement>") (lit "</statement>") = Some cmd) as ->.
  { transitivity (Some (s ++ chunks lt [lit "user>" ++ victim; lit "/user>" ++ r])).
    - apply (between_span (lit "statement>") (lit "/statement>")
        [lit "vyatta>"; lit "command>"; lit "token>" ++ token; lit "/token>"] s
        [lit "user>" ++ victim; lit "/user>" ++ r] []);
      [by_compute.. | exact Hlt | |]; repeat constructor.
    - unfold cmd, chunks. rewrite !bind_cons. cbn [mbind list_bind app].
      rewrite app_nil_r, <- !app_assoc. reflexivity. }
  assert (between (chunks lt bs) (lit "<user>") (lit "</user>") = Some victim) as ->.
  { apply (between_chunks (lit "user>") (lit "/user>")
      [lit "vyatta>"; lit "command>"; lit "token>" ++ token; lit "/token>"; lit "statement>" ++ s]
      victim r); [by_compute.. | exact Hlt | |]; repeat constructor. }
  change (lit "<command>") with (lt :: lit "command>").
  rewrite contains_chunks by (by_compute || done). cbn [default].
  assert (cmd <> []) as Hcmd by (unfold cmd; by destruct s).
  unfold process_command, start_new_parent. rewrite Hnew, bool_decide_eq_false_2 by naive_solver.
  reflexivity.
Qed.

Lemma user_tag_injection_witness :
  let cmd := lit "show '" ++ lit "<user>" ++ lit "root" ++ lit "</user>" ++ lit "'" in
  (process [] (fun _ _ => false) (main_manager default_config) ∅ 7 3
     (take 1024 (wire (CHUNKER_COMMAND_FORMAT (lit "T1") cmd (lit "operator"))))).2 =
  [Started (lit "T1") cmd (lit "root")].
Proof.
  apply (user_tag_injection [] (fun _ _ => false) (main_manager default_config) ∅ 7 3);
    try done; try by_compute.
Defined.

(** The text around the fields of a command message. *)
Definition command_overhead : nat := length (CHUNKER_COMMAND_FORMAT [] [] []).

Lemma command_format_length token statement user :
  length (CHUNKER_COMMAND_FORMAT token statement user) =
  command_overhead + length (cstr token) + length (cstr statement) + length (cstr user).
Proof.
  unfold command_overhead, CHUNKER_COMMAND_FORMAT. rewrite !length_app. cbn [cstr length]. lia.
Qed.

(** Nothing bounds the command line before it is formatted into
    the array of 1024 characters: with a token at hand, [start] overruns the
    array exactly when command and user together pass 920 characters. *)
Theorem start_overflow write_ok attempts user cmd tok rest :
  generate_token attempts = Ok (tok, rest) -> length tok = 16 -> nul ∉ cmd -> nul ∉ user ->
  start write_ok attempts user cmd = Fault BufferOverflow <-> 920 < length cmd + length user.
Proof.
  intros Htok Hlen Hc Hu. unfold start. rewrite Htok. cbn [res_bind].
  rewrite decide_False by lia. unfold sprintf_into. rewrite command_format_length.
  assert (tok <> []) as Hne by (by intros ->).
  rewrite !cstr_id by (done || by eapply token_clean). rewrite Hlen.
  change command_overhead with 87.
  case_decide as E; cbn [res_bind]; split; try done; try lia.
  by destruct write_ok.
Qed.

Lemma start_overflow_witness :
  start true [Some (lit "abcdefgh")] (lit "vyatta") (replicate 915 space) = Fault BufferOverflow <->
  920 < length (replicate 915 space) + length (lit "vyatta").
Proof.
  apply (start_overflow true [Some (lit "abcdefgh")] (lit "vyatta") (replicate 915 space)
           (lit "6463626168676665") []); try (vm_compute; reflexivity); by_compute.
Defined.

Lemma kill_message user tok msg :
  kill true user tok = Ok (Some msg) ->
  msg = wire (CHUNKER_DELETE_FORMAT tok user) /\ length (CHUNKER_DELETE_FORMAT tok user) < 1024.
Proof.
  unfold kill. case_decide; [done|]. intros (b & Hb & H')%res_bind_ok.
  unfold sprintf_into in Hb. case_decide; [|done]. injection Hb as <-. by injection H' as <-.
Qed.

(** The daemon does not look at the user of a delete request: any
    user's request for a token ends the command, whoever owns it. *)
Lemma delete_any_user stack ex m fs t sock user tok msg :
  kill true user tok = Ok (Some msg) -> clean tok -> clean user -> sock <> 0%N ->
  process stack ex m fs t sock (take 1024 msg) = kill_process stack ex m fs tok.
Proof.
  intros [-> Hlen]%kill_message Htok Huser Hsock. unfold CHUNKER_DELETE_FORMAT in *.
  rewrite process_request; [reflexivity | by_compute | done..].
Qed.

(** ** Answers about commands *)

Definition pct : ascii := ascii_of_nat 37.

(** What the answer says of an entry, in order. *)
Definition item_fields (pd : ChunkerManager.ProcessData) : list str :=
  [dec (ChunkerManager._start_time pd); ChunkerManager._command pd; _token pd; _user pd;
   dec_signed (_read_offset pd)].

(** An entry whose text the answer can carry. *)
Definition plain_entry (pd : ChunkerManager.ProcessData) : Prop :=
  (ChunkerManager._start_time pd < 2 ^ 63)%N /\
  clean_field pct (ChunkerManager._command pd) /\ clean_field pct (_token pd) /\
  clean_field pct (_user pd) /\
  (nul ∉ ChunkerManager._command pd) /\ (nul ∉ _token pd) /\ (nul ∉ _user pd).

#[export] Instance plain_entry_dec pd : Decision (plain_entry pd).
Proof. unfold plain_entry. apply _. Defined.

(** The entry as the client records it. *)
Definition client_view (indeterminate : N) (pd : ChunkerManager.ProcessData) : ProcessData :=
  mkPD (_user pd) (ChunkerManager._start_time pd) indeterminate (_token pd)
    (ChunkerManager._command pd).

Lemma dec_signed_notin n c : char_digit c = None -> c <> ascii_of_nat 45 -> c ∉ dec_signed n.
Proof.
  intros Hc Hm. unfold dec_signed. case_decide; [by apply dec_notin|].
  apply not_elem_of_app. split; [by intros ->%list_elem_of_singleton | by apply dec_notin].
Qed.

Lemma dec_clean n : clean_field pct (dec n).
Proof. split; [apply dec_not_nil|]. split_and!; by apply dec_notin. Qed.

Lemma dec_signed_clean n : clean_field pct (dec_signed n).
Proof.
  split; [|split_and!; by apply dec_signed_notin].
  unfold dec_signed. case_decide; [apply dec_not_nil | done].
Qed.

Lemma item_fields_clean pd : plain_entry pd -> Forall (clean_field pct) (item_fields pd).
Proof.
  intros (_ & Hc & Ht & Hu & _). unfold item_fields.
  repeat (constructor; [first [done | apply dec_clean | apply dec_signed_clean]|]). constructor.
Qed.

Lemma item_nul pd : plain_entry pd -> Forall (fun f => nul ∉ f) (item_fields pd).
Proof.
  intros (_ & _ & _ & _ & Hc & Ht & Hu). unfold item_fields.
  repeat (constructor; [first [done | by apply dec_notin | by apply dec_signed_notin]|]). constructor.
Qed.

Lemma describe_join pd :
  plain_entry pd -> describe pd ++ sep ++ dec_signed (_read_offset pd) = join sep (item_fields pd).
Proof.
  intros [Hs _]. unfold describe, item_fields. cbn [join].
  assert (dec_signed (ChunkerManager._start_time pd) = dec (ChunkerManager._start_time pd)) as ->
    by (unfold dec_signed; by rewrite decide_True).
  by rewrite <- !app_assoc.
Qed.

Lemma process_item_join pd :
  plain_entry pd -> process_item pd = join sep (item_fields pd) ++ lit "%2C".
Proof. intros Hp. unfold process_item. by rewrite <- describe_join, <- !app_assoc. Qed.

Lemma parse_item_join w pd :
  plain_entry pd -> parse_item w (join sep (item_fields pd)) = Ok (client_view w pd).
Proof.
  intros Hp. unfold parse_item. change (lit "%3A") with (pct :: lit "3A").
  change sep with (pct :: lit "3A").
  rewrite (proj1 (str_proc_join pct (lit "3A") (item_fields pd) (item_fields_clean _ Hp)
                    ltac:(by_compute) ltac:(by_compute) ltac:(by_compute))).
  cbn [res_bind]. unfold item_fields, sp_get, client_view. cbn [length].
  rewrite !decide_False by (vm_compute; intros H; by apply H).
  assert (strtoul (dec (ChunkerManager._start_time pd)) = ChunkerManager._start_time pd) as Hd
    by (apply strtoul_dec; destruct Hp as [Hs _]; etrans; [exact Hs | done]).
  revert Hd. generalize (dec (ChunkerManager._start_time pd)) as d. intros d Hd.
  change (Z.to_nat 0) with 0. change (Z.to_nat 1) with 1. change (Z.to_nat 2) with 2.
  change (Z.to_nat 3) with 3. cbn. by rewrite Hd.
Qed.

Lemma join_item_chunks pd :
  join sep (item_fields pd) =
  dec (ChunkerManager._start_time pd) ++
  chunks pct ((fun f => lit "3A" ++ f) <$> drop 1 (item_fields pd)).
Proof.
  unfold item_fields, chunks. cbn [join drop fmap list_fmap]. rewrite !bind_cons. cbn [mbind list_bind app].
  by rewrite app_nil_r.
Qed.

Lemma join_item_notin x pd :
  (x = tab \/ x = nl \/ x = tilde \/ x = nul) -> plain_entry pd -> x ∉ join sep (item_fields pd).
Proof.
  intros Hx Hp Hin. apply elem_of_join in Hin as [Hin|(f & Hf & Hin)].
  - destruct Hx as [->|[->|[-> | ->]]]; revert Hin; by_compute.
  - pose proof (item_fields_clean _ Hp) as Hc. pose proof (item_nul _ Hp) as Hn.
    rewrite Forall_forall in Hc, Hn. destruct (Hc _ Hf) as (_ & Htl & Ht & Hnl & _).
    specialize (Hn _ Hf). by destruct Hx as [->|[->|[-> | ->]]].
Qed.

(** An answer is cut into its items. *)
Lemma answer_items l :
  Forall plain_entry l ->
  str_proc (l ≫= process_item) (lit "%2C") = Ok ((fun pd => join sep (item_fields pd)) <$> l).
Proof.
  intros Hl. rewrite str_proc_ok by by_compute. unfold str_proc_spec.
  assert (forall x, x = tab \/ x = nl -> x ∉ l ≫= process_item) as Hx.
  { intros x Hx (pd & Hpd & Hin)%list_elem_of_bind.
    rewrite Forall_forall in Hl. specialize (Hl _ Hin). rewrite process_item_join in Hpd by done.
    apply elem_of_app in Hpd as [Hpd|Hpd].
    - by eapply join_item_notin in Hpd; [|naive_solver|done].
    - destruct Hx as [-> | ->]; revert Hpd; by_compute. }
  rewrite prepare_id by (apply Hx; tauto). f_equal. clear Hx.
  induction Hl as [|pd l Hp Hl IH]; [done|].
  rewrite bind_cons, fmap_cons, process_item_join, <- app_assoc, join_item_chunks by done.
  change (lit "%2C") with (pct :: lit "2C") in *.
  rewrite replace_all_after_chunks; [|by apply dec_notin|].
  - rewrite <- join_item_chunks. cbn [app]. rewrite fields_app.
    + by rewrite IH.
    + apply join_item_notin; tauto.
    + unfold item_fields. cbn [join]. intros [H _]%app_nil. by apply dec_not_nil in H.
  - apply Forall_fmap, Forall_forall. intros f Hf. cbn [compose]. split; [|done].
    pose proof (item_fields_clean _ Hp) as Hc. rewrite Forall_forall in Hc.
    destruct (Hc f) as (_ & _ & _ & _ & Hpct); [by eapply elem_of_drop|].
    notin; by_compute.
Qed.

(** ** Client and daemon together *)

(** What a client reads after its message was processed. *)
Definition reply (ev : list mgr_event) : str :=
  ev ≫= (fun e => match e with Respond r => r | _ => [] end).

Lemma reply_respond m fs r : reply (m : ChunkerManager, fs : files, [Respond r]).2 = r.
Proof. cbn. apply app_nil_r. Qed.

Definition daemon (stack : str) (ex : str -> nat -> bool) (m : ChunkerManager) (fs : files)
    (t sock : N) (msg : str) : option str :=
  Some (reply (process stack ex m fs t sock (take 1024 msg)).2).

Lemma reply_size_pos : 0 < reply_size.
Proof. apply Nat.ltb_lt. vm_compute. reflexivity. Qed.

Lemma received_ok out : length out < reply_size -> nul ∉ out -> received out = Ok out.
Proof.
  intros Hl Hn. unfold received. rewrite take_ge by lia. rewrite decide_True by (by left).
  by rewrite cstr_id.
Qed.

Lemma request_daemon stack ex m fs t sock req token user out :
  req ∈ requests -> clean token -> clean user -> sock <> 0%N ->
  length (request_format req token user) < 1024 ->
  reply (serve_request stack ex m fs req token user).2 = out ->
  length out < reply_size -> nul ∉ out ->
  request true (daemon stack ex m fs t sock) (request_format req token user) = Ok (Some out).
Proof.
  intros Hreq Ht Hu Hs Hl Hr Hlen Hn. unfold request, sprintf_into.
  rewrite decide_True by done. cbn [res_bind]. unfold daemon.
  rewrite process_request, Hr, received_ok by done. done.
Qed.

Lemma parse_items_join w l :
  Forall plain_entry l ->
  parse_items w ((fun pd => join sep (item_fields pd)) <$> l) = Ok (client_view w <$> l).
Proof.
  induction 1 as [|pd l Hp Hl IH]; [done|]. rewrite !fmap_cons. cbn [parse_items].
  rewrite parse_item_join by done. cbn [res_bind]. by rewrite IH.
Qed.

Lemma items_notin_nul l : Forall plain_entry l -> nul ∉ l ≫= process_item.
Proof.
  intros Hl (pd & Hpd & Hin)%list_elem_of_bind.
  rewrite Forall_forall in Hl. specialize (Hl _ Hin). rewrite process_item_join in Hpd by done.
  apply elem_of_app in Hpd as [Hpd|Hpd]; [|revert Hpd; by_compute].
  by eapply join_item_notin in Hpd; [|naive_solver|done].
Qed.

Lemma process_list_owned m user :
  process_list m user = (filter (owned user) (_proc_coll m)).*2 ≫= process_item.
Proof.
  unfold process_list. rewrite (bind_filter (owned user)) by (intros p Hp; by rewrite decide_True).
  induction (_proc_coll m) as [|p l IH]; [done|]. rewrite filter_cons. case_decide as Hp; [|done].
  rewrite fmap_cons, !bind_cons, IH. rewrite decide_False; [done|]. intros H. by apply H.
Qed.

(** The list of background commands a user gets is exactly the
    entries of the table that belong to the user, in the order of their
    tokens, each with its start time, command, token and owner. *)
Lemma listing_roundtrip stack ex m fs t sock w user :
  clean user -> user <> [] -> sock <> 0%N ->
  length (CHUNKER_PROCESS_FORMAT (lit "123456") user) < 1024 ->
  Forall plain_entry (filter (owned user) (_proc_coll m)).*2 ->
  length (process_list m user) < reply_size ->
  get_processes true (daemon stack ex m fs t sock) w user =
  Ok (client_view w <$> (filter (owned user) (_proc_coll m)).*2).
Proof.
  intros Hu Hne Hs Hlen Hp Hl. unfold get_processes. rewrite decide_False by done.
  unfold CHUNKER_PROCESS_FORMAT in *.
  rewrite (request_daemon _ _ _ _ _ _ _ _ _ (process_list m user)).
  - cbn [res_bind]. rewrite process_list_owned, answer_items by done. cbn [res_bind].
    by apply parse_items_join.
  - by_compute.
  - by_compute.
  - done.
  - done.
  - done.
  - apply reply_respond.
  - done.
  - rewrite process_list_owned. by apply items_notin_nul.
Qed.

Definition demo_manager : ChunkerManager :=
  (process [] (fun _ _ => false) (main_manager default_config) ∅ 7 3
    (CHUNKER_COMMAND_FORMAT (lit "6463626168676665") (lit "show 'version'") (lit "vyatta"))).1.1.

Lemma process_details_entry m token user :
  manager_ok m ->
  process_details m token user =
  match mget token (_proc_coll m) with
  | Some pd => if decide (_user pd = user) then process_item pd else []
  | None => []
  end.
Proof.
  intros [Hs Hm]. unfold process_details. rewrite (bind_single _ token); [|done|].
  - destruct (mget token (_proc_coll m)) as [pd|] eqn:E; [|done]. cbn [fst snd].
    rewrite (entry_key _ _ _ (Hm _ _ E)).
    destruct (decide (_user pd = user)) as [H|H];
      [rewrite !decide_False by naive_solver | rewrite decide_True by done]; done.
  - intros [k pd] Hin Hne. cbn in *. case_decide; [done|]. rewrite decide_True; [done|].
    rewrite (entry_key _ _ _ (Hm _ _ (mget_elem _ _ _ Hs Hin))). done.
Qed.

(** Asking for one command by its token yields the entry's data to
    its owner; for an unknown token and for the command of another user the
    client sees the same empty record. *)
Lemma details_roundtrip stack ex m fs t sock w user token :
  manager_ok m -> clean user -> clean token -> user <> [] -> token <> [] -> sock <> 0%N ->
  length (CHUNKER_DETAILS_FORMAT token user) < 1024 ->
  (forall pd, mget token (_proc_coll m) = Some pd ->
     plain_entry pd /\ length (process_item pd) < reply_size) ->
  get_process_details true (daemon stack ex m fs t sock) w user token =
  Ok (match mget token (_proc_coll m) with
      | Some pd => if decide (_user pd = user) then client_view w pd else new_ProcessData w
      | None => new_ProcessData w
      end).
Proof.
  intros Hm Hu Ht Hne Htne Hs Hlen Hp. unfold get_process_details. rewrite decide_False by naive_solver.
  unfold CHUNKER_DETAILS_FORMAT in *.
  rewrite (request_daemon _ _ _ _ _ _ _ _ _ (process_details m token user));
    [|by_compute | done.. | apply reply_respond | |]; rewrite process_details_entry by done;
    destruct (mget token (_proc_coll m)) as [pd|]; try done.
  - destruct (Hp pd eq_refl) as [Hpd _]. case_decide; [|done]. cbn [res_bind].
    pose proof (answer_items [pd] ltac:(by constructor)) as Ha.
    cbn [mbind list_bind] in Ha. rewrite app_nil_r in Ha. rewrite Ha. cbn [res_bind fmap list_fmap].
    by apply parse_item_join.
  - destruct (Hp pd eq_refl). case_decide; [done | apply reply_size_pos].
  - apply reply_size_pos.
  - destruct (Hp pd eq_refl) as [Hpd _]. case_decide; [|apply not_elem_of_nil].
    rewrite <- (app_nil_r (process_item pd)). apply (items_notin_nul [pd]). by constructor.
  - apply not_elem_of_nil.
Qed.

