(* ===== verification/Daemon.v ===== *)
(** * The chunker daemon as its users see it (chunker2_main.cc)

    The main loop of the daemon around [ChunkerManager], and the abstract
    table of jobs it implements: a finite map from tokens to who runs what
    since when, with one step for each of the five requests.  The protocol
    text, the ordered table and the parsing on both sides disappear in the
    refinement. *)

From S2P Require Import Prelude CppString StrProc Common CppMap ChunkerProcessor ChunkerManager MultiResp.

(** ** The main loop *)

(** What [accept] and [read] give in one turn. *)
Inductive connection :=
| NoClient
| Client (cur_time sock : N) (msg : option str).

Section Main.
Variable stack : str.
Variable stat_exists : str -> nat -> bool.

(** [ChunkerManager::read] *)
Definition manager_turn (m : ChunkerManager) (fs : files) (c : connection)
    : res (ChunkerManager * files * list mgr_event) :=
  match c with
  | NoClient => Ok (m, fs, [])
  | Client cur_time sock msg => manager_read stack stat_exists m fs cur_time sock msg
  end.

(** The turns until the signal; the commands running meanwhile change the
    files before each of them. *)
Fixpoint main_loop (turns : list ((files -> files) * connection)) (m : ChunkerManager) (fs : files)
    : res (ChunkerManager * files * list mgr_event) :=
  match turns with
  | [] => Ok (m, fs, [])
  | (outside, c) :: turns' =>
      let* '(m, fs, ev) := manager_turn m (outside fs) c in
      let* '(m, fs, ev') := main_loop turns' m fs in
      Ok (m, fs, ev ++ ev')
  end.

(** [main] in the child of its [fork]; [None] is the usage message. *)
Definition chunker_main (opts : list chunker_option) (pid : N) (opens : bool)
    (turns : list ((files -> files) * connection)) (fs : files)
    : option (res (ChunkerManager * files * list mgr_event)) :=
  match parse_options opts with
  | None => None
  | Some cfg =>
      let fs := if decide (cfg_process_pid_path cfg <> [])
                then (pid_output opens fs (cstr (cfg_process_pid_path cfg)) pid).2 else fs in
      Some (let* '(m, fs, ev) := main_loop turns (main_manager cfg) fs in
            let* '(m, fs, ev') := shutdown stack stat_exists m fs in
            Ok (m, fs, init_cmds ++ ev ++ ev'))
  end.
End Main.

(** ** The abstract table *)

Record job := mkJob {
  job_user : str;
  job_command : str;
  job_started : N;
}.

(** The five requests of the client. *)
Inductive call :=
| CallStart (token command user : str)
| CallList (user : str)
| CallDetails (token user : str)
| CallNext (token user : str)
| CallDelete (token user : str).

(** The message of a request. *)
Definition call_text (c : call) : str :=
  match c with
  | CallStart token command user => CHUNKER_COMMAND_FORMAT token command user
  | CallList user => CHUNKER_PROCESS_FORMAT (lit "123456") user
  | CallDetails token user => CHUNKER_DETAILS_FORMAT token user
  | CallNext token user => CHUNKER_NEXT_FORMAT token user
  | CallDelete token user => CHUNKER_DELETE_FORMAT token user
  end.

(** What a request does to the jobs: only starting a job under a new token
    and ending one change them.  A job can be ended when [stoppable] says
    so, which is what its pid file decides. *)
Definition job_step (now : N) (stoppable : str -> bool) (c : call) (J : gmap str job) : gmap str job :=
  match c with
  | CallStart token command user =>
      match J !! token with Some _ => J | None => <[token := mkJob user command now]> J end
  | CallDelete token _ => if stoppable token then delete token J else J
  | CallList _ | CallDetails _ _ | CallNext _ _ => J
  end.

(** The jobs of a user. *)
Definition own_jobs (user : str) (J : gmap str job) : gmap str job :=
  filter (fun p => job_user p.2 = user) J.

(** One request, at a time and with the files as the daemon finds them. *)
Record turn := mkTurn { turn_files : files; turn_time : N; turn_call : call }.

Definition job_turn (J : gmap str job) (k : turn) : gmap str job :=
  job_step (turn_time k) (killable (turn_files k)) (turn_call k) J.

(** ** The abstraction *)

Definition job_of (pd : ChunkerManager.ProcessData) : job :=
  mkJob (_user pd) (ChunkerManager._command pd) (ChunkerManager._start_time pd).

Definition jobs (m : ChunkerManager) : gmap str job :=
  list_to_map ((fun p => (p.1, job_of p.2)) <$> _proc_coll m).

(** A job as the client records it. *)
Definition job_view (indeterminate : N) (p : str * job) : ProcessData :=
  mkPD (job_user p.2) (job_started p.2) indeterminate p.1 (job_command p.2).

Lemma jobs_lookup m token : jobs m !! token = job_of <$> mget token (_proc_coll m).
Proof.
  unfold jobs. induction (_proc_coll m) as [|[k pd] l IH]; [done|].
  cbn [fmap list_fmap list_to_map foldr fst snd uncurry mget]. case_decide as E.
  - subst k. apply lookup_insert_eq.
  - by rewrite lookup_insert_ne.
Qed.

Lemma jobs_mset m token pd : jobs (upd_coll (mset token pd) m) = <[token := job_of pd]> (jobs m).
Proof.
  apply map_eq. intros k. rewrite jobs_lookup. cbn. destruct (decide (k = token)) as [->|Hk].
  - by rewrite mget_mset_eq, lookup_insert_eq.
  - by rewrite mget_mset_ne, lookup_insert_ne, jobs_lookup.
Qed.

Lemma jobs_minsert m token pd :
  mget token (_proc_coll m) = None ->
  jobs (upd_coll (minsert token pd) m) = <[token := job_of pd]> (jobs m).
Proof.
  intros Hm. rewrite <- jobs_mset. f_equal. unfold upd_coll, minsert. by rewrite Hm.
Qed.

Lemma jobs_merase m token : jobs (upd_coll (merase token) m) = delete token (jobs m).
Proof.
  apply map_eq. intros k. rewrite jobs_lookup. cbn. rewrite mget_merase. case_decide as Hk.
  - subst. by rewrite lookup_delete_eq.
  - by rewrite lookup_delete_ne, jobs_lookup.
Qed.

Lemma jobs_mset_same m token pd pd' :
  mget token (_proc_coll m) = Some pd -> job_of pd' = job_of pd ->
  jobs (upd_coll (mset token pd') m) = jobs m.
Proof.
  intros Hm Hj. rewrite jobs_mset, Hj. apply insert_id. by rewrite jobs_lookup, Hm.
Qed.

Lemma same_entry_job pd pd' : same_entry pd pd' -> job_of pd' = job_of pd.
Proof. intros (_ & H1 & H2 & _ & H3 & _). unfold job_of. by rewrite H1, H2, H3. Qed.

(** ** The steps agree *)

Lemma command_jobs m t token command user :
  token <> [] -> command <> [] -> user <> [] ->
  jobs (process_command m t token command user).1 =
  match jobs m !! token with Some _ => jobs m | None => <[token := mkJob user command t]> (jobs m) end.
Proof.
  intros Ht Hc Hu. unfold process_command, start_new_parent.
  rewrite bool_decide_eq_false_2 by naive_solver. cbn [negb]. rewrite jobs_lookup.
  destruct (mget token (_proc_coll m)) as [pd|] eqn:E; cbn [fmap option_fmap option_map fst].
  - rewrite decide_False by done. unfold upd_coll, minsert. cbn [fst]. rewrite E. by destruct m.
  - by rewrite jobs_minsert.
Qed.

Lemma next_jobs m fs token user : jobs (process_next m fs token user).1 = jobs m.
Proof.
  unfold process_next, process_next_at. destruct (mget token (_proc_coll m)) as [pd|] eqn:E; [|done].
  case_decide; [done|]. pose proof (next_chunk_at_same (_chunk_size m) fs fs token pd) as Hs.
  destruct (next_chunk_at (_chunk_size m) fs fs token pd) as [pd' resp]. cbn [fst] in *.
  eapply jobs_mset_same; [exact E | by apply same_entry_job].
Qed.

Lemma kill_jobs stack ex m fs token :
  jobs (kill_process stack ex m fs token).1.1 =
  if killable fs token then delete token (jobs m) else jobs m.
Proof.
  destruct (killable fs token) eqn:E.
  - rewrite kill_process_killable by done. apply jobs_merase.
  - by rewrite kill_process_unkillable.
Qed.

(** ** A run *)

(** A request whose text passes through a message. *)
Definition call_ok (c : call) : Prop :=
  length (call_text c) < 1024 /\
  match c with
  | CallStart token command user =>
      clean token /\ clean command /\ clean user /\ token <> [] /\ command <> [] /\ user <> []
  | CallList user => clean user
  | CallDetails token user | CallNext token user | CallDelete token user => clean token /\ clean user
  end.

#[export] Instance call_ok_dec c : Decision (call_ok c).
Proof. unfold call_ok. destruct c; apply _. Defined.

Section Runs.
Context (stack : str) (ex : str -> nat -> bool) (sock : N).

(** One request at the daemon, as the bytes its client writes. *)
Definition serve_turn (m : ChunkerManager) (k : turn) : ChunkerManager :=
  (process stack ex m (turn_files k) (turn_time k) sock (take 1024 (wire (call_text (turn_call k))))).1.1.

Definition serve_turns : list turn -> ChunkerManager -> ChunkerManager := fun l m => foldl serve_turn m l.

Definition job_turns : list turn -> gmap str job -> gmap str job := fun l J => foldl job_turn J l.

Lemma serve_turn_jobs m k :
  sock <> 0%N -> call_ok (turn_call k) -> jobs (serve_turn m k) = job_turn (jobs m) k.
Proof.
  intros Hs [Hl Hc]. unfold serve_turn, job_turn. destruct (turn_call k) as [token command user|user|token user|token user|token user];
    cbn [call_text job_step] in *.
  - destruct Hc as (H1 & H2 & H3 & H4 & H5 & H6). rewrite process_start by done.
    rewrite <- command_jobs by done. by destruct (process_command _ _ _ _ _).
  - unfold CHUNKER_PROCESS_FORMAT in *. rewrite process_request by (done || by_compute). done.
  - destruct Hc. unfold CHUNKER_DETAILS_FORMAT in *. rewrite process_request by (done || by_compute). done.
  - destruct Hc. unfold CHUNKER_NEXT_FORMAT in *. rewrite process_request by (done || by_compute).
    unfold serve_request, serve_request_at. rewrite !(decide_False (P := lit "next" = _)), decide_True by done.
    etrans; [|apply (next_jobs m (turn_files k) token user)]. unfold process_next. by destruct (process_next_at _ _ _ _ _).
  - destruct Hc. unfold CHUNKER_DELETE_FORMAT in *. rewrite process_request by (done || by_compute).
    apply kill_jobs.
Qed.

Lemma serve_turns_jobs l m :
  sock <> 0%N -> Forall (fun k => call_ok (turn_call k)) l -> jobs (serve_turns l m) = job_turns l (jobs m).
Proof.
  intros Hs. unfold serve_turns, job_turns. intros Hl. revert m.
  induction Hl as [|k l Hk Hl IH]; intros m; [done|]. cbn [foldl]. by rewrite IH, serve_turn_jobs.
Qed.

Lemma serve_turns_ok l m : manager_ok m -> manager_ok (serve_turns l m).
Proof.
  unfold serve_turns. revert m; induction l as [|k l IH]; intros m Hm; [done|]. apply IH.
  by apply process_keeps.
Qed.
End Runs.

(** ** What a user sees *)

(** A job whose texts an answer can carry. *)
Definition job_plain (token : str) (j : job) : Prop :=
  (job_started j < 2 ^ 63)%N /\
  clean_field pct (job_command j) /\ clean_field pct token /\ clean_field pct (job_user j) /\
  (nul ∉ job_command j) /\ (nul ∉ token) /\ (nul ∉ job_user j).

#[export] Instance job_plain_dec token j : Decision (job_plain token j).
Proof. unfold job_plain. apply _. Defined.

(** A turn that starts, if any, a plain job. *)
Definition turn_plain (k : turn) : Prop :=
  match turn_call k with
  | CallStart token command user => job_plain token (mkJob user command (turn_time k))
  | _ => True
  end.

#[export] Instance turn_plain_dec k : Decision (turn_plain k).
Proof. unfold turn_plain. destruct (turn_call k); apply _. Defined.

Lemma job_turn_plain J k :
  turn_plain k -> map_Forall job_plain J -> map_Forall job_plain (job_turn J k).
Proof.
  unfold turn_plain, job_turn, job_step. intros Hk HJ.
  destruct (turn_call k) as [token command user|user|token user|token user|token user]; try done.
  - destruct (J !! token); [done | by apply map_Forall_insert_2].
  - destruct (killable _ _); [by apply map_Forall_delete | done].
Qed.

Lemma job_turns_plain l J :
  Forall turn_plain l -> map_Forall job_plain J -> map_Forall job_plain (job_turns l J).
Proof.
  unfold job_turns. intros Hl. revert J. induction Hl as [|k l Hk Hl IH]; intros J HJ; [done|].
  apply IH. by apply job_turn_plain.
Qed.

Lemma jobs_plain m :
  manager_ok m -> map_Forall job_plain (jobs m) ->
  forall token pd, mget token (_proc_coll m) = Some pd -> plain_entry pd.
Proof.
  intros Hm HJ token pd Hpd. specialize (HJ token (job_of pd)). rewrite jobs_lookup, Hpd in HJ.
  specialize (HJ eq_refl). destruct (proj2 Hm _ _ Hpd) as [Hk _ _ _]. by rewrite <- Hk in HJ.
Qed.

Lemma msorted_NoDup {V} (l : cmap str V) : msorted l -> NoDup l.*1.
Proof.
  unfold msorted. induction l as [|[k v] l IH]; cbn [fmap list_fmap fst]; [constructor|].
  intros H. inversion H as [|? ? Hs Hall]; subst. constructor; [|by apply IH].
  intros Hin. rewrite Forall_forall in Hall. specialize (Hall k Hin). by rewrite key_compare_refl in Hall.
Qed.

(** The entries of a user are the jobs of that user, up to their order. *)
Lemma own_jobs_entries w m user :
  manager_ok m ->
  client_view w <$> (filter (owned user) (_proc_coll m)).*2 ≡ₚ
  job_view w <$> map_to_list (own_jobs user (jobs m)).
Proof.
  intros [Hs Hm]. unfold own_jobs, jobs. rewrite map_filter_alt.
  set (f := fun p : str * ChunkerManager.ProcessData => (p.1, job_of p.2)).
  assert (NoDup (f <$> _proc_coll m).*1) as Hnd.
  { rewrite <- list_fmap_compose. by apply msorted_NoDup. }
  rewrite map_to_list_to_map.
  2: { eapply sublist_NoDup; [apply (NoDup_fst_map_to_list (list_to_map (f <$> _proc_coll m) : gmap str job))|].
       apply fmap_sublist, sublist_filter. }
  rewrite map_to_list_to_map by done. match goal with |- ?a ≡ₚ ?b => enough (a = b) as -> by done end. clear Hnd.
  assert (forall p, p ∈ _proc_coll m -> _token p.2 = p.1) as Hkey.
  { intros [k pd] Hin. apply (entry_key m k pd). apply Hm. by apply mget_elem. }
  clear Hs Hm. induction (_proc_coll m) as [|[k pd] l IH]; [done|].
  rewrite fmap_cons, !filter_cons. unfold owned at 1. cbn [f fst snd job_user job_of].
  specialize (IH (fun p Hp => Hkey p (list_elem_of_further _ _ _ Hp))).
  repeat case_decide; try done. rewrite !fmap_cons, IH. f_equal. unfold client_view, job_view. cbn.
  pose proof (Hkey (k, pd) ltac:(by left)) as Hk. cbn in Hk. by rewrite Hk.
Qed.

(** Claim C6: the daemon implements the abstract table of jobs.  Whatever
    requests reach it, each as the text its client writes, its table holds
    exactly the jobs the abstract steps yield; and what a client then reads
    back through the text protocol is the abstract answer: the list is the
    user's own jobs, and one job is shown to its owner and to nobody else. *)
Theorem daemon_refines (stack : str) (ex : str -> nat -> bool) (sock w t : N) (fs : files)
    (m : ChunkerManager) (l : list turn) :
  manager_ok m -> sock <> 0%N -> map_Forall job_plain (jobs m) ->
  Forall (fun k => call_ok (turn_call k) /\ turn_plain k) l ->
  let m' := serve_turns stack ex sock l m in
  let J := job_turns l (jobs m) in
  jobs m' = J /\
  (forall user, call_ok (CallList user) -> user <> [] -> length (process_list m' user) < reply_size ->
     exists rs, get_processes true (daemon stack ex m' fs t sock) w user = Ok rs /\
       rs ≡ₚ job_view w <$> map_to_list (own_jobs user J)) /\
  (forall token user, call_ok (CallDetails token user) -> user <> [] -> token <> [] ->
     (forall pd, mget token (_proc_coll m') = Some pd -> length (process_item pd) < reply_size) ->
     get_process_details true (daemon stack ex m' fs t sock) w user token =
     Ok (match J !! token with
         | Some j => if decide (job_user j = user) then job_view w (token, j) else new_ProcessData w
         | None => new_ProcessData w
         end)).
Proof.
  intros Hm Hs HJ Hl. rewrite Forall_and in Hl. destruct Hl as [Hok Hplain]. intros m' J.
  assert (jobs m' = J) as Hj by (by apply serve_turns_jobs).
  assert (manager_ok m') as Hm' by (by apply serve_turns_ok).
  assert (forall token pd, mget token (_proc_coll m') = Some pd -> plain_entry pd) as Hp.
  { apply jobs_plain; [done|]. rewrite Hj. by apply job_turns_plain. }
  split; [done|]. rewrite <- Hj. split.
  - intros user [Hlen Hu] Hne Hsize. eexists. split; [|by apply own_jobs_entries].
    apply listing_roundtrip; try done. apply Forall_fmap, Forall_forall.
    intros [k pd] [_ Hin]%list_elem_of_filter. apply (Hp k). apply mget_elem; [apply Hm' | done].
  - intros token user [Hlen [Ht Hu]] Hne Htne Hsize. rewrite details_roundtrip; try done.
    + rewrite jobs_lookup. destruct (mget token (_proc_coll m')) as [pd|] eqn:E; [|done].
      cbn [fmap option_fmap option_map job_user job_of]. case_decide; [|done].
      unfold client_view, job_view. cbn. by rewrite (entry_key _ _ _ (proj2 Hm' _ _ E)).
    + intros pd E. split; [by eapply Hp | by apply Hsize].
Qed.

(** Two users, one of whom asks for the other's job and ends it. *)
Definition demo_turns : list turn :=
  [mkTurn ∅ 7 (CallStart (lit "0123456789abcdef") (lit "show 'version'") (lit "vyatta"));
   mkTurn ∅ 8 (CallStart (lit "fedcba9876543210") (lit "ping '::1'") (lit "guest"));
   mkTurn ∅ 9 (CallNext (lit "fedcba9876543210") (lit "vyatta"));
   mkTurn {[pid_file (lit "0123456789abcdef") := lit "42"]} 9 (CallDelete (lit "0123456789abcdef") (lit "guest"))].

Lemma daemon_refines_witness :
  let m' := serve_turns [] (fun _ _ => false) 3 demo_turns (main_manager default_config) in
  let J := job_turns demo_turns ∅ in
  J = {[lit "fedcba9876543210" := mkJob (lit "guest") (lit "ping '::1'") 8]} /\ jobs m' = J /\
  (forall user, call_ok (CallList user) -> user <> [] -> length (process_list m' user) < reply_size ->
     exists rs, get_processes true (daemon [] (fun _ _ => false) m' ∅ 10 3) 0 user = Ok rs /\
       rs ≡ₚ job_view 0 <$> map_to_list (own_jobs user J)) /\
  (forall token user, call_ok (CallDetails token user) -> user <> [] -> token <> [] ->
     (forall pd, mget token (_proc_coll m') = Some pd -> length (process_item pd) < reply_size) ->
     get_process_details true (daemon [] (fun _ _ => false) m' ∅ 10 3) 0 user token =
     Ok (match J !! token with
         | Some j => if decide (job_user j = user) then job_view 0 (token, j) else new_ProcessData 0
         | None => new_ProcessData 0
         end)).
Proof.
  split; [vm_compute; reflexivity|].
  apply (daemon_refines [] (fun _ _ => false) 3 0 10 ∅ (main_manager default_config) demo_turns).
  - split; [constructor | done].
  - done.
  - apply map_Forall_empty.
  - by_compute.
Defined.

(** ** The whole program *)

Lemma manager_turn_ok stack ex m fs c m' fs' ev :
  manager_turn stack ex m fs c = Ok (m', fs', ev) -> manager_ok m -> manager_ok m'.
Proof.
  destruct c as [|t sock [msg|]]; cbn; [by intros [= <- <- <-] | | done].
  intros [= H] Hm. pose proof (process_keeps stack ex m fs t sock (take 1024 msg) Hm) as Hk. by rewrite H in Hk.
Qed.

(** The table is well formed whenever the daemon waits for a client. *)
Lemma main_loop_ok stack ex turns m fs m' fs' ev :
  main_loop stack ex turns m fs = Ok (m', fs', ev) -> manager_ok m -> manager_ok m'.
Proof.
  revert m fs m' fs' ev. induction turns as [|[f c] turns IH]; intros m fs m' fs' ev.
  - by intros [= <- <- <-].
  - cbn [main_loop]. intros H Hm. apply res_bind_ok in H as ([[m1 fs1] ev1] & H1 & H).
    apply res_bind_ok in H as ([[m2 fs2] ev2] & H2 & H). injection H as <- <- <-.
    eapply IH; [exact H2|]. by eapply manager_turn_ok.
Qed.

(** The daemon ends in an orderly way exactly when every [read] from a
    client succeeds and no command is left to be killed. *)
Lemma chunker_main_ends stack ex opts pid opens turns fs r :
  chunker_main stack ex opts pid opens turns fs = Some (Ok r) ->
  exists cfg, parse_options opts = Some cfg /\ manager_ok r.1.1 /\
    Forall (fun key => key = [] \/ killable r.1.2 key = false) (_proc_coll r.1.1).*1.
Proof.
  unfold chunker_main. destruct (parse_options opts) as [cfg|]; [|done]. intros [= H]. exists cfg.
  split; [done|]. apply res_bind_ok in H as ([[m1 fs1] ev1] & H1 & H).
  apply res_bind_ok in H as ([[m2 fs2] ev2] & H2 & H). injection H as <-. cbn [fst snd].
  apply main_loop_ok in H1; [|split; [constructor | done]].
  unfold shutdown in H2. apply res_bind_ok in H2 as ([[m3 fs3] ev3] & H3 & H2). injection H2 as <- <- <-.
  rewrite kill_all_undefined in H3. destruct (existsb _ _) eqn:E; [done|]. injection H3 as <- <- <-.
  split; [done|]. apply Forall_forall. intros key Hk.
  destruct (decide (key = [])) as [|Hne]; [by left | right].
  apply not_true_is_false. intros K. apply not_true_iff_false in E. apply E.
  apply existsb_exists. exists key. split; [by apply list_elem_of_In|].
  by rewrite bool_decide_eq_false_2, K.
Qed.
