(* ===== verification/Delivery.v ===== *)
(** * Delivery of a command's output

    The whole path of the output of an operational command: the reader
    process appends to the token's data file and leaves the end mark; the
    client asks the daemon for the next position, and then reads from the
    file there.  All of it interleaves, also between the daemon's answer and
    the client's read, with other requests at the daemon and with other
    changes to files. *)

From S2P Require Import Prelude CppString StrProc Common CppMap ChunkerProcessor ChunkerManager MultiResp Daemon.

(** The daemon, the files, what the command has written, the daemon's answer
    the client has not used yet, what the client has received and whether it
    was told the end. *)
Record delivery := mkDelivery {
  d_mgr : ChunkerManager;
  d_fs : files;
  d_written : str;
  d_ask : option str;
  d_out : str;
  d_end : bool;
}.

(** What the command writes is text of less than 4 GiB that never spells the
    end. *)
Definition deliverable (data : str) : Prop :=
  (N.of_nat (length data) < u32)%N /\ (nul ∉ data) /\ contains data (lit "END") = false.

#[export] Instance deliverable_dec data : Decision (deliverable data).
Proof. unfold deliverable. apply _. Defined.

(** The token a request names. *)
Definition call_token (c : call) : option str :=
  match c with
  | CallStart token _ _ | CallDetails token _ | CallNext token _ | CallDelete token _ => Some token
  | CallList _ => None
  end.

Section Delivery.
Context (stack : str) (ex : str -> nat -> bool) (t sock : N) (user token : str).

(** The client's request for the next chunk at the daemon, which takes the
    size of the data file at [s] and looks for the end mark at [s']. *)
Definition ask_step (s s' : delivery) : delivery :=
  let msg := take 1024 (wire (CHUNKER_NEXT_FORMAT token user)) in
  let '(m, _, ev) := process_at stack ex (d_mgr s) (d_fs s) (d_fs s') t sock msg in
  mkDelivery m (d_fs s') (d_written s') (Some (reply ev)) (d_out s') (d_end s').

(** What the client does with the answer; [OpMode] takes the text [END] for
    the end.  It looks for the data file at [s], and reads it or looks for
    the end mark at [s']. *)
Definition read_step (answer : str) (s s' : delivery) : res delivery :=
  let* '(out, fs) := get_chunk true (fun _ => Some answer) true false (d_fs s) (d_fs s') user token in
  Ok (if decide (out = lit "END") then mkDelivery (d_mgr s') fs (d_written s') None (d_out s') true
      else mkDelivery (d_mgr s') fs (d_written s') None (d_out s' ++ out) false).

Definition client_at (s s' : delivery) : res delivery :=
  match d_ask s with
  | None => Ok (ask_step s s')
  | Some answer => read_step answer s s'
  end.

(** The steps of the reader process, and of whoever else changes files. *)
Inductive file_step : delivery -> delivery -> Prop :=
| step_append m fs w a o data :
    fs !! end_file token = None -> deliverable (w ++ data) ->
    file_step (mkDelivery m fs w a o false)
              (mkDelivery m (process_chunk (fun _ => true) fs data token).2 (w ++ data) a o false)
| step_finish m fs w a o :
    fs !! end_file token = None ->
    file_step (mkDelivery m fs w a o false)
              (mkDelivery m (process_chunk_end (fun _ => true) fs [] token) w a o false)
| step_outside m fs fs' w a o :
    fs' !! chunk_file token = fs !! chunk_file token -> fs' !! end_file token = fs !! end_file token ->
    file_step (mkDelivery m fs w a o false) (mkDelivery m fs' w a o false).

(** These, and the steps of other clients at the daemon. *)
Inductive env_step : delivery -> delivery -> Prop :=
| step_file s s' : file_step s s' -> env_step s s'
| step_other m fs w a o k :
    call_ok (turn_call k) -> call_token (turn_call k) <> Some token ->
    env_step (mkDelivery m fs w a o false) (mkDelivery (serve_turn stack ex sock m k) fs w a o false).

(** What happens between the two lookups of a step of the client: while the
    daemon answers it serves nobody else. *)
Definition meanwhile (s s' : delivery) : Prop :=
  match d_ask s with
  | None => rtc file_step s s'
  | Some _ => rtc env_step s s'
  end.

(** Conditions on that: none; the end mark is not left there after more
    output; no output is written there. *)
Definition anything (s s' : delivery) : Prop := True.
Definition no_late_end (s s' : delivery) : Prop :=
  d_fs s' !! end_file token = d_fs s !! end_file token \/ d_written s' = d_written s.
Definition no_writes (s s' : delivery) : Prop := d_written s' = d_written s.

Section Steps.
Context (between : delivery -> delivery -> Prop).

Inductive client_step (s r : delivery) : Prop :=
| client_moves s' : meanwhile s s' -> between s s' -> client_at s s' = Ok r -> client_step s r.

(** All steps, with the client's until it is told the end. *)
Inductive dstep (s s' : delivery) : Prop :=
| dstep_env : env_step s s' -> dstep s s'
| dstep_client : d_end s = false -> client_step s s' -> dstep s s'.

(** A run that holds [n] steps of the client. *)
Inductive polls : nat -> delivery -> delivery -> Prop :=
| polls_done s : polls 0 s s
| polls_env n s s1 s' : env_step s s1 -> polls n s1 s' -> polls n s s'
| polls_client n s s1 s' :
    d_end s = false -> client_step s s1 -> polls n s1 s' -> polls (S n) s s'.
End Steps.

(** The steps of a run in which the command does not write between the size
    the daemon takes for an answer and the read that uses the answer. *)
Inductive quiet_step (s s' : delivery) : Prop :=
| quiet_env : env_step s s' -> d_written s' = d_written s \/ d_ask s = None -> quiet_step s s'
| quiet_client : d_end s = false -> client_step no_writes s s' -> quiet_step s s'.

(** A command of the user that was just started. *)
Definition fresh (m : ChunkerManager) (fs : files) : Prop :=
  exists pd, mget token (_proc_coll m) = Some pd /\ plain_entry pd /\ _token pd = token /\
    _user pd = user /\ _read_offset pd = 0%N /\ _status pd = K_RUNNING /\
    length (describe pd) + 30 < reply_size /\ _chunk_size m = N.of_nat CHUNKER_READ_SIZE /\
    fs !! chunk_file token = None /\ fs !! end_file token = None.
End Delivery.

(** Text [o] put together from pieces of [w], of which none begins behind
    the end of the one before, up to the position [c]: nothing is left out,
    but the end of a piece may be repeated by the next. *)
Inductive covers (w : str) : str -> nat -> Prop :=
| covers_nil : covers w [] 0
| covers_piece o c p n :
    covers w o c -> p <= c -> c <= p + n -> p + n <= length w ->
    covers w (o ++ take n (drop p w)) (p + n).

Lemma covers_app w data o c : covers w o c -> covers (w ++ data) o c.
Proof.
  induction 1 as [|o c p n _ IH Hp Hc Hn]; [constructor|].
  replace (take n (drop p w)) with (take n (drop p (w ++ data))).
  - apply covers_piece with c; [done..|]. rewrite length_app. lia.
  - rewrite drop_app_le by lia. apply take_app_le. rewrite length_drop. lia.
Qed.

Lemma covers_le w o c : covers w o c -> c <= length w /\ c <= length o.
Proof.
  induction 1 as [|o c p n _ [IH1 IH2] Hp Hc Hn]; [simpl; lia|].
  rewrite length_app, length_take, length_drop. lia.
Qed.

(** ** The client's loop and numbers *)

Lemma fread_loop_spec ct n rest : 0 < n -> fread_loop (S (S ct)) n rest [] = cstr (take n rest).
Proof.
  intros Hn. cbn [fread_loop]. rewrite decide_False by lia. cbn [app].
  case_decide as Hl; [done|]. rewrite length_take in Hl.
  rewrite length_take, Nat.min_l by lia. by rewrite decide_True by lia.
Qed.

Lemma strtol_dec n : (n < 2 ^ 63)%N -> strtol (dec n) = Z.of_N n.
Proof.
  intros Hn. unfold strtol. rewrite cstr_id by (by apply dec_notin).
  destruct (dec_head n) as (d & l & Hd & Hlt).
  destruct (split_sign_digits d l Hlt) as [Hsk Hsp].
  rewrite Hd, Hsk, Hsp, <- Hd. unfold dec.
  destruct (base_digits_spec 10 n) as (Hv & Hall & _); [lia|].
  rewrite take_digits_all by (done || lia). rewrite Hv. lia.
Qed.

Lemma length_dec_signed n : length (dec_signed n) <= 21.
Proof.
  assert (forall k, (k < u64)%N -> length (dec k) <= 20) as Hd.
  { intros k Hk. apply (length_dec_le k 19). etrans; [exact Hk | done]. }
  unfold dec_signed. case_decide as H; [specialize (Hd n); unfold u64 in Hd; lia|].
  rewrite length_app. specialize (Hd (u64 - n)%N). unfold u64 in *. change (length (lit "-")) with 1. lia.
Qed.

Lemma contains_sub a p b : contains (a ++ p ++ b) p = true.
Proof.
  unfold contains. apply bool_decide_eq_true. destruct (find0 (a ++ p ++ b) p) eqn:E; [done|].
  exfalso. revert E. induction a as [|x a IH]; cbn [app].
  - destruct (p ++ b) eqn:G; cbn [find0]; rewrite <- G, is_prefix_app; done.
  - cbn [find0]. case_match; [done|]. intros H'%fmap_None. by apply IH.
Qed.

Lemma contains_app_l a b p : contains (a ++ b) p = false -> contains a p = false.
Proof.
  intros H. destruct (contains a p) eqn:E; [|done]. apply bool_decide_eq_true in E as [i Hi].
  apply find0_Some in Hi as (_ & [r Hr] & _).
  rewrite <- (take_drop i a), Hr, <- !app_assoc, contains_sub in H. done.
Qed.

Lemma deliverable_app a b : deliverable (a ++ b) -> deliverable a.
Proof.
  intros (Hl & Hn & He). rewrite length_app in Hl. rewrite not_elem_of_app in Hn.
  split_and!; [lia | apply Hn | by eapply contains_app_l].
Qed.

(** ** One request of the client *)

(** Reading at a position the daemon answered. *)
Definition read_at (token : str) (fs fs' : files) (off : N) : str * files :=
  match fs !! chunk_file token, decide (off < 2 ^ 63)%N with
  | Some _, left _ =>
      (cstr (take CHUNKER_READ_SIZE (drop (N.to_nat off) (default [] (fs' !! chunk_file token)))), fs')
  | _, _ =>
      match fs' !! end_file token with
      | Some _ => (lit "END", delete (chunk_file token) (delete (end_file token) fs'))
      | None => ([], fs')
      end
  end.

(** The position in the answer. *)
Definition answered (pd : ChunkerManager.ProcessData) : N :=
  if decide (_status pd = K_DEAD) then (u64 - 1)%N else _read_offset pd.

Lemma next_chunk_resp c fs fs_end token pd :
  (next_chunk_at c fs fs_end token pd).2 = describe pd ++ sep ++ dec_signed (answered pd) ++ [nl].
Proof. unfold next_chunk_at, answered. repeat case_match; repeat case_decide; try done. Qed.

(** The size of the file is cut to 32 bits before it is compared: when what
    is left of it does not pass the next position, the daemon takes the file
    for read to its end, and all but one chunk of the rest is lost. *)
Lemma large_output_skipped c fs token pd data :
  _status pd = K_RUNNING -> fs !! chunk_file token = Some data -> (_read_offset pd + c < u64)%N ->
  (N.of_nat (length data) mod u32 <= _read_offset pd + c)%N ->
  _read_offset (next_chunk c fs token pd).1 = N.of_nat (length data).
Proof.
  intros Hst Hf Hc Hl. unfold next_chunk, next_chunk_at. rewrite Hst, (decide_False (P := K_RUNNING = K_DEAD)), Hf by done.
  rewrite (N.mod_small (_ + _)), decide_False by (done || lia). by destruct (fs !! end_file token).
Qed.

Lemma plain_entry_offset o pd : plain_entry pd -> plain_entry (set_read_offset o pd).
Proof. done. Qed.

Lemma read_size_pos : 0 < CHUNKER_READ_SIZE.
Proof. apply Nat.ltb_lt. vm_compute. reflexivity. Qed.

Section Turns.
Context (user token : str).
Context (Huser : clean user) (Htoken : clean token) (Hune : user <> []) (Htne : token <> []).
Context (Hfmt : length (CHUNKER_NEXT_FORMAT token user) < 1024).

(** The answer's fifth field is the position. *)
Lemma answer_position pd :
  plain_entry pd ->
  exists sp2, str_proc (describe pd ++ sep ++ dec_signed (answered pd) ++ [nl]) (lit "%3A") = Ok sp2 /\
              sp_get sp2 4 = dec_signed (answered pd).
Proof.
  intros Hp. pose proof (plain_entry_offset (answered pd) _ Hp) as Hp'.
  exists (item_fields (set_read_offset (answered pd) pd)). split; [|done].
  replace (describe pd ++ sep ++ dec_signed (answered pd) ++ [nl])
    with (join sep (item_fields (set_read_offset (answered pd) pd)) ++ [nl]).
  - change (lit "%3A") with (pct :: lit "3A"). change sep with (pct :: lit "3A").
    apply str_proc_join; [by apply item_fields_clean|by_compute..].
  - rewrite <- describe_join by done. cbn [set_read_offset _read_offset].
    rewrite <- !app_assoc. done.
Qed.

(** What the daemon answers for an entry of the table. *)
Definition answer_of (pd : ChunkerManager.ProcessData) : str :=
  describe pd ++ sep ++ dec_signed (answered pd) ++ [nl].

Lemma answer_received pd :
  nul ∉ describe pd -> length (describe pd) + 30 < reply_size -> received (answer_of pd) = Ok (answer_of pd).
Proof.
  intros Hn Hl. apply received_ok; unfold answer_of.
  - pose proof (length_dec_signed (answered pd)). rewrite !length_app.
    change (length sep) with 3. cbn [length]. lia.
  - rewrite !not_elem_of_app. split_and!; [done|by_compute|by apply dec_signed_notin|by_compute].
Qed.

Lemma answer_fits pd :
  plain_entry pd -> length (describe pd) + 30 < reply_size -> received (answer_of pd) = Ok (answer_of pd).
Proof.
  intros Hp. apply answer_received. intros H. eapply (join_item_notin nul pd); [tauto | done |].
  rewrite <- describe_join by done. apply elem_of_app. by left.
Qed.

(** What the client does with the fields of an answer. *)
Lemma get_chunk_fields fs fs' out l :
  received out = Ok out -> str_proc out (lit "%3A") = Ok l -> sp_get l 4 <> [] ->
  get_chunk true (fun _ => Some out) true false fs fs' user token =
  Ok match fs !! chunk_file token, decide (0 <= strtol (sp_get l 4))%Z with
     | Some _, left _ =>
         (cstr (take CHUNKER_READ_SIZE (drop (Z.to_nat (strtol (sp_get l 4))) (default [] (fs' !! chunk_file token)))), fs')
     | _, _ =>
         match fs' !! end_file token with
         | Some _ => (lit "END", delete (chunk_file token) (delete (end_file token) fs'))
         | None => ([], fs')
         end
     end.
Proof using Hune Htne Hfmt.
  intros Hr Hl Hne. unfold get_chunk. rewrite decide_False by (intros [H|H]; done).
  unfold request, sprintf_into. rewrite decide_True by done. cbn [res_bind]. rewrite Hr. cbn [res_bind].
  rewrite Hl. cbn [res_bind]. rewrite decide_False by done. rewrite decide_False by (intros [_ H]; done).
  destruct (fs !! chunk_file token), (decide (0 <= strtol (sp_get l 4))%Z), (fs' !! chunk_file token), (fs' !! end_file token); try done;
    cbn [default]; rewrite ?drop_nil, ?take_nil, ?fread_loop_spec by apply read_size_pos; done.
Qed.

(** What the client reads for the answer. *)
Lemma get_chunk_answer fs fs' pd :
  plain_entry pd -> length (describe pd) + 30 < reply_size ->
  (answered pd < 2 ^ 63)%N \/ answered pd = (u64 - 1)%N ->
  get_chunk true (fun _ => Some (answer_of pd)) true false fs fs' user token = Ok (read_at token fs fs' (answered pd)).
Proof using Hune Htne Hfmt.
  intros Hp Hlen Hoff. destruct (answer_position pd Hp) as (l & Hl & Hpos).
  rewrite (get_chunk_fields fs fs' (answer_of pd) l (answer_fits pd Hp Hlen) Hl) by (rewrite Hpos; apply dec_signed_clean).
  rewrite Hpos. f_equal. unfold read_at. destruct Hoff as [Hoff|Hoff].
  - assert (strtol (dec_signed (answered pd)) = Z.of_N (answered pd)) as ->
      by (unfold dec_signed; by rewrite decide_True, strtol_dec).
    destruct (decide (0 <= Z.of_N (answered pd))%Z); [|lia].
    destruct (decide (answered pd < 2 ^ 63)%N); [|done]. destruct (fs !! chunk_file token); [|done].
    by replace (Z.to_nat (Z.of_N (answered pd))) with (N.to_nat (answered pd)) by lia.
  - rewrite Hoff. change (strtol (dec_signed (u64 - 1))) with (-1)%Z.
    destruct (decide (0 <= -1)%Z); [lia|]. by destruct (decide (u64 - 1 < 2 ^ 63)%N).
Qed.

(** A command that contains the separator of the answer's fields shifts them:
    the client takes the user's name for the position.  When that is not a
    number it reads the first chunk of the file, wherever the daemon is, so
    that the command's output is repeated without end. *)
Theorem separator_in_command pd fs a b data :
  ChunkerManager._command pd = a ++ sep ++ b -> clean_field pct a -> clean_field pct b ->
  clean_field pct (_token pd) -> clean_field pct (_user pd) -> (ChunkerManager._start_time pd < 2 ^ 63)%N ->
  nul ∉ describe pd -> length (describe pd) + 30 < reply_size ->
  strtol (_user pd) = 0%Z -> fs !! chunk_file token = Some data ->
  get_chunk true (fun _ => Some (answer_of pd)) true false fs fs user token = Ok (cstr (take CHUNKER_READ_SIZE data), fs).
Proof using Hune Htne Hfmt.
  intros Hcmd Ha Hb Ht Hu Hs Hn Hl Hz Hf.
  set (l := [dec (ChunkerManager._start_time pd); a; b; _token pd; _user pd; dec_signed (answered pd)]).
  assert (answer_of pd = join sep l ++ [nl]) as Hj.
  { unfold answer_of, describe. rewrite Hcmd. cbn [l join].
    assert (dec_signed (ChunkerManager._start_time pd) = dec (ChunkerManager._start_time pd)) as ->
      by (unfold dec_signed; by rewrite decide_True). by rewrite <- !app_assoc. }
  assert (Forall (clean_field pct) l) as Hc
    by (repeat (constructor; [first [done | apply dec_clean | apply dec_signed_clean]|]); constructor).
  destruct (str_proc_join pct (lit "3A") l Hc) as [_ Hsp]; [by_compute..|].
  change (pct :: lit "3A") with sep in Hsp. rewrite <- Hj in Hsp.
  rewrite (get_chunk_fields fs fs (answer_of pd) l); [|by apply answer_received|done|apply Hu].
  rewrite Hf. change (sp_get l 4) with (_user pd). rewrite Hz. done.
Qed.

(** With [EINVAL] left over in [errno] from an earlier call, the answer for
    the beginning of the output is taken for none: the daemon has moved on,
    but the client has read nothing. *)
Theorem stale_errno_drops_chunk opened pd fs fs' :
  plain_entry pd -> length (describe pd) + 30 < reply_size -> _status pd = K_RUNNING -> _read_offset pd = 0%N ->
  get_chunk true (fun _ => Some (answer_of pd)) opened true fs fs' user token = Ok ([], fs).
Proof using Hune Htne Hfmt.
  intros Hp Hl Hst Ho. destruct (answer_position pd Hp) as (l & Hsp & Hpos).
  assert (answered pd = 0%N) as Ha by (unfold answered; by rewrite Hst, decide_False).
  unfold get_chunk. rewrite decide_False by (intros [H|H]; done).
  unfold request, sprintf_into. rewrite decide_True by done. cbn [res_bind].
  rewrite answer_fits by done. cbn [res_bind]. unfold answer_of. rewrite Hsp. cbn [res_bind].
  rewrite Hpos, Ha. done.
Qed.

(** So it is when the data file is there but cannot be opened. *)
Theorem unopened_drops_chunk pd fs fs' :
  plain_entry pd -> length (describe pd) + 30 < reply_size -> (answered pd < 2 ^ 63)%N ->
  is_Some (fs !! chunk_file token) ->
  get_chunk true (fun _ => Some (answer_of pd)) false false fs fs' user token = Ok ([], fs').
Proof using Hune Htne Hfmt.
  intros Hp Hl Ha [data Hf]. destruct (answer_position pd Hp) as (l & Hsp & Hpos).
  assert (strtol (dec_signed (answered pd)) = Z.of_N (answered pd)) as Hs
    by (unfold dec_signed; by rewrite decide_True, strtol_dec).
  unfold get_chunk. rewrite decide_False by (intros [H|H]; done).
  unfold request, sprintf_into. rewrite decide_True by done. cbn [res_bind].
  rewrite answer_fits by done. cbn [res_bind]. unfold answer_of. rewrite Hsp. cbn [res_bind].
  rewrite Hpos, Hs, decide_False by apply dec_signed_clean. rewrite decide_False by (by intros [_ H]).
  rewrite Hf. destruct (decide (0 <= Z.of_N (answered pd))%Z); [|lia]. by destruct (fs' !! chunk_file token).
Qed.

Context (stack : str) (ex : str -> nat -> bool) (t sock : N) (Hsock : sock <> 0%N).

Lemma process_next_entry m fs fs_end pd :
  mget token (_proc_coll m) = Some pd -> _user pd = user ->
  process_at stack ex m fs fs_end t sock (take 1024 (wire (CHUNKER_NEXT_FORMAT token user))) =
  (upd_coll (mset token (next_chunk_at (_chunk_size m) fs fs_end token pd).1) m, fs_end, [Respond (answer_of pd)]).
Proof.
  intros Hm Hu. unfold CHUNKER_NEXT_FORMAT in *. rewrite process_request_at by (done || by_compute).
  unfold answer_of. rewrite <- (next_chunk_resp (_chunk_size m) fs fs_end token). unfold serve_request_at.
  rewrite !(decide_False (P := lit "next" = _)), decide_True by done.
  unfold process_next_at. rewrite Hm. rewrite decide_False by (intros H; by apply H).
  by destruct (next_chunk_at _ _ _ _ _).
Qed.

(** A request about another command leaves this one's entry alone. *)
Lemma serve_turn_other m k :
  call_ok (turn_call k) -> call_token (turn_call k) <> Some token ->
  mget token (_proc_coll (serve_turn stack ex sock m k)) = mget token (_proc_coll m) /\
  _chunk_size (serve_turn stack ex sock m k) = _chunk_size m.
Proof.
  intros [Hl Hc] Hne. unfold serve_turn.
  destruct (turn_call k) as [tok command u|u|tok u|tok u|tok u]; cbn [call_text call_token] in *.
  - destruct Hc as (H1 & H2 & H3 & H4 & H5 & H6). rewrite process_start by done.
    destruct (process_command _ _ _ _ _) as [m' ev] eqn:E. cbn [fst].
    replace m' with (process_command m (turn_time k) tok command u).1 by (by rewrite E).
    clear E. unfold process_command, minsert, upd_coll.
    destruct (start_new_parent _ _ _), (mget tok (_proc_coll m)) eqn:G; try case_decide; cbn;
      rewrite ?G, ?mget_mset_ne by congruence; done.
  - unfold CHUNKER_PROCESS_FORMAT in *. rewrite process_request by (done || by_compute). done.
  - destruct Hc. unfold CHUNKER_DETAILS_FORMAT in *. rewrite process_request by (done || by_compute). done.
  - destruct Hc. unfold CHUNKER_NEXT_FORMAT in *. rewrite process_request by (done || by_compute).
    unfold serve_request, serve_request_at. repeat (rewrite decide_False by by_compute). rewrite decide_True by done.
    unfold process_next_at. destruct (mget tok (_proc_coll m)); [|done]. case_decide; [done|].
    destruct (next_chunk_at _ _ _ _ _). cbn. by rewrite mget_mset_ne by congruence.
  - destruct Hc. unfold CHUNKER_DELETE_FORMAT in *. rewrite process_request by (done || by_compute).
    unfold serve_request, serve_request_at. repeat (rewrite decide_False by by_compute).
    destruct (killable (turn_files k) tok) eqn:E;
      [rewrite kill_process_killable by done | by rewrite kill_process_unkillable].
    cbn. rewrite mget_merase. case_decide; [congruence | done].
Qed.
End Turns.

(** A command with the separator in an argument. *)
Definition demo_separator : ChunkerManager.ProcessData :=
  mkProcessData (processor_init 98304 (lit "/tmp") false) 7 7 (lit "ping 'a%3Ab'")
    (lit "6463626168676665") (lit "vyatta") 98304 K_RUNNING.

Lemma separator_in_command_witness :
  get_chunk true (fun _ => Some (answer_of demo_separator)) true false
    {[ chunk_file (lit "6463626168676665") := lit "pong" ]} {[ chunk_file (lit "6463626168676665") := lit "pong" ]}
    (lit "vyatta") (lit "6463626168676665") =
  Ok (cstr (take CHUNKER_READ_SIZE (lit "pong")), {[ chunk_file (lit "6463626168676665") := lit "pong" ]}).
Proof.
  apply (separator_in_command (lit "vyatta") (lit "6463626168676665")) with (a := lit "ping 'a") (b := lit "b'");
    try by_compute; reflexivity.
Defined.
