(* ===== verification/DeliveryFacts.v ===== *)
(** * What the delivery of a command's output guarantees

    The invariant of the steps of [Delivery], kept by every step, and with
    it: nothing is lost, quiet runs deliver the output exactly, the end
    arrives, and the race that repeats output. *)

From S2P Require Import Prelude CppString StrProc Common CppMap ChunkerProcessor ChunkerManager MultiResp Daemon Delivery.

(** ** The invariant of a delivery *)

Lemma read_size_N : N.of_nat CHUNKER_READ_SIZE = 98304%N.
Proof. apply N2Nat.id. Qed.

(** The daemon's position. *)
Definition pos (pd : ChunkerManager.ProcessData) : nat := N.to_nat (_read_offset pd).

(** Advancing the position over a file, for an entry that still runs. *)
Lemma next_chunk_running token fs fs_end pd data :
  _status pd = K_RUNNING -> fs !! chunk_file token = Some data -> (N.of_nat (length data) < u32)%N ->
  pos pd <= length data ->
  let pd' := (next_chunk_at (N.of_nat CHUNKER_READ_SIZE) fs fs_end token pd).1 in
  pos pd' = min (pos pd + CHUNKER_READ_SIZE) (length data) /\
  _status pd' =
    if decide (pos pd + CHUNKER_READ_SIZE < length data) then K_RUNNING
    else match fs_end !! end_file token with Some _ => K_DEAD | None => K_RUNNING end.
Proof.
  intros Hst Hfs Hsize Hoff. unfold pos in *. pose proof read_size_N as HR. rewrite HR.
  unfold next_chunk_at. rewrite Hst, Hfs. cbn [decide].
  rewrite (decide_False (P := K_RUNNING = K_DEAD)) by done.
  assert ((_read_offset pd + 98304) mod u64 = _read_offset pd + 98304)%N as ->
    by (apply N.mod_small; unfold u32, u64 in *; lia).
  assert (N.of_nat (length data) mod u32 = N.of_nat (length data))%N as -> by (by apply N.mod_small).
  revert HR. generalize CHUNKER_READ_SIZE as R. intros R HR.
  destruct (decide (_read_offset pd + 98304 < N.of_nat (length data))%N) as [H|H];
    [rewrite decide_True by lia | rewrite decide_False by lia]; cbn; [split; [lia | done]|].
  repeat case_match; simplify_eq; cbn; rewrite ?Hst; split; try lia; congruence.
Qed.

Section Invariant.
Context (stack : str) (ex : str -> nat -> bool) (t sock : N) (user token : str).
Context (Huser : clean user) (Htoken : clean token) (Hune : user <> []) (Htne : token <> []).
Context (Hsock : sock <> 0%N) (Hfmt : length (CHUNKER_NEXT_FORMAT token user) < 1024).
(** Whether the run is quiet, and whether it is free of late ends. *)
Context (quiet calm : Prop).

Definition entry_has (pd : ChunkerManager.ProcessData) : Prop :=
  plain_entry pd /\ _user pd = user /\ length (describe pd) + 30 < reply_size.

Definition table_has (m : ChunkerManager) (pd : ChunkerManager.ProcessData) : Prop :=
  mget token (_proc_coll m) = Some pd /\ entry_has pd /\ _chunk_size m = N.of_nat CHUNKER_READ_SIZE.

(** The data file holds what was written. *)
Definition file_has (fs : files) (w : str) : Prop :=
  fs !! chunk_file token = Some w \/
  (fs !! chunk_file token = None /\ w = [] /\ fs !! end_file token = None).

Definition ended (fs : files) : Prop := is_Some (fs !! end_file token).

(** Full chunks and the end from a position on, in requests. *)
Definition rounds (w : str) (q : nat) : nat := 2 + (length w - q) / CHUNKER_READ_SIZE.

(** Between a read and the next request: how the entry agrees with the end
    [c] of the received text, and how many steps the client has to go. *)
Definition idle (fs : files) (pd : ChunkerManager.ProcessData) (w : str) (c k : nat) : Prop :=
  match _status pd with
  | K_RUNNING => pos pd <= c <= pos pd + CHUNKER_READ_SIZE /\ (quiet -> pos pd = c) /\ k = 2 * rounds w (pos pd)
  | K_DEAD => (calm -> c = length w) /\ ended fs /\ k = 2
  | K_NONE => False
  end.

(** Between a request, answered for the entry [pd0], and its read. *)
Definition asked (fs : files) (pd0 pd : ChunkerManager.ProcessData) (w : str) (c k : nat) : Prop :=
  match _status pd0, _status pd with
  | K_RUNNING, K_RUNNING =>
      pos pd0 <= c <= pos pd0 + CHUNKER_READ_SIZE /\ (quiet -> pos pd0 = c) /\
      pos pd0 <= pos pd <= pos pd0 + CHUNKER_READ_SIZE /\ pos pd <= length w /\
      (quiet -> pos pd = min (pos pd0 + CHUNKER_READ_SIZE) (length w)) /\ k = S (2 * rounds w (pos pd))
  | K_RUNNING, K_DEAD =>
      pos pd0 <= c <= pos pd0 + CHUNKER_READ_SIZE /\ (quiet -> pos pd0 = c) /\
      (calm -> length w <= pos pd0 + CHUNKER_READ_SIZE) /\ ended fs /\ k = 3
  | K_DEAD, K_DEAD => (calm -> c = length w) /\ ended fs /\ k = 1
  | _, _ => False
  end.

Definition position (fs : files) (pd0 pd : ChunkerManager.ProcessData) (w : str) (a : option str) (c k : nat)
    : Prop :=
  match a with
  | None => idle fs pd w c k
  | Some answer => answer = answer_of pd0 /\ entry_has pd0 /\ asked fs pd0 pd w c k
  end.

(** The invariant, for the entry at the last answer, the entry, the end of
    the received text and the steps to go. *)
Definition dinv_at (pd0 pd : ChunkerManager.ProcessData) (c : nat) (s : delivery) (k : nat) : Prop :=
  table_has (d_mgr s) pd /\ deliverable (d_written s) /\ covers (d_written s) (d_out s) c /\
  (quiet -> d_out s = take c (d_written s)) /\
  if d_end s then calm -> c = length (d_written s)
  else file_has (d_fs s) (d_written s) /\ position (d_fs s) pd0 pd (d_written s) (d_ask s) c k.

Definition dinv (s : delivery) (k : nat) : Prop := exists pd0 pd c, dinv_at pd0 pd c s k.

Lemma dinv_running pd0 pd c m fs w a o k :
  table_has m pd -> deliverable w -> covers w o c -> (quiet -> o = take c w) -> file_has fs w ->
  position fs pd0 pd w a c k -> dinv_at pd0 pd c (mkDelivery m fs w a o false) k.
Proof. intros. do 4 (split; [done|]). done. Qed.

Lemma dinv_told pd0 pd c m fs w a o k :
  table_has m pd -> deliverable w -> covers w o c -> (quiet -> o = take c w) -> (calm -> c = length w) ->
  dinv_at pd0 pd c (mkDelivery m fs w a o true) k.
Proof. intros. do 4 (split; [done|]). done. Qed.

Lemma table_has_next m fs fs_end pd :
  table_has m pd ->
  let pd' := (next_chunk_at (N.of_nat CHUNKER_READ_SIZE) fs fs_end token pd).1 in
  table_has (upd_coll (mset token pd') m) pd'.
Proof.
  intros (Hm & (Hp & Hu & Hl) & Hc). cbv zeta.
  destruct (next_chunk_at_same (N.of_nat CHUNKER_READ_SIZE) fs fs_end token pd) as (_ & H1 & H2 & H3 & H4 & _).
  unfold table_has, entry_has, plain_entry, describe in *. rewrite H1, H2, H3, H4.
  split_and!; try done; try apply Hp. cbn. by rewrite mget_mset_eq.
Qed.

(** ** The steps of the others *)

(** What is left as it is, or only grows. *)
Definition evolves (s s' : delivery) : Prop :=
  d_ask s' = d_ask s /\ d_out s' = d_out s /\ d_end s' = d_end s /\ d_written s `prefix_of` d_written s' /\
  (is_Some (d_fs s !! chunk_file token) -> is_Some (d_fs s' !! chunk_file token)) /\
  (ended (d_fs s) -> ended (d_fs s') /\ d_written s' = d_written s).

#[export] Instance evolves_preorder : PreOrder evolves.
Proof.
  split; [by repeat split|]. intros s1 s2 s3 (A1 & O1 & E1 & P1 & C1 & F1) (A2 & O2 & E2 & P2 & C2 & F2).
  unfold evolves. rewrite A2, A1, O2, O1, E2, E1. split_and!; [done..|by etrans|auto|].
  intros H. destruct (F1 H) as [H1 W1], (F2 H1) as [H2 W2]. split; [done | congruence].
Qed.

Lemma ended_append fs data : ended (append_file fs (chunk_file token) data) <-> ended fs.
Proof. unfold ended. by rewrite append_file_ne by (intros H; by apply (chunk_file_ne_end token)). Qed.

Lemma file_step_evolves s s' : file_step token s s' -> evolves s s' /\ d_mgr s' = d_mgr s.
Proof.
  pose proof (chunk_file_ne_end token) as Hne.
  intros [m fs w a o data He Hdel|m fs w a o He|m fs fs' w a o Hc He]; unfold evolves; cbn -[process_chunk_end].
  - split; [|done]. split_and!; [done..|by eexists| |].
    + intros _. rewrite append_file_eq. by eexists.
    + intros [x Hx]. congruence.
  - split; [|done]. split_and!; [done..| |].
    + intros _. unfold process_chunk_end. cbn [rfind is_prefix].
      rewrite lookup_insert_ne, append_file_eq by done. by eexists.
    + intros [x Hx]. congruence.
  - unfold ended. by rewrite Hc, He.
Qed.

Lemma env_step_evolves s s' : env_step stack ex sock token s s' -> evolves s s'.
Proof. intros [s1 s2 H | ]; [by apply file_step_evolves | by repeat split]. Qed.

Lemma env_steps_evolve s s' : rtc (env_step stack ex sock token) s s' -> evolves s s'.
Proof. induction 1 as [|s1 s2 s3 H _ IH]; [done|]. etrans; [by apply env_step_evolves | done]. Qed.

Lemma file_steps_mgr s s' : rtc (file_step token) s s' -> d_mgr s' = d_mgr s.
Proof. induction 1 as [|s1 s2 s3 H _ IH]; [done|]. rewrite IH. by apply file_step_evolves. Qed.

Lemma meanwhile_env s s' : meanwhile stack ex sock token s s' -> rtc (env_step stack ex sock token) s s'.
Proof.
  unfold meanwhile. destruct (d_ask s); [done|]. apply rtc_subrel. intros x y. apply step_file.
Qed.

(** What changes when the command writes. *)
Lemma position_written fs fs' pd0 pd w data a c k :
  ~ ended fs -> c <= length w -> (quiet -> data = [] \/ a = None) -> position fs pd0 pd w a c k ->
  exists k', position fs' pd0 pd (w ++ data) a c k'.
Proof.
  intros He Hc Hq Hp. destruct a as [answer|]; cbn [position] in *.
  - destruct Hp as (-> & He0 & Ha).
    enough (exists k', asked fs' pd0 pd (w ++ data) c k') as [k' Hk] by (exists k'; by split_and!).
    unfold asked in *. rewrite length_app.
    destruct (_status pd0), (_status pd); try done; try (exfalso; by apply He, Ha).
    destruct Ha as (H1 & H2 & H3 & H4 & H5 & ->). eexists. split_and!; try done; try lia.
    intros q. destruct (Hq q) as [->|]; [|done]. cbn [length]. rewrite Nat.add_0_r. by apply H5.
  - unfold idle in *. destruct (_status pd); [done| |].
    + destruct Hp as (H1 & H2 & ->). eexists. split; [exact H1|]. by split.
    + by destruct Hp as (_ & ? & _).
Qed.

Lemma position_same fs fs' pd0 pd w a c k :
  fs' !! end_file token = fs !! end_file token -> position fs pd0 pd w a c k -> position fs' pd0 pd w a c k.
Proof.
  intros He Hp. destruct a as [answer|]; cbn [position] in *;
    [destruct Hp as (? & ? & Ha); split_and!; try done|]; unfold asked, idle, ended in *; by rewrite He.
Qed.

(** The files after the end mark. *)
Lemma finish_files fs w :
  file_has fs w ->
  let fs' := process_chunk_end (fun _ => true) fs [] token in
  fs' !! chunk_file token = Some w /\ ended fs'.
Proof.
  intros Hf. pose proof (chunk_file_ne_end token) as Hne. unfold process_chunk_end, ended.
  cbn [rfind is_prefix]. rewrite lookup_insert_ne, lookup_insert_eq, append_file_eq by done.
  split; [|by eexists]. destruct Hf as [-> | (-> & -> & _)]; cbn; by rewrite ?app_nil_r.
Qed.

Lemma env_step_dinv pd0 pd c s s' k :
  env_step stack ex sock token s s' -> (quiet -> d_written s' = d_written s \/ d_ask s = None) ->
  dinv_at pd0 pd c s k -> exists k', dinv_at pd0 pd c s' k' /\ (ended (d_fs s) -> k' = k).
Proof.
  intros Hstep Hqs (Ht & Hd & Hcov & Hq & Hin).
  pose proof (covers_le _ _ _ Hcov) as [Hcw _]. unfold dinv_at.
  destruct Hstep as [s s' [m fs w a o data He Hdel|m fs w a o He|m fs fs' w a o Hc He]|m fs w a o j Hok Hother];
    cbn -[process_chunk_end] in Hqs, Ht, Hd, Hcov, Hq, Hin, Hcw |- *; destruct Hin as [Hf Hpos].
  - assert (~ ended fs) as Hne' by (intros [x Hx]; congruence).
    destruct (position_written fs (append_file fs (chunk_file token) data) pd0 pd w data a c k) as [k' Hk'];
      try done.
    { intros q. destruct (Hqs q) as [E|E]; [left | by right].
      apply (f_equal length) in E. rewrite length_app in E. destruct data; [done | simpl in E; lia]. }
    exists k'. split; [|done]. split_and!; try done.
    + by apply covers_app.
    + intros q. rewrite (Hq q). symmetry. by apply take_app_le.
    + left. rewrite append_file_eq. destruct Hf as [-> | (-> & -> & _)]; done.
  - assert (~ ended fs) as Hne' by (intros [x Hx]; congruence).
    destruct (position_written fs (process_chunk_end (fun _ => true) fs [] token) pd0 pd w [] a c k) as [k' Hk'];
      try done; [by left|]. rewrite app_nil_r in Hk'.
    exists k'. split; [|done]. split_and!; try done. left. by apply finish_files.
  - exists k. split; [|done]. split_and!; try done.
    + unfold file_has. by rewrite Hc, He.
    + by eapply position_same.
  - destruct (serve_turn_other token stack ex sock Hsock m j Hok Hother) as [Hm' Hc'].
    exists k. split; [|done]. split_and!; try done. unfold table_has. by rewrite Hm', Hc'.
Qed.

Lemma env_steps_dinv pd0 pd c s s' k :
  rtc (env_step stack ex sock token) s s' -> (quiet -> d_written s' = d_written s \/ d_ask s = None) ->
  dinv_at pd0 pd c s k -> exists k', dinv_at pd0 pd c s' k' /\ (ended (d_fs s) -> k' = k).
Proof.
  intros Hr. revert k. induction Hr as [s|s s1 s' Hs Hr IH]; intros k Hq Hi; [by exists k|].
  pose proof (env_step_evolves _ _ Hs) as (Ha & _ & _ & Hp1 & _ & He).
  pose proof (env_steps_evolve _ _ Hr) as (_ & _ & _ & Hp2 & _).
  assert (quiet -> d_written s1 = d_written s /\ d_written s' = d_written s1 \/ d_ask s = None) as Hq'.
  { intros q. destruct (Hq q) as [E|E]; [left | by right]. rewrite E in Hp2.
    pose proof (anti_symm prefix _ _ Hp1 Hp2). split; congruence. }
  destruct (env_step_dinv pd0 pd c s s1 k Hs) as (k1 & Hi1 & Hk1); [intros q; destruct (Hq' q) as [[? _]|]; auto|done|].
  destruct (IH k1) as (k2 & Hi2 & Hk2); [|done|].
  { rewrite Ha. intros q. destruct (Hq' q) as [[_ ?]|]; auto. }
  exists k2. split; [done|]. intros H. destruct (He H) as [H1 _]. by rewrite (Hk2 H1), (Hk1 H).
Qed.

(** ** The client's steps *)

Lemma ask_eq s s' pd :
  table_has (d_mgr s) pd ->
  ask_step stack ex t sock user token s s' =
  mkDelivery (upd_coll (mset token (next_chunk_at (N.of_nat CHUNKER_READ_SIZE) (d_fs s) (d_fs s') token pd).1) (d_mgr s))
    (d_fs s') (d_written s') (Some (answer_of pd)) (d_out s') (d_end s').
Proof.
  intros (Hm & He & Hc). unfold ask_step.
  rewrite (process_next_entry user token) with (pd := pd) by (done || apply He).
  cbn [reply mbind list_bind]. by rewrite app_nil_r, Hc.
Qed.

(** The entry after an answer for one that still runs. *)
Lemma asked_running fs fs' w data pd c k :
  deliverable w -> file_has fs w -> c <= length w -> _status pd = K_RUNNING -> idle fs pd w c k ->
  (ended fs -> ended fs' /\ data = []) -> (calm -> fs' !! end_file token = fs !! end_file token \/ data = []) ->
  (quiet -> data = []) ->
  exists k', asked fs' pd (next_chunk_at (N.of_nat CHUNKER_READ_SIZE) fs fs' token pd).1 (w ++ data) c k' /\
    (ended fs -> k' < k).
Proof.
  intros (Hsize & _) Hf Hcw Hst Hidle Hend Hcalm Hquiet. pose proof read_size_pos as HR. unfold idle in Hidle.
  rewrite Hst in Hidle. destruct Hidle as (Hpos & Hq & ->). unfold asked. rewrite Hst.
  pose proof (length_app w data) as Hwl.
  destruct Hf as [Hf|(Hf & -> & Hn)].
  - destruct (next_chunk_running token fs fs' pd w Hst Hf Hsize ltac:(lia)) as [Hp' Hs'].
    set (pd' := (next_chunk_at _ fs fs' token pd).1) in *. rewrite Hs', Hp'. unfold rounds.
    destruct (decide _) as [Hlt|Hge]; [|destruct (fs' !! end_file token) eqn:He'].
    + rewrite Nat.min_l by lia. eexists. split; [split_and!; try done; try lia|].
      intros [_ ->]%Hend. rewrite app_nil_r.
      replace (length w - pos pd) with (length w - (pos pd + CHUNKER_READ_SIZE) + 1 * CHUNKER_READ_SIZE) by lia.
      rewrite Nat.div_add by lia. lia.
    + eexists. split; [split_and!; try done; try lia; try by eexists|lia].
      intros cm. destruct (Hcalm cm) as [E|E]; [|rewrite E in *; cbn in Hwl; lia].
      destruct Hend as [_ E']; [by eexists|]. rewrite E' in *; cbn in Hwl; lia.
    + rewrite Nat.min_r by lia. eexists. split; [split_and!; try done; try lia|].
      * intros q. rewrite (Hquiet q), app_nil_r. lia.
      * intros [[x Hx] _]%Hend. congruence.
  - assert ((next_chunk_at (N.of_nat CHUNKER_READ_SIZE) fs fs' token pd).1 = pd) as ->.
    { unfold next_chunk_at. rewrite Hst, Hf. by rewrite decide_False. }
    rewrite Hst. cbn [length app] in *. eexists. split; [split_and!; try done; try lia|].
    + intros q. rewrite (Hquiet q). cbn. lia.
    + intros [x Hx]. congruence.
Qed.

(** The request. *)
Lemma ask_dinv pd0 pd c s s' k :
  dinv_at pd0 pd c s k -> d_end s = false -> d_ask s = None -> rtc (file_step token) s s' ->
  (calm -> no_late_end token s s') -> (quiet -> no_writes s s') ->
  exists pd' k', dinv_at pd pd' c (ask_step stack ex t sock user token s s') k' /\ (ended (d_fs s) -> k' < k).
Proof.
  intros Hi Hend Hask Hr Hcalm Hquiet.
  assert (rtc (env_step stack ex sock token) s s') as Hr' by (apply meanwhile_env; unfold meanwhile; by rewrite Hask).
  destruct (env_steps_dinv _ _ _ _ _ _ Hr' (fun q => or_introl (Hquiet q)) Hi) as (k1 & Hi' & _).
  pose proof (env_steps_evolve _ _ Hr') as (Ha' & _ & He' & [data Hw'] & _ & Hended).
  pose proof (file_steps_mgr _ _ Hr) as Hm'.
  destruct Hi as (Ht & Hd & Hcov & _ & Hin), Hi' as (_ & Hd' & Hcov' & Hq' & Hin').
  rewrite He', Hend in Hin'. rewrite Hend in Hin. rewrite Ha', Hask in Hin'. rewrite Hask in Hin.
  destruct Hin as [Hf Hidle], Hin' as [Hf' Hidle']. pose proof (covers_le _ _ _ Hcov) as [Hcw _].
  exists (next_chunk_at (N.of_nat CHUNKER_READ_SIZE) (d_fs s) (d_fs s') token pd).1.
  rewrite (ask_eq s s' pd Ht). unfold dinv_at. cbn [d_mgr d_fs d_written d_ask d_out d_end].
  rewrite He', Hend. cbn [position].
  enough (exists k', asked (d_fs s') pd (next_chunk_at (N.of_nat CHUNKER_READ_SIZE) (d_fs s) (d_fs s') token pd).1
            (d_written s') c k' /\ (ended (d_fs s) -> k' < k)) as (k' & Hk' & Hlt).
  { exists k'. split; [|done]. split; [by apply table_has_next|]. split_and!; try done. apply Ht. }
  assert (forall P : Prop, d_written s' = d_written s \/ P -> data = [] \/ P) as Hnil.
  { intros P [E|E]; [left | by right]. rewrite Hw' in E. rewrite <- (app_nil_r (d_written s)) in E at 2.
    by apply app_inv_head in E. }
  cbn [position] in Hidle. destruct (_status pd) eqn:Hst; [unfold idle in Hidle; by rewrite Hst in Hidle|..].
  - rewrite Hw'. apply asked_running; try done.
    + intros E. destruct (Hended E) as [E1 E2]. split; [done|]. by destruct (Hnil False) as [|[]]; [left|].
    + intros q. destruct (Hcalm q) as [E|E]; [by left|]. right. by destruct (Hnil False) as [|[]]; [left|].
    + intros q. by destruct (Hnil False) as [|[]]; [left; apply Hquiet|].
  - unfold idle in Hidle. rewrite Hst in Hidle. destruct Hidle as (Hc & E & ->).
    destruct (next_chunk_at_same (N.of_nat CHUNKER_READ_SIZE) (d_fs s) (d_fs s') token pd) as (_ & _ & _ & _ & _ & Hdd & _).
    unfold asked. rewrite Hst, (Hdd Hst). destruct (Hended E) as [E1 E2]. rewrite E2.
    exists 1. split; [by split_and! | lia].
Qed.

(** A piece of text without the end is not taken for it. *)
Lemma piece_not_end w p n : contains w (lit "END") = false -> take n (drop p w) <> lit "END".
Proof.
  intros Hend E. revert Hend. rewrite <- (take_drop p w), <- (take_drop n (drop p w)), E.
  by rewrite contains_sub.
Qed.

Lemma covers_read w o c p :
  covers w o c -> p <= c <= p + CHUNKER_READ_SIZE ->
  covers w (o ++ take CHUNKER_READ_SIZE (drop p w)) (min (p + CHUNKER_READ_SIZE) (length w)).
Proof.
  intros Hcov Hp. pose proof (covers_le w o c Hcov) as [Hc _].
  replace (take CHUNKER_READ_SIZE (drop p w))
    with (take (min CHUNKER_READ_SIZE (length w - p)) (drop p w)).
  - replace (min (p + CHUNKER_READ_SIZE) (length w)) with (p + min CHUNKER_READ_SIZE (length w - p)) by lia.
    apply covers_piece with c; [done | lia..].
  - rewrite <- length_drop. destruct (Nat.min_spec CHUNKER_READ_SIZE (length (drop p w))) as [[? ->]|[? ->]];
      [done|]. by rewrite !take_ge by lia.
Qed.

(** The read of an answer with a position. *)
Lemma read_eq s s' pd0 :
  entry_has pd0 -> _status pd0 = K_RUNNING -> deliverable (d_written s') -> pos pd0 <= length (d_written s') ->
  read_step user token (answer_of pd0) s s' =
  Ok match d_fs s !! chunk_file token, d_fs s' !! end_file token with
     | Some _, _ =>
         let data := default [] (d_fs s' !! chunk_file token) in
         let out := cstr (take CHUNKER_READ_SIZE (drop (pos pd0) data)) in
         if decide (out = lit "END") then mkDelivery (d_mgr s') (d_fs s') (d_written s') None (d_out s') true
         else mkDelivery (d_mgr s') (d_fs s') (d_written s') None (d_out s' ++ out) false
     | None, Some _ =>
         mkDelivery (d_mgr s') (delete (chunk_file token) (delete (end_file token) (d_fs s'))) (d_written s') None (d_out s') true
     | None, None => mkDelivery (d_mgr s') (d_fs s') (d_written s') None (d_out s') false
     end.
Proof.
  intros (Hp & Hu & Hl) Hst (Hsize & _) Hpos.
  assert (answered pd0 = N.of_nat (pos pd0)) as Hans
    by (unfold answered, pos; by rewrite Hst, decide_False, N2Nat.id).
  assert (N.of_nat (pos pd0) < 2 ^ 63)%N as Hlt by (unfold u32 in Hsize; lia).
  unfold read_step. rewrite get_chunk_answer; try done; [|left; by rewrite Hans].
  rewrite Hans. unfold read_at. rewrite Nat2N.id. destruct (decide (N.of_nat (pos pd0) < 2 ^ 63)%N); [|done].
  destruct (d_fs s !! chunk_file token); [done|].
  destruct (d_fs s' !! end_file token); cbn [res_bind]; [done|]. by rewrite app_nil_r.
Qed.

Lemma read_present s s' pd0 w :
  entry_has pd0 -> _status pd0 = K_RUNNING -> deliverable (d_written s') -> pos pd0 <= length (d_written s') ->
  d_fs s !! chunk_file token = Some w -> d_fs s' !! chunk_file token = Some (d_written s') ->
  read_step user token (answer_of pd0) s s' =
  Ok (mkDelivery (d_mgr s') (d_fs s') (d_written s') None
        (d_out s' ++ take CHUNKER_READ_SIZE (drop (pos pd0) (d_written s'))) false).
Proof.
  intros He Hst Hd Hpos Hf Hf'. rewrite read_eq, Hf, Hf' by done. destruct Hd as (_ & Hnul & Hend).
  cbn [default]. rewrite cstr_id by (intros H; by apply elem_of_take, elem_of_drop in H).
  cbv zeta. by rewrite decide_False by (by apply piece_not_end).
Qed.

(** The read of an answer that tells the end. *)
Lemma read_dead s s' pd0 :
  entry_has pd0 -> _status pd0 = K_DEAD -> ended (d_fs s') ->
  read_step user token (answer_of pd0) s s' =
  Ok (mkDelivery (d_mgr s') (delete (chunk_file token) (delete (end_file token) (d_fs s'))) (d_written s') None
        (d_out s') true).
Proof.
  intros (Hp & Hu & Hl) Hst [x Hx]. assert (answered pd0 = u64 - 1)%N as Hans
    by (unfold answered; by rewrite Hst, decide_True).
  unfold read_step. rewrite get_chunk_answer by (done || by right). rewrite Hans. unfold read_at. rewrite Hx.
  destruct (decide (u64 - 1 < 2 ^ 63)%N); [done|]. by destruct (d_fs s !! chunk_file token).
Qed.

(** The position and the received text after such a read. *)
Lemma read_idle fs w o pd0 pd c k :
  covers w o c -> (quiet -> o = take c w) -> asked fs pd0 pd w c k -> _status pd0 = K_RUNNING ->
  let o' := o ++ take CHUNKER_READ_SIZE (drop (pos pd0) w) in
  let c' := min (pos pd0 + CHUNKER_READ_SIZE) (length w) in
  covers w o' c' /\ (quiet -> o' = take c' w) /\ idle fs pd w c' (Nat.pred k) /\ 0 < k.
Proof.
  intros Hcov Hq Ha Hst o' c'. pose proof (covers_le w o c Hcov) as [Hcw _].
  assert (pos pd0 <= c <= pos pd0 + CHUNKER_READ_SIZE /\ (quiet -> pos pd0 = c)) as [Hc Hqc]
    by (unfold asked in Ha; rewrite Hst in Ha; destruct (_status pd); [by destruct Ha | split; apply Ha..]).
  split; [by apply covers_read with c|]. split.
  - intros q. unfold o', c'. rewrite (Hq q), <- (Hqc q), take_take_drop.
    destruct (Nat.min_spec (pos pd0 + CHUNKER_READ_SIZE) (length w)) as [[? ->]|[? ->]]; [done|].
    by rewrite !take_ge by lia.
  - unfold asked, idle, c' in *. rewrite Hst in Ha. destruct (_status pd); [done| |].
    + destruct Ha as (_ & _ & Hpos & Hw & Hqp & ->). split; [|lia].
      split_and!; [lia..|intros q; by apply Hqp | done].
    + destruct Ha as (_ & _ & Hw & Hended & ->). split; [|lia]. split_and!; [|done..].
      intros cm. specialize (Hw cm). lia.
Qed.

(** A read that does not find the data file: nothing was written so far. *)
Lemma read_absent pd0 pd c s k :
  dinv_at pd0 pd c s k -> d_end s = false -> d_ask s = Some (answer_of pd0) -> _status pd0 = K_RUNNING ->
  d_fs s !! chunk_file token = None ->
  ~ ended (d_fs s) /\ d_written s = [] /\ c = 0 /\ _status pd = K_RUNNING /\ pos pd = 0 /\ pos pd0 = 0.
Proof.
  intros (_ & _ & Hcov & _ & Hin) He Ha Hst Hf. rewrite He, Ha in Hin. destruct Hin as [Hfile (_ & _ & Hask)].
  pose proof (covers_le _ _ _ Hcov) as [Hcw _].
  destruct Hfile as [E|(_ & Hw & Hn)]; [congruence|]. rewrite Hw in *. cbn [length] in *.
  assert (~ ended (d_fs s)) as Hne by (intros [x Hx]; congruence).
  unfold asked in Hask. rewrite Hst in Hask. destruct (_status pd); [done| |]; destruct_and! Hask; [|done].
  cbn [length] in *. split_and!; done || lia.
Qed.

(** The read. *)
Lemma read_dinv answer pd0 pd c s s' k :
  dinv_at pd0 pd c s k -> d_end s = false -> d_ask s = Some answer -> rtc (env_step stack ex sock token) s s' ->
  (calm -> no_late_end token s s') -> (quiet -> no_writes s s') ->
  exists r c' k', read_step user token answer s s' = Ok r /\ dinv_at pd0 pd c' r k' /\
    d_written r = d_written s' /\ (ended (d_fs s) -> k' < k /\ (d_end r = true \/ ended (d_fs r))).
Proof.
  intros Hi Hend Hask Hr Hcalm Hquiet.
  destruct (env_steps_dinv _ _ _ _ _ _ Hr (fun q => or_introl (Hquiet q)) Hi) as (k1 & Hi' & Hk1).
  pose proof (env_steps_evolve _ _ Hr) as (Ha' & Ho' & He' & Hpre & Hpres & Hended).
  assert (answer = answer_of pd0 /\ entry_has pd0 /\ asked (d_fs s) pd0 pd (d_written s) c k) as (-> & He0 & Ha).
  { destruct Hi as (_ & _ & _ & _ & Hin). rewrite Hend, Hask in Hin. by destruct Hin as [_ ?]. }
  pose proof Hi' as (Ht' & Hd' & Hcov' & Hq' & Hin'). rewrite He', Hend, Ha', Hask in Hin'.
  destruct Hin' as [Hf' (_ & _ & Hasked')].
  destruct (_status pd0) eqn:Hst; [unfold asked in Ha; by rewrite Hst in Ha|..].
  - destruct (d_fs s !! chunk_file token) as [w|] eqn:Hf.
    + destruct Hf' as [Hf'|(Hf' & _)]; [|destruct Hpres as [x Hx]; [by eexists | congruence]].
      pose proof (covers_le _ _ _ Hcov') as [Hcw _].
      assert (pos pd0 <= length (d_written s')) as Hpos.
      { unfold asked in Hasked'. rewrite Hst in Hasked'. destruct (_status pd); [done|..]; destruct_and! Hasked'; lia. }
      rewrite (read_present s s' pd0 w) by done.
      destruct (read_idle _ _ _ _ _ _ _ Hcov' Hq' Hasked' Hst) as (Hcov2 & Hq2 & Hidle & Hk).
      eexists _, _, (Nat.pred k1). split; [done|]. split; [apply dinv_running; try done; by left|]. split; [done|].
      intros E. rewrite <- (Hk1 E). split; [lia | right; by apply Hended].
    + destruct (read_absent pd0 pd c s k Hi Hend Hask Hst Hf) as (Hne & Hw & -> & Hsp & Hp & Hp0).
      rewrite read_eq by (done || (rewrite Hp0; lia)). rewrite Hf.
      destruct (d_fs s' !! end_file token) as [x|] eqn:Hx.
      * eexists _, 0, 0. split; [done|]. split; [apply dinv_told; try done|split; [done|by intros E]].
        intros cm. destruct (Hcalm cm) as [E|E].
        -- exfalso. apply Hne. unfold ended. rewrite <- E, Hx. by eexists.
        -- by rewrite E, Hw.
      * eexists _, 0, _. split; [done|]. split; [|split; [done|by intros E]].
        apply dinv_running; try done.  cbn [position]. unfold idle. rewrite Hsp, Hp.
        split; [lia|]. by split.
  - unfold asked in Ha. rewrite Hst in Ha. destruct (_status pd) eqn:Hsp; [done..|]. destruct Ha as (Hc & E & ->).
    destruct (Hended E) as [E' Hw]. rewrite read_dead by done.
    eexists _, c, 0. split; [done|]. split; [apply dinv_told; try done|split; [done|]].
    + intros cm. rewrite Hw. by apply Hc.
    + intros _. split; [lia | by left].
Qed.

Lemma client_at_dinv s s' k :
  dinv s k -> d_end s = false -> meanwhile stack ex sock token s s' ->
  (calm -> no_late_end token s s') -> (quiet -> no_writes s s') ->
  exists r k', client_at stack ex t sock user token s s' = Ok r /\ dinv r k' /\ d_written r = d_written s' /\
    (ended (d_fs s) -> k' < k /\ (d_end r = true \/ ended (d_fs r))).
Proof.
  intros (pd0 & pd & c & Hi) He Hm Hcalm Hquiet. unfold client_at, meanwhile in *. destruct (d_ask s) as [answer|] eqn:Ha.
  - destruct (read_dinv answer pd0 pd c s s' k) as (r & c' & k' & Hs & Hi' & Hw & Hk); try done.
    exists r, k'. split; [done|]. split; [by eexists _, _, _ | done].
  - destruct (ask_dinv pd0 pd c s s' k) as (pd' & k' & Hi' & Hk); try done.
    eexists _, k'. split; [done|]. split; [by eexists _, _, _|].
    pose proof (env_steps_evolve s s' (meanwhile_env s s' ltac:(unfold meanwhile; by rewrite Ha))) as (_ & _ & _ & _ & _ & Hend).
    unfold ask_step. destruct (process_at _ _ _ _ _ _ _ _) as [[m ?] ev]. cbn [d_written d_fs d_end].
    split; [done|]. intros E. split; [by apply Hk | right; by apply Hend].
Qed.

Lemma client_step_dinv (between : delivery -> delivery -> Prop) s r k :
  (calm -> forall s s', between s s' -> no_late_end token s s') -> (quiet -> forall s s', between s s' -> no_writes s s') ->
  dinv s k -> d_end s = false -> client_step stack ex t sock user token between s r ->
  exists k', dinv r k' /\ (ended (d_fs s) -> k' < k /\ (d_end r = true \/ ended (d_fs r))).
Proof.
  intros Hcalm Hquiet Hi He [s' Hm Hb Hc].
  destruct (client_at_dinv s s' k) as (r' & k' & Hr & Hi' & _ & Hk); [by auto..|].
  rewrite Hc in Hr. injection Hr as <-. by exists k'.
Qed.

(** ** Runs *)

Lemma dinv_fresh m fs :
  fresh user token m fs ->
  exists pd, _status pd = K_RUNNING /\ pos pd = 0 /\ table_has m pd /\
    dinv_at pd pd 0 (mkDelivery m fs [] None [] false) (2 * rounds [] 0).
Proof using.
  clear Hsock Hfmt.
  intros (pd & Hm & Hp & _ & Hu & Ho & Hst & Hl & Hc & Hfc & Hfe). exists pd.
  assert (pos pd = 0) as Hpos by (unfold pos; by rewrite Ho).
  assert (table_has m pd) as Ht by (by split_and!).
  split; [done|]. split; [done|]. split; [done|].
  apply dinv_running; [done | split_and!; [done | apply not_elem_of_nil | done] | constructor | done | by right|].
  cbn. unfold idle. rewrite Hst, Hpos. split; [lia | done].
Qed.

Lemma dinv_bound s k : dinv s k -> d_end s = false -> k <= 5 + 2 * (length (d_written s) / CHUNKER_READ_SIZE).
Proof using.
  clear Hsock Hfmt.
  intros (pd0 & pd & c & _ & _ & _ & _ & Hin) He. rewrite He in Hin. destruct Hin as [_ Hp].
  assert (forall q, rounds (d_written s) q <= 2 + length (d_written s) / CHUNKER_READ_SIZE) as Hr.
  { intros q. unfold rounds. apply Nat.add_le_mono_l, Nat.Div0.div_le_mono. lia. }
  destruct (d_ask s); cbn [position] in Hp.
  - destruct Hp as (_ & _ & Ha). unfold asked in Ha. specialize (Hr (pos pd)).
    destruct (_status pd0), (_status pd); try done; destruct_and! Ha; lia.
  - unfold idle in Hp. specialize (Hr (pos pd)). destruct (_status pd); [done|..]; destruct_and! Hp; lia.
Qed.

(** Between a read and the next request. *)
Lemma dinv_idle_bound s k :
  dinv s k -> d_end s = false -> d_ask s = None -> k <= 4 + 2 * (length (d_written s) / CHUNKER_READ_SIZE).
Proof using.
  clear Hsock Hfmt.
  intros (pd0 & pd & c & _ & _ & _ & _ & Hin) He Ha. rewrite He, Ha in Hin. destruct Hin as [_ Hp]. cbn in Hp.
  assert (rounds (d_written s) (pos pd) <= 2 + length (d_written s) / CHUNKER_READ_SIZE) as Hr.
  { unfold rounds. apply Nat.add_le_mono_l, Nat.Div0.div_le_mono. lia. }
  unfold idle in Hp. destruct (_status pd); [done|..]; destruct_and! Hp; lia.
Qed.

Lemma env_dinv s s' k :
  rtc (env_step stack ex sock token) s s' -> (quiet -> d_written s' = d_written s \/ d_ask s = None) ->
  dinv s k -> exists k', dinv s' k' /\ (ended (d_fs s) -> k' = k).
Proof.
  intros Hr Hq (pd0 & pd & c & Hi). destruct (env_steps_dinv _ _ _ _ _ _ Hr Hq Hi) as (k' & Hi' & Hk).
  exists k'. split; [by eexists _, _, _ | done].
Qed.
End Invariant.

Definition started_delivery (m : ChunkerManager) (fs : files) : delivery := mkDelivery m fs [] None [] false.

Section Delivered.
Context (stack : str) (ex : str -> nat -> bool) (t sock : N) (user token : str).
Context (Huser : clean user) (Htoken : clean token) (Hune : user <> []) (Htne : token <> []).
Context (Hsock : sock <> 0%N) (Hfmt : length (CHUNKER_NEXT_FORMAT token user) < 1024).

Lemma fresh_dinv quiet calm m fs : fresh user token m fs -> exists k, dinv user token quiet calm (started_delivery m fs) k.
Proof. intros (pd & _ & _ & _ & Hi)%(dinv_fresh user token quiet calm). by eexists _, _, _, _. Qed.

(** Runs keep the invariant. *)
Lemma dstep_dinv (calm : Prop) between s s' k :
  (calm -> forall s s', between s s' -> no_late_end token s s') ->
  rtc (dstep stack ex t sock user token between) s s' ->
  dinv user token False calm s k -> exists k', dinv user token False calm s' k'.
Proof.
  intros Hb Hr. revert k. induction Hr as [|s1 s2 s3 [Hs|He Hs] _ IH]; intros k Hi; [by eexists|..].
  - destruct (env_dinv stack ex sock user token Hsock Hfmt False calm s1 s2 k) as (k' & Hi' & _);
      [by apply rtc_once | done..|]. by eapply IH.
  - destruct (client_step_dinv stack ex t sock user token Huser Htoken Hune Htne Hsock Hfmt False calm between s1 s2 k)
      as (k' & Hi' & _); [done..|]. by eapply IH.
Qed.


(** However the writes of a command, its end, the client's requests and
    reads, other requests at the daemon and other changes to files
    interleave, as long as the end mark is not left, after more output,
    between the two lookups of an answer or of a read, the client never
    misses any output: what it has received is put together from pieces of
    the output of which none starts behind the end of the one before, and
    once it is told the end they reach the end of the output. *)
Theorem delivery_nothing_lost m fs s :
  fresh user token m fs ->
  rtc (dstep stack ex t sock user token (no_late_end token)) (started_delivery m fs) s ->
  exists c, covers (d_written s) (d_out s) c /\ (d_end s = true -> c = length (d_written s)).
Proof.
  intros [k Hi]%(fresh_dinv False True) Hr.
  destruct (dstep_dinv True (no_late_end token) _ _ _ ltac:(done) Hr Hi) as (k' & pd0 & pd & c & _ & _ & Hcov & _ & Hin).
  exists c. split; [done|]. intros He. rewrite He in Hin. by apply Hin.
Qed.


Section Polls.
Context (between : delivery -> delivery -> Prop).

Lemma polls_ended n s s' : polls stack ex t sock user token between n s s' -> d_end s = true -> n = 0.
Proof. destruct 1 as [s|n s s1 s' [? ? []|]|n s s1 s' He]; intros Hd; try done; congruence. Qed.

Lemma polls_dinv (calm : Prop) n s s' k :
  (calm -> forall s s', between s s' -> no_late_end token s s') ->
  polls stack ex t sock user token between n s s' -> dinv user token False calm s k ->
  exists k', dinv user token False calm s' k'.
Proof.
  intros Hb Hp. revert k. induction Hp as [|n s s1 s' Hs _ IH|n s s1 s' He Hs _ IH]; intros k Hi; [by eexists|..].
  - destruct (dstep_dinv calm between s s1 k Hb) as [k' Hi']; [by apply rtc_once, dstep_env | done|]. by eapply IH.
  - destruct (dstep_dinv calm between s s1 k Hb) as [k' Hi']; [by apply rtc_once, dstep_client | done|]. by eapply IH.
Qed.

Lemma polls_bound n s s' k :
  polls stack ex t sock user token between n s s' -> dinv user token False False s k -> ended token (d_fs s) -> n <= k.
Proof.
  intros Hp. revert k. induction Hp as [|n s s1 s' Hs _ IH|n s s1 s' He Hs Hp IH]; intros k Hi Hend; [lia|..].
  - destruct (env_dinv stack ex sock user token Hsock Hfmt False False s s1 k) as (k' & Hi' & Hk);
      [by apply rtc_once | done..|]. rewrite <- (Hk Hend). apply IH; [done|]. by eapply env_step_evolves.
  - destruct (client_step_dinv stack ex t sock user token Huser Htoken Hune Htne Hsock Hfmt False False between s s1 k)
      as (k' & Hi' & Hk); [done..|]. destruct (Hk Hend) as [Hlt [He'|Hend']].
    + apply polls_ended in Hp; [lia | done].
    + specialize (IH k' Hi' Hend'). lia.
Qed.
End Polls.

(** The client alone. *)
Definition client_alone (s r : delivery) : Prop := client_at stack ex t sock user token s s = Ok r.

Lemma finished_steps k s :
  dinv user token False True s k -> d_end s = false -> ended token (d_fs s) ->
  exists n s', nsteps client_alone n s s' /\
    n <= k /\ d_end s' = true /\ covers (d_written s) (d_out s') (length (d_written s)).
Proof.
  revert s. induction k as [k IH] using lt_wf_ind. intros s Hi He Hend.
  destruct (client_at_dinv stack ex t sock user token Huser Htoken Hune Htne Hsock Hfmt False True s s k Hi He)
    as (s1 & k1 & Hs1 & Hi1 & Hw & Hk); [unfold meanwhile; by destruct (d_ask s) | by left | done|].
  destruct (Hk Hend) as [Hlt Hk']. destruct (d_end s1) eqn:He1.
  - exists 1, s1. split; [by apply nsteps_once|]. split; [lia|]. split; [done|].
    destruct Hi1 as (pd0 & pd & c & _ & _ & Hcov & _ & Hin). rewrite He1 in Hin. rewrite (Hin I) in Hcov. by rewrite <- Hw.
  - destruct Hk' as [|Hend1]; [done|].
    destruct (IH k1 Hlt s1 Hi1 He1 Hend1) as (n & s' & Hn & Hle & He' & Hcov).
    exists (S n), s'. rewrite <- Hw. split; [by econstructor|]. split; [lia|]. by split.
Qed.

(** The end arrives.  From every state these steps can reach, once
    the reader has left its end mark, requests and reads of the client alone
    bring it all of the output and the end, and no run, whatever the daemon
    and the files do in between, holds more than four of its steps and two
    for each full chunk of the output, and one, before it is told so. *)
Theorem delivery_completes m fs s :
  fresh user token m fs ->
  rtc (dstep stack ex t sock user token (no_late_end token)) (started_delivery m fs) s ->
  d_end s = false -> is_Some (d_fs s !! end_file token) ->
  (exists n s', nsteps client_alone n s s' /\
     d_end s' = true /\ covers (d_written s) (d_out s') (length (d_written s))) /\
  (forall n s', polls stack ex t sock user token anything n s s' ->
     n <= 5 + 2 * (length (d_written s) / CHUNKER_READ_SIZE)).
Proof.
  intros Hf Hr He Hend. split.
  - destruct (fresh_dinv False True m fs Hf) as [k Hi].
    destruct (dstep_dinv True (no_late_end token) _ _ _ ltac:(done) Hr Hi) as [k' Hi'].
    destruct (finished_steps k' s Hi' He Hend) as (n & s' & Hn & _ & Hs'). eauto.
  - intros n s' Hp. destruct (fresh_dinv False False m fs Hf) as [k Hi].
    destruct (dstep_dinv False (no_late_end token) _ _ _ ltac:(done) Hr Hi) as [k' Hi'].
    etrans; [by eapply polls_bound|]. by eapply dinv_bound.
Qed.

(** A step of the client with nothing in between. *)
Lemma client_now (between : delivery -> delivery -> Prop) s r :
  between s s -> d_end s = false -> client_alone s r -> dstep stack ex t sock user token between s r.
Proof.
  intros Hb He Hs. apply dstep_client; [done|]. apply client_moves with s; [|done..].
  unfold meanwhile. by destruct (d_ask s).
Qed.

(** A request, and its read, in a run. *)
Lemma client_round (between : delivery -> delivery -> Prop) m fs w o pd :
  (forall s, between s s) -> table_has user token m pd -> deliverable w -> file_has token fs w ->
  _status pd = K_RUNNING -> pos pd <= length w ->
  let pd' := (next_chunk_at (N.of_nat CHUNKER_READ_SIZE) fs fs token pd).1 in
  let m' := upd_coll (mset token pd') m in
  table_has user token m' pd' /\
  dstep stack ex t sock user token between (mkDelivery m fs w None o false)
    (mkDelivery m' fs w (Some (answer_of pd)) o false) /\
  forall fs' w', deliverable w' -> fs' !! chunk_file token = Some w' -> pos pd <= length w' ->
    dstep stack ex t sock user token between (mkDelivery m' fs' w' (Some (answer_of pd)) o false)
      (mkDelivery m' fs' w' None (o ++ take CHUNKER_READ_SIZE (drop (pos pd) w')) false).
Proof.
  intros Hb Ht Hd Hf Hst Hpos pd' m'. split; [by apply table_has_next|]. split.
  - apply client_now; [done..|]. unfold client_alone, client_at. cbn [d_ask]. f_equal.
    by rewrite (ask_eq stack ex t sock user token Huser Htoken Hsock Hfmt) with (pd := pd).
  - intros fs' w' Hd' Hf' Hpos'. apply client_now; [done..|]. unfold client_alone, client_at. cbn [d_ask].
    by eapply (read_present sock user token Hune Htne Hsock Hfmt); [apply Ht|..].
Qed.

(** The last request and its read. *)
Lemma client_end (between : delivery -> delivery -> Prop) m fs w o pd :
  (forall s, between s s) -> table_has user token m pd -> _status pd = K_DEAD -> ended token fs ->
  exists m' fs', rtc (dstep stack ex t sock user token between) (mkDelivery m fs w None o false)
                   (mkDelivery m' fs' w None o true).
Proof.
  intros Hb Ht Hst He. eexists _, _. eapply rtc_l.
  { apply client_now; [done..|]. unfold client_alone, client_at. cbn [d_ask].
    by rewrite (ask_eq stack ex t sock user token Huser Htoken Hsock Hfmt) with (pd := pd). }
  apply rtc_once, client_now; [done..|]. unfold client_alone, client_at. cbn [d_ask].
  eapply read_dead; by try apply Ht.
Qed.

(** Claim C36: the daemon moves on by the size of the file when it answers,
    the client reads the file when it has the answer: output written in
    between is delivered twice.  For every command that was just started and
    every two pieces of its output that fit one chunk together, a write
    between the first request and its read gives a client that was sent the
    second piece twice, with nothing happening between the lookups of an
    answer or of a read. *)
Theorem delivery_repeats m fs a b :
  fresh user token m fs -> deliverable (a ++ b) -> length (a ++ b) <= CHUNKER_READ_SIZE ->
  exists s, rtc (dstep stack ex t sock user token eq) (started_delivery m fs) s /\
    d_written s = a ++ b /\ d_out s = a ++ b ++ b /\ d_end s = true.
Proof.
  intros Hfresh Hd Hlen. destruct (dinv_fresh user token False False m fs Hfresh) as (pd & Hst & Hpos & Ht & _).
  destruct Hfresh as (_ & _ & _ & _ & _ & _ & _ & _ & _ & Hfc & Hfe).
  pose proof (chunk_file_ne_end token) as Hne. pose proof read_size_pos as HR. rewrite length_app in Hlen.
  pose proof (deliverable_app a b Hd) as Hda.
  set (fs1 := append_file fs (chunk_file token) a). set (fs2 := append_file fs1 (chunk_file token) b).
  set (fs3 := process_chunk_end (fun _ => true) fs2 [] token).
  assert (fs1 !! chunk_file token = Some a) as H1 by (unfold fs1; by rewrite append_file_eq, Hfc).
  assert (fs1 !! end_file token = None) as E1 by (unfold fs1; by rewrite append_file_ne).
  assert (fs2 !! chunk_file token = Some (a ++ b)) as H2 by (unfold fs2; by rewrite append_file_eq, H1).
  assert (fs2 !! end_file token = None) as E2 by (unfold fs2; by rewrite append_file_ne).
  destruct (finish_files token fs2 (a ++ b) ltac:(by left)) as [H3 E3]. fold fs3 in H3, E3.
  destruct (client_round eq m fs1 a [] pd (@eq_refl _) Ht Hda ltac:(by left) Hst ltac:(lia)) as (Ht2 & Hs2 & Hr2).
  destruct (next_chunk_running token fs1 fs1 pd a Hst H1 ltac:(apply Hda) ltac:(lia)) as [Hp2 Hst2].
  set (pd2 := (next_chunk_at _ fs1 fs1 token pd).1) in *. set (m2 := upd_coll _ m) in *.
  rewrite decide_False, E1 in Hst2 by lia. rewrite Nat.min_r in Hp2 by lia.
  destruct (client_round eq m2 fs3 (a ++ b) (a ++ b) pd2 (@eq_refl _) Ht2 Hd ltac:(by left) Hst2
              ltac:(rewrite length_app; lia)) as (Ht3 & Hs3 & Hr3).
  destruct (next_chunk_running token fs3 fs3 pd2 (a ++ b) Hst2 H3 ltac:(apply Hd) ltac:(rewrite length_app; lia))
    as [Hp3 Hst3].
  set (pd3 := (next_chunk_at _ fs3 fs3 token pd2).1) in *. set (m3 := upd_coll _ m2) in *.
  pose proof E3 as [x E3']. rewrite decide_False, E3' in Hst3 by (rewrite length_app; lia).
  destruct (client_end eq m3 fs3 (a ++ b) (a ++ b ++ b) pd3 (@eq_refl _) Ht3 Hst3 E3) as (m4 & fs4 & Hrun).
  exists (mkDelivery m4 fs4 (a ++ b) None (a ++ b ++ b) true). split; [|done].
  apply rtc_l with (mkDelivery m fs1 a None [] false).
  { apply dstep_env, step_file. by apply (step_append token m fs [] None [] a). }
  eapply rtc_l; [exact Hs2|]. apply rtc_l with (mkDelivery m2 fs2 (a ++ b) (Some (answer_of pd)) [] false).
  { apply dstep_env, step_file. by apply step_append. }
  eapply rtc_l; [apply Hr2; [done | done | lia]|]. rewrite Hpos, drop_0, app_nil_l, take_ge by (rewrite length_app; lia).
  apply rtc_l with (mkDelivery m2 fs3 (a ++ b) None (a ++ b) false).
  { apply dstep_env, step_file. by apply step_finish. }
  eapply rtc_l; [exact Hs3|]. eapply rtc_l; [apply Hr3; [done | done | rewrite length_app; lia]|].
  rewrite Hp2, drop_app_length, take_ge, <- app_assoc by lia. exact Hrun.
Qed.

(** The end of a command, after output of it that the file does not hold
    yet. *)
Lemma write_and_end m fs w data a o :
  fs !! end_file token = None -> deliverable (w ++ data) -> file_has token fs w ->
  let fs' := process_chunk_end (fun _ => true) (process_chunk (fun _ => true) fs data token).2 [] token in
  rtc (file_step token) (mkDelivery m fs w a o false) (mkDelivery m fs' (w ++ data) a o false) /\
  fs' !! chunk_file token = Some (w ++ data) /\ ended token fs'.
Proof.
  intros He Hd Hf fs'. pose proof (chunk_file_ne_end token) as Hne. split.
  - eapply rtc_l; [by apply step_append|]. apply rtc_once, step_finish. cbn. by rewrite append_file_ne.
  - apply finish_files. left. cbn. rewrite append_file_eq. by destruct Hf as [-> | (-> & -> & _)].
Qed.

(** The daemon looks for the end mark after it has taken the size of the
    file.  When the command writes its last output and leaves the end mark in
    between, and there is more than one chunk to be read then, the client is
    told the end after the one chunk: the rest is lost. *)
Theorem end_race_loses m fs w data :
  fresh user token m fs -> deliverable (w ++ data) -> length w <= CHUNKER_READ_SIZE ->
  exists s, rtc (dstep stack ex t sock user token anything) (started_delivery m fs) s /\
    d_written s = w ++ data /\ d_end s = true /\ d_out s = take CHUNKER_READ_SIZE (w ++ data).
Proof.
  intros Hfresh Hd Hlen. destruct (dinv_fresh user token False False m fs Hfresh) as (pd & Hst & Hpos & Ht & _).
  destruct Hfresh as (_ & _ & _ & _ & _ & _ & _ & _ & _ & Hfc & Hfe).
  pose proof (deliverable_app w data Hd) as Hdw. pose proof (chunk_file_ne_end token) as Hne.
  set (fs1 := append_file fs (chunk_file token) w).
  assert (fs1 !! chunk_file token = Some w) as H1 by (unfold fs1; by rewrite append_file_eq, Hfc).
  assert (fs1 !! end_file token = None) as E1 by (unfold fs1; by rewrite append_file_ne).
  destruct (write_and_end m fs1 w data None [] E1 Hd ltac:(by left)) as (Hrun & H2 & E2). set (fs2 := process_chunk_end _ _ _ _) in *.
  destruct (next_chunk_running token fs1 fs2 pd w Hst H1 ltac:(apply Hdw) ltac:(lia)) as [_ Hst2].
  pose proof (table_has_next user token m fs1 fs2 pd Ht) as Ht2.
  set (pd2 := (next_chunk_at _ fs1 fs2 token pd).1) in *.
  pose proof E2 as [x E2']. rewrite decide_False, E2' in Hst2 by lia.
  destruct (client_end anything _ fs2 (w ++ data) (take CHUNKER_READ_SIZE (w ++ data)) pd2 ltac:(done) Ht2 Hst2 E2)
    as (m4 & fs4 & Hend).
  exists (mkDelivery m4 fs4 (w ++ data) None (take CHUNKER_READ_SIZE (w ++ data)) true). split; [|done].
  apply rtc_l with (mkDelivery m fs1 w None [] false).
  { apply dstep_env, step_file. by apply (step_append token m fs [] None [] w). }
  eapply rtc_l.
  { apply dstep_client; [done|]. apply client_moves with (mkDelivery m fs2 (w ++ data) None [] false); [exact Hrun|done|].
    unfold client_at. cbn [d_ask]. by rewrite (ask_eq stack ex t sock user token Huser Htoken Hsock Hfmt) with (pd := pd). }
  eapply rtc_l; [|exact Hend]. apply client_now; [done..|]. unfold client_alone, client_at. cbn [d_ask].
  rewrite (read_present sock user token Hune Htne Hsock Hfmt _ _ pd (w ++ data)); try done; [by rewrite Hpos|apply Ht|cbn; lia].
Qed.

(** The client looks for the end mark after it has not found the data file.
    When the command writes all of its output and leaves the end mark in
    between, the client takes this for the end, and deletes the output it
    never read. *)
Theorem read_race_loses m fs w :
  fresh user token m fs -> deliverable w ->
  exists s, rtc (dstep stack ex t sock user token anything) (started_delivery m fs) s /\
    d_written s = w /\ d_end s = true /\ d_out s = [] /\ d_fs s !! chunk_file token = None.
Proof.
  intros Hfresh Hd. destruct (dinv_fresh user token False False m fs Hfresh) as (pd & Hst & Hpos & Ht & _).
  destruct Hfresh as (_ & _ & _ & _ & _ & _ & _ & _ & _ & Hfc & Hfe).
  assert (file_has token fs []) as Hf by (by right).
  destruct (client_round anything m fs [] [] pd ltac:(done) Ht (deliverable_app [] w Hd) Hf Hst ltac:(lia)) as (_ & Hs & _).
  set (m2 := upd_coll _ m) in *. destruct (write_and_end m2 fs [] w (Some (answer_of pd)) [] Hfe Hd Hf) as (Hrun & H2 & x & E2).
  set (fs2 := process_chunk_end _ _ _ _) in *.
  eexists. split; [|split; [|split; [|split]]].
  - eapply rtc_l; [exact Hs|]. apply rtc_once, dstep_client; [done|].
    apply client_moves with (mkDelivery m2 fs2 w (Some (answer_of pd)) [] false); [|done|].
    + unfold meanwhile. cbn [d_ask]. revert Hrun. apply rtc_subrel. intros ??. apply step_file.
    + unfold client_at. cbn [d_ask].
      rewrite (read_eq sock user token Hune Htne Hsock Hfmt) by (done || apply Ht || (rewrite Hpos; lia)).
      cbn [d_fs]. rewrite Hfc, E2. reflexivity.
  - done.
  - done.
  - done.
  - cbn. apply lookup_delete_eq.
Qed.
End Delivered.

(** Two runs: two writes around a request and its read, and one with the
    second write between them; the end; the requests after it. *)
Definition demo_token : str := lit "6463626168676665".
Definition demo_user : str := lit "vyatta".

Definition demo_client (s : delivery) : delivery :=
  match client_at [] (fun _ _ => false) 9 3 demo_user demo_token s s with Ok s' => s' | Fault _ => s end.

Definition demo_append (data : str) (s : delivery) : delivery :=
  mkDelivery (d_mgr s) (process_chunk (fun _ => true) (d_fs s) data demo_token).2
    (d_written s ++ data) (d_ask s) (d_out s) false.

Definition demo_finish (s : delivery) : delivery :=
  mkDelivery (d_mgr s) (process_chunk_end (fun _ => true) (d_fs s) [] demo_token)
    (d_written s) (d_ask s) (d_out s) false.

Definition demo_step (a : delivery -> delivery) (s : delivery) : bool :=
  negb (d_end s) && bool_decide (d_fs s !! end_file demo_token = None) &&
  bool_decide (deliverable (d_written (a s))).

Definition demo_start : delivery := started_delivery demo_manager ∅.
Definition demo_hello : delivery := demo_append (lit "hello ") demo_start.
Definition demo_asked : delivery := demo_client demo_hello.
Definition demo_race : delivery := demo_finish (demo_client (demo_append (lit "world") demo_asked)).

Definition demo_dstep : delivery -> delivery -> Prop := dstep [] (fun _ _ => false) 9 3 demo_user demo_token (no_late_end demo_token).

Lemma demo_fresh : fresh demo_user demo_token demo_manager ∅.
Proof.
  eexists. split; [vm_compute; reflexivity|].
  split; [by_compute|]. do 4 (split; [vm_compute; reflexivity|]).
  split; [apply Nat.ltb_lt; vm_compute; reflexivity|].
  split; [rewrite read_size_N; vm_compute; reflexivity|]. by split.
Qed.

Definition demo_estep : delivery -> delivery -> Prop := env_step [] (fun _ _ => false) 3 demo_token.

Lemma demo_append_step data s : demo_step (demo_append data) s = true -> demo_estep s (demo_append data s).
Proof.
  intros [[He Hf]%andb_true_iff Hd]%andb_true_iff. destruct s as [m fs w a o []]; [done|].
  apply step_file, step_append; by apply bool_decide_eq_true in Hf, Hd.
Qed.

Lemma demo_finish_step s : demo_step demo_finish s = true -> demo_estep s (demo_finish s).
Proof.
  intros [[He Hf]%andb_true_iff Hd]%andb_true_iff. destruct s as [m fs w a o []]; [done|].
  apply step_file, step_finish; by apply bool_decide_eq_true in Hf.
Qed.

Lemma demo_client_step s :
  negb (d_end s) && match client_at [] (fun _ _ => false) 9 3 demo_user demo_token s s with
                    | Ok _ => true | Fault _ => false end = true ->
  demo_dstep s (demo_client s).
Proof.
  intros [He Hs]%andb_true_iff. apply client_now; [by left | by destruct (d_end s)|]. unfold client_alone, demo_client.
  by destruct (client_at [] (fun _ _ => false) 9 3 demo_user demo_token s s).
Qed.


Lemma demo_race_run : rtc demo_dstep demo_start demo_race.
Proof.
  apply rtc_r with (demo_client (demo_append (lit "world") demo_asked)).
  2: apply dstep_env, demo_finish_step; vm_compute; reflexivity.
  apply rtc_r with (demo_append (lit "world") demo_asked).
  2: apply demo_client_step; vm_compute; reflexivity.
  apply rtc_r with demo_asked; [|apply dstep_env, demo_append_step; vm_compute; reflexivity].
  apply rtc_r with demo_hello; [|apply demo_client_step; vm_compute; reflexivity].
  apply rtc_once, dstep_env, demo_append_step. vm_compute. reflexivity.
Qed.

Lemma demo_all_client n s :
  forallb (fun k => negb (d_end (Nat.iter k demo_client s)) &&
    match client_at [] (fun _ _ => false) 9 3 demo_user demo_token (Nat.iter k demo_client s) (Nat.iter k demo_client s) with
    | Ok _ => true | Fault _ => false end) (seq 0 n) = true ->
  rtc demo_dstep s (Nat.iter n demo_client s).
Proof.
  rewrite forallb_forall. induction n as [|n IH]; intros H; [done|].
  apply rtc_r with (Nat.iter n demo_client s).
  - apply IH. intros k Hk. apply H. rewrite seq_S, in_app_iff. by left.
  - cbn [Nat.iter nat_rect]. apply demo_client_step, H. rewrite seq_S, in_app_iff. right. by left.
Qed.

(** All of the second run, told the end, with the repeated text. *)
Definition demo_race_end : delivery := Nat.iter 4 demo_client demo_race.

Lemma delivery_nothing_lost_witness :
  d_out demo_race_end = lit "hello worldworld" /\ d_end demo_race_end = true /\
  exists c, covers (d_written demo_race_end) (d_out demo_race_end) c /\
    (d_end demo_race_end = true -> c = length (d_written demo_race_end)).
Proof.
  split; [vm_compute; reflexivity|]. split; [vm_compute; reflexivity|].
  apply (delivery_nothing_lost [] (fun _ _ => false) 9 3 demo_user demo_token) with (m := demo_manager) (fs := ∅);
    [by_compute.. | exact demo_fresh |].
  etrans; [exact demo_race_run|]. apply demo_all_client. vm_compute. reflexivity.
Defined.


Lemma delivery_completes_witness :
  (exists n s', nsteps (client_alone [] (fun _ _ => false) 9 3 demo_user demo_token) n
       demo_race s' /\ d_end s' = true /\ covers (d_written demo_race) (d_out s') (length (d_written demo_race))) /\
  (forall n s', polls [] (fun _ _ => false) 9 3 demo_user demo_token anything n demo_race s' ->
     n <= 5 + 2 * (length (d_written demo_race) / CHUNKER_READ_SIZE)).
Proof.
  apply (delivery_completes [] (fun _ _ => false) 9 3 demo_user demo_token) with (m := demo_manager) (fs := ∅);
    [by_compute.. | exact demo_fresh | exact demo_race_run | vm_compute; reflexivity | vm_compute; eauto].
Defined.

Lemma delivery_repeats_witness :
  exists s, rtc (dstep [] (fun _ _ => false) 9 3 demo_user demo_token eq) (started_delivery demo_manager ∅) s /\
    d_written s = lit "hello " ++ lit "world" /\ d_out s = lit "hello " ++ lit "world" ++ lit "world" /\
    d_end s = true.
Proof.
  apply (delivery_repeats [] (fun _ _ => false) 9 3 demo_user demo_token);
    [by_compute.. | exact demo_fresh | by_compute | apply Nat.leb_le; vm_compute; reflexivity].
Defined.
