(* ===== verification/Configuration.v ===== *)
(** * [Configuration] (configuration.hh, configuration.cc)

    Reading a node of the configuration or of the operational command tree:
    the parsing of a template into [TemplateParams], the children of a node
    and their states.  The configuration and operational daemons and
    libcurl's escaping are parameters. *)

From S2P Require Import Prelude CppString StrProc Common CppMap.

(** ** Data *)

(** [std::set<std::string>]: its elements in order. *)
Abbreviation sset := (list (str * unit)).
Definition sset_insert (x : str) (s : sset) : sset := minsert x tt s.
Definition sset_elements (s : sset) : list str := s.*1.

Inductive CONF_STATE := k_NONE | k_ACTIVE | k_SET | k_DELETE.
Inductive DISABLE_STATE := k_ENABLE | k_ENABLE_LOCAL | k_DISABLE | k_DISABLE_LOCAL.

#[export] Instance CONF_STATE_eq_dec : EqDecision CONF_STATE.
Proof. solve_decision. Defined.
#[export] Instance DISABLE_STATE_eq_dec : EqDecision DISABLE_STATE.
Proof. solve_decision. Defined.

Record NodeParams := mkNode {
  _name : str;
  _state : CONF_STATE;
  _is_changed : str;
  _disabled_state : DISABLE_STATE;
}.

Definition new_NodeParams : NodeParams := mkNode [] k_NONE [] k_ENABLE.

(** The node types and statuses of the configuration daemon. *)
Inductive node_type :=
| NODE_TYPE_LEAF | NODE_TYPE_MULTI | NODE_TYPE_TAG | NODE_TYPE_CONTAINER | NODE_TYPE_ERROR.
Inductive node_status :=
| NODE_STATUS_DELETED | NODE_STATUS_CHANGED | NODE_STATUS_ADDED | NODE_STATUS_UNCHANGED
| NODE_STATUS_ERROR.
Inductive database := RUNNING | CANDIDATE.

#[export] Instance node_type_eq_dec : EqDecision node_type.
Proof. solve_decision. Defined.

Record TemplateParams := mkTemplate {
  _multi : bool;
  _multi_limit : N;
  _end : bool;
  _action : bool;
  _type : NodeType;
  _type2 : NodeType;
  _help : str;
  _comp_help : str;
  _val_help : sset;
  _mandatory : bool;
  _secret : bool;
  _default : str;
  _enum : sset;
  _enumeration_cmd : str;
  _allowed_cmd : str;
  _allowed : str;
  _node_type : node_type;
  _data : NodeParams;
  _children_coll : list NodeParams;
}.

(** The constructor; [node_type] is left uninitialised, here [node_type0]. *)
Definition new_TemplateParams (node_type0 : node_type) : TemplateParams :=
  mkTemplate false 0 false false NONE NONE [] [] [] false false [] [] [] [] [] node_type0 new_NodeParams [].

Definition set_multi (v : bool) (p : TemplateParams) : TemplateParams :=
  mkTemplate v (_multi_limit p) (_end p) (_action p) (_type p) (_type2 p) (_help p) (_comp_help p)
    (_val_help p) (_mandatory p) (_secret p) (_default p) (_enum p) (_enumeration_cmd p)
    (_allowed_cmd p) (_allowed p) (_node_type p) (_data p) (_children_coll p).
Definition set_multi_limit (v : N) (p : TemplateParams) : TemplateParams :=
  mkTemplate (_multi p) v (_end p) (_action p) (_type p) (_type2 p) (_help p) (_comp_help p)
    (_val_help p) (_mandatory p) (_secret p) (_default p) (_enum p) (_enumeration_cmd p)
    (_allowed_cmd p) (_allowed p) (_node_type p) (_data p) (_children_coll p).
Definition set_end (v : bool) (p : TemplateParams) : TemplateParams :=
  mkTemplate (_multi p) (_multi_limit p) v (_action p) (_type p) (_type2 p) (_help p)
    (_comp_help p) (_val_help p) (_mandatory p) (_secret p) (_default p) (_enum p)
    (_enumeration_cmd p) (_allowed_cmd p) (_allowed p) (_node_type p) (_data p) (_children_coll p).
Definition set_action (v : bool) (p : TemplateParams) : TemplateParams :=
  mkTemplate (_multi p) (_multi_limit p) (_end p) v (_type p) (_type2 p) (_help p) (_comp_help p)
    (_val_help p) (_mandatory p) (_secret p) (_default p) (_enum p) (_enumeration_cmd p)
    (_allowed_cmd p) (_allowed p) (_node_type p) (_data p) (_children_coll p).
Definition set_type (v : NodeType) (p : TemplateParams) : TemplateParams :=
  mkTemplate (_multi p) (_multi_limit p) (_end p) (_action p) v (_type2 p) (_help p)
    (_comp_help p) (_val_help p) (_mandatory p) (_secret p) (_default p) (_enum p)
    (_enumeration_cmd p) (_allowed_cmd p) (_allowed p) (_node_type p) (_data p) (_children_coll p).
Definition set_type2 (v : NodeType) (p : TemplateParams) : TemplateParams :=
  mkTemplate (_multi p) (_multi_limit p) (_end p) (_action p) (_type p) v (_help p) (_comp_help p)
    (_val_help p) (_mandatory p) (_secret p) (_default p) (_enum p) (_enumeration_cmd p)
    (_allowed_cmd p) (_allowed p) (_node_type p) (_data p) (_children_coll p).
Definition set_help (v : str) (p : TemplateParams) : TemplateParams :=
  mkTemplate (_multi p) (_multi_limit p) (_end p) (_action p) (_type p) (_type2 p) v
    (_comp_help p) (_val_help p) (_mandatory p) (_secret p) (_default p) (_enum p)
    (_enumeration_cmd p) (_allowed_cmd p) (_allowed p) (_node_type p) (_data p) (_children_coll p).
Definition set_comp_help (v : str) (p : TemplateParams) : TemplateParams :=
  mkTemplate (_multi p) (_multi_limit p) (_end p) (_action p) (_type p) (_type2 p) (_help p) v
    (_val_help p) (_mandatory p) (_secret p) (_default p) (_enum p) (_enumeration_cmd p)
    (_allowed_cmd p) (_allowed p) (_node_type p) (_data p) (_children_coll p).
Definition set_val_help (v : sset) (p : TemplateParams) : TemplateParams :=
  mkTemplate (_multi p) (_multi_limit p) (_end p) (_action p) (_type p) (_type2 p) (_help p)
    (_comp_help p) v (_mandatory p) (_secret p) (_default p) (_enum p) (_enumeration_cmd p)
    (_allowed_cmd p) (_allowed p) (_node_type p) (_data p) (_children_coll p).
Definition set_mandatory (v : bool) (p : TemplateParams) : TemplateParams :=
  mkTemplate (_multi p) (_multi_limit p) (_end p) (_action p) (_type p) (_type2 p) (_help p)
    (_comp_help p) (_val_help p) v (_secret p) (_default p) (_enum p) (_enumeration_cmd p)
    (_allowed_cmd p) (_allowed p) (_node_type p) (_data p) (_children_coll p).
Definition set_secret (v : bool) (p : TemplateParams) : TemplateParams :=
  mkTemplate (_multi p) (_multi_limit p) (_end p) (_action p) (_type p) (_type2 p) (_help p)
    (_comp_help p) (_val_help p) (_mandatory p) v (_default p) (_enum p) (_enumeration_cmd p)
    (_allowed_cmd p) (_allowed p) (_node_type p) (_data p) (_children_coll p).
Definition set_default (v : str) (p : TemplateParams) : TemplateParams :=
  mkTemplate (_multi p) (_multi_limit p) (_end p) (_action p) (_type p) (_type2 p) (_help p)
    (_comp_help p) (_val_help p) (_mandatory p) (_secret p) v (_enum p) (_enumeration_cmd p)
    (_allowed_cmd p) (_allowed p) (_node_type p) (_data p) (_children_coll p).
Definition set_enum (v : sset) (p : TemplateParams) : TemplateParams :=
  mkTemplate (_multi p) (_multi_limit p) (_end p) (_action p) (_type p) (_type2 p) (_help p)
    (_comp_help p) (_val_help p) (_mandatory p) (_secret p) (_default p) v (_enumeration_cmd p)
    (_allowed_cmd p) (_allowed p) (_node_type p) (_data p) (_children_coll p).
Definition set_enumeration_cmd (v : str) (p : TemplateParams) : TemplateParams :=
  mkTemplate (_multi p) (_multi_limit p) (_end p) (_action p) (_type p) (_type2 p) (_help p)
    (_comp_help p) (_val_help p) (_mandatory p) (_secret p) (_default p) (_enum p) v
    (_allowed_cmd p) (_allowed p) (_node_type p) (_data p) (_children_coll p).
Definition set_allowed_cmd (v : str) (p : TemplateParams) : TemplateParams :=
  mkTemplate (_multi p) (_multi_limit p) (_end p) (_action p) (_type p) (_type2 p) (_help p)
    (_comp_help p) (_val_help p) (_mandatory p) (_secret p) (_default p) (_enum p)
    (_enumeration_cmd p) v (_allowed p) (_node_type p) (_data p) (_children_coll p).
Definition set_node_type (v : node_type) (p : TemplateParams) : TemplateParams :=
  mkTemplate (_multi p) (_multi_limit p) (_end p) (_action p) (_type p) (_type2 p) (_help p)
    (_comp_help p) (_val_help p) (_mandatory p) (_secret p) (_default p) (_enum p)
    (_enumeration_cmd p) (_allowed_cmd p) (_allowed p) v (_data p) (_children_coll p).
Definition set_data (v : NodeParams) (p : TemplateParams) : TemplateParams :=
  mkTemplate (_multi p) (_multi_limit p) (_end p) (_action p) (_type p) (_type2 p) (_help p)
    (_comp_help p) (_val_help p) (_mandatory p) (_secret p) (_default p) (_enum p)
    (_enumeration_cmd p) (_allowed_cmd p) (_allowed p) (_node_type p) v (_children_coll p).
Definition set_children_coll (v : list NodeParams) (p : TemplateParams) : TemplateParams :=
  mkTemplate (_multi p) (_multi_limit p) (_end p) (_action p) (_type p) (_type2 p) (_help p)
    (_comp_help p) (_val_help p) (_mandatory p) (_secret p) (_default p) (_enum p)
    (_enumeration_cmd p) (_allowed_cmd p) (_allowed p) (_node_type p) (_data p) v.

(** ** The daemons *)

(** What the configuration daemon answers within one session.  A [vector]
    the library returns is a list, and so is a [map] of [key=value] texts. *)
Record configd_view := mkView {
  tmpl_validate_path : str -> bool;
  tmpl_get : str -> option (list str);
  tmpl_get_children : str -> list str;
  tmpl_get_allowed : str -> list str;
  node_get_type : str -> node_type;
  node_get_status : database -> str -> node_status;
  node_exists : database -> str -> bool;
  node_get : database -> str -> list str;
}.

(** What the operational daemon answers. *)
Record opd_view := mkOpd {
  opd_tmpl : str -> option (list str);
  opd_allowed : str -> list str;
  opd_children : str -> list str;
  opd_expand : str -> bool;
}.

(** ** Parsing a template *)

(** An entry split at its first equals sign. *)
Definition split_entry (entry : str) : option (str * str) :=
  match find entry (lit "=") 0 with
  | None => None
  | Some pos => Some (sub entry 0 pos, sub entry (pos + 1) (length entry - pos))
  end.

(** The help text: newlines are dropped, double quotes become single. *)
Definition help_text (value : str) : res str :=
  let* value := mass_replace value [nl] [] in
  mass_replace value [dquote] [quote].

(** The type a piece of a [type] entry names; [cur] when it names none. *)
Definition type_of (e : str) (cur : NodeType) : NodeType :=
  if contains e (lit "txt") then TEXT
  else if contains e (lit "ipv4net") then IPV4NET
  else if contains e (lit "ipv4") then IPV4
  else if contains e (lit "ipv6net") then IPV6NET
  else if contains e (lit "ipv6") then IPV6
  else if contains e (lit "u32") then U32
  else if contains e (lit "bool") then BOOL
  else if contains e (lit "macaddr") then MACADDR
  else cur.

(** [split(s, '\n', elems)] with [std::getline]. *)
Definition split_lines (s : str) : list str :=
  let l := split_on nl s in
  match last l with
  | Some [] => take (length l - 1) l
  | _ => l
  end.

(** The limit behind the colon of a [tag] or [multi] entry. *)
Definition multi_limit (value : str) (p : TemplateParams) : res TemplateParams :=
  let* coll := str_proc value (lit ":") in
  let l := sp_get coll 1 in
  Ok (if decide (l <> []) then set_multi_limit (strtoul l) p else p).

(** One alternative of a [syntax] entry: the text to insert and whether the
    loop ends. *)
Definition syntax_item (b : str) : str * bool :=
  let '(tmp, e) := match find b (lit ";") 0 with
                   | Some pos => (sub b 0 pos, true)
                   | None => (b, false)
                   end in
  let tmp := trim tmp in
  let tmp :=
    if decide (char_at tmp 0 = dquote) then
      match rfind tmp [dquote] with
      | Some (S p) => sub tmp 1 p
      | _ => tmp
      end
    else tmp in
  (tmp, e).

Fixpoint syntax_loop (coll : list str) (en : sset) : sset :=
  match coll with
  | [] => en
  | b :: coll' =>
      let '(tmp, e) := syntax_item b in
      let en := if decide (tmp <> []) then sset_insert tmp en else en in
      if e : bool then en else syntax_loop coll' en
  end.

(** The [syntax] entry: [$VAR(@) in "a", "b"; ...] *)
Definition syntax_enum (value : str) (p : TemplateParams) : res TemplateParams :=
  let* coll := str_proc value (lit " ") in
  if decide (3 < length coll /\ sp_get coll 2 = lit "in") then
    let meat_str := sp_get_range coll 3 (Z.of_nat (length coll)) in
    let* meat_coll := str_proc meat_str (lit ",") in
    Ok (set_enum (syntax_loop meat_coll (_enum p)) p)
  else Ok p.

(** The key of one entry of a configuration template; [None] for an ignored
    key.  The flag is [is_value]. *)
Definition template_key (key value : str) (p : TemplateParams) (is_value : bool)
    : res (option (TemplateParams * bool)) :=
  if decide (key = lit "is_value") then Ok (Some (p, true))
  else if decide (key = lit "tag") then
    let* p := multi_limit value (set_multi true p) in Ok (Some (p, is_value))
  else if decide (key = lit "multi") then
    let* p := multi_limit value (set_end true (set_multi true p)) in Ok (Some (p, is_value))
  else if decide (key = lit "default") then Ok (Some (set_default value p, is_value))
  else if decide (key = lit "type") then
    let* coll := str_proc value (lit ",") in
    let p := set_type (type_of (sp_get coll 0) (_type p)) p in
    let e2 := sp_get coll 1 in
    Ok (Some (if decide (e2 <> []) then set_type2 (type_of e2 (_type2 p)) p else p, is_value))
  else if decide (key = lit "comp_help") then
    let* value := mass_replace value [nl] (backslash :: lit "n") in
    Ok (Some (set_comp_help value p, is_value))
  else if decide (key = lit "val_help") then
    let* value := mass_replace value [tab] (backslash :: lit "t") in
    Ok (Some (set_val_help (foldl (fun s x => sset_insert x s) (_val_help p) (split_lines value)) p,
              is_value))
  else if decide (key = lit "help") then
    let p := if contains value (lit "[REQUIRED]") then set_mandatory true p else p in
    let* value := help_text value in
    Ok (Some (set_help value p, is_value))
  else if decide (key = lit "syntax") then
    let* p := syntax_enum value p in Ok (Some (p, is_value))
  else if decide (key = lit "enumeration") then Ok (Some (set_enumeration_cmd value p, is_value))
  else if decide (key = lit "allowed") then Ok (Some (set_allowed_cmd value p, is_value))
  else if decide (key = lit "secret") then Ok (Some (set_secret true p, is_value))
  else if decide (key = lit "run") then Ok (Some (set_action true p, is_value))
  else Ok None.

(** The loop over the template's entries; a node without children ends. *)
Fixpoint template_loop (leaf : bool) (entries : list str) (p : TemplateParams) (is_value : bool)
    : res (TemplateParams * bool) :=
  match entries with
  | [] => Ok (p, is_value)
  | entry :: entries' =>
      match split_entry entry with
      | None => template_loop leaf entries' p is_value
      | Some (key, value) =>
          let* r := template_key key value p is_value in
          match r with
          | None => template_loop leaf entries' p is_value
          | Some (p, is_value) =>
              template_loop leaf entries' (if leaf then set_end true p else p) is_value
          end
      end
  end.

(** The values the daemon allows, each with its wildcard made readable. *)
Fixpoint allowed_loop (l : list str) (en : sset) : res sset :=
  match l with
  | [] => Ok en
  | s :: l' =>
      let* tmp := mass_replace s [backslash; ascii_of_nat 60; backslash; ascii_of_nat 62] (lit "*") in
      allowed_loop l' (sset_insert tmp en)
  end.

(** [get_template_node]: [None] when there is no such template. *)
Definition get_template_node (v : configd_view) (path : str) (p : TemplateParams)
    : res (option TemplateParams) :=
  if tmpl_validate_path v path then
    match tmpl_get v path with
    | None => Ok (Some p)
    | Some m =>
        let* '(p, is_value) := template_loop (bool_decide (tmpl_get_children v path = [])) m p false in
        let p := set_node_type (node_get_type v path) p in
        let* p :=
          (if decide (_node_type p <> NODE_TYPE_CONTAINER) then
             let* en := allowed_loop (tmpl_get_allowed v path) (_enum p) in Ok (set_enum en p)
           else Ok p) in
        let p :=
          if is_value && _multi p && negb (_end p) then
            set_multi false (set_help [] (set_val_help [] (set_enum [] (set_type NONE p))))
          else p in
        if decide (m = []) then Ok (Some p)
        else if decide (_type p <> NONE /\ _multi p = false) then Ok (Some (set_end true p))
        else Ok (Some p)
    end
  else Ok None.

(** ** Operational nodes *)

(** The loop of [get_op_template_node]; the path grows by a slash at each
    [allowed] entry. *)
Fixpoint op_template_loop (o : opd_view) (entries : list str) (cpath : str) (p : TemplateParams)
    : res TemplateParams :=
  match entries with
  | [] => Ok p
  | entry :: entries' =>
      match split_entry entry with
      | None => op_template_loop o entries' cpath p
      | Some (key, value) =>
          if decide (key = lit "help") then
            let p := if contains value (lit "[REQUIRED]") then set_mandatory true p else p in
            let* value := help_text value in
            op_template_loop o entries' cpath (set_help value p)
          else if decide (key = lit "allowed") then
            let cpath := cpath ++ lit "/" in
            let p := set_allowed_cmd value p in
            op_template_loop o entries' cpath
              (set_enum (foldl (fun s x => sset_insert x s) (_enum p) (opd_allowed o cpath)) p)
          else if decide (key = lit "run") then
            op_template_loop o entries' cpath (set_action (bool_decide (value <> [])) p)
          else op_template_loop o entries' cpath p
      end
  end.

Definition get_op_template_node (o : opd_view) (path : str) (p : TemplateParams) : res TemplateParams :=
  match opd_tmpl o path with
  | Some m => op_template_loop o m path p
  | None => Ok p
  end.

(** The name an operational child is listed under. *)
Definition op_child (child : str) : NodeParams :=
  mkNode (if decide (child = lit "node.tag") then lit "*" else child) k_ACTIVE [] k_ENABLE.

(** [get_operational_node], which always succeeds. *)
Definition get_operational_node (o : opd_view) (node_path : str) (p : TemplateParams)
    : res TemplateParams :=
  let cpath := if decide (char_at node_path 0 = slash) then drop 1 node_path else node_path in
  let* p := get_op_template_node o cpath p in
  match opd_children o cpath with
  | [] => Ok (set_end true p)
  | children => Ok (set_children_coll (_children_coll p ++ (op_child <$> children)) p)
  end.

(** ** Values and states *)

(** [get_node_params] *)
Definition get_node_params (v : configd_view) (cpath : str) (np : NodeParams) : NodeParams :=
  let name := match rfind cpath [slash] with
              | Some pos => drop (pos + 1) cpath
              | None => cpath
              end in
  let '(state, changed) :=
    match node_get_status v CANDIDATE cpath with
    | NODE_STATUS_DELETED => (k_DELETE, lit "true")
    | NODE_STATUS_CHANGED => (k_ACTIVE, lit "true")
    | NODE_STATUS_ADDED => (k_SET, lit "true")
    | NODE_STATUS_UNCHANGED => (if node_exists v RUNNING cpath then k_ACTIVE else k_NONE, lit "false")
    | NODE_STATUS_ERROR => (k_NONE, lit "false")
    end in
  mkNode name state changed (_disabled_state np).

Section Values.
(** [curl_easy_escape]; [None] when it fails. *)
Variable escape : str -> option str.

(** [url_escape] *)
Definition url_escape (s : str) : str := default [] (cstr <$> escape s).

Definition child_path (cpath child : str) : str :=
  (if decide (cpath <> []) then cpath ++ lit "/" else []) ++ child.

(** The two loops over the values of a leaf or tag node: the first over the
    running values, the second over the candidate's that are new. *)
Definition value_step (v : configd_view) (cpath : str) (fresh_only : bool)
    (acc : NodeParams * list str * cmap str CONF_STATE) (child : str)
    : NodeParams * list str * cmap str CONF_STATE :=
  let '(np, value_coll, state_coll) := acc in
  if fresh_only && bool_decide (is_Some (mget child state_coll)) then acc
  else
    let np := get_node_params v (child_path cpath (url_escape child)) np in
    (np, value_coll ++ [child], minsert child (_state np) state_coll).

(** The state of a child of a container. *)
Definition container_state (v : configd_view) (child_cpath : str) : CONF_STATE :=
  let state := if node_exists v CANDIDATE child_cpath then k_SET else k_NONE in
  if node_exists v RUNNING child_cpath then
    if decide (state <> k_SET) then k_DELETE else k_ACTIVE
  else state.

Definition container_step (v : configd_view) (cpath : str)
    (acc : list str * cmap str CONF_STATE) (child : str) : list str * cmap str CONF_STATE :=
  let '(value_coll, state_coll) := acc in
  (value_coll ++ [child], minsert child (container_state v (child_path cpath child)) state_coll).

(** The last loop: the children in the order of [value_coll]; [np] keeps
    what an earlier [get_node_params] left in it. *)
Fixpoint children_loop (value_coll : list str) (state_coll : cmap str CONF_STATE) (np : NodeParams)
    (children : list NodeParams) : list NodeParams :=
  match value_coll with
  | [] => children
  | i :: value_coll' =>
      match mget i state_coll with
      | Some st =>
          let np := mkNode i st (_is_changed np) (_disabled_state np) in
          children_loop value_coll' state_coll np (children ++ [np])
      | None => children_loop value_coll' state_coll np children
      end
  end.

(** [parse_value_and_state] *)
Definition parse_value_and_state (v : configd_view) (cpath : str) (p : TemplateParams) : TemplateParams :=
  let p := set_data (get_node_params v cpath (_data p)) p in
  let np := new_NodeParams in
  let '(np, value_coll, state_coll) :=
    match _node_type p with
    | NODE_TYPE_LEAF | NODE_TYPE_MULTI | NODE_TYPE_TAG =>
        let acc := foldl (value_step v cpath false) (np, [], []) (node_get v RUNNING cpath) in
        foldl (value_step v cpath true) acc (node_get v CANDIDATE cpath)
    | NODE_TYPE_CONTAINER =>
        let '(vc, sc) := foldl (container_step v cpath) ([], []) (tmpl_get_children v cpath) in
        (np, vc, sc)
    | NODE_TYPE_ERROR => (np, [], [])
    end in
  set_children_coll (children_loop value_coll state_coll np (_children_coll p)) p.

Definition set_disabled (d : DISABLE_STATE) (np : NodeParams) : NodeParams :=
  mkNode (_name np) (_state np) (_is_changed np) d.

(** [get_configured_node]: [configd] is the daemon's view of each session. *)
Definition get_configured_node (configd : str -> configd_view) (data_path conf_id : str)
    (p : TemplateParams) : res (option TemplateParams) :=
  let v := configd (conv_conf_id conf_id) in
  let* r := get_template_node v data_path p in
  match r with
  | None => Ok None
  | Some p =>
      let p := parse_value_and_state v data_path p in
      let p := set_data (set_disabled k_ENABLE (_data p)) p in
      Ok (Some (set_children_coll (set_disabled k_ENABLE <$> _children_coll p) p))
  end.
End Values.

(** ** What the escapes of the template take out

    Whether the rest of the texts is fit for a JSON string depends on the
    template; see the file [NodeJson]. *)

(** The help text of a node holds no double quote and no newline, and the
    lines of its value help no newline and no tab. *)
Definition texts_safe (p : TemplateParams) : Prop :=
  ((dquote ∉ _help p) /\ nl ∉ _help p) /\
  Forall (fun x => (nl ∉ x) /\ tab ∉ x) (sset_elements (_val_help p)).

Lemma texts_safe_new nt : texts_safe (new_TemplateParams nt).
Proof. repeat split; [apply not_elem_of_nil.. | constructor]. Qed.

(** Substituting away a character leaves it out, and brings in no other. *)
Lemma subst_char_notin c x r s :
  x ∉ r -> (x = c \/ x ∉ s) -> x ∉ s ≫= subst_char c r.
Proof.
  intros Hr Hx (y & Hy & Hin)%list_elem_of_bind. unfold subst_char in Hy. case_decide as E.
  - done.
  - apply list_elem_of_singleton in Hy as ->. destruct Hx as [->|Hx]; done.
Qed.

Lemma help_text_safe value :
  exists h, help_text value = Ok h /\ (dquote ∉ h) /\ nl ∉ h.
Proof.
  unfold help_text. rewrite mass_replace_char. cbn [res_bind]. rewrite mass_replace_char.
  eexists. split; [done|]. split; (apply subst_char_notin; [by_compute|]); [by left | right].
  apply subst_char_notin; [apply not_elem_of_nil | by left].
Qed.

Lemma multi_limit_ok value p : exists n, multi_limit value p = Ok (set_multi_limit n p).
Proof.
  unfold multi_limit. rewrite str_proc_ok by by_compute. cbn [res_bind]. case_decide; [by eexists|].
  exists (_multi_limit p). by destruct p.
Qed.

Lemma syntax_enum_ok value p : exists en, syntax_enum value p = Ok (set_enum en p).
Proof.
  unfold syntax_enum. rewrite str_proc_ok by by_compute. cbn [res_bind]. case_decide.
  - rewrite str_proc_ok by by_compute. by eexists.
  - exists (_enum p). by destruct p.
Qed.

Lemma sset_insert_elements x y s : y ∈ sset_elements (sset_insert x s) -> y = x \/ y ∈ sset_elements s.
Proof.
  unfold sset_insert, minsert, sset_elements. destruct (mget x s); [by right | apply mset_keys].
Qed.

Lemma split_lines_safe value : 
  tab ∉ value -> Forall (fun x => (nl ∉ x) /\ tab ∉ x) (split_lines value).
Proof.
  intros Ht. assert (Forall (fun x => (nl ∉ x) /\ tab ∉ x) (split_on nl value)) as Hs.
  { pose proof (split_on_pieces nl value) as Hp. rewrite Forall_forall in Hp |- *.
    intros x Hx. split; [by apply Hp|]. intros Hin. apply Ht. by eapply elem_of_split_on. }
  unfold split_lines. destruct (last _) as [[|]|]; [by apply Forall_take | done..].
Qed.

Lemma template_key_safe key value p iv :
  texts_safe p ->
  exists r, template_key key value p iv = Ok r /\ (forall p' iv', r = Some (p', iv') -> texts_safe p').
Proof.
  intros Hp. unfold template_key.
  repeat (case_decide; [| ]); try (eexists; split; [done|]; by intros ?? [= <- <-]).
  - destruct (multi_limit_ok value (set_multi true p)) as [n ->]. eexists; split; [done|].
    by intros ?? [= <- <-].
  - destruct (multi_limit_ok value (set_end true (set_multi true p))) as [n ->]. eexists; split; [done|].
    by intros ?? [= <- <-].
  - rewrite str_proc_ok by by_compute. cbn [res_bind]. eexists; split; [done|].
    intros ?? [= <- <-]. case_decide; exact Hp.
  - rewrite mass_replace_char. cbn [res_bind]. eexists; split; [done|]. by intros ?? [= <- <-].
  - rewrite mass_replace_char. cbn [res_bind]. eexists; split; [done|]. intros ?? [= <- <-].
    destruct Hp as [Hh Hv]. split; [exact Hh|].
    cbn [_val_help set_val_help]. revert Hv.
    assert (Forall (fun x => (nl ∉ x) /\ tab ∉ x)
              (split_lines (value ≫= subst_char tab (backslash :: lit "t")))) as Hl
      by (apply split_lines_safe, subst_char_notin; [by_compute | by left]).
    generalize (_val_help p) as s. induction Hl as [|x l Hx Hl IH]; intros s Hs; [done|].
    cbn [foldl]. apply IH. rewrite Forall_forall in Hs |- *.
    intros y [->|Hy]%sset_insert_elements; [done | by apply Hs].
  - destruct (help_text_safe value) as (h & -> & Hq & Hn). cbn [res_bind].
    eexists; split; [done|]. intros ?? [= <- <-]. destruct Hp as [_ Hv].
    destruct (contains value (lit "[REQUIRED]")); by split.
  - destruct (syntax_enum_ok value p) as [en ->]. cbn [res_bind]. eexists; split; [done|].
    by intros ?? [= <- <-].
Qed.

Lemma template_loop_safe leaf entries p iv :
  texts_safe p -> exists p' iv', template_loop leaf entries p iv = Ok (p', iv') /\ texts_safe p'.
Proof.
  revert p iv; induction entries as [|e entries IH]; intros p iv Hp; [by eexists _, _|].
  cbn [template_loop]. destruct (split_entry e) as [[key value]|]; [|by apply IH].
  destruct (template_key_safe key value p iv Hp) as (r & -> & Hr). cbn [res_bind].
  destruct r as [[p' iv']|]; [|by apply IH]. specialize (Hr _ _ eq_refl).
  apply IH. by destruct leaf.
Qed.

Lemma allowed_loop_ok l en : exists en', allowed_loop l en = Ok en'.
Proof.
  revert en; induction l as [|s l IH]; intros en; [by eexists|]. cbn [allowed_loop].
  rewrite mass_replace_ok by done. apply IH.
Qed.

Lemma get_template_node_total (v : configd_view) (path : str) (nt : node_type) :
  exists r, get_template_node v path (new_TemplateParams nt) = Ok r /\
    (r = None <-> tmpl_validate_path v path = false) /\
    (forall p, r = Some p -> texts_safe p).
Proof.
  unfold get_template_node. destruct (tmpl_validate_path v path); [|by eexists].
  destruct (tmpl_get v path) as [m|].
  2: { eexists. split; [done|]. split; [done|]. intros ? [= <-]. apply texts_safe_new. }
  destruct (template_loop_safe (bool_decide (tmpl_get_children v path = [])) m (new_TemplateParams nt)
              false (texts_safe_new nt)) as (p & iv & -> & Hp). cbn [res_bind].
  set (p1 := set_node_type (node_get_type v path) p).
  assert (exists p2, (if decide (_node_type p1 <> NODE_TYPE_CONTAINER)
            then let* en := allowed_loop (tmpl_get_allowed v path) (_enum p1) in Ok (set_enum en p1)
            else Ok p1) = Ok p2 /\ texts_safe p2) as (p2 & -> & Hp2).
  { case_decide; [|by eexists]. destruct (allowed_loop_ok (tmpl_get_allowed v path) (_enum p1)) as [en ->].
    by eexists. }
  cbn [res_bind].
  set (p3 := if iv && _multi p2 && negb (_end p2) then _ else p2).
  assert (texts_safe p3) as Hp3.
  { unfold p3. destruct (iv && _multi p2 && negb (_end p2)); [|done].
    repeat split; [apply not_elem_of_nil.. | constructor]. }
  repeat case_decide; eexists; (split; [done|]); (split; [done|]); by intros ? [= <-].
Qed.

(** ** The children of a node *)

(** The state of the node at a path. *)
Definition node_state (v : configd_view) (cpath : str) : CONF_STATE :=
  _state (get_node_params v cpath new_NodeParams).

(** The first occurrences in [l] of what is not in [seen]. *)
Fixpoint new_values (seen l : list str) : list str :=
  match l with
  | [] => []
  | x :: l' => if decide (x ∈ seen) then new_values seen l' else x :: new_values (x :: seen) l'
  end.

Section ValuesFacts.
Context (escape : str -> option str) (v : configd_view) (cpath : str).

Definition value_state (child : str) : CONF_STATE :=
  node_state v (child_path cpath (url_escape escape child)).

(** Every value collected has its state. *)
Definition states_of (f : str -> CONF_STATE) (vc : list str) (sc : cmap str CONF_STATE) : Prop :=
  forall c, mget c sc = if decide (c ∈ vc) then Some (f c) else None.

Lemma states_of_nil f : states_of f [] [].
Proof. intros c. by rewrite decide_False by apply not_elem_of_nil. Qed.

Lemma states_of_insert f vc sc c :
  states_of f vc sc -> states_of f (vc ++ [c]) (minsert c (f c) sc).
Proof.
  intros H d. unfold minsert. rewrite (H c). destruct (decide (c ∈ vc)) as [Hc|Hc].
  - rewrite H. apply decide_ext. set_solver.
  - destruct (decide (d = c)) as [->|Hd].
    + rewrite mget_mset_eq, decide_True; [done|]. set_solver.
    + rewrite mget_mset_ne by done. rewrite H. apply decide_ext. set_solver.
Qed.

Lemma node_params_state np p : _state (get_node_params v p np) = node_state v p.
Proof. unfold node_state, get_node_params. by destruct (node_get_status v CANDIDATE p). Qed.

Lemma running_loop l np vc sc :
  states_of value_state vc sc ->
  exists np' sc', foldl (value_step escape v cpath false) (np, vc, sc) l = (np', vc ++ l, sc') /\
                  states_of value_state (vc ++ l) sc'.
Proof.
  revert np vc sc; induction l as [|c l IH]; intros np vc sc H.
  - eexists _, _. rewrite app_nil_r. by split.
  - cbn [foldl value_step andb]. rewrite node_params_state.
    destruct (IH (get_node_params v (child_path cpath (url_escape escape c)) np) (vc ++ [c])
                (minsert c (value_state c) sc)) as (np' & sc' & Hf & Hs); [by apply states_of_insert|].
    eexists _, _. rewrite <- app_assoc in Hf, Hs. by split.
Qed.

Lemma candidate_loop l np vc sc :
  states_of value_state vc sc ->
  exists np' sc', foldl (value_step escape v cpath true) (np, vc, sc) l = (np', vc ++ new_values vc l, sc') /\
                  states_of value_state (vc ++ new_values vc l) sc'.
Proof.
  revert np vc sc; induction l as [|c l IH]; intros np vc sc H.
  - eexists _, _. rewrite app_nil_r. by split.
  - cbn [foldl value_step andb new_values]. rewrite (H c). case_decide as Hc.
    + rewrite bool_decide_eq_true_2 by done. by apply IH.
    + rewrite bool_decide_eq_false_2 by (by intros [? [=]]). rewrite node_params_state.
      destruct (IH (get_node_params v (child_path cpath (url_escape escape c)) np) (vc ++ [c])
                  (minsert c (value_state c) sc)) as (np' & sc' & Hf & Hs); [by apply states_of_insert|].
      assert (forall s1 s2 l, (forall x, x ∈ s1 <-> x ∈ s2) -> new_values s1 l = new_values s2 l) as Hext.
      { clear. intros s1 s2 l. revert s1 s2; induction l as [|x l IH]; intros s1 s2 H; [done|].
        cbn. destruct (decide (x ∈ s1)) as [H1|H1], (decide (x ∈ s2)) as [H2|H2].
        - by apply IH.
        - by apply H in H1.
        - by apply H in H2.
        - f_equal. apply IH. intros y. rewrite !elem_of_cons, H. done. }
      rewrite (Hext (vc ++ [c]) (c :: vc)) in Hf, Hs by set_solver.
      eexists _, _. rewrite <- app_assoc in Hf, Hs. by split.
Qed.

Lemma container_loop l vc sc :
  let f c := container_state v (child_path cpath c) in
  states_of f vc sc ->
  exists sc', foldl (container_step v cpath) (vc, sc) l = (vc ++ l, sc') /\ states_of f (vc ++ l) sc'.
Proof.
  intros f. revert vc sc; induction l as [|c l IH]; intros vc sc H.
  - eexists. rewrite app_nil_r. by split.
  - cbn [foldl container_step].
    destruct (IH (vc ++ [c]) (minsert c (f c) sc)) as (sc' & Hf & Hs); [by apply states_of_insert|].
    eexists. rewrite <- app_assoc in Hf, Hs. by split.
Qed.

Lemma children_loop_spec f vc' vc sc np ch :
  states_of f vc sc -> (forall c, c ∈ vc' -> c ∈ vc) ->
  (fun n => (_name n, _state n)) <$> children_loop vc' sc np ch =
  ((fun n => (_name n, _state n)) <$> ch) ++ ((fun c => (c, f c)) <$> vc').
Proof.
  intros Hs. revert np ch; induction vc' as [|c vc' IH]; intros np ch Hin; [by rewrite app_nil_r|].
  cbn [children_loop]. rewrite (Hs c), decide_True by (apply Hin, elem_of_cons; by left).
  rewrite IH by (intros d Hd; apply Hin, elem_of_cons; by right).
  rewrite fmap_app, <- app_assoc. done.
Qed.

(** Claim C23: the children a request for a node shows are exactly, for a
    leaf or tag node, the running values as the daemon lists them, followed
    by the candidate values that are not among them, each of those once, and
    every value with the state of its own escaped path; for a container, the
    children of its template, with a state read off whether the candidate
    and the running configuration hold them. *)
Theorem parse_value_and_state_children (p : TemplateParams) :
  (fun n => (_name n, _state n)) <$> _children_coll (parse_value_and_state escape v cpath p) =
  ((fun n => (_name n, _state n)) <$> _children_coll p) ++
  match _node_type p with
  | NODE_TYPE_LEAF | NODE_TYPE_MULTI | NODE_TYPE_TAG =>
      (fun c => (c, value_state c)) <$>
        node_get v RUNNING cpath ++ new_values (node_get v RUNNING cpath) (node_get v CANDIDATE cpath)
  | NODE_TYPE_CONTAINER =>
      (fun c => (c, match node_exists v CANDIDATE (child_path cpath c),
                          node_exists v RUNNING (child_path cpath c) with
                    | true, true => k_ACTIVE
                    | true, false => k_SET
                    | false, true => k_DELETE
                    | false, false => k_NONE
                    end)) <$> tmpl_get_children v cpath
  | NODE_TYPE_ERROR => []
  end.
Proof.
  unfold parse_value_and_state. change (_node_type (set_data _ p)) with (_node_type p).
  destruct (_node_type p).
  1-3: destruct (running_loop (node_get v RUNNING cpath) new_NodeParams [] [] (states_of_nil _))
         as (np & sc & -> & Hs);
       destruct (candidate_loop (node_get v CANDIDATE cpath) np _ sc Hs) as (np' & sc' & -> & Hs');
       apply (children_loop_spec value_state _ _ sc' _ _ Hs'); done.
  - destruct (container_loop (tmpl_get_children v cpath) [] [] (states_of_nil _)) as (sc & -> & Hs).
    etrans; [apply (children_loop_spec _ _ _ _ _ _ Hs); done|]. f_equal.
    apply list_fmap_ext. intros _ c _. f_equal. unfold container_state.
    destruct (node_exists v CANDIDATE _), (node_exists v RUNNING _); done.
  - cbn. by rewrite app_nil_r.
Qed.
End ValuesFacts.
