(* ===== verification/ConfMode.v ===== *)
(** * [ConfMode] (confmode.hh, confmode.cc)

    The configuration sessions behind [/rest/conf]: listing and reading,
    setting and deleting, creating a session and the commands on it.  The
    configuration daemon, the shell and the directory are parameters; what a
    request does to them is a list of events. *)

From S2P Require Import Prelude CppString StrProc Common CppMap Http Configuration.

(** What a request does outside the server, by the session id of the
    configuration daemon. *)
Inductive conf_event :=
| SessSetup (sid : str)
| SessDiscard (sid : str)
| SessTeardown (sid : str)
| SessCommit (sid : str)
| SessSave (sid : str)
| Shell (sid cmd : str).

#[export] Instance conf_event_eq_dec : EqDecision conf_event.
Proof. solve_decision. Defined.

(** The environment of a request. *)
Record conf_env := mkConfEnv {
  ce_debug : bool;
  ce_configd : str -> configd_view;           (* by session *)
  ce_open : bool;                             (* configd_open_connection *)
  ce_changed : str -> bool;                   (* configd_sess_changed *)
  ce_commit : str -> option str * option str; (* the text, and err.text *)
  ce_save : str -> option str * option str;
  ce_listing : option (list str);             (* opendir, readdir *)
  ce_stat : str -> option (N * N);            (* st_mtime, st_ctime *)
  ce_popen : str -> option (str * wait_status);
  ce_urandom : list (option str);
  ce_create : bool * bool;                    (* fopen and fputs of a new file *)
  ce_escape : str -> option str;              (* curl_easy_escape *)
  ce_unescape : str -> option str;            (* curl_easy_unescape *)
  ce_node_type0 : node_type;                  (* an uninitialised member *)
}.

(** A handler's result: the session, the files and the events. *)
Abbreviation outcome := (Session * files * list conf_event)%type.

Definition shell_env : str :=
  lit "export VYATTA_TEMPLATE_LEVEL=/;" ++ lit "export VYATTA_MOD_NAME=.modified;" ++
  lit "export vyatta_datadir=/opt/vyatta/share;" ++ lit "export vyatta_sysconfdir=/opt/vyatta/etc;" ++
  lit "export vyatta_sharedstatedir=/opt/vyatta/com;" ++ lit "export VYATTA_TAG_NAME=node.tag;" ++
  lit "export vyatta_sbindir=/opt/vyatta/sbin;" ++ lit "export VYATTA_CFG_GROUP_NAME=vyattacfg;" ++
  lit "export vyatta_bindir=/opt/vyatta/bin;" ++ lit "export vyatta_libdir=/opt/vyatta/lib;" ++
  lit "export VYATTA_EDIT_LEVEL=/;" ++ lit "export vyatta_libexecdir=/opt/vyatta/libexec;" ++
  lit "export vyatta_localstatedir=/opt/vyatta/var;" ++ lit "export vyatta_prefix=/opt/vyatta;" ++
  lit "export vyatta_datarootdir=/opt/vyatta/share;" ++ lit "export vyatta_configdir=/opt/vyatta/config;" ++
  lit "export UNIONFS=unionfs;" ++ lit "export vyatta_infodir=/opt/vyatta/share/info;" ++
  lit "export PATH=/usr/local/sbin:/usr/local/bin:/usr/sbin:/usr/bin:/sbin:/bin;" ++
  lit "export COMMIT_VIA=gui2_rest;" ++ lit "export VYATTA_OUTPUT_ERROR_LOCATION=TRUE;" ++
  lit "export vyatta_localedir=/opt/vyatta/share/locale;".

(** The start of every shell command: the environment of a session. *)
Definition command_prefix (convconfid : str) : str :=
  shell_env ++ lit "export VYATTA_ACTIVE_CONFIGURATION_DIR=/active;" ++
  lit "export VYATTA_CONFIG_TMP=/session/" ++ convconfid ++ CONFIG_TMP_DIR ++ lit ";" ++
  lit "export VYATTA_CHANGES_ONLY_DIR=/session/" ++ convconfid ++ LOCAL_CHANGES_ONLY ++ lit ";" ++
  lit "export vyatta_cfg_templates=" ++ CONF_COMMAND_DIR ++ lit ";" ++
  lit "export VYATTA_CONFIG_TEMPLATE=" ++ CONF_COMMAND_DIR ++ lit ";" ++
  lit "export VYATTA_TEMP_CONFIG_DIR=/session/" ++ convconfid ++ LOCAL_CONFIG_DIR ++ lit ";" ++
  lit "export VYATTA_CONFIG_SID=" ++ convconfid.

Definition esc (c : ascii) : str := [backslash; c].

Section Handlers.
Variable e : conf_env.

(** ** Which session a request means *)

(** [id], [user] and [tag], or the end of the request. *)
Definition resolve (method user : str) (fs : files) (conf_path_with_id : str) : option (str * str * str) :=
  let rest := drop 1 conf_path_with_id in
  let id := match find rest [slash] 0 with
            | Some pos => take pos rest
            | None => rest
            end in
  let '(found, user, tag) := read_conf_modify_file fs id user [] in
  if found : bool then Some (id, user, tag)
  else
    let tag := id in
    if decide (method <> lit "POST") then
      match read_conf_modify_file_from_tag fs (ce_listing e) tag user with
      | None => None
      | Some id => Some (id, user, tag)
      end
    else Some (id, user, tag).

(** [conf_path_with_id.substr(pos+2)] for the [pos] of the first slash in
    [conf_path_with_id.substr(1)]: without one [pos + 2] wraps to 1. *)
Definition below_id (conf_path_with_id : str) : res str :=
  let* rest := substr_from conf_path_with_id 1 in
  match find rest [slash] 0 with
  | Some pos => substr_from conf_path_with_id (pos + 2)
  | None => substr_from conf_path_with_id 1
  end.

(** [discard_session] *)
Definition discard_session (id : str) (exit_session : bool) (fs : files) : files * list conf_event :=
  if decide (id = []) then (fs, [])
  else
    let sid := conv_conf_id id in
    if ce_open e then
      (if exit_session then delete (VYATTA_MODIFY_FILE ++ id) fs else fs,
       SessDiscard sid :: if exit_session then [SessTeardown sid] else [])
    else (fs, []).

(** [is_configd_sess_changed] *)
Definition is_configd_sess_changed (sid : str) : bool := ce_open e && ce_changed e sid.

(** [setup_session], as the event of the daemon. *)
Definition setup_session (sid : str) : list conf_event := if ce_open e then [SessSetup sid] else [].

(** ** GET of the list *)

Definition list_entry (fs : files) (user : str) (json_root : JSON) (conf_file : str) : JSON :=
  if decide (length conf_file < 22) then json_root
  else
    let id := drop 14 conf_file in
    if strneq 14 conf_file (lit ".vyattamodify_") then
      let '(ok, conf_user, description) := read_conf_modify_file fs id [] [] in
      if negb ok then json_root
      else if decide (conf_user <> user) then json_root
      else
        let '(started, updated) :=
          match ce_stat e (CONFIG_TMP_DIR ++ conf_file) with
          | Some (mtime, ctime) => (dec_signed mtime, dec_signed ctime)
          | None => (lit "0", lit "0")
          end in
        let mods := if is_configd_sess_changed (conv_conf_id id) then lit "true" else lit "false" in
        let ttmp :=
          lit "{" ++ dq (lit "id") ++ lit ":" ++ dq id ++ lit "," ++
          dq (lit "username") ++ lit ":" ++ dq user ++ lit "," ++
          dq (lit "description") ++ lit ":" ++ dq description ++ lit "," ++
          dq (lit "started") ++ lit ":" ++ dq started ++ lit "," ++
          dq (lit "modified") ++ lit ":" ++ dq mods ++ lit "," ++
          dq (lit "updated") ++ lit ":" ++ dq updated ++ lit "}" in
        (add_array json_root (lit "session") ttmp true).1
    else json_root.

Definition get_list (s : Session) (fs : files) : Session :=
  match ce_listing e with
  | None => Error SERVER_ERROR s
  | Some names =>
      let json_root := add_value new_JSON (lit "message") (lit " ") in
      set_json (foldl (list_entry fs (_user s)) json_root names) s
  end.

(** ** GET of a node *)

(** One line of the value help. *)
Definition val_help_entry (json : JSON) (l : str) : res JSON :=
  match find l [semi] 0 with
  | None => Ok json
  | Some pos1 =>
      let* help := substr l (pos1 + 2) (length l - 3) in
      let* help := mass_replace help [dquote] (esc dquote) in
      let* help := mass_replace help [nl] [] in
      let desc := sub l 0 pos1 in
      let '(type, val) :=
        match find desc [colon] 0 with
        | Some pos2 => (sub desc 0 pos2, sub desc (pos2 + 1) (length desc - 2))
        | None => (desc, lit " ")
        end in
      let tmp := lit "{" ++ dq (lit "type") ++ lit ":" ++ dq type ++ lit "," ++
                 dq (lit "vals") ++ lit ":" ++ dq val ++ lit "," ++
                 dq (lit "help") ++ lit ":" ++ dq help ++ lit "}" in
      Ok (add_array json (lit "val_help") tmp true).1
  end.

Fixpoint val_help_loop (l : list str) (json : JSON) : res JSON :=
  match l with
  | [] => Ok json
  | x :: l' => let* json := val_help_entry json x in val_help_loop l' json
  end.

Definition state_name (st : CONF_STATE) : str :=
  match st with
  | k_SET => lit "set"
  | k_DELETE => lit "delete"
  | k_ACTIVE => lit "active"
  | k_NONE => lit "none"
  end.

Definition disable_name (d : DISABLE_STATE) : str :=
  match d with
  | k_DISABLE => lit "disable"
  | k_DISABLE_LOCAL => lit "disable-local"
  | k_ENABLE_LOCAL => lit "enable-local"
  | k_ENABLE => lit "enable"
  end.

Definition child_entry (n : NodeParams) : str :=
  lit "{" ++ dq (lit "name") ++ lit ":" ++ dq (_name n) ++ lit "," ++
  dq (lit "state") ++ lit ":" ++ dq (state_name (_state n)) ++ lit "," ++
  dq (lit "deactivate_state") ++ lit ":" ++ dq (disable_name (_disabled_state n)) ++ lit "}".

(** A value that holds a double quote is taken to be quoted already. *)
Definition enum_entry (json : JSON) (x : str) : JSON :=
  if decide (x = []) then json
  else (add_array json (lit "enum") x (contains x [dquote])).1.

(** A flag that is written only when set. *)
Definition add_flag (b : bool) (key : str) (json : JSON) : JSON :=
  if b then add_value json key (lit "true") else json.

(** The JSON of a node. *)
Definition node_json (params : TemplateParams) : res JSON :=
  let json := add_value new_JSON (lit "help") (_help params) in
  let json := (add_array json (lit "type") (g_type_str (_type params)) false).1 in
  let json := if decide (g_type_str (_type2 params) <> lit "none")
              then (add_array json (lit "type") (g_type_str (_type2 params)) false).1 else json in
  let json := if decide (_default params <> [nl])
              then add_value json (lit "default") (_default params) else json in
  let* tmp := mass_replace (_comp_help params) [dquote] (esc dquote) in
  let* encode := match ce_escape e tmp with Some x => Ok (cstr x) | None => Fault NullString end in
  let json := add_value json (lit "comp_help") encode in
  let* json := val_help_loop (sset_elements (_val_help params)) json in
  let json := add_value json (lit "allowed") (_allowed params) in
  let json := add_flag (_multi params) (lit "multi") json in
  let json := if decide (0 < _multi_limit params)%N
              then add_value json (lit "multi_limit") (dec_signed (_multi_limit params)) else json in
  let json := add_flag (_end params) (lit "end") json in
  let json := add_flag (_action params) (lit "action") json in
  let json := add_flag (_mandatory params) (lit "mandatory") json in
  let json := add_flag (_secret params) (lit "secret") json in
  let json := add_value json (lit "name") (_name (_data params)) in
  let json := add_value json (lit "state") (state_name (_state (_data params))) in
  let json := add_value json (lit "is_changed") (_is_changed (_data params)) in
  let json := add_value json (lit "deactivate_state") (disable_name (_disabled_state (_data params))) in
  let json := foldl (fun j n => (add_array j (lit "children") (child_entry n) true).1) json
                (_children_coll params) in
  Ok (foldl enum_entry json (sset_elements (_enum params))).

Definition get_node (s : Session) (id user conf_path_with_id : str) : res Session :=
  if decide (user <> _user s) then Ok (Error VALIDATION_FAILURE s)
  else
    let* conf_path_url_encoded := below_id conf_path_with_id in
    let conf_path_url_encoded :=
      if decide (char_at conf_path_url_encoded 0 = space) then drop 1 conf_path_url_encoded
      else conf_path_url_encoded in
    let* r := get_configured_node (ce_escape e) (ce_configd e) conf_path_url_encoded id
                (new_TemplateParams (ce_node_type0 e)) in
    match r with
    | None => Ok (Error COMMAND_NOT_FOUND s)
    | Some params => let* json := node_json params in Ok (set_json json s)
    end.

(** ** PUT *)

Definition is_cmd (name cmd : str) : bool := strneq (length name) cmd name.

(** The three commands whose nodes are single quoted. *)
Definition quoted_cmd (cmd : str) : bool :=
  is_cmd (lit "set") cmd || is_cmd (lit "delete") cmd || is_cmd (lit "comment") cmd.

(** The command line of a PUT; [None] for a command that is not known. *)
Definition put_command (cmd : str) : str * option str :=
  let cmd := match find cmd [semi] 0 with
             | Some pos => if quoted_cmd cmd then cmd else sub cmd 0 pos
             | None => cmd
             end in
  (cmd,
   if quoted_cmd cmd then Some (lit "/usr/bin/cfgcli -print " ++ cmd)
   else if is_cmd (lit "activate") cmd || is_cmd (lit "deactivate") cmd
        then Some (lit "/opt/vyatta/sbin/vyatta-activate-config.pl " ++ cmd)
   else None).

(** [command += ";" + cmd + " 2>&1"] and its execution. *)
Definition run_shell (sid cmd sout : str) : N * str * conf_event :=
  let command := command_prefix sid ++ lit ";" ++ cmd ++ lit " 2>&1" in
  let '(err, sout) := execute (ce_popen e command) sout in
  (err, sout, Shell sid command).

(** The escapes of an error text. *)
Definition put_escape (sout : str) : res str :=
  let* sout := mass_replace sout [dquote] (esc dquote) in
  mass_replace sout [nl] (backslash :: lit "n").

Definition put (s : Session) (fs : files) (id user conf_path_with_id : str) : res outcome :=
  if decide (user <> _user s) then Ok (Error AUTHORIZATION_FAILURE s, fs, [])
  else if decide (conf_path_with_id = []) then Ok (Error VALIDATION_FAILURE s, fs, [])
  else
    let* rest := substr_from conf_path_with_id 1 in
    match find rest [slash] 0 with
    | None => Ok (Error VALIDATION_FAILURE s, fs, [])
    | Some pos =>
        if decide (length conf_path_with_id < 2) then Ok (Error VALIDATION_FAILURE s, fs, [])
        else
          let* conf_path := substr_from conf_path_with_id (pos + 2) in
          let* cmd := translate_rest_to_cli (ce_unescape e) conf_path in
          match put_command cmd with
          | (cmd, None) =>
              let s := if ce_debug e then set_json (add_value new_JSON (lit "cmd") cmd) s else s in
              Ok (Error COMMAND_NOT_FOUND s, fs, [])
          | (_, Some cmd) =>
              let '(err, sout, ev) := run_shell (conv_conf_id id) cmd [] in
              if decide (err <> 0%N) then
                let* sout := put_escape sout in
                Ok (Error_msg CONFIGURATION_ERROR sout s, fs, [ev])
              else Ok (s, fs, [ev])
          end
    end.

(** ** DELETE *)

Definition delete_session (s : Session) (fs : files) (id user : str) : outcome :=
  if decide (user <> _user s) then (Error VALIDATION_FAILURE s, fs, [])
  else
    let '(fs, ev) := discard_session id true fs in
    let s := set_json (add_value new_JSON (lit "message") (lit " ")) s in
    let s := if ce_debug e then resp_set HTTP_BODY (lit "delete configuration mode data") s else s in
    (s, fs, ev).

(** ** POST: a new session *)

Definition post_create (s : Session) (fs : files) (user conf_path_with_id : str) : res outcome :=
  let description := drop 1 conf_path_with_id in
  if decide (description <> [] /\
             is_Some (read_conf_modify_file_from_tag fs (ce_listing e) description user))
  then Ok (Error CONFMODE_DUP_DESC_ERROR s, fs, [])
  else
    let* '(id, _) := generate_token (ce_urandom e) in
    if decide (length id < 16) then Ok (Error VALIDATION_FAILURE s, fs, [])
    else
      let ev := setup_session (conv_conf_id id) in
      let '(ok, fs) := create_conf_modify_file (ce_create e).1 (ce_create e).2 fs id (_user s) description in
      if negb ok then Ok (Error SERVER_ERROR s, fs, ev)
      else
        let s := resp_set HTTP_RESP_LOCATION (lit "rest/conf/" ++ id) s in
        Ok (Error CREATED s, fs, ev).

(** ** POST: a command *)

(** A commit or a save by the daemon. *)
Definition daemon_command (s : Session) (sid action : str) : res (Session * list conf_event) :=
  if negb (ce_open e) then Ok (s, [])
  else
    let is_commit := bool_decide (action = lit "commit") in
    let '(buf, text) := if is_commit then ce_commit e sid else ce_save e sid in
    let '(buf, s) := match buf with
                     | Some _ => (buf, s)
                     | None => (text, Error CONFIGURATION_ERROR s)
                     end in
    let* sout := match buf with Some b => Ok (cstr b) | None => Fault NullString end in
    let sout := if decide (sout = [] /\ action <> lit "commit")
                then lit "Saving configuration ... Done" else sout in
    let* sout := put_escape sout in
    let json := add_value new_JSON (lit "message") sout in
    let json := if ce_debug e then add_value json (lit "command") (command_prefix sid) else json in
    Ok (set_json json s, [if is_commit then SessCommit sid else SessSave sid]).

(** The escapes of a command's output. *)
Definition post_escape (sout : str) : res str :=
  let* sout := mass_replace sout [backslash] (esc backslash) in
  let* sout := mass_replace sout [dquote] (esc dquote) in
  let* sout := mass_replace sout [cr] (backslash :: lit "r") in
  let* sout := mass_replace sout [nl] (backslash :: lit "n") in
  mass_replace sout [tab] (backslash :: lit "t").

(** [conv_url] *)
Definition conv_url (tmp : str) : res str :=
  match ce_unescape e tmp with Some t => Ok (cstr t) | None => Fault NullString end.

(** The rest of an action behind a word and a separator, slashes as spaces. *)
Definition action_rest (action : str) (n : nat) : res str :=
  let* tmp2 := substr action n (length action - n) in
  mass_replace tmp2 [slash] [space].

(** The shell command of an action; [None] for an action that is not known. *)
Definition action_command (action : str) : res (option str) :=
  if decide (4 < length action /\ sub action 0 4 = lit "save") then
    let* tmp2 := action_rest action 5 in
    let* tmp := conv_url (lit "umask 0002 ; /opt/vyatta/sbin/vyatta-save-config.pl" ++ lit " '" ++ tmp2 ++
                          lit "'" ++ lit " --no-defaults") in
    Ok (Some tmp)
  else if decide (4 < length action /\ sub action 0 5 = lit "merge") then
    let tmp := lit "/opt/vyatta/sbin/vyatta-load-config.pl --merge" in
    if decide (5 < length action) then
      let* tmp2 := action_rest action 6 in
      let* tmp := conv_url (tmp ++ lit " '" ++ tmp2 ++ lit "'") in
      Ok (Some tmp)
    else Ok (Some tmp)
  else if decide (3 < length action /\ sub action 0 4 = lit "load") then
    let tmp := lit "/opt/vyatta/sbin/vyatta-load-config.pl" in
    if decide (4 < length action) then
      let* tmp2 := action_rest action 5 in
      let* tmp := conv_url (tmp ++ lit " '" ++ tmp2 ++ lit "'") in
      Ok (Some tmp)
    else Ok (Some tmp)
  else if decide (7 < length action /\ sub action 0 8 = lit "show-all") then
    if decide (length action = 8) then
      Ok (Some (lit "/bin/cli-shell-api showConfig --show-show-defaults"))
    else
      let* tmp2 := action_rest action 9 in
      Ok (Some (lit "/bin/cli-shell-api showConfig --show-show-defaults '" ++ tmp2 ++ lit "'"))
  else if decide (3 < length action /\ sub action 0 4 = lit "show") then
    if decide (length action = 4) then Ok (Some (lit "/bin/cli-shell-api showConfig"))
    else
      let* tmp2 := action_rest action 5 in
      Ok (Some (lit "/bin/cli-shell-api showConfig '" ++ tmp2 ++ lit "'"))
  else Ok None.

Definition post_command (s : Session) (fs : files) (id user tag conf_path_with_id : str) : res outcome :=
  match (if decide (tag = id) then read_conf_modify_file_from_tag fs (ce_listing e) tag user
         else Some id) with
  | None => Ok (Error VALIDATION_FAILURE s, fs, [])
  | Some id =>
      if decide (user <> _user s) then Ok (Error AUTHORIZATION_FAILURE s, fs, [])
      else
        let* action := below_id conf_path_with_id in
        let sid := conv_conf_id id in
        let s := vyatta_debug (lit "CONF:G") s in
        if decide (action = lit "commit" \/ action = lit "save") then
          let* '(s, ev) := daemon_command s sid action in Ok (s, fs, ev)
        else if decide (action = lit "discard") then
          let '(fs, ev) := discard_session id false fs in Ok (s, fs, ev)
        else
          let* tmp := action_command action in
          match tmp with
          | None => Ok (Error VALIDATION_FAILURE s, fs, [])
          | Some tmp =>
              let s := vyatta_debug (lit "CONF:H") s in
              let '(err, sout, ev) := run_shell sid tmp (lit " ") in
              let command := command_prefix sid ++ lit ";" ++ tmp ++ lit " 2>&1" in
              let s :=
                if decide (err <> 0%N) then
                  let s := if ce_debug e then set_json (add_value new_JSON (lit "cmd") command) s else s in
                  Error CONFIGURATION_ERROR s
                else s in
              let* sout := post_escape sout in
              let json := add_value new_JSON (lit "message") sout in
              let json := if ce_debug e then add_value json (lit "command") command else json in
              Ok (set_json json s, fs, [ev])
          end
  end.

(** ** [ConfMode::process] *)

Definition process (s : Session) (fs : files) : res outcome :=
  if decide (_auth_type s = AUTH_TYPE_NONE) then Ok (Error AUTHORIZATION_FAILURE s, fs, [])
  else
    let s := vyatta_debug (lit "CONF:A") s in
    let path := req_get s HTTP_REQ_URI in
    if decide (path = []) then
      Ok (Error VALIDATION_FAILURE (vyatta_debug (lit "conf:1") s), fs, [])
    else if decide (length path < length CONF_REQ_ROOT) then Ok (Error VALIDATION_FAILURE s, fs, [])
    else
      let method := req_get s HTTP_REQ_METHOD in
      if decide (method = []) then Ok (Error VALIDATION_FAILURE s, fs, [])
      else
        let s := vyatta_debug (lit "CONF:B") s in
        if decide (_access_level s <> k_VYATTACFG) then Ok (Error AUTHORIZATION_FAILURE s, fs, [])
        else
          let conf_path_with_id := drop (length CONF_REQ_ROOT) path in
          match (if decide (length CONF_REQ_ROOT < length path)
                 then resolve method (_user s) fs conf_path_with_id
                 else Some ([], _user s, [])) with
          | None => Ok (Error VALIDATION_FAILURE s, fs, [])
          | Some (id, user, tag) =>
              if decide (method = lit "GET") then
                if decide (path = CONF_REQ_ROOT) then Ok (get_list s fs, fs, [])
                else let* s := get_node s id user conf_path_with_id in Ok (s, fs, [])
              else if decide (method = lit "PUT") then put s fs id user conf_path_with_id
              else if decide (method = lit "DELETE") then Ok (delete_session s fs id user)
              else if decide (method = lit "POST") then
                let s := vyatta_debug (lit "CONF:C") s in
                if decide (conf_path_with_id = [] \/ contains (drop 1 conf_path_with_id) [slash] = false)
                then post_create (vyatta_debug (lit "CONF:D") s) fs user conf_path_with_id
                else post_command s fs id user tag conf_path_with_id
              else Ok (Error VALIDATION_FAILURE s, fs, [])
          end.
End Handlers.

(** ** Who may do what *)

Lemma same_resp_set k v s : same_but_response s (resp_set k v s).
Proof. apply same_but_response_upd. Qed.
#[export] Hint Resolve same_resp_set : rest.

Lemma conf_refused (e : conf_env) (s : Session) (fs : files) :
  _auth_type s = AUTH_TYPE_NONE \/ _access_level s <> k_VYATTACFG ->
  exists s', process e s fs = Ok (s', fs, []) /\
    resp_get s' HTTP_RESP_CODE ∈ [lit "401"; lit "400"] /\ same_but_response s s'.
Proof.
  intros H. unfold process.
  repeat case_decide; autorewrite with rest in *;
    try (eexists; split; [done|]; split;
         [unfold Error; rewrite Error_code; by_compute
         |repeat (etrans; [|apply same_but_response_error]);
          repeat first [reflexivity | etrans; [|apply same_but_response_debug]]]).
  all: naive_solver.
Qed.

(** Claim C14: without authentication, or without configuration rights, a
    request changes no file and reaches neither the configuration daemon nor
    the shell; it is answered with a 401, or a 400 when it is malformed. *)
Theorem conf_needs_rights (e : conf_env) (s : Session) (fs : files) :
  _auth_type s = AUTH_TYPE_NONE \/ _access_level s <> k_VYATTACFG ->
  exists s', process e s fs = Ok (s', fs, []) /\
    resp_get s' HTTP_RESP_CODE ∈ [lit "401"; lit "400"] /\ same_but_response s s'.
Proof. apply conf_refused. Qed.

Definition demo_view : configd_view :=
  mkView (fun _ => true) (fun _ => Some [lit "help=a node"; lit "type=txt"]) (fun _ => []) (fun _ => [])
    (fun _ => NODE_TYPE_LEAF) (fun _ _ => NODE_STATUS_UNCHANGED) (fun _ _ => true)
    (fun _ _ => [lit "v"]).

Definition demo_env : conf_env :=
  mkConfEnv false (fun _ => demo_view) true (fun _ => false) (fun _ => (Some [], None))
    (fun _ => (Some [], None)) (Some []) (fun _ => None) (fun _ => Some ([], Exited 0))
    [Some (lit "abcdefgh")] (true, true) Some Some NODE_TYPE_LEAF.

Lemma conf_needs_rights_witness :
  let s := request_session (lit "DELETE") (lit "/rest/conf/X") AUTH_TYPE_BASIC k_VYATTAOP (lit "op") in
  exists s', process demo_env s ∅ = Ok (s', ∅, []) /\
    resp_get s' HTTP_RESP_CODE ∈ [lit "401"; lit "400"] /\ same_but_response s s'.
Proof. apply conf_needs_rights. by right. Defined.

(** The session of an id, as its description file gives it, is the user's;
    an empty file leaves the user as it was. *)
Definition may_use (fs : files) (id user : str) : Prop :=
  exists tag, read_conf_modify_file fs id user [] = (true, user, tag).

Lemma read_default fs id user tag :
  tag <> [] -> read_conf_modify_file fs id [] [] = (true, user, tag) ->
  read_conf_modify_file fs id user [] = (true, user, tag).
Proof.
  intros Ht. unfold read_conf_modify_file. repeat case_match; intros; simplify_eq; done.
Qed.

Lemma tag_lookup_may_use fs l tag user id :
  read_conf_modify_file_from_tag fs l tag user = Some id -> may_use fs id user.
Proof.
  unfold read_conf_modify_file_from_tag. destruct l as [names|]; [|done].
  intros [Hne Hr]%tag_loop_sound. exists tag. by apply read_default.
Qed.

(** A request for a user that is resolved to that user may use the id. *)
Lemma resolve_may_use e method user fs cp id tag :
  resolve e method user fs cp = Some (id, user, tag) -> method <> lit "POST" -> may_use fs id user.
Proof.
  unfold resolve. destruct (read_conf_modify_file fs _ user []) as [[found u] t] eqn:E.
  destruct found.
  - intros [= <- -> ->] _. by exists tag.
  - intros H Hm. rewrite decide_True in H by done.
    destruct (read_conf_modify_file_from_tag fs (ce_listing e) _ u) as [id'|] eqn:G; [|done].
    injection H as <- <- _. by eapply tag_lookup_may_use.
Qed.

Lemma resolve_post e user fs cp id tag :
  resolve e (lit "POST") user fs cp = Some (id, user, tag) -> tag <> id -> may_use fs id user.
Proof.
  unfold resolve. destruct (read_conf_modify_file fs _ user []) as [[found u] t] eqn:E.
  destruct found.
  - intros [= <- -> ->] _. by exists tag.
  - rewrite decide_False by (intros H; by apply H). intros [= <- _ <-] H. done.
Qed.

(** What a handler may have done for a user: an event is about the session
    of an id the user may use, a file that changed is the description file
    of such an id. *)
Definition allowed_outcome (fs : files) (user : str) (r : outcome) : Prop :=
  (forall ev, ev ∈ r.2 -> exists id, may_use fs id user /\
     match ev with
     | SessSetup _ => False
     | SessDiscard sid | SessTeardown sid | SessCommit sid | SessSave sid | Shell sid _ =>
         sid = conv_conf_id id
     end) /\
  (forall f, r.1.2 !! f <> fs !! f -> exists id, may_use fs id user /\ f = VYATTA_MODIFY_FILE ++ id).

Lemma allowed_nothing fs user s : allowed_outcome fs user (s, fs, []).
Proof. split; [by intros ev []%elem_of_nil | done]. Qed.

Lemma allowed_events fs user s id evs :
  may_use fs id user ->
  (forall ev, ev ∈ evs -> match ev with
     | SessSetup _ => False
     | SessDiscard sid | SessTeardown sid | SessCommit sid | SessSave sid | Shell sid _ =>
         sid = conv_conf_id id
     end) ->
  allowed_outcome fs user (s, fs, evs).
Proof. intros Hm Hev. split; [|done]. intros ev Hin. exists id. split; [done|]. by apply Hev. Qed.

Lemma run_shell_event e sid cmd sout : exists cmd', (run_shell e sid cmd sout).2 = Shell sid cmd'.
Proof. unfold run_shell. destruct (execute _ _). by eexists. Qed.

Lemma discard_allowed e id b fs user s :
  may_use fs id user ->
  allowed_outcome fs user (s, (discard_session e id b fs).1, (discard_session e id b fs).2).
Proof.
  intros Hm. unfold discard_session. case_decide; [apply allowed_nothing|].
  destruct (ce_open e); [|apply allowed_nothing]. split.
  - intros ev Hin. exists id. split; [done|]. cbn in Hin.
    destruct b; rewrite ?elem_of_cons in Hin; [destruct Hin as [->|[->|[]%elem_of_nil]]
      | destruct Hin as [->|[]%elem_of_nil]]; done.
  - intros f Hf. exists id. split; [done|]. cbn in Hf. destruct b; [|done].
    destruct (decide (f = VYATTA_MODIFY_FILE ++ id)) as [|Hne]; [done|].
    by rewrite lookup_delete_ne in Hf.
Qed.

Lemma put_allowed e s fs id cp r :
  put e s fs id (_user s) cp = Ok r -> (cp <> [] -> may_use fs id (_user s)) ->
  allowed_outcome fs (_user s) r.
Proof.
  unfold put. rewrite decide_False by (intros H; by apply H).
  case_decide as Hcp; [intros [= <-] _; apply allowed_nothing|]. intros H Hm. specialize (Hm Hcp).
  apply res_bind_ok in H as (rest & _ & H). destruct (find rest [slash] 0) as [pos|].
  2: { injection H as <-. apply allowed_nothing. }
  case_decide; [injection H as <-; apply allowed_nothing|].
  apply res_bind_ok in H as (path & _ & H). apply res_bind_ok in H as (cmd & _ & H).
  destruct (put_command cmd) as [cmd1 [cmd2|]]; [|injection H as <-; apply allowed_nothing].
  destruct (run_shell_event e (conv_conf_id id) cmd2 []) as [cmd' Hev].
  destruct (run_shell e (conv_conf_id id) cmd2 []) as [[err sout] ev]. cbn in Hev. subst ev.
  assert (r.1.2 = fs /\ r.2 = [Shell (conv_conf_id id) cmd']) as [Hr1 Hr2].
  { case_decide; [apply res_bind_ok in H as (? & _ & H)|]; by injection H as <-. }
  destruct r as [[s1 fs1] ev1]. cbn in Hr1, Hr2. subst fs1 ev1.
  apply (allowed_events fs _ s1 id); [done|]. by intros ev ->%list_elem_of_singleton.
Qed.

Lemma post_command_allowed e s fs id tag cp r :
  post_command e s fs id (_user s) tag cp = Ok r -> (tag <> id -> may_use fs id (_user s)) ->
  allowed_outcome fs (_user s) r.
Proof.
  unfold post_command. intros H Hm.
  destruct (if decide (tag = id) then _ else _) as [id'|] eqn:Hid;
    [|injection H as <-; apply allowed_nothing].
  assert (may_use fs id' (_user s)) as Hm'.
  { destruct (decide (tag = id)) as [|Hne]; [by eapply tag_lookup_may_use|].
    injection Hid as <-. by apply Hm. }
  clear Hm Hid. rewrite decide_False in H by (intros H'; by apply H').
  apply res_bind_ok in H as (action & _ & H).
  case_decide; [|case_decide].
  - apply res_bind_ok in H as ([s1 ev] & Hd & H). injection H as <-.
    apply (allowed_events fs _ s1 id'); [done|]. unfold daemon_command in Hd.
    destruct (ce_open e); cbn [negb] in Hd; [|injection Hd as _ <-; by intros ? []%elem_of_nil].
    destruct (if bool_decide _ then _ else _) as [buf text].
    destruct (match buf with Some _ => _ | None => _ end) as [buf' s2].
    apply res_bind_ok in Hd as (? & _ & Hd). apply res_bind_ok in Hd as (? & _ & Hd).
    injection Hd as _ <-. intros ev ->%list_elem_of_singleton. by destruct (bool_decide _).
  - destruct (discard_session e id' false fs) as [fs1 ev] eqn:Hd. injection H as <-.
    pose proof (discard_allowed e id' false fs _ (vyatta_debug (lit "CONF:G") s) Hm') as Ha. by rewrite Hd in Ha.
  - apply res_bind_ok in H as (tmp & _ & H). destruct tmp as [tmp|];
      [|injection H as <-; apply allowed_nothing].
    destruct (run_shell_event e (conv_conf_id id') tmp (lit " ")) as [cmd' Hev].
    destruct (run_shell e (conv_conf_id id') tmp (lit " ")) as [[err sout] ev]. cbn in Hev. subst ev.
    apply res_bind_ok in H as (sout' & _ & H). injection H as <-.
    eapply (allowed_events fs _ _ id'); [done|]. by intros ev ->%list_elem_of_singleton.
Qed.

(** A handler refuses a request resolved to another user. *)
Lemma put_refused e s fs id user cp r :
  user <> _user s -> put e s fs id user cp = Ok r -> r.1.2 = fs /\ r.2 = [].
Proof. intros Hu. unfold put. rewrite decide_True by done. by intros [= <-]. Qed.

Lemma post_command_refused e s fs id user tag cp r :
  user <> _user s -> post_command e s fs id user tag cp = Ok r -> r.1.2 = fs /\ r.2 = [].
Proof.
  intros Hu. unfold post_command. destruct (if decide (tag = id) then _ else _);
    [rewrite decide_True by done|]; by intros [= <-].
Qed.

Lemma allowed_unchanged fs user r : r.1.2 = fs /\ r.2 = [] -> allowed_outcome fs user r.
Proof. destruct r as [[s fs1] ev]. cbn. intros [-> ->]. apply allowed_nothing. Qed.

Lemma delete_allowed e s fs id user :
  (user = _user s -> id <> [] -> may_use fs id (_user s)) ->
  allowed_outcome fs (_user s) (delete_session e s fs id user).
Proof.
  intros Hm. unfold delete_session. destruct (decide (user <> _user s)) as [|Hne]; [apply allowed_nothing|].
  apply dec_stable in Hne. destruct (decide (id = [])) as [->|Hid]; [apply allowed_nothing|].
  pose proof (fun s1 => discard_allowed e id true fs (_user s) s1 (Hm Hne Hid)) as Ha.
  destruct (discard_session e id true fs) as [fs1 ev]. apply Ha.
Qed.

(** A new session: at most one set-up, and one new description file. *)
Definition created_outcome (fs : files) (r : outcome) : Prop :=
  exists id, (forall ev, ev ∈ r.2 -> ev = SessSetup (conv_conf_id id)) /\
             (forall f, f <> VYATTA_MODIFY_FILE ++ id -> r.1.2 !! f = fs !! f).

Lemma post_create_created e s fs user cp r :
  post_create e s fs user cp = Ok r -> created_outcome fs r.
Proof.
  unfold post_create. intros H.
  case_decide; [injection H as <-; exists []; split; [by intros ev []%elem_of_nil | done]|].
  apply res_bind_ok in H as ([id rest] & _ & H).
  case_decide; [injection H as <-; exists []; split; [by intros ev []%elem_of_nil | done]|].
  exists id. unfold create_conf_modify_file, setup_session in H.
  destruct (ce_open e), (ce_create e) as [[] []]; cbn in H; injection H as <-; cbn; split;
    try (by intros ev ->%list_elem_of_singleton); try (by intros ev []%elem_of_nil);
    intros f Hf; try done; by rewrite lookup_insert_ne.
Qed.

(** Whatever a configuration request is, it acts for its user
    only: every discard, teardown, commit, save or shell command is about
    the session of an id whose description file is that user's, every file
    it changes is such a description file, and the one exception is the
    request that creates a session, which sets up the session of the new id
    and writes its description file. *)
Lemma conf_acts_for_user (e : conf_env) (s : Session) (fs : files) r :
  process e s fs = Ok r ->
  allowed_outcome fs (_user s) r \/
  (created_outcome fs r /\ req_get s HTTP_REQ_METHOD = lit "POST").
Proof.
  unfold process. intros H.
  do 5 (case_decide; [injection H as <-; left; apply allowed_nothing|]; autorewrite with rest in H).
  autorewrite with rest in *.
  set (path := req_get s HTTP_REQ_URI) in *. set (method := req_get s HTTP_REQ_METHOD) in *.
  set (s2 := vyatta_debug (lit "CONF:B") (vyatta_debug (lit "CONF:A") s)) in *.
  assert (_user s2 = _user s) as Hu by (unfold s2; by autorewrite with rest).
  set (cp := drop (length CONF_REQ_ROOT) path) in *.
  destruct (if decide (length CONF_REQ_ROOT < length path) then _ else _)
    as [[[id user] tag]|] eqn:Hres; [|injection H as <-; left; apply allowed_nothing].
  assert (user = _user s -> method <> lit "POST" -> cp <> [] -> may_use fs id (_user s)) as Hown.
  { intros -> Hm Hcp. destruct (decide (length CONF_REQ_ROOT < length path)) as [|Hlen].
    - by eapply resolve_may_use.
    - exfalso. apply Hcp. unfold cp. apply drop_ge. lia. }
  case_decide as Hget.
  { left. case_decide; [injection H as <-; apply allowed_nothing|].
    apply res_bind_ok in H as (s3 & _ & H). injection H as <-. apply allowed_nothing. }
  case_decide as Hput.
  { left. destruct (decide (user = _user s2)) as [->|Hne].
    - rewrite <- Hu. apply (put_allowed _ _ _ _ _ _ H). rewrite Hu. intros Hcp. by apply Hown; [..|rewrite Hput|].
    - by apply allowed_unchanged, (put_refused _ _ _ _ _ _ _ Hne H). }
  case_decide as Hdel.
  { left. injection H as <-. rewrite <- Hu. apply delete_allowed. intros Hus Hid. rewrite Hu in *.
    apply Hown; [done | by rewrite Hdel |]. intros Hcp. apply Hid.
    destruct (decide (length CONF_REQ_ROOT < length path)) as [Hlen|]; [|by injection Hres].
    exfalso. apply (f_equal length) in Hcp. unfold cp in Hcp. rewrite length_drop in Hcp. simpl in *. lia. }
  case_decide as Hpost; [|injection H as <-; left; apply allowed_nothing].
  case_decide as Hcp.
  { right. split; [|done]. by eapply post_create_created. }
  left. set (s3 := vyatta_debug (lit "CONF:C") s2) in *.
  assert (_user s3 = _user s) as Hu3 by (unfold s3; by autorewrite with rest).
  destruct (decide (user = _user s3)) as [->|Hne].
  - rewrite <- Hu3. apply (post_command_allowed _ _ _ _ _ _ _ H). intros Htag. rewrite Hu3 in *.
    rewrite decide_True in Hres; [rewrite Hpost in Hres; by eapply resolve_post|].
    destruct (decide (length CONF_REQ_ROOT < length path)); [done|]. exfalso.
    injection Hres as <- <-. by destruct Htag.
  - by apply allowed_unchanged, (post_command_refused _ _ _ _ _ _ _ _ Hne H).
Qed.

Definition demo_id : str := lit "6463626168676665".
Definition demo_files (content : str) : files := {[ VYATTA_MODIFY_FILE ++ demo_id := content ]}.

Definition demo_delete (u : str) : Session :=
  request_session (lit "DELETE") (lit "/rest/conf/" ++ demo_id) AUTH_TYPE_BASIC k_VYATTACFG u.

(** ** An empty description file *)

Lemma read_empty fs id user :
  fs !! (VYATTA_MODIFY_FILE ++ id) = Some [] -> read_conf_modify_file fs id user [] = (true, user, []).
Proof. intros H. unfold read_conf_modify_file. by rewrite H. Qed.

(** When the description file of a new session can be opened but
    not written, the request fails and leaves an empty file, and the session
    it already set up belongs to everybody: any user with configuration
    rights can discard it and tear it down. *)
Theorem empty_description_open_to_all (e : conf_env) (s t : Session) (fs : files) (id : str) rest :
  generate_token (ce_urandom e) = Ok (id, rest) -> length id = 16 -> slash ∉ id ->
  ce_create e = (true, false) -> ce_open e = true ->
  _auth_type t <> AUTH_TYPE_NONE -> _access_level t = k_VYATTACFG ->
  req_get t HTTP_REQ_URI = CONF_REQ_ROOT ++ slash :: id -> req_get t HTTP_REQ_METHOD = lit "DELETE" ->
  let fs' := <[VYATTA_MODIFY_FILE ++ id := []]> fs in
  post_create e s fs (_user s) [] =
    Ok (Error SERVER_ERROR s, fs', [SessSetup (conv_conf_id id)]) /\
  exists t', process e t fs' =
    Ok (t', delete (VYATTA_MODIFY_FILE ++ id) fs,
        [SessDiscard (conv_conf_id id); SessTeardown (conv_conf_id id)]).
Proof.
  intros Htok Hlen Hslash Hcreate Hopen Hauth Hacc Huri Hmeth fs'. split.
  - unfold post_create. rewrite drop_nil, decide_False by naive_solver. rewrite Htok. cbn [res_bind].
    rewrite decide_False by lia. unfold setup_session. by rewrite Hcreate, Hopen.
  - unfold process. rewrite decide_False by done. autorewrite with rest. rewrite Huri, Hmeth.
    rewrite (decide_False (P := CONF_REQ_ROOT ++ _ = [])) by done.
    rewrite (decide_False (P := length (CONF_REQ_ROOT ++ _) < _)) by (rewrite length_app; lia).
    rewrite (decide_False (P := lit "DELETE" = [])) by done.
    rewrite (decide_False (P := _access_level t <> _)) by (intros H; by apply H).
    rewrite (decide_True (P := length CONF_REQ_ROOT < _)) by (rewrite length_app; simpl; lia).
    rewrite drop_app_length. unfold resolve. cbn [drop]. rewrite find_0, find0_notin by done.
    rewrite (read_empty fs' id) by apply lookup_insert_eq.
    rewrite (decide_False (P := lit "DELETE" = lit "GET")), (decide_False (P := lit "DELETE" = lit "PUT")),
      (decide_True (P := lit "DELETE" = lit "DELETE")) by done.
    unfold delete_session. autorewrite with rest. rewrite decide_False by naive_solver.
    unfold discard_session. assert (id <> []) by (by intros ->).
    rewrite decide_False, Hopen by done. eexists. unfold fs'. by rewrite delete_insert_eq.
Qed.

Lemma empty_description_open_to_all_witness :
  let e := mkConfEnv false (fun _ => demo_view) true (fun _ => false) (fun _ => (Some [], None))
    (fun _ => (Some [], None)) (Some []) (fun _ => None) (fun _ => Some ([], Exited 0))
    [Some (lit "abcdefgh")] (true, false) Some Some NODE_TYPE_LEAF in
  let fs' := <[VYATTA_MODIFY_FILE ++ demo_id := []]> (∅ : files) in
  post_create e (demo_delete (lit "alice")) ∅ (lit "alice") [] =
    Ok (Error SERVER_ERROR (demo_delete (lit "alice")), fs', [SessSetup (conv_conf_id demo_id)]) /\
  exists t', process e (demo_delete (lit "bob")) fs' =
    Ok (t', delete (VYATTA_MODIFY_FILE ++ demo_id) ∅,
        [SessDiscard (conv_conf_id demo_id); SessTeardown (conv_conf_id demo_id)]).
Proof.
  intros e. apply (empty_description_open_to_all e (demo_delete (lit "alice")) (demo_delete (lit "bob")) ∅
           demo_id []); try done; try by_compute; vm_compute; reflexivity.
Defined.

(** ** Escaping command output *)

(** Reading back the inside of a JSON string: [None] for a bare quote, a
    control character, an unknown escape or an escape cut short. *)
Fixpoint json_unescape (s : str) : option str :=
  match s with
  | [] => Some []
  | c :: s' =>
      if decide (c = backslash) then
        match s' with
        | [] => None
        | d :: s'' =>
            let out := if decide (d = backslash \/ d = dquote \/ d = slash) then Some d
                       else if decide (d = ascii_of_nat 114) then Some cr
                       else if decide (d = ascii_of_nat 110) then Some nl
                       else if decide (d = ascii_of_nat 116) then Some tab
                       else None in
            match out with
            | Some x => cons x <$> json_unescape s''
            | None => None
            end
        end
      else if decide (c = dquote) then None
      else if decide (N_of_ascii c < 32)%N then None
      else cons c <$> json_unescape s'
  end.

(** One character of the escaped output. *)
Definition escape_char (c : ascii) : str :=
  if decide (c = backslash) then esc backslash
  else if decide (c = dquote) then esc dquote
  else if decide (c = cr) then backslash :: lit "r"
  else if decide (c = nl) then backslash :: lit "n"
  else if decide (c = tab) then backslash :: lit "t"
  else [c].

Lemma bind_bind (f g : ascii -> str) s : (s ≫= f) ≫= g = s ≫= (fun c => f c ≫= g).
Proof. induction s as [|c s IH]; [done|]. by rewrite !bind_cons, bind_app, IH. Qed.

Lemma post_escape_chars s : post_escape s = Ok (s ≫= escape_char).
Proof.
  unfold post_escape. rewrite mass_replace_char. cbn [res_bind]. rewrite mass_replace_char.
  cbn [res_bind]. rewrite mass_replace_char. cbn [res_bind]. rewrite mass_replace_char.
  cbn [res_bind]. rewrite mass_replace_char. f_equal. rewrite !bind_bind.
  induction s as [|c s IH]; [done|]. rewrite !bind_cons, IH. f_equal.
  unfold escape_char.
  destruct (decide (c = backslash)) as [->|H1]; [reflexivity|].
  destruct (decide (c = dquote)) as [->|H2]; [reflexivity|].
  destruct (decide (c = cr)) as [->|H3]; [reflexivity|].
  destruct (decide (c = nl)) as [->|H4]; [reflexivity|].
  destruct (decide (c = tab)) as [->|H5]; [reflexivity|].
  assert (forall d r, c <> d -> subst_char d r c = [c]) as Hs
    by (intros d r Hd; unfold subst_char; by rewrite decide_False).
  assert (forall f : ascii -> str, [c] ≫= f = f c) as Hone by (intros f; cbn; apply app_nil_r).
  by rewrite (Hs backslash), Hone, (Hs dquote), Hone, (Hs cr), Hone, (Hs nl), Hone, (Hs tab) by done.
Qed.

Lemma unescape_char c x :
  (32 <= N_of_ascii c)%N \/ c ∈ [cr; nl; tab] ->
  json_unescape (escape_char c ++ x) = cons c <$> json_unescape x.
Proof.
  intros Hc. unfold escape_char.
  destruct (decide (c = backslash)) as [->|H1]; [reflexivity|].
  destruct (decide (c = dquote)) as [->|H2]; [reflexivity|].
  destruct (decide (c = cr)) as [->|H3]; [reflexivity|].
  destruct (decide (c = nl)) as [->|H4]; [reflexivity|].
  destruct (decide (c = tab)) as [->|H5]; [reflexivity|].
  cbn [app json_unescape]. rewrite (decide_False (P := c = backslash)), (decide_False (P := c = dquote)) by done.
  destruct Hc as [Hc|Hc]; [by rewrite decide_False by lia|].
  rewrite !elem_of_cons in Hc. by destruct Hc as [?|[?|[?|[]%elem_of_nil]]].
Qed.

(** Claim C27: the output of a configuration command survives its way into
    the JSON message: for any output whose only control characters are tabs
    and line ends, the escaped text is the inside of a JSON string and reads
    back as the output. *)
Theorem post_escape_roundtrip (s : str) :
  Forall (fun c => (32 <= N_of_ascii c)%N \/ c ∈ [cr; nl; tab]) s ->
  exists t, post_escape s = Ok t /\ json_unescape t = Some s.
Proof.
  intros Hs. exists (s ≫= escape_char). split; [apply post_escape_chars|].
  induction Hs as [|c s Hc Hs IH]; [done|]. by rewrite bind_cons, unescape_char, IH.
Qed.

Lemma post_escape_roundtrip_witness :
  exists t, post_escape (lit "a" ++ [backslash; dquote; nl; tab]) = Ok t /\
            json_unescape t = Some (lit "a" ++ [backslash; dquote; nl; tab]).
Proof. apply post_escape_roundtrip. by_compute. Defined.

Lemma json_unescape_app a b :
  backslash ∉ a -> json_unescape (a ++ b) = None \/ json_unescape (a ++ b) = app a <$> json_unescape b.
Proof.
  induction a as [|c a IH]; intros Ha; [right; cbn [app]; by destruct (json_unescape b)|].
  apply not_elem_of_cons in Ha as [Hc Ha]. cbn [app json_unescape]. rewrite decide_False by done.
  repeat (case_decide; [by left|]). destruct (IH Ha) as [-> | ->]; [by left | right].
  by destruct (json_unescape b).
Qed.

(** The errors of a PUT, and the texts of commit and save, are
    escaped without regard to backslashes: an output that holds its first
    backslash just before a double quote gives a text that ends the JSON
    string early, and one that ends in a backslash swallows its end. *)
Theorem put_escape_breaks (a b : str) :
  (backslash ∉ a) -> dquote ∉ a -> nl ∉ a ->
  (exists t, put_escape (a ++ [backslash; dquote] ++ b) = Ok t /\ json_unescape t = None) /\
  (exists t, put_escape (a ++ [backslash]) = Ok t /\ json_unescape t = None).
Proof.
  intros Hb Hq Hn. unfold put_escape.
  assert (forall x r, x ∉ a -> a ≫= subst_char x r = a) as Hid.
  { clear. intros x r. induction a as [|c a IH]; intros H; [done|].
    apply not_elem_of_cons in H as [Hc Ha]. rewrite bind_cons, IH by done.
    unfold subst_char. by rewrite decide_False. }
  split.
  - rewrite mass_replace_char. cbn [res_bind]. rewrite mass_replace_char. eexists; split; [done|].
    rewrite !bind_app, !Hid by done. set (B := (b ≫= _) ≫= _).
    destruct (json_unescape_app a ([backslash; backslash; dquote] ++ B) Hb) as [H|H]; [exact H|].
    etrans; [exact H|]. reflexivity.
  - rewrite mass_replace_char. cbn [res_bind]. rewrite mass_replace_char. eexists; split; [done|].
    rewrite !bind_app, !Hid by done.
    destruct (json_unescape_app a [backslash] Hb) as [H|H]; [exact H|]. etrans; [exact H|]. reflexivity.
Qed.

Lemma put_escape_breaks_witness :
  (exists t, put_escape (lit "no such file" ++ [backslash; dquote] ++ lit "x") = Ok t /\ json_unescape t = None) /\
  (exists t, put_escape (lit "no such file" ++ [backslash]) = Ok t /\ json_unescape t = None).
Proof. apply put_escape_breaks; by_compute. Defined.
