(* ===== verification/ConfModeFacts.v ===== *)
(** * More about configuration requests

    What [ConfMode] does with what it was asked: the new session, the
    command line of a PUT, and which requests can bring the server down. *)

From S2P Require Import Prelude CppString StrProc Common CppMap Http Mode Configuration ConfMode.

(** ** A new session *)

Lemma read_created fs id user description :
  describes (user ++ slash :: description) user description ->
  read_conf_modify_file (<[VYATTA_MODIFY_FILE ++ id := user ++ slash :: description]> fs) id user [] =
  (true, user, description).
Proof. intros Hd. eapply read_describes; [apply lookup_insert_eq | exact Hd]. Qed.

(** Some description file the listing names already carries the tag. *)
Definition taken (e : conf_env) (fs : files) (description user : str) : Prop :=
  description <> [] /\ is_Some (read_conf_modify_file_from_tag fs (ce_listing e) description user).

(** A file the directory names carries the description of the user: the C
    string in the buffer its first line is read to is [user/description]. *)
Definition described (e : conf_env) (fs : files) (user description : str) : Prop :=
  description <> [] /\
  exists n content, n ∈ default [] (ce_listing e) /\ 22 <= length n /\
    fs !! (VYATTA_MODIFY_FILE ++ drop 14 n) = Some content /\
    cstr (take (CHUNKER_READ_SIZE - 1) content) = user ++ slash :: description.

Lemma fgets_go_text k s t : nl ∉ t -> cstr (fgets_go k s).1 = t <-> cstr (take k s) = t.
Proof.
  revert k t. induction s as [|c s IH]; intros [|k] t Ht; cbn [fgets_go take]; [done..|].
  destruct (decide (c = nl)) as [->|Hc].
  { split; intros <-; exfalso; apply Ht; by left. }
  destruct (fgets_go k s) as [l r] eqn:E. cbn [fst cstr]. case_decide; [done|].
  destruct t as [|x t]; [done|]. apply not_elem_of_cons in Ht as [_ Ht].
  specialize (IH k t Ht). rewrite E in IH. cbn [fst] in IH. split; (intros [= -> Hx]; f_equal; by apply IH).
Qed.

(** What a description file says, told by its text. *)
Lemma read_modify_text fs id user description :
  (slash ∉ user) -> nl ∉ user ++ slash :: description -> description <> [] ->
  let '(_, u, d) := read_conf_modify_file fs id [] [] in
  (u = user /\ d = description) <->
  exists content, fs !! (VYATTA_MODIFY_FILE ++ id) = Some content /\
    cstr (take (CHUNKER_READ_SIZE - 1) content) = user ++ slash :: description.
Proof.
  intros Hu Hnl Hd. unfold read_conf_modify_file, fgets. generalize (CHUNKER_READ_SIZE - 1) as k. intros k.
  destruct (fs !! (VYATTA_MODIFY_FILE ++ id)) as [content|].
  2: { split; [intros [_ <-]; by destruct Hd | by intros (? & ? & _)]. }
  pose proof (fgets_go_text k content _ Hnl) as Ht.
  destruct content as [|c content].
  { split; [intros [_ <-]; by destruct Hd|]. intros (c & [= <-] & H). rewrite take_nil in H. by destruct user. }
  destruct (fgets_go k (c :: content)) as [buf rest]. cbn [fst] in Ht.
  set (full := c :: content) in *. clearbody full.
  assert ((exists content, Some full = Some content /\ cstr (take k content) = user ++ slash :: description) <->
          cstr buf = user ++ slash :: description) as Hx.
  { rewrite Ht. split; [by intros (? & [= <-] & ?) | by eexists]. }
  rewrite find_0. destruct (find0 (cstr buf) [slash]) as [i|] eqn:E.
  - destruct (find0_char_split _ _ _ E) as (Hs & Hin & Hi). unfold sub. rewrite drop_0, Hx.
    replace (drop (i + 1) (cstr buf)) with (drop (S i) (cstr buf)) by (f_equal; lia). split.
    + intros [<- <-]. exact Hs.
    + intros H. rewrite H, find0_char_app in E by done. injection E as <-. rewrite H.
      rewrite take_app_length. split; [done|]. replace (S (length user)) with (length user + 1) by lia.
      by rewrite drop_app_add.
  - rewrite Hx. split; [intros [_ <-]; by destruct Hd|]. intros H. rewrite H, find0_char_app in E by done. done.
Qed.

Lemma taken_described e fs description user :
  (slash ∉ user) -> nl ∉ user ++ slash :: description ->
  taken e fs description user <-> described e fs user description.
Proof.
  intros Hu Hnl. unfold taken, described, read_conf_modify_file_from_tag.
  split; intros [Hne H]; (split; [done|]).
  - destruct (ce_listing e) as [names|]; [cbn [default from_option] | by destruct H].
    destruct H as [id H]. induction names as [|n names IH]; [done|].
    cbn [tag_loop] in H. pose proof (read_modify_text fs (drop 14 n) user description Hu Hnl Hne) as Hr.
    assert (tag_loop fs names description user = Some id ->
      exists m c, m ∈ n :: names /\ 22 <= length m /\ fs !! (VYATTA_MODIFY_FILE ++ drop 14 m) = Some c /\
        cstr (take (CHUNKER_READ_SIZE - 1) c) = user ++ slash :: description) as Hrest.
    { intros H'. destruct (IH H') as (m & c & Hm & Hc). exists m, c. split; [by right | exact Hc]. }
    case_decide as Hl; [by apply Hrest|].
    destruct (read_conf_modify_file fs (drop 14 n) [] []) as [[? u] d].
    case_decide as Hud; [|by apply Hrest]. destruct Hud as (_ & -> & ->).
    destruct (proj1 Hr (conj eq_refl eq_refl)) as (c & Hc). exists n, c. split; [by left|].
    split; [lia | exact Hc].
  - destruct H as (n & c & Hn & Hl & Hc). destruct (ce_listing e) as [names|]; [|by apply elem_of_nil in Hn].
    cbn [default from_option] in Hn. induction names as [|m names IH]; [by apply elem_of_nil in Hn|].
    cbn [tag_loop]. apply elem_of_cons in Hn as [<- | Hn].
    + rewrite decide_False by lia.
      pose proof (read_modify_text fs (drop 14 n) user description Hu Hnl Hne) as Hr.
      destruct (read_conf_modify_file fs (drop 14 n) [] []) as [[? u] d].
      destruct (proj2 Hr (ex_intro _ c Hc)) as [-> ->]. rewrite decide_True by done. by eexists.
    + case_decide; [by apply IH|].
      destruct (read_conf_modify_file fs (drop 14 m) [] []) as [[? ?] ?].
      case_decide; [by eexists | by apply IH].
Qed.

(** Claim C15: creating a session answers 201 with its location, sets the
    session up under the number its id stands for and records owner and
    description, which then read back; it is refused exactly when the text of
    a file the directory named is already that user and that description. *)
Theorem post_create_correct (e : conf_env) (s : Session) (fs : files) (description id : str) rest :
  generate_token (ce_urandom e) = Ok (id, rest) -> length id = 16 ->
  ce_create e = (true, true) -> ce_open e = true ->
  describes (_user s ++ slash :: description) (_user s) description ->
  (described e fs (_user s) description ->
   post_create e s fs (_user s) (slash :: description) = Ok (Error CONFMODE_DUP_DESC_ERROR s, fs, [])) /\
  (~ described e fs (_user s) description ->
   exists s' fs', post_create e s fs (_user s) (slash :: description) =
       Ok (s', fs', [SessSetup (conv_conf_id id)]) /\
     resp_get s' HTTP_RESP_CODE = lit "201" /\ resp_get s' HTTP_RESP_LOCATION = lit "rest/conf/" ++ id /\
     read_conf_modify_file fs' id (_user s) [] = (true, _user s, description) /\
     (forall f, f <> VYATTA_MODIFY_FILE ++ id -> fs' !! f = fs !! f)).
Proof.
  intros Htok Hlen Hcreate Hopen Hd.
  rewrite <- taken_described by apply Hd. unfold taken, post_create.
  change (drop 1 (slash :: description)) with description.
  split; intros H; [by rewrite decide_True|]. rewrite decide_False by done.
  rewrite Htok. cbn [res_bind]. rewrite decide_False by lia.
  unfold setup_session, create_conf_modify_file. rewrite Hopen, Hcreate. cbn [fst snd negb].
  assert (cstr (_user s ++ lit "/" ++ description) = _user s ++ slash :: description) as ->
    by (destruct Hd as (_ & _ & _ & Hn & _); by rewrite cstr_id).
  eexists _, _. split; [done|]. split; [apply Error_code|]. split; [|split].
  - unfold Error, Error_msg. cbn [http_response_error]. rewrite resp_get_set_ne by done.
    rewrite decide_False by (intros H'; by apply H'). by autorewrite with rest.
  - by apply read_created.
  - intros f Hf. by apply lookup_insert_ne.
Qed.

Lemma post_create_correct_witness :
  let s := request_session (lit "POST") (lit "/rest/conf/work") AUTH_TYPE_BASIC k_VYATTACFG (lit "alice") in
  (described demo_env ∅ (_user s) (lit "work") ->
   post_create demo_env s ∅ (_user s) (slash :: lit "work") = Ok (Error CONFMODE_DUP_DESC_ERROR s, ∅, [])) /\
  (~ described demo_env ∅ (_user s) (lit "work") ->
   exists s' fs', post_create demo_env s ∅ (_user s) (slash :: lit "work") =
       Ok (s', fs', [SessSetup (conv_conf_id demo_id)]) /\
     resp_get s' HTTP_RESP_CODE = lit "201" /\ resp_get s' HTTP_RESP_LOCATION = lit "rest/conf/" ++ demo_id /\
     read_conf_modify_file fs' demo_id (_user s) [] = (true, _user s, lit "work") /\
     (forall f, f <> VYATTA_MODIFY_FILE ++ demo_id -> fs' !! f = (∅ : files) !! f)).
Proof.
  intros s. apply (post_create_correct demo_env s ∅ (lit "work") demo_id []).
  - vm_compute. reflexivity.
  - reflexivity.
  - reflexivity.
  - reflexivity.
  - split; [reflexivity|]. repeat (apply conj; [by_compute|]). apply Nat.ltb_lt. vm_compute. reflexivity.
Defined.

(** ** Two servers

    The web server is configured to keep two processes of the REST server
    (max-procs in debian/vyatta-rest.postinst). *)

Lemma tag_loop_agree fs fs' names tag user :
  Forall (fun n => fs' !! (VYATTA_MODIFY_FILE ++ drop 14 n) = fs !! (VYATTA_MODIFY_FILE ++ drop 14 n)) names ->
  tag_loop fs' names tag user = tag_loop fs names tag user.
Proof.
  induction 1 as [|n names Hn _ IH]; [done|]. cbn [tag_loop]. rewrite IH. unfold read_conf_modify_file. by rewrite Hn.
Qed.

(** Looking for a description and creating its file are not one step: a
    request that has read the directory before another one creates its file
    creates a second session of the same user and description. *)
Theorem description_race (e1 e2 : conf_env) (s : Session) (fs : files) (description id1 id2 : str) rest1 rest2 :
  generate_token (ce_urandom e1) = Ok (id1, rest1) -> length id1 = 16 -> ce_create e1 = (true, true) ->
  generate_token (ce_urandom e2) = Ok (id2, rest2) -> length id2 = 16 -> ce_create e2 = (true, true) ->
  ce_listing e2 = ce_listing e1 -> id1 <> id2 ->
  Forall (fun n => drop 14 n <> id1) (default [] (ce_listing e1)) ->
  describes (_user s ++ slash :: description) (_user s) description -> ~ taken e1 fs description (_user s) ->
  exists s1 fs1 ev1 s2 fs2 ev2,
    post_create e1 s fs (_user s) (slash :: description) = Ok (s1, fs1, ev1) /\
    post_create e2 s fs1 (_user s) (slash :: description) = Ok (s2, fs2, ev2) /\
    resp_get s1 HTTP_RESP_CODE = lit "201" /\ resp_get s2 HTTP_RESP_CODE = lit "201" /\
    read_conf_modify_file fs2 id1 (_user s) [] = (true, _user s, description) /\
    read_conf_modify_file fs2 id2 (_user s) [] = (true, _user s, description).
Proof.
  intros Ht1 Hl1 Hc1 Ht2 Hl2 Hc2 Hlist Hne Hnames Hd Hfree.
  assert (cstr (_user s ++ lit "/" ++ description) = _user s ++ slash :: description) as Hcs
    by (destruct Hd as (_ & _ & _ & Hn & _); by rewrite cstr_id).
  set (fs1 := <[VYATTA_MODIFY_FILE ++ id1 := _user s ++ slash :: description]> fs).
  assert (~ taken e2 fs1 description (_user s)) as Hfree2.
  { intros [Hdne Ht]. apply Hfree. split; [done|]. rewrite Hlist in Ht. unfold read_conf_modify_file_from_tag in *.
    destruct (ce_listing e1) as [names|]; [|done]. rewrite (tag_loop_agree fs) in Ht; [done|].
    eapply Forall_impl; [exact Hnames|]. intros n Hn. unfold fs1. cbv beta.
    rewrite lookup_insert_ne; [done|]. intros E. apply app_inv_head in E. by symmetry in E. }
  unfold taken in *. unfold post_create. change (drop 1 (slash :: description)) with description.
  rewrite (decide_False (P := description <> [] /\ is_Some (_ fs (ce_listing e1) _ _))) by done.
  rewrite Ht1. cbn [res_bind]. rewrite decide_False by lia. unfold create_conf_modify_file at 1.
  rewrite Hc1. cbn [fst snd negb]. rewrite Hcs. fold fs1.
  eexists _, fs1, _. do 3 eexists. split; [done|].
  rewrite decide_False by done. rewrite Ht2. cbn [res_bind]. rewrite decide_False by lia.
  unfold create_conf_modify_file. rewrite Hc2. cbn [fst snd negb]. rewrite Hcs. split; [done|].
  split; [apply Error_code|]. split; [apply Error_code|]. split; [|by apply read_created].
  eapply read_describes; [|exact Hd]. unfold fs1.
  rewrite lookup_insert_ne by (by intros ?%app_inv_head; congruence). apply lookup_insert_eq.
Qed.

(** ** The command line of a PUT *)

Lemma is_cmd_app name rest : nul ∉ name -> is_cmd name (name ++ rest) = true.
Proof.
  intros Hn. unfold is_cmd, strneq. apply bool_decide_eq_true.
  rewrite (cstr_id name) by done. rewrite (take_ge name) by lia.
  assert (cstr (name ++ rest) = name ++ cstr rest) as ->.
  { clear -Hn. induction name as [|c name IH]; [done|]. apply not_elem_of_cons in Hn as [Hc Hn].
    cbn. rewrite decide_False by done. by rewrite IH. }
  by rewrite take_app_length.
Qed.

(** The command a PUT below an id runs. *)
Lemma put_runs e s fs id i x h segs :
  never_null (ce_unescape e) ->
  (slash ∉ i) -> (slash ∉ h) -> Forall (fun g => slash ∉ g) segs -> segs <> [] ->
  let cmd := (x :: h) ++ (segs ≫= segment_arg (ce_unescape e)) in
  quoted_cmd cmd = true ->
  exists s', put e s fs id (_user s) (slash :: i ++ slash :: (x :: h) ++ (segs ≫= cons slash)) =
    Ok (s', fs, [Shell (conv_conf_id id)
      (command_prefix (conv_conf_id id) ++ lit ";" ++ (lit "/usr/bin/cfgcli -print " ++ cmd) ++ lit " 2>&1")]).
Proof.
  intros Hn Hi Hh Hsegs Hne cmd Hq. unfold put. rewrite decide_False by (intros H; by apply H).
  rewrite decide_False by done. unfold substr_from at 1. rewrite decide_True by (simpl; lia).
  cbn [res_bind drop]. rewrite find_0, drop_0, find0_char_app by done.
  rewrite decide_False by (cbn [length]; rewrite length_app; cbn [length]; lia).
  unfold substr_from. rewrite decide_True by (cbn [length]; rewrite length_app; cbn [length]; lia).
  cbn [res_bind].
  replace (drop (length i + 2) (slash :: i ++ slash :: (x :: h) ++ (segs ≫= cons slash)))
    with ((x :: h) ++ (segs ≫= cons slash)).
  2: { replace (length i + 2) with (S (length i + 1)) by lia. cbn [drop]. by rewrite drop_app_add. }
  rewrite translate_spec, translated_segments by done. cbn [res_bind]. fold cmd.
  unfold put_command. rewrite Hq.
  assert (forall b : option nat, match b with Some _ => cmd | None => cmd end = cmd) as -> by (by intros []).
  rewrite Hq. unfold run_shell. destruct (execute _ _) as [err sout].
  case_decide; [|by eexists]. unfold put_escape. rewrite mass_replace_char. cbn [res_bind].
  rewrite mass_replace_char. by eexists.
Qed.

(** The precaution that cuts a command off at its first semicolon
    is skipped for [set], [delete] and [comment], whose nodes are quoted; but
    the first segment of the path is neither decoded nor quoted, so that
    what follows [set;] in it is run by the shell as a command of its own. *)
Theorem put_semicolon_injection (e : conf_env) (s : Session) (fs : files) (id i c g : str) :
  never_null (ce_unescape e) -> (slash ∉ i) -> (slash ∉ c) -> (slash ∉ g) ->
  exists s', put e s fs id (_user s) (slash :: i ++ slash :: (lit "set;" ++ c) ++ slash :: g) =
    Ok (s', fs, [Shell (conv_conf_id id)
      (command_prefix (conv_conf_id id) ++ lit ";" ++
       (lit "/usr/bin/cfgcli -print set;" ++ c ++ quote_value (unescaped (ce_unescape e) g)) ++ lit " 2>&1")]).
Proof.
  intros Hn Hi Hc Hg.
  destruct (put_runs e s fs id i (ascii_of_nat 115) (lit "et;" ++ c) [g]) as [s' Hp];
    [done | done | notin; by_compute | by constructor | done | |].
  - unfold quoted_cmd. replace (is_cmd (lit "set") _) with true; [done|]. symmetry.
    apply (is_cmd_app (lit "set") (lit ";" ++ c ++ ([g] ≫= segment_arg (ce_unescape e)))). by_compute.
  - exists s'. cbn [mbind list_bind] in Hp. rewrite !app_nil_r in Hp. exact Hp.
Qed.

Lemma put_semicolon_injection_witness :
  exists s', put demo_env (demo_delete (lit "alice")) ∅ demo_id (lit "alice")
      (slash :: demo_id ++ slash :: (lit "set;" ++ lit "reboot") ++ slash :: lit "x") =
    Ok (s', ∅, [Shell (conv_conf_id demo_id)
      (command_prefix (conv_conf_id demo_id) ++ lit ";" ++
       (lit "/usr/bin/cfgcli -print set;" ++ lit "reboot" ++ quote_value (unescaped Some (lit "x"))) ++
       lit " 2>&1")]).
Proof.
  apply (put_semicolon_injection demo_env (demo_delete (lit "alice"))); [apply never_null_Some | by_compute..].
Defined.

(** ** Requests that bring the server down *)

Lemma put_cases e s fs id user cp :
  is_ok (put e s fs id user cp) \/
  put e s fs id user cp = Fault NullString /\ ~ never_null (ce_unescape e).
Proof.
  unfold put. case_decide; [left; by eexists|]. case_decide as Hcp; [left; by eexists|].
  destruct cp as [|x cp]; [done|]. unfold substr_from at 1 3. rewrite decide_True by (simpl; lia).
  cbn [res_bind drop]. rewrite drop_0. destruct (find cp [slash] 0) as [pos|] eqn:E; [|left; by eexists].
  apply find_Some_le in E as [_ Hpos]. change (length [slash]) with 1 in Hpos.
  case_decide; [left; by eexists|]. unfold substr_from. rewrite decide_True by (simpl; lia). cbn [res_bind].
  destruct (translate_cases (ce_unescape e) (drop (pos + 2) (x :: cp))) as [-> | [-> Hn]]; [left | by right].
  cbn [res_bind]. destruct (put_command _) as [cmd1 [cmd2|]]; [|by eexists].
  destruct (run_shell e _ cmd2 []) as [[err sout] ev]. case_decide; [|by eexists].
  unfold put_escape. rewrite mass_replace_char. cbn [res_bind]. rewrite mass_replace_char. by eexists.
Qed.

Lemma action_rest_ok action n : n <= length action -> is_ok (action_rest action n).
Proof.
  intros Hn. unfold action_rest, substr. rewrite decide_True by done. cbn [res_bind].
  rewrite mass_replace_char. by eexists.
Qed.

Lemma conv_url_cases e tmp :
  is_ok (conv_url e tmp) \/ conv_url e tmp = Fault NullString /\ ~ never_null (ce_unescape e).
Proof.
  unfold conv_url. destruct (ce_unescape e tmp) eqn:E; [left; by eexists | right]. split; [done|].
  intros H. destruct (H tmp). congruence.
Qed.

Lemma action_command_cases e action :
  is_ok (action_command e action) \/
  action_command e action = Fault NullString /\ ~ never_null (ce_unescape e).
Proof.
  unfold action_command.
  repeat case_decide; try (left; by eexists);
    match goal with |- is_ok (res_bind (action_rest ?a ?n) _) \/ _ =>
      destruct (action_rest_ok a n) as [t ->]; [lia | cbn [res_bind]] end;
    try (left; by eexists);
    match goal with |- is_ok (res_bind (conv_url ?e ?t) _) \/ _ =>
      destruct (conv_url_cases e t) as [[u ->]|[-> Hn]]; [left; by eexists | by right] end.
Qed.

Lemma below_id_action x i action : slash ∉ i -> below_id (x :: i ++ slash :: action) = Ok action.
Proof.
  intros Hi. unfold below_id, substr_from at 1. rewrite decide_True by (simpl; lia). cbn [res_bind drop].
  rewrite find_0, drop_0, find0_char_app by done. unfold substr_from.
  rewrite decide_True by (cbn [length]; rewrite length_app; cbn [length]; lia). f_equal.
  replace (length i + 2) with (S (length i + 1)) by lia. cbn [drop]. by rewrite drop_app_add.
Qed.

(** The daemon gives neither a text nor an error text for a commit or a
    save. *)
Definition silent (e : conf_env) (sid action : str) : Prop :=
  ce_open e = true /\
  (action = lit "commit" /\ ce_commit e sid = (None, None) \/
   action = lit "save" /\ ce_save e sid = (None, None)).

Lemma daemon_command_cases e s sid action :
  action = lit "commit" \/ action = lit "save" ->
  is_ok (daemon_command e s sid action) /\ ~ silent e sid action \/
  daemon_command e s sid action = Fault NullString /\ silent e sid action.
Proof.
  intros Ha. unfold daemon_command, silent. destruct (ce_open e); cbn [negb].
  2: { left. split; [by eexists | by intros [? _]]. }
  assert ((action = lit "commit" /\ ce_commit e sid = (None, None) \/
           action = lit "save" /\ ce_save e sid = (None, None)) <->
          (if bool_decide (action = lit "commit") then ce_commit e sid else ce_save e sid) = (None, None)) as Hs.
  { destruct Ha as [-> | ->]; [rewrite bool_decide_eq_true_2 by done | rewrite bool_decide_eq_false_2 by done];
      (split; [by intros [[? H]|[? H]] | intros H; tauto]). }
  rewrite Hs. destruct (if bool_decide (action = lit "commit") then _ else _) as [[buf|] [text|]].
  4: { right. done. }
  all: left; (split; [|by intros [_ ?]]); unfold put_escape; cbn [res_bind]; rewrite mass_replace_char;
    cbn [res_bind]; rewrite mass_replace_char; by eexists.
Qed.

(** The request commits or saves a session, and the daemon is silent: an
    authenticated user with configuration rights posts [commit] or [save]
    below the name of a session of his. *)
Definition silent_request (e : conf_env) (s : Session) (fs : files) : Prop :=
  _auth_type s <> AUTH_TYPE_NONE /\ _access_level s = k_VYATTACFG /\
  req_get s HTTP_REQ_METHOD = lit "POST" /\
  exists x i action id tag id',
    drop (length CONF_REQ_ROOT) (req_get s HTTP_REQ_URI) = x :: i ++ slash :: action /\ (slash ∉ i) /\
    resolve e (lit "POST") (_user s) fs (x :: i ++ slash :: action) = Some (id, _user s, tag) /\
    (if decide (tag = id) then read_conf_modify_file_from_tag fs (ce_listing e) tag (_user s)
     else Some id) = Some id' /\
    silent e (conv_conf_id id') action.

Lemma post_command_cases e s fs id user tag x i action :
  slash ∉ i ->
  let asked := user = _user s /\ exists id',
    (if decide (tag = id) then read_conf_modify_file_from_tag fs (ce_listing e) tag user else Some id) = Some id' /\
    silent e (conv_conf_id id') action in
  match post_command e s fs id user tag (x :: i ++ slash :: action) with
  | Ok _ => ~ asked
  | Fault f => f = NullString /\ (asked \/ ~ never_null (ce_unescape e))
  end.
Proof.
  intros Hi. unfold post_command. destruct (if decide (tag = id) then _ else _) as [id'|]; [|by intros (_ & ? & ? & _)].
  case_decide as Hu; [by intros (? & _)|]. rewrite below_id_action by done. cbn [res_bind].
  case_decide as Ha; [|case_decide as Hd].
  - destruct (daemon_command_cases e (vyatta_debug (lit "CONF:G") s) (conv_conf_id id') action Ha)
      as [[[[s' ev] ->] Hs]|[-> Hs]]; cbn [res_bind].
    + by intros (_ & ? & [= <-] & H).
    + split; [done|]. left. split; [done|]. by exists id'.
  - subst action. destruct (discard_session e id' false fs). by intros (_ & ? & _ & _ & [[? _]|[? _]]).
  - assert (forall sid, ~ silent e sid action) as Hs by (intros sid (_ & [[? _]|[? _]]); tauto).
    destruct (action_command_cases e action) as [[[tmp|] ->]|[-> Hn]]; cbn [res_bind].
    + destruct (run_shell e _ tmp _) as [[err sout] ev]. rewrite post_escape_chars. cbn [res_bind].
      intros (_ & ? & _ & H). by apply Hs in H.
    + intros (_ & ? & _ & H). by apply Hs in H.
    + split; [done | by right].
Qed.

Lemma post_create_total e s fs user cp :
  is_ok (generate_token (ce_urandom e)) -> is_ok (post_create e s fs user cp).
Proof.
  intros [[tok rest] Htok]. unfold post_create. case_decide; [by eexists|]. rewrite Htok. cbn [res_bind].
  case_decide; [by eexists|]. destruct (create_conf_modify_file _ _ _ _ _ _) as [ok fs'].
  destruct ok; by eexists.
Qed.

Lemma conf_path_parts cp :
  ~ (cp = [] \/ contains (drop 1 cp) [slash] = false) ->
  exists x i a, cp = x :: i ++ slash :: a /\ slash ∉ i.
Proof.
  intros H. destruct cp as [|x r]; [exfalso; apply H; by left|]. change (drop 1 (x :: r)) with r in H. unfold contains in H.
  destruct (find0 r [slash]) as [n|] eqn:E; [|exfalso; apply H; by right].
  destruct (find0_char_split _ _ _ E) as (Hs & Hn & _).
  exists x, (take n r), (drop (S n) r). by rewrite <- Hs.
Qed.

(** Claim C25: of the requests that set, delete, create or command a
    configuration session, whatever their path, the files and the shell's
    output are, none brings the server down but a commit or save for which
    the configuration daemon gives neither a text nor an error text, and
    that one always does, with a string made from a null pointer.  (The
    other null pointer is the one libcurl returns when it fails; the random
    device yields a token, or fails its five tries.) *)
Theorem conf_no_crash (e : conf_env) (s : Session) (fs : files) :
  is_ok (generate_token (ce_urandom e)) -> req_get s HTTP_REQ_METHOD <> lit "GET" ->
  match process e s fs with
  | Ok _ => ~ silent_request e s fs
  | Fault f => f = NullString /\ (silent_request e s fs \/ ~ never_null (ce_unescape e))
  end.
Proof.
  intros Htok Hm. unfold process, silent_request.
  set (cp := drop (length CONF_REQ_ROOT) (req_get s HTTP_REQ_URI)).
  case_decide; [tauto|]. autorewrite with rest. case_decide as Hp.
  { intros (_ & _ & _ & x & i & a & _ & _ & _ & Hc & _). subst cp. by rewrite Hp, drop_nil in Hc. }
  case_decide as Hl.
  { intros (_ & _ & _ & x & i & a & _ & _ & _ & Hc & _). subst cp. by rewrite drop_ge in Hc by lia. }
  case_decide as Hme; [rewrite Hme; naive_solver|]. case_decide as Hac; [naive_solver|].
  set (target := if decide (length CONF_REQ_ROOT < _) then _ else _).
  destruct (decide (req_get s HTTP_REQ_METHOD = lit "POST")) as [Hpost|Hpost].
  2: { destruct target as [[[id user] tag]|]; [|by intros (_ & _ & ? & _)].
       rewrite decide_False by done. case_decide; [|by case_decide; intros (_ & _ & ? & _)].
       match goal with |- context [put ?e ?s ?fs ?id ?user ?cp] =>
         destruct (put_cases e s fs id user cp) as [[r ->]|[-> Hn]] end; [by intros (_ & _ & ? & _)|].
       split; [done | by right]. }
  rewrite Hpost in *. destruct (decide (cp = [] \/ contains (drop 1 cp) [slash] = false)) as [Hcp|Hcp].
  - assert (forall x i a, cp = x :: i ++ slash :: a -> slash ∉ i -> False) as Hno.
    { intros x i a Hc Hi. rewrite Hc in Hcp. destruct Hcp as [?|Hcp]; [done|].
      apply bool_decide_eq_false in Hcp. apply Hcp. change (drop 1 (x :: ?r)) with r.
      rewrite find0_char_app by done. by eexists. }
    destruct target as [[[id user] tag]|].
    2: { intros (_ & _ & _ & x & i & a & _ & _ & _ & Hc & Hi & _). by eapply Hno. }
    rewrite !(decide_False (P := lit "POST" = _)) by done. fold cp. rewrite decide_True by exact Hcp.
    match goal with |- context [post_create ?e ?s ?fs ?user ?cp] =>
      destruct (post_create_total e s fs user cp Htok) as [r ->] end.
    intros (_ & _ & _ & x & i & a & _ & _ & _ & Hc & Hi & _). by eapply Hno.
  - destruct (conf_path_parts cp Hcp) as (x & i & a & Hc & Hi).
    assert (target = resolve e (lit "POST") (_user s) fs cp) as ->.
    { unfold target. fold cp. rewrite Hpost. apply decide_True.
      destruct (decide (length CONF_REQ_ROOT < length (req_get s HTTP_REQ_URI))); [done|].
      unfold cp in Hc. by rewrite drop_ge in Hc by lia. }
    rewrite Hc in Hcp |- *.
    assert (forall y k b, x :: i ++ slash :: a = y :: k ++ slash :: b -> slash ∉ k -> x = y /\ i = k /\ a = b) as Hinj.
    { intros y k b [= <- E] Hk. split; [done|]. pose proof (find0_char_app slash i a Hi) as H1.
      rewrite E, find0_char_app in H1 by done. injection H1 as Hlen.
      apply app_inj_1 in E as [-> [= ->]]; [done | by symmetry]. }
    destruct (resolve e (lit "POST") (_user s) fs (x :: i ++ slash :: a)) as [[[id user] tag]|] eqn:E.
    2: { intros (_ & _ & _ & y & k & b & ? & ? & ? & Hc' & Hk & Hr & _).
         apply Hinj in Hc' as (<- & <- & <-); [|done]. congruence. }
    rewrite !(decide_False (P := lit "POST" = _)) by done. fold cp. rewrite Hc, decide_False by exact Hcp.
    match goal with |- context [post_command ?e ?s' _ _ _ _ _] =>
      pose proof (post_command_cases e s' fs id user tag x i a Hi) as Hcases end.
    cbv zeta in Hcases. autorewrite with rest in Hcases.
    destruct (post_command _ _ _ _ _ _ _) as [r|f].
    + intros (_ & _ & _ & y & k & b & id2 & tag2 & id3 & Hc' & Hk & Hr & Hid & Hs). apply Hcases.
      apply Hinj in Hc' as (<- & <- & <-); [|done]. rewrite E in Hr. injection Hr as -> -> ->.
      split; [done|]. by exists id3.
    + destruct Hcases as [-> [[Hu (id3 & Hid & Hs)]|Hn]]; (split; [done|]); [left | by right]. subst user.
      do 3 (split; [done|]). by exists x, i, a, id, tag, id3.
Qed.

(** A daemon that says nothing about a commit. *)
Definition demo_silent : conf_env :=
  mkConfEnv false (fun _ => demo_view) true (fun _ => false) (fun _ => (None, None))
    (fun _ => (Some [], None)) (Some []) (fun _ => None) (fun _ => Some ([], Exited 0))
    [Some (lit "abcdefgh")] (true, true) Some Some NODE_TYPE_LEAF.
Definition demo_commit : Session :=
  request_session (lit "POST") (lit "/rest/conf/" ++ demo_id ++ lit "/commit") AUTH_TYPE_BASIC k_VYATTACFG (lit "alice").

Lemma conf_no_crash_witness :
  process demo_silent demo_commit (demo_files (lit "alice/work")) = Fault NullString /\
  silent_request demo_silent demo_commit (demo_files (lit "alice/work")).
Proof.
  assert (is_ok (generate_token (ce_urandom demo_silent))) as Hg by (by eexists; vm_compute).
  assert (req_get demo_commit HTTP_REQ_METHOD <> lit "GET") as Hm by by_compute.
  pose proof (conf_no_crash demo_silent demo_commit (demo_files (lit "alice/work")) Hg Hm) as H.
  assert (process demo_silent demo_commit (demo_files (lit "alice/work")) = Fault NullString) as E
    by (vm_compute; reflexivity).
  rewrite E in H. destruct H as [_ [H|H]]; [by split|]. exfalso. apply H, never_null_Some.
Defined.

(** Reading a node brings the server down when a line of the
    template's value help ends in its first semicolon: the help text is
    taken from two characters behind it, out of the range of the line. *)
Theorem val_help_out_of_range (json : JSON) (d rest : str) :
  semi ∉ d ->
  (val_help_entry json (d ++ semi :: rest) = Fault OutOfRange <-> rest = []).
Proof.
  intros Hd. unfold val_help_entry. rewrite find_0, find0_char_app by done.
  unfold substr. destruct rest as [|x rest].
  - rewrite decide_False by (rewrite length_app; simpl; lia). by split.
  - rewrite decide_True by (rewrite length_app; simpl; lia). cbn [res_bind].
    rewrite mass_replace_char. cbn [res_bind]. rewrite mass_replace_char. cbn [res_bind].
    destruct (match find _ [colon] 0 with Some _ => _ | None => _ end). by split.
Qed.

Lemma val_help_out_of_range_witness :
  val_help_entry new_JSON (lit "u32:1-10" ++ semi :: []) = Fault OutOfRange <-> [] = @nil ascii.
Proof. apply (val_help_out_of_range new_JSON (lit "u32:1-10") []). by_compute. Defined.

(** ** The interface *)

Lemma get_node_responds e s id user cp s' : get_node e s id user cp = Ok s' -> responded s s'.
Proof. unfold get_node. intros H. responds H. Qed.

Lemma get_list_responds e s fs : responded s (get_list e s fs).
Proof. unfold get_list. case_match; auto with responds. Qed.

Lemma put_responds e s fs id user cp r : put e s fs id user cp = Ok r -> responded s r.1.1.
Proof.
  unfold put. intros H. responds H.
Qed.

Lemma delete_session_responds e s fs id user : responded s (delete_session e s fs id user).1.1.
Proof.
  unfold delete_session. case_decide; [cbn [fst]; auto with responds|].
  destruct (discard_session e id true fs). cbn [fst]. destruct (ce_debug e); auto with responds.
Qed.

Lemma post_create_responds e s fs user cp r : post_create e s fs user cp = Ok r -> responded s r.1.1.
Proof. unfold post_create. intros H. responds H. Qed.

Lemma daemon_command_responds e s sid action r : daemon_command e s sid action = Ok r -> responded s r.1.
Proof.
  unfold daemon_command. intros H. responds H.
Qed.

Lemma post_command_responds e s fs id user tag cp r :
  post_command e s fs id user tag cp = Ok r -> responded s r.1.1.
Proof.
  unfold post_command. intros H. responds H;
    match goal with H : daemon_command _ _ _ _ = _ |- _ => apply daemon_command_responds in H end;
    (etrans; [|eassumption]); auto with responds.
Qed.

Definition conf_allowed (s : Session) (fs : files) (ev : conf_event) : Prop :=
  _access_level s = k_VYATTACFG /\ _auth_type s <> AUTH_TYPE_NONE /\
  exists id, match ev with
             | SessSetup sid => sid = conv_conf_id id
             | SessDiscard sid | SessTeardown sid | SessCommit sid | SessSave sid | Shell sid _ =>
                 may_use fs id (_user s) /\ sid = conv_conf_id id
             end.

Lemma process_allowed e s fs r : process e s fs = Ok r -> Forall (conf_allowed s fs) r.2.
Proof.
  intros H. apply Forall_forall. intros ev Hin. unfold conf_allowed.
  destruct (decide (_auth_type s = AUTH_TYPE_NONE \/ _access_level s <> k_VYATTACFG)) as [Hno|Hyes].
  { destruct (conf_refused e s fs Hno) as (s2 & Hs2 & _). rewrite H in Hs2. injection Hs2 as ->.
    by apply elem_of_nil in Hin. }
  split; [apply dec_stable; tauto|]. split; [tauto|].
  apply conf_acts_for_user in H as [[Hev _] | [(id & Hev & _) _]].
  - destruct (Hev ev Hin) as (id & Hu & Hc). exists id. by destruct ev.
  - exists id. by rewrite (Hev ev Hin).
Qed.

#[export] Instance conf_mode e : Mode (process e) conf_allowed.
Proof.
  split.
  - intros s fs Ha. unfold process. rewrite decide_True by done. eexists. split; [done|].
    apply refused_error; [done | by_compute].
  - intros s fs s' fs' evs H. unfold process in H. responds H.
    all: first
      [ etrans; [|apply get_list_responds]
      | match goal with
        | H : get_node _ _ _ _ _ = _ |- _ => apply get_node_responds in H
        | H : put _ _ _ _ _ _ = _ |- _ => apply put_responds in H
        | H : delete_session ?e ?t ?fs ?id ?user = _ |- _ =>
            pose proof (delete_session_responds e t fs id user) as Hd; rewrite H in Hd
        | H : post_create _ _ _ _ _ = _ |- _ => apply post_create_responds in H
        | H : post_command _ _ _ _ _ _ _ = _ |- _ => apply post_command_responds in H
        end; etrans; [|eassumption] ]; auto with responds.
  - intros s fs s' fs' evs. apply process_allowed.
  - intros s s' fs ev (_ & _ & Hu & Ha & _ & Ht & _). unfold conf_allowed. by rewrite Hu, Ha, Ht.
Qed.
