(* ===== verification/OpMode.v ===== *)
(** * [OpMode] (opmode.hh, opmode.cc)

    Operational commands behind [/rest/op]: starting one, listing a user's
    background commands, describing a node of the command tree, fetching the
    next piece of output and ending a command.  The handler's connections to
    the chunker daemon and to the operational daemon are parameters; the
    messages by which it starts and ends commands are part of its result. *)

From S2P Require Import Prelude CppString StrProc Common CppMap Http Mode ChunkerProcessor ChunkerManager MultiResp Configuration.

(** The environment of a request.  [oe_init] and [oe_write] are about the
    request's connections to the chunker daemon, in order. *)
Record op_env := mkOpEnv {
  oe_init : nat -> bool;             (* MultiResponseCommand::init *)
  oe_write : nat -> bool;            (* write to the socket *)
  oe_answer : str -> option str;     (* what read returns for a message *)
  oe_einval : bool;                  (* errno is EINVAL *)
  oe_open : bool;                    (* fopen and fseek on the data file *)
  oe_later : files -> files;         (* the files at get_chunk's second look at them *)
  oe_indeterminate : N;              (* an uninitialised member *)
  oe_urandom : list (option str);
  oe_opd_open : bool;                (* opd_open *)
  oe_opd : opd_view;
  oe_unescape : str -> option str;   (* curl_easy_unescape *)
  oe_node_type0 : node_type;         (* an uninitialised member *)
}.

(** The session, the files and the messages that start or end a command. *)
Abbreviation op_outcome := (Session * files * list str)%type.

Definition chunker_failed : str := lit "op:chunker init failed".

Section Handlers.
Variable e : op_env.

(** ** POST *)

Definition post (s : Session) (fs : files) (path : str) : res op_outcome :=
  if decide (length path <= length OP_REQ_ROOT) then Ok (Error VALIDATION_FAILURE s, fs, [])
  else
    let* cmd := substr_from path (length OP_REQ_ROOT + 1) in
    let* cmd := translate_rest_to_cli (oe_unescape e) cmd in
    if oe_init e 0 then
      let* '(id, msg) := start (oe_write e 0) (oe_urandom e) (Http._user s) cmd in
      let sent := match msg with Some msg => [msg] | None => [] end in
      if decide (id = []) then Ok (Error SERVER_ERROR s, fs, sent)
      else
        let s := resp_set HTTP_RESP_LOCATION (lit "rest/op/" ++ id) s in
        Ok (Error CREATED (vyatta_debug (lit "op:1.2") s), fs, sent)
    else Ok (Error SERVER_ERROR (vyatta_debug chunker_failed s), fs, []).

(** ** GET of the list *)

Definition list_entry (pd : ProcessData) : str :=
  lit "{" ++ dq (lit "username") ++ lit ":" ++ dq (_username pd) ++ lit "," ++
  dq (lit "started") ++ lit ":" ++ dq (dec_signed (_start_time pd)) ++ lit "," ++
  dq (lit "updated") ++ lit ":" ++ dq (dec_signed (_last_update pd)) ++ lit "," ++
  dq (lit "id") ++ lit ":" ++ dq (_id pd) ++ lit "," ++
  dq (lit "command") ++ lit ":" ++ dq (_command pd) ++ lit "}".

Definition get_list (s : Session) : res Session :=
  if oe_init e 0 then
    let* coll := get_processes (oe_write e 0) (oe_answer e) (oe_indeterminate e) (Http._user s) in
    Ok (set_json (add_all new_JSON (lit "process") (list_entry <$> coll) true) s)
  else Ok (Error SERVER_ERROR (vyatta_debug chunker_failed s)).

(** ** GET of a node *)

(** [validate_op_cmd]: the path below [/rest/op/], when it is a command. *)
Definition validate_op_cmd (cmd : str) : option str :=
  if decide (length cmd < length (lit "/rest/op/")) then None
  else if oe_opd_open e then
    let tmp := drop (length (lit "/rest/op/")) cmd in
    if opd_expand (oe_opd e) (cstr tmp) then Some tmp else None
  else None.

Definition node_json (params : TemplateParams) : JSON :=
  let json := add_value new_JSON (lit "help") (_help params) in
  let json := add_value json (lit "action") (if _action params then lit "true" else lit "false") in
  let json := add_all json (lit "children") (_name <$> _children_coll params) false in
  add_all json (lit "enum") (sset_elements (_enum params)) false.

Definition get_node (s : Session) (op_path : str) : res Session :=
  let s := vyatta_debug (lit "get op conf data: " ++ op_path) s in
  let* params := get_operational_node (oe_opd e) op_path (new_TemplateParams (oe_node_type0 e)) in
  Ok (set_json (node_json params) s).

(** ** GET of output *)

(** The response to a piece of output. *)
Definition segment_response (s : Session) (fs : files) (id out : str) : res op_outcome :=
  if decide (out = lit "END") then
    if oe_init e 2 then
      let* msg := kill (oe_write e 2) (Http._user s) id in
      Ok (Error OPMODE_PROCESS_FINISHED s, fs, match msg with Some msg => [msg] | None => [] end)
    else Ok (Error SERVER_ERROR s, fs, [])
  else if decide (out = []) then Ok (Error ACCEPTED s, fs, [])
  else
    let s := resp_set HTTP_RESP_CONTENT_TYPE (lit "text/plain") s in
    let s := upd_response set_verbatim (resp_set HTTP_BODY out s) in
    Ok (Error E_OK s, fs, []).

Definition get_segment (s : Session) (fs : files) (path : str) : res op_outcome :=
  let s := vyatta_debug (lit "get_bg_data: ") s in
  match rfind path [slash] with
  | None => Ok (s, fs, [])
  | Some pos =>
      let* id := substr_from path (pos + 1) in
      if decide (length id <> 16) then Ok (Error VALIDATION_FAILURE s, fs, [])
      else
        let s := vyatta_debug (lit ": " ++ id) s in
        if oe_init e 0 then
          let* pd := get_process_details (oe_write e 0) (oe_answer e) (oe_indeterminate e)
                       (Http._user s) id in
          if decide (_id pd = []) then Ok (Error OPMODE_PROCESS_FINISHED s, fs, [])
          else if oe_init e 1 then
            let* '(out, fs) := get_chunk (oe_write e 1) (oe_answer e) (oe_open e) (oe_einval e) fs (oe_later e fs) (Http._user s) id in
            segment_response s fs id out
          else Ok (vyatta_debug chunker_failed (Error SERVER_ERROR s), fs, [])
        else Ok (vyatta_debug chunker_failed (Error SERVER_ERROR s), fs, [])
  end.

(** ** DELETE *)

Definition delete_command (s : Session) (fs : files) (path : str) : res op_outcome :=
  let id := match rfind path [slash] with
            | Some pos => drop (pos + 1) path
            | None => path
            end in
  if decide (length id < 16) then Ok (Error VALIDATION_FAILURE s, fs, [])
  else if oe_init e 0 then
    let* msg := kill (oe_write e 0) (Http._user s) id in
    Ok (set_json (add_value new_JSON (lit "message") (lit " ")) s, fs,
        match msg with Some msg => [msg] | None => [] end)
  else Ok (Error SERVER_ERROR s, fs, []).

(** ** [process] *)

Definition process (s : Session) (fs : files) : res op_outcome :=
  if decide (_auth_type s = AUTH_TYPE_NONE) then Ok (Error AUTHORIZATION_FAILURE s, fs, [])
  else
    let path := req_get s HTTP_REQ_URI in
    if decide (path = []) then Ok (Error VALIDATION_FAILURE (vyatta_debug (lit "op:1") s), fs, [])
    else if decide (length path < length OP_REQ_ROOT) then Ok (Error VALIDATION_FAILURE s, fs, [])
    else
      let method := req_get s HTTP_REQ_METHOD in
      if decide (method = lit "POST") then post s fs path
      else if decide (method = lit "GET") then
        if decide (path = OP_REQ_ROOT) then let* s := get_list s in Ok (s, fs, [])
        else
          match validate_op_cmd path with
          | Some op_path => let* s := get_node s op_path in Ok (s, fs, [])
          | None => get_segment s fs path
          end
      else if decide (method = lit "DELETE") then delete_command s fs path
      else Ok (Error VALIDATION_FAILURE s, fs, []).
End Handlers.

(** ** Starting a command *)

(** A handled request: an authenticated user, and the method and path. *)
Definition op_request (s : Session) (method path : str) : Prop :=
  _auth_type s <> AUTH_TYPE_NONE /\ req_get s HTTP_REQ_METHOD = method /\ req_get s HTTP_REQ_URI = path.

#[export] Instance op_request_dec s method path : Decision (op_request s method path).
Proof. unfold op_request. apply _. Defined.

(** The path of something below [/rest/op]. *)
Definition op_path (rest : str) : str := OP_REQ_ROOT ++ slash :: rest.

Lemma process_dispatch e s fs method rest :
  op_request s method (op_path rest) ->
  process e s fs =
  if decide (method = lit "POST") then post e s fs (op_path rest)
  else if decide (method = lit "GET") then
    match validate_op_cmd e (op_path rest) with
    | Some p => let* s := get_node e s p in Ok (s, fs, [])
    | None => get_segment e s fs (op_path rest)
    end
  else if decide (method = lit "DELETE") then delete_command e s fs (op_path rest)
  else Ok (Error VALIDATION_FAILURE s, fs, []).
Proof.
  intros (Ha & Hm & Hp). unfold process. rewrite Hm, Hp, decide_False by done.
  rewrite (decide_False (P := op_path rest = [])) by done.
  rewrite (decide_False (P := length (op_path rest) < _)) by (unfold op_path; rewrite length_app; lia).
  repeat (case_decide; try done).
Qed.

Lemma op_path_rest rest : substr_from (op_path rest) (length OP_REQ_ROOT + 1) = Ok rest.
Proof.
  unfold substr_from, op_path. rewrite decide_True by (rewrite length_app; simpl; lia).
  by rewrite drop_app_add.
Qed.

(** The 201 response of a started command. *)
Definition started_response (tok : str) (s : Session) : Session :=
  Error CREATED (vyatta_debug (lit "op:1.2") (resp_set HTTP_RESP_LOCATION (lit "rest/op/" ++ tok) s)).

Lemma started_response_code tok s : resp_get (started_response tok s) HTTP_RESP_CODE = lit "201".
Proof. apply Error_code. Qed.

Lemma started_response_location tok s :
  resp_get (started_response tok s) HTTP_RESP_LOCATION = lit "rest/op/" ++ tok.
Proof.
  unfold started_response, Error, Error_msg. cbn [http_response_error].
  rewrite resp_get_set_ne by done. rewrite decide_False by (intros H; by apply H).
  by autorewrite with rest.
Qed.

Lemma post_started e s fs rest cmd tok left :
  op_request s (lit "POST") (op_path rest) ->
  translate_rest_to_cli (oe_unescape e) rest = Ok cmd ->
  generate_token (oe_urandom e) = Ok (tok, left) -> length tok = 16 ->
  oe_init e 0 = true -> oe_write e 0 = true ->
  length (CHUNKER_COMMAND_FORMAT tok cmd (Http._user s)) < 1024 ->
  process e s fs =
  Ok (started_response tok s, fs, [wire (CHUNKER_COMMAND_FORMAT tok cmd (Http._user s))]).
Proof.
  intros Hr Htr Htok Hlen Hi Hw Hfit. rewrite (process_dispatch _ _ _ _ _ Hr), decide_True by done.
  unfold post. rewrite decide_False by (unfold op_path; rewrite length_app; simpl; lia).
  rewrite op_path_rest. cbn [res_bind]. rewrite Htr. cbn [res_bind]. rewrite Hi, Hw.
  rewrite (start_ok _ _ _ _ _ Htok) by (done || lia). cbn [res_bind].
  rewrite decide_False by (by intros ->). done.
Qed.

(** Claim C11: a POST of a command path starts that command: the response is a
    201 with the location of a new token, and the one message sent makes the
    chunker daemon run the words of the path, the first as it stands and
    the others decoded and quoted, as the user of the request under that
    token.  (libcurl decodes them without returning a null pointer, which
    would bring the server down.) *)
Theorem op_post_starts (e : op_env) (s : Session) (fs : files) (x : ascii) (h : str) (segs : list str)
    (tok : str) (left : list (option str)) (stack : str) (ex : str -> nat -> bool) (m : ChunkerManager) (dfs : files) (t sock : N) :
  op_request s (lit "POST") (op_path ((x :: h) ++ (segs ≫= cons slash))) ->
  never_null (oe_unescape e) -> slash ∉ h -> Forall (fun g => slash ∉ g) segs -> segs <> [] ->
  generate_token (oe_urandom e) = Ok (tok, left) -> length tok = 16 ->
  oe_init e 0 = true -> oe_write e 0 = true ->
  let cmd := (x :: h) ++ (segs ≫= segment_arg (oe_unescape e)) in
  let user := Http._user s in
  clean cmd -> clean user -> user <> [] -> sock <> 0%N ->
  length (CHUNKER_COMMAND_FORMAT tok cmd user) < 1024 -> mget tok (_proc_coll m) = None ->
  exists s' msg, process e s fs = Ok (s', fs, [msg]) /\
    resp_get s' HTTP_RESP_CODE = lit "201" /\ resp_get s' HTTP_RESP_LOCATION = lit "rest/op/" ++ tok /\
    ChunkerManager.process stack ex m dfs t sock (take 1024 msg) =
    (upd_coll (mset tok (mkProcessData (processor_init (_chunk_size m) (_pid m) (ChunkerManager._debug m))
                           t t cmd tok user 0 K_RUNNING)) m, dfs, [Started tok cmd user]).
Proof.
  intros Hr Hnn Hh Hsegs Hne Htok Hlen Hi Hw cmd user Hc Hu Hune Hsock Hfit Hnew.
  assert (translate_rest_to_cli (oe_unescape e) ((x :: h) ++ (segs ≫= cons slash)) = Ok cmd) as Htr.
  { by rewrite translate_spec, translated_segments. }
  eexists _, _. split; [by eapply post_started|]. split; [apply started_response_code|].
  split; [apply started_response_location|].
  eapply start_registers; [apply (start_ok _ _ _ _ _ Htok); [lia | done] | done..].
Qed.

Definition demo_op_env (answer : str -> option str) : op_env :=
  mkOpEnv (fun _ => true) (fun _ => true) answer false true id 0 [Some (lit "abcdefgh")] false
    (mkOpd (fun _ => None) (fun _ => []) (fun _ => []) (fun _ => false)) Some NODE_TYPE_LEAF.

Definition op_session (method path user : str) : Session :=
  request_session method path AUTH_TYPE_BASIC k_VYATTAOP user.

Lemma op_post_starts_witness :
  let cmd := lit "show" ++ ([lit "version"; lit "all"] ≫= segment_arg Some) in
  exists s' msg,
    process (demo_op_env (fun _ => None))
      (op_session (lit "POST") (lit "/rest/op/show/version/all") (lit "vyatta")) ∅ = Ok (s', ∅, [msg]) /\
    resp_get s' HTTP_RESP_CODE = lit "201" /\
    resp_get s' HTTP_RESP_LOCATION = lit "rest/op/" ++ lit "6463626168676665" /\
    ChunkerManager.process [] (fun _ _ => false) (main_manager default_config) ∅ 7 3 (take 1024 msg) =
    (upd_coll (mset (lit "6463626168676665")
       (mkProcessData (processor_init 98304 (lit "/tmp") false) 7 7 cmd
          (lit "6463626168676665") (lit "vyatta") 0 K_RUNNING)) (main_manager default_config), ∅,
     [Started (lit "6463626168676665") cmd (lit "vyatta")]).
Proof.
  intros cmd.
  apply (op_post_starts (demo_op_env (fun _ => None))
    (op_session (lit "POST") (lit "/rest/op/show/version/all") (lit "vyatta")) ∅
    (ascii_of_nat 115) (lit "how") [lit "version"; lit "all"] (lit "6463626168676665") []
    [] (fun _ _ => false) (main_manager default_config) ∅ 7 3); try apply never_null_Some; try by_compute; done.
Defined.

(** A POST of a path of a single segment is also answered by a 201
    and a location, but the command line is empty, and the daemon ignores
    the message: no command runs under the token. *)
Theorem op_post_single_segment (e : op_env) (s : Session) (fs : files) (x : ascii) (h tok : str)
    (left : list (option str)) (stack : str) (ex : str -> nat -> bool) (m : ChunkerManager)
    (dfs : files) (t sock : N) :
  op_request s (lit "POST") (op_path (x :: h)) -> slash ∉ h ->
  generate_token (oe_urandom e) = Ok (tok, left) -> length tok = 16 ->
  oe_init e 0 = true -> oe_write e 0 = true ->
  clean (Http._user s) -> sock <> 0%N -> length (Http._user s) < 900 -> mget tok (_proc_coll m) = None ->
  exists s' msg, process e s fs = Ok (s', fs, [msg]) /\
    resp_get s' HTTP_RESP_CODE = lit "201" /\ resp_get s' HTTP_RESP_LOCATION = lit "rest/op/" ++ tok /\
    ChunkerManager.process stack ex m dfs t sock (take 1024 msg) = (m, dfs, []).
Proof.
  intros Hr Hh Htok Hlen Hi Hw Hu Hsock Hl Hnew.
  assert (translate_rest_to_cli (oe_unescape e) (x :: h) = Ok []) as Htr
    by (by apply translate_single).
  assert (tok <> []) as Hne by (by intros ->).
  destruct (token_clean _ _ _ Htok Hne) as [Ht1 Ht2].
  assert (length (CHUNKER_COMMAND_FORMAT tok [] (Http._user s)) < 1024) as Hfit.
  { rewrite command_format_length. change command_overhead with 87. destruct Hu.
    rewrite (cstr_id tok), (cstr_id (Http._user s)) by done. simpl. lia. }
  eexists _, _. split; [by eapply post_started|]. split; [apply started_response_code|].
  split; [apply started_response_location|].
  rewrite process_start by (done || (split; apply not_elem_of_nil)).
  unfold process_command. rewrite Hnew. unfold start_new_parent.
  by rewrite bool_decide_eq_true_2 by (by left).
Qed.

Lemma op_post_single_segment_witness :
  exists s' msg,
    process (demo_op_env (fun _ => None))
      (op_session (lit "POST") (lit "/rest/op/reboot") (lit "vyatta")) ∅ = Ok (s', ∅, [msg]) /\
    resp_get s' HTTP_RESP_CODE = lit "201" /\
    resp_get s' HTTP_RESP_LOCATION = lit "rest/op/" ++ lit "6463626168676665" /\
    ChunkerManager.process [] (fun _ _ => false) (main_manager default_config) ∅ 7 3 (take 1024 msg) =
    (main_manager default_config, ∅, []).
Proof.
  apply (op_post_single_segment (demo_op_env (fun _ => None))
    (op_session (lit "POST") (lit "/rest/op/reboot") (lit "vyatta")) ∅
    (ascii_of_nat 114) (lit "eboot") (lit "6463626168676665") []
    [] (fun _ _ => false) (main_manager default_config) ∅ 7 3); try by_compute; done.
Defined.

(** ** Fetching output *)

(** What the response says for a piece of output. *)
Definition segment_code (out : str) : str :=
  if decide (out = lit "END") then lit "410"
  else if decide (out = []) then lit "202"
  else lit "200".

Lemma segment_response_spec e s fs id out :
  oe_init e 2 = true -> oe_write e 2 = true -> Http._user s <> [] -> id <> [] ->
  length (CHUNKER_DELETE_FORMAT id (Http._user s)) < 1024 ->
  exists s', segment_response e s fs id out =
      Ok (s', fs, if decide (out = lit "END") then [wire (CHUNKER_DELETE_FORMAT id (Http._user s))] else []) /\
    resp_get s' HTTP_RESP_CODE = segment_code out /\
    (segment_code out = lit "200" -> resp_get s' HTTP_BODY = out /\ _verbatim_body (_response s') = true /\
       resp_get s' HTTP_RESP_CONTENT_TYPE = lit "text/plain").
Proof.
  intros Hi Hw Hu Hid Hfit. unfold segment_response, segment_code. rewrite Hi, Hw.
  case_decide; [|case_decide].
  - unfold kill. rewrite decide_False by naive_solver. unfold sprintf_into. rewrite decide_True by done.
    eexists. split; [done|]. split; [apply Error_code | done].
  - eexists. split; [done|]. split; [apply Error_code | done].
  - eexists. split; [done|]. split; [apply Error_code|]. intros _.
    unfold Error, Error_msg. cbn [http_response_error].
    rewrite decide_False by (intros H'; by apply H').
    split; [|split; [done|]]; rewrite resp_get_set_ne by done.
    + apply (resp_get_set_eq HTTP_BODY out).
    + etrans; [apply (resp_get_set_ne HTTP_BODY HTTP_RESP_CONTENT_TYPE out); done|]. apply resp_get_set_eq.
Qed.

Lemma get_segment_id e s fs id :
  slash ∉ id -> length id = 16 ->
  get_segment e s fs (op_path id) =
  let s := vyatta_debug (lit ": " ++ id) (vyatta_debug (lit "get_bg_data: ") s) in
  if oe_init e 0 then
    let* pd := get_process_details (oe_write e 0) (oe_answer e) (oe_indeterminate e) (Http._user s) id in
    if decide (_id pd = []) then Ok (Error OPMODE_PROCESS_FINISHED s, fs, [])
    else if oe_init e 1 then
      let* '(out, fs) := get_chunk (oe_write e 1) (oe_answer e) (oe_open e) (oe_einval e) fs (oe_later e fs) (Http._user s) id in
      segment_response e s fs id out
    else Ok (vyatta_debug chunker_failed (Error SERVER_ERROR s), fs, [])
  else Ok (vyatta_debug chunker_failed (Error SERVER_ERROR s), fs, []).
Proof.
  intros Hs Hl. unfold get_segment, op_path. rewrite rfind_char_app by done.
  unfold substr_from. rewrite decide_True by (rewrite length_app; simpl; lia).
  rewrite drop_app_add. cbn [res_bind drop]. rewrite drop_0, decide_False by (intros H; by apply H).
  by autorewrite with rest.
Qed.

(** A request about a token: what it names and what the messages about it
    need. *)
Definition token_request (s : Session) (token : str) : Prop :=
  (slash ∉ token) /\ length token = 16 /\ clean token /\
  clean (Http._user s) /\ Http._user s <> [] /\ length (Http._user s) < 900.

#[export] Instance token_request_dec s token : Decision (token_request s token).
Proof. unfold token_request. apply _. Defined.

Lemma request_format_length req token user :
  length (request_format req token user) =
  length (request_format req [] []) + length (cstr token) + length (cstr user).
Proof. unfold request_format. rewrite !length_app. cbn [cstr length]. lia. Qed.

Lemma token_request_fits s token req :
  token_request s token -> req ∈ requests ->
  length (request_format req token (Http._user s)) < 1024.
Proof.
  intros (_ & Hl & [_ Ht] & [_ Hu] & _ & Hul) Hreq. rewrite request_format_length.
  rewrite (cstr_id token), (cstr_id (Http._user s)) by done.
  assert (length (request_format req [] []) < 100).
  { unfold requests in Hreq. rewrite !elem_of_cons in Hreq.
    destruct Hreq as [->|[->|[->|[->|[]%elem_of_nil]]]]; apply Nat.ltb_lt; reflexivity. }
  lia.
Qed.

(** The entries of the daemon's table fit its answers. *)
Definition entries_fit (m : ChunkerManager) (token : str) : Prop :=
  manager_ok m /\
  forall pd, mget token (_proc_coll m) = Some pd -> plain_entry pd /\ length (process_item pd) < reply_size.

(** A request for output, from what the daemon answers about the command and
    from the next piece. *)
Lemma process_segment e s fs token details :
  op_request s (lit "GET") (op_path token) -> token_request s token ->
  validate_op_cmd e (op_path token) = None ->
  (forall n, oe_init e n = true) -> (forall n, oe_write e n = true) ->
  get_process_details true (oe_answer e) (oe_indeterminate e) (Http._user s) token = Ok details ->
  if decide (_id details = [])
  then exists s', process e s fs = Ok (s', fs, []) /\ resp_get s' HTTP_RESP_CODE = lit "410"
  else
    forall out fs', get_chunk true (oe_answer e) (oe_open e) (oe_einval e) fs (oe_later e fs) (Http._user s) token = Ok (out, fs') ->
    exists s', process e s fs =
        Ok (s', fs', if decide (out = lit "END")
                     then [wire (CHUNKER_DELETE_FORMAT token (Http._user s))] else []) /\
      resp_get s' HTTP_RESP_CODE = segment_code out /\
      (segment_code out = lit "200" ->
         resp_get s' HTTP_BODY = out /\ _verbatim_body (_response s') = true /\
         resp_get s' HTTP_RESP_CONTENT_TYPE = lit "text/plain").
Proof.
  intros Hr Htr Hv Hi Hw Hd. pose proof Htr as (Hslash & Hlen & _ & _ & Hu & _).
  assert (token <> []) as Htn by (by intros ->).
  rewrite (process_dispatch _ _ _ _ _ Hr), (decide_False (P := lit "GET" = _)),
    (decide_True (P := lit "GET" = _)), Hv, get_segment_id by done.
  set (s1 := vyatta_debug _ _). rewrite !Hi, !Hw.
  assert (Http._user s1 = Http._user s) as Hus by (unfold s1; by autorewrite with rest).
  cbv zeta. rewrite Hus, Hd. cbn [res_bind]. case_decide; [eexists; split; [done | apply Error_code]|].
  intros out fs' ->. cbn [res_bind]. rewrite <- Hus.
  apply segment_response_spec; [done.. | by rewrite Hus | done |].
  rewrite Hus. apply (token_request_fits s); [done | by_compute].
Qed.

(** Claim C10: output is handed to its owner only.  For the token of a command
    of somebody else, and for one that is not known, the answer is the same
    410 without reading or ending anything.  The owner's request asks for
    the next chunk and answers 200 with exactly that text as a plain body,
    202 when there is none yet, and 410 at the end, when it also has the
    daemon end the command. *)
Theorem op_output_owner (e : op_env) (s : Session) (fs : files) (token : str)
    (stack : str) (ex : str -> nat -> bool) (m : ChunkerManager) (dfs : files) (t sock : N) :
  op_request s (lit "GET") (op_path token) -> token_request s token ->
  validate_op_cmd e (op_path token) = None ->
  oe_answer e = daemon stack ex m dfs t sock -> sock <> 0%N -> entries_fit m token ->
  (forall n, oe_init e n = true) -> (forall n, oe_write e n = true) ->
  match mget token (_proc_coll m) with
  | Some pd =>
      if decide (_user pd = Http._user s) then
        forall out fs', get_chunk true (oe_answer e) (oe_open e) (oe_einval e) fs (oe_later e fs) (Http._user s) token = Ok (out, fs') ->
        exists s', process e s fs =
            Ok (s', fs', if decide (out = lit "END")
                         then [wire (CHUNKER_DELETE_FORMAT token (Http._user s))] else []) /\
          resp_get s' HTTP_RESP_CODE = segment_code out /\
          (segment_code out = lit "200" ->
             resp_get s' HTTP_BODY = out /\ _verbatim_body (_response s') = true /\
             resp_get s' HTTP_RESP_CONTENT_TYPE = lit "text/plain")
      else exists s', process e s fs = Ok (s', fs, []) /\ resp_get s' HTTP_RESP_CODE = lit "410"
  | None => exists s', process e s fs = Ok (s', fs, []) /\ resp_get s' HTTP_RESP_CODE = lit "410"
  end.
Proof.
  intros Hr Htr Hv Ha Hsock [Hok Hfit] Hi Hw. pose proof Htr as (_ & Hlen & Hct & Hcu & Hu & _).
  assert (token <> []) as Htn by (by intros ->).
  pose proof (details_roundtrip stack ex m dfs t sock (oe_indeterminate e) (Http._user s) token Hok Hcu Hct Hu
    Htn Hsock (token_request_fits s token (lit "details") Htr ltac:(by_compute)) Hfit) as Hd.
  rewrite <- Ha in Hd. pose proof (process_segment e s fs token _ Hr Htr Hv Hi Hw Hd) as Hp. revert Hp.
  destruct (mget token (_proc_coll m)) as [pd|] eqn:E; [|by rewrite decide_True by done].
  case_decide; [|by rewrite decide_True by done].
  destruct Hok as [_ Hm]. by rewrite decide_False by (cbn; by rewrite (entry_key _ _ _ (Hm _ _ E))).
Qed.

Definition demo_id : str := lit "6463626168676665".

Definition demo_answer : str -> option str := daemon [] (fun _ _ => false) demo_manager ∅ 9 3.

Lemma demo_entries : entries_fit demo_manager demo_id.
Proof.
  split.
  - split; [repeat constructor|]. intros key pd Hk.
    assert (key = demo_id) as ->.
    { destruct (decide (key = demo_id)); [done|].
      apply mget_Some_elem in Hk. vm_compute in Hk. set_solver. }
    vm_compute in Hk. injection Hk as <-. by split.
  - intros pd Hk. vm_compute in Hk. injection Hk as <-. split; by_compute.
Qed.

Lemma op_output_owner_witness :
  let e := demo_op_env demo_answer in
  let s := op_session (lit "GET") (op_path demo_id) (lit "eve") in
  match mget demo_id (_proc_coll demo_manager) with
  | Some pd =>
      if decide (_user pd = Http._user s) then
        forall out fs', get_chunk true (oe_answer e) (oe_open e) (oe_einval e) ∅ (oe_later e ∅) (Http._user s) demo_id = Ok (out, fs') ->
        exists s', process e s ∅ =
            Ok (s', fs', if decide (out = lit "END")
                         then [wire (CHUNKER_DELETE_FORMAT demo_id (Http._user s))] else []) /\
          resp_get s' HTTP_RESP_CODE = segment_code out /\
          (segment_code out = lit "200" ->
             resp_get s' HTTP_BODY = out /\ _verbatim_body (_response s') = true /\
             resp_get s' HTTP_RESP_CONTENT_TYPE = lit "text/plain")
      else exists s', process e s ∅ = Ok (s', ∅, []) /\ resp_get s' HTTP_RESP_CODE = lit "410"
  | None => exists s', process e s ∅ = Ok (s', ∅, []) /\ resp_get s' HTTP_RESP_CODE = lit "410"
  end.
Proof.
  intros e s.
  apply (op_output_owner e s ∅ demo_id [] (fun _ _ => false) demo_manager ∅ 9 3);
    [by_compute | by_compute | by vm_compute | done | done | apply demo_entries | done | done].
Defined.

(** ** Ending a command *)

(** A DELETE ends any command.  Any user's request for the path of
    any token is answered 200 (no status is set) with an empty message, and
    the message it sends makes the daemon kill the command of that token,
    whoever started it. *)
Theorem op_delete_any_user (e : op_env) (s : Session) (fs : files) (token : str)
    (stack : str) (ex : str -> nat -> bool) (m : ChunkerManager) (dfs : files) (t sock : N) :
  op_request s (lit "DELETE") (op_path token) -> token_request s token -> sock <> 0%N ->
  oe_init e 0 = true -> oe_write e 0 = true ->
  exists s' msg, process e s fs = Ok (s', fs, [msg]) /\
    resp_get s' HTTP_RESP_CODE = resp_get s HTTP_RESP_CODE /\
    ChunkerManager.process stack ex m dfs t sock (take 1024 msg) = kill_process stack ex m dfs token.
Proof.
  intros Hr Htr Hsock Hi Hw. pose proof Htr as (Hslash & Hlen & Hct & Hcu & Hu & _).
  assert (token <> []) as Htn by (by intros ->).
  assert (kill true (Http._user s) token = Ok (Some (wire (CHUNKER_DELETE_FORMAT token (Http._user s))))) as Hk.
  { unfold kill. rewrite decide_False by naive_solver. unfold sprintf_into.
    rewrite decide_True by (apply (token_request_fits s); [done | by_compute]). done. }
  rewrite (process_dispatch _ _ _ _ _ Hr), !decide_False, decide_True by done.
  unfold delete_command, op_path. rewrite rfind_char_app by done. rewrite drop_app_add.
  cbn [drop]. rewrite drop_0, decide_False, Hi, Hw, Hk by lia. cbn [res_bind].
  eexists _, _. split; [done|]. split; [by apply resp_get_set_ne|]. by eapply delete_any_user.
Qed.

Lemma op_delete_any_user_witness :
  exists s' msg,
    process (demo_op_env demo_answer) (op_session (lit "DELETE") (op_path demo_id) (lit "eve")) ∅ =
      Ok (s', ∅, [msg]) /\
    resp_get s' HTTP_RESP_CODE =
      resp_get (op_session (lit "DELETE") (op_path demo_id) (lit "eve")) HTTP_RESP_CODE /\
    ChunkerManager.process [] (fun _ _ => false) demo_manager {[ pid_file demo_id := lit "42" ]} 9 3
      (take 1024 msg) =
    kill_process [] (fun _ _ => false) demo_manager {[ pid_file demo_id := lit "42" ]} demo_id.
Proof. apply (op_delete_any_user (demo_op_env demo_answer)); [by_compute.. | done | done]. Defined.

(** ** The list *)

Lemma op_list_body (e : op_env) (s : Session) (fs : files)
    (stack : str) (ex : str -> nat -> bool) (m : ChunkerManager) (dfs : files) (t sock : N) :
  op_request s (lit "GET") OP_REQ_ROOT -> clean (Http._user s) -> Http._user s <> [] ->
  length (Http._user s) < 900 -> sock <> 0%N ->
  oe_init e 0 = true -> oe_write e 0 = true -> oe_answer e = daemon stack ex m dfs t sock ->
  let own := (filter (owned (Http._user s)) (_proc_coll m)).*2 in
  Forall plain_entry own -> length (process_list m (Http._user s)) < reply_size ->
  exists s', process e s fs = Ok (s', fs, []) /\
    resp_get s' HTTP_BODY =
    match own with
    | [] => []
    | _ => lit "{" ++ array_member (lit "process",
                        (fun pd => list_entry (client_view (oe_indeterminate e) pd)) <$> own) ++ lit "}"
    end.
Proof.
  intros (Hauth & Hm & Hp) Hc Hu Hul Hsock Hi Hw Ha own Hown Hlist.
  unfold process. rewrite Hm, Hp, decide_False by done.
  rewrite !(decide_False (P := OP_REQ_ROOT = [])), !(decide_False (P := length OP_REQ_ROOT < _)) by (done || lia).
  rewrite (decide_False (P := lit "GET" = lit "POST")), (decide_True (P := lit "GET" = lit "GET")),
    (decide_True (P := OP_REQ_ROOT = OP_REQ_ROOT)) by done.
  unfold get_list. rewrite Hi, Hw, Ha.
  rewrite listing_roundtrip; [| done.. | | done | done].
  2: { unfold CHUNKER_PROCESS_FORMAT. rewrite request_format_length. destruct Hc.
       rewrite (cstr_id (Http._user s)) by done. change (length (request_format (lit "process") [] [])) with 64.
       change (length (cstr _)) with 6. lia. }
  cbn [res_bind]. eexists. split; [done|]. unfold set_json. rewrite resp_get_set_eq.
  fold own. rewrite json_serialize_members.
  2: { apply json_flat_add_all, json_flat_new. }
  rewrite add_all_new by done.
  assert (filter (fun v => v <> []) (list_entry <$> (client_view (oe_indeterminate e) <$> own)) =
          (fun pd => list_entry (client_view (oe_indeterminate e) pd)) <$> own) as ->.
  { clear. induction own as [|pd own IH]; [done|]. rewrite !fmap_cons, filter_cons, decide_True by done.
    by rewrite IH. }
  destruct own as [|pd own']; [done|]. cbn [fmap list_fmap]. unfold json_members. cbn [_array _value mset].
  rewrite list_fmap_id. done.
Qed.

(** Claim C20: the list a user reads is exactly the user's own commands of the
    daemon's table, in the order of their tokens, as the objects of one
    array; without any the body is empty. *)
Theorem op_list_correct (e : op_env) (s : Session) (fs : files)
    (stack : str) (ex : str -> nat -> bool) (m : ChunkerManager) (dfs : files) (t sock : N) :
  op_request s (lit "GET") OP_REQ_ROOT -> clean (Http._user s) -> Http._user s <> [] ->
  length (Http._user s) < 900 -> sock <> 0%N ->
  oe_init e 0 = true -> oe_write e 0 = true -> oe_answer e = daemon stack ex m dfs t sock ->
  let own := (filter (owned (Http._user s)) (_proc_coll m)).*2 in
  Forall plain_entry own -> length (process_list m (Http._user s)) < reply_size ->
  exists s', process e s fs = Ok (s', fs, []) /\
    resp_get s' HTTP_BODY =
    match own with
    | [] => []
    | _ => lit "{" ++ array_member (lit "process",
                        (fun pd => list_entry (client_view (oe_indeterminate e) pd)) <$> own) ++ lit "}"
    end.
Proof. apply op_list_body. Qed.

Lemma op_list_correct_witness :
  let e := demo_op_env demo_answer in
  let s := op_session (lit "GET") OP_REQ_ROOT (lit "vyatta") in
  let own := (filter (owned (Http._user s)) (_proc_coll demo_manager)).*2 in
  exists s', process e s ∅ = Ok (s', ∅, []) /\
    resp_get s' HTTP_BODY =
    match own with
    | [] => []
    | _ => lit "{" ++ array_member (lit "process",
                        (fun pd => list_entry (client_view (oe_indeterminate e) pd)) <$> own) ++ lit "}"
    end.
Proof.
  intros e s.
  apply (op_list_correct e s ∅ [] (fun _ _ => false) demo_manager ∅ 9 3);
    [by_compute.. | done | done | done | done | by_compute | by_compute].
Defined.

(** ** The messages *)

(** A message that starts or ends a command as a user. *)
Definition user_message (user msg : str) : Prop :=
  (exists tok cmd, msg = wire (CHUNKER_COMMAND_FORMAT tok cmd user)) \/
  (exists tok, msg = wire (CHUNKER_DELETE_FORMAT tok user)).

Lemma start_user w attempts user cmd id msg :
  start w attempts user cmd = Ok (id, Some msg) -> user_message user msg.
Proof. intros (? & _ & _ & _ & ->)%start_message. left. by eexists _, _. Qed.

Lemma kill_user w user tok msg : kill w user tok = Ok (Some msg) -> user_message user msg.
Proof.
  unfold kill. case_decide; [done|]. intros (b & Hb & Hm)%res_bind_ok.
  unfold sprintf_into in Hb. case_decide; [|done]. injection Hb as <-.
  destruct w; [|done]. injection Hm as <-. right. by eexists.
Qed.

Lemma sent_user (user : str) (m : option str) msg :
  (forall msg, m = Some msg -> user_message user msg) ->
  msg ∈ (match m with Some msg => [msg] | None => [] end) -> user_message user msg.
Proof. intros H Hin. destruct m; [apply list_elem_of_singleton in Hin as ->; by apply H | by apply elem_of_nil in Hin]. Qed.

(** Every message of a request is in the name of its user. *)
Lemma process_messages e s fs s' fs' msgs msg :
  process e s fs = Ok (s', fs', msgs) -> msg ∈ msgs -> user_message (Http._user s) msg.
Proof.
  intros H Hin. unfold process in H.
  assert (msgs <> []) as Hne by (intros ->; by apply elem_of_nil in Hin).
  do 3 (case_decide; [injection H as <- <- <-; done|]).
  case_decide as Hpost; [|case_decide as Hget; [|case_decide as Hdel; [|injection H as <- <- <-; done]]].
  - unfold post in H. case_decide; [injection H as <- <- <-; done|].
    apply res_bind_ok in H as (cmd & _ & H). apply res_bind_ok in H as (cmd' & _ & H).
    destruct (oe_init e 0); [|injection H as <- <- <-; done].
    apply res_bind_ok in H as ([id m] & Hst & H).
    assert (msgs = match m with Some msg => [msg] | None => [] end) as ->
      by (destruct m; case_decide; by injection H as <- <- <-).
    eapply sent_user; [|exact Hin]. intros msg' ->. by eapply start_user.
  - case_decide; [apply res_bind_ok in H as (? & _ & H); injection H as <- <- <-; done|].
    destruct (validate_op_cmd e _) as [p|]; [apply res_bind_ok in H as (? & _ & H); injection H as <- <- <-; done|].
    unfold get_segment in H. destruct (rfind _ [slash]) as [pos|]; [|injection H as <- <- <-; done].
    apply res_bind_ok in H as (id & _ & H). case_decide; [injection H as <- <- <-; done|].
    destruct (oe_init e 0); [|injection H as <- <- <-; done].
    apply res_bind_ok in H as (pd & _ & H). case_decide; [injection H as <- <- <-; done|].
    destruct (oe_init e 1); [|injection H as <- <- <-; done].
    apply res_bind_ok in H as ([out fs2] & _ & H). unfold segment_response in H.
    autorewrite with rest in H. case_decide; [|case_decide; injection H as <- <- <-; done].
    destruct (oe_init e 2); [|injection H as <- <- <-; done].
    apply res_bind_ok in H as (m & Hk & H). injection H as <- <- <-.
    eapply sent_user; [|exact Hin]. intros msg' ->. by eapply kill_user.
  - unfold delete_command in H. case_decide; [injection H as <- <- <-; done|].
    destruct (oe_init e 0); [|injection H as <- <- <-; done].
    apply res_bind_ok in H as (m & Hk & H). injection H as <- <- <-.
    eapply sent_user; [|exact Hin]. intros msg' ->. by eapply kill_user.
Qed.

(** ** The interface *)

Lemma post_responds e s fs path r : post e s fs path = Ok r -> responded s r.1.1.
Proof. unfold post. intros H. responds H. Qed.

Lemma op_get_list_responds e s s' : get_list e s = Ok s' -> responded s s'.
Proof. unfold get_list. intros H. responds H. Qed.

Lemma op_get_node_responds e s p s' : get_node e s p = Ok s' -> responded s s'.
Proof. unfold get_node. intros H. responds H. Qed.

Lemma get_segment_responds e s fs path r : get_segment e s fs path = Ok r -> responded s r.1.1.
Proof. unfold get_segment, segment_response. intros H. responds H. Qed.

Lemma delete_command_responds e s fs path r : delete_command e s fs path = Ok r -> responded s r.1.1.
Proof. unfold delete_command. intros H. responds H. Qed.

Definition op_allowed (s : Session) (_ : files) (msg : str) : Prop :=
  _auth_type s <> AUTH_TYPE_NONE /\ user_message (Http._user s) msg.

#[export] Instance op_mode e : Mode (process e) op_allowed.
Proof.
  split.
  - intros s fs Ha. unfold process. rewrite decide_True by done. eexists. split; [done|].
    apply refused_error; [done | by_compute].
  - intros s fs s' fs' evs H. unfold process in H. opens H; auto with responds.
    + by apply post_responds in H.
    + by apply op_get_list_responds in E.
    + by apply op_get_node_responds in E.
    + by apply get_segment_responds in H.
    + by apply delete_command_responds in H.
  - intros s fs s' fs' evs H. apply Forall_forall. intros msg Hin. split; [|by eapply process_messages].
    intros Ha. unfold process in H. rewrite decide_True in H by done. injection H as <- <- <-.
    by apply elem_of_nil in Hin.
  - intros s s' fs msg (_ & _ & Hu & _ & _ & Ha & _). unfold op_allowed. by rewrite Hu, Ha.
Qed.
