(* ===== verification/OpDelivery.v ===== *)
(** * The output of a command over HTTP

    [OpMode] between the client and the machinery of [Delivery]: a POST
    starts a command, GETs of its location fetch the output.  A GET asks the
    daemon about the command, asks it for the next position and then reads
    the file; between the three the command writes on and the daemon serves
    others.  Every GET is shown to be the client's two steps of [Delivery],
    whose guarantees so become guarantees on the responses. *)

From S2P Require Import Prelude CppString StrProc Common CppMap Http Mode ChunkerProcessor ChunkerManager MultiResp Daemon Delivery DeliveryFacts Configuration OpMode.

Section OpDelivery.
Context (stack : str) (ex : str -> nat -> bool) (t sock : N) (user token : str).

(** What the daemon answers to the two questions of a GET: the first at
    [d1], the second at [d2] and, for the end mark, at [d2']. *)
Definition answers (d1 d2 d2' : delivery) (msg : str) : option str :=
  if decide (msg = wire (CHUNKER_DETAILS_FORMAT token user))
  then daemon stack ex (d_mgr d1) (d_fs d1) t sock msg
  else Some (reply (process_at stack ex (d_mgr d2) (d_fs d2) (d_fs d2') t sock (take 1024 msg)).2).

(** A request of the user for the output, with the daemon up and the data
    file readable. *)
Record output_request (e : op_env) (s : Session) : Prop := {
  or_request : op_request s (lit "GET") (op_path token);
  or_user : Http._user s = user;
  or_command : validate_op_cmd e (op_path token) = None;
  or_init n : oe_init e n = true;
  or_write n : oe_write e n = true;
  or_errno : oe_einval e = false;
  or_open : oe_open e = true;
}.

(** What the client has after a response: the bodies of the 200 responses,
    and the end by a 410. *)
Definition receive (s' : Session) (fs' : files) (d : delivery) : delivery :=
  let code := resp_get s' HTTP_RESP_CODE in
  mkDelivery (d_mgr d) fs' (d_written d) None
    (if decide (code = lit "200") then d_out d ++ resp_get s' HTTP_BODY else d_out d)
    (bool_decide (code = lit "410")).

Section Requests.
Context (between : delivery -> delivery -> Prop).

(** A GET: the daemon's first answer at [d1], its second at [d2] and [d2'],
    and the read at [d3] and [d4]. *)
Inductive get_step : delivery -> delivery -> Prop :=
| get_output d d1 d2 d2' d3 d4 e s s' fs' msgs :
    d_end d = false -> rtc (env_step stack ex sock token) d d1 -> rtc (env_step stack ex sock token) d1 d2 ->
    rtc (file_step token) d2 d2' -> between d2 d2' ->
    rtc (env_step stack ex sock token) (ask_step stack ex t sock user token d2 d2') d3 ->
    rtc (env_step stack ex sock token) d3 d4 -> between d3 d4 ->
    output_request e s -> oe_answer e = answers d1 d2 d2' -> oe_later e (d_fs d3) = d_fs d4 ->
    OpMode.process e s (d_fs d3) = Ok (s', fs', msgs) ->
    get_step d (receive s' fs' d4).

Inductive http_step (d d' : delivery) : Prop :=
| http_env : env_step stack ex sock token d d' -> http_step d d'
| http_get : get_step d d' -> http_step d d'.

(** A run that holds [n] requests. *)
Inductive gets : nat -> delivery -> delivery -> Prop :=
| gets_done d : gets 0 d d
| gets_env n d d1 d' : env_step stack ex sock token d d1 -> gets n d1 d' -> gets n d d'
| gets_get n d d1 d' : get_step d d1 -> gets n d1 d' -> gets (S n) d d'.
End Requests.

Context (Huser : clean user) (Htoken : clean token) (Hune : user <> []) (Hslash : slash ∉ token).
Context (Hlen : length token = 16) (Hul : length user < 900) (Hsock : sock <> 0%N).

(** ** One request *)

Lemma token_ne : token <> [].
Proof. by intros ->. Qed.

Lemma request_fits req : req ∈ requests -> length (request_format req token user) < 1024.
Proof.
  intros Hreq. destruct Huser, Htoken.
  assert (length (request_format req [] []) < 100).
  { unfold requests in Hreq. rewrite !elem_of_cons in Hreq.
    destruct Hreq as [->|[->|[->|[->|[]%elem_of_nil]]]]; apply Nat.ltb_lt; reflexivity. }
  rewrite request_format_length, (cstr_id token), (cstr_id user) by done. lia.
Qed.

Lemma next_fits : length (CHUNKER_NEXT_FORMAT token user) < 1024.
Proof. apply request_fits. by_compute. Qed.

Lemma details_next : wire (CHUNKER_NEXT_FORMAT token user) <> wire (CHUNKER_DETAILS_FORMAT token user).
Proof. intros H. by apply (f_equal (fun l => l !! 9)) in H. Qed.

Lemma request_ext w a a' msg : a (wire msg) = a' (wire msg) -> request w a msg = request w a' msg.
Proof. unfold request, sprintf_into. case_decide; [|done]. cbn [res_bind]. by intros ->. Qed.

Lemma details_answers d1 d2 d2' w :
  get_process_details true (answers d1 d2 d2') w user token =
  get_process_details true (daemon stack ex (d_mgr d1) (d_fs d1) t sock) w user token.
Proof.
  unfold get_process_details. case_decide; [done|].
  rewrite (request_ext _ _ (daemon stack ex (d_mgr d1) (d_fs d1) t sock)); [done|].
  unfold answers. by rewrite decide_True.
Qed.

(** The second answer is the one the client of [Delivery] gets. *)
Lemma chunk_answers d1 d2 d2' opened einval fs fs' :
  get_chunk true (answers d1 d2 d2') opened einval fs fs' user token =
  get_chunk true (fun _ => d_ask (ask_step stack ex t sock user token d2 d2')) opened einval fs fs' user token.
Proof.
  unfold get_chunk. case_decide; [done|].
  rewrite (request_ext _ _ (fun _ => d_ask (ask_step stack ex t sock user token d2 d2'))); [done|].
  unfold answers. rewrite decide_False by apply details_next. unfold ask_step.
  by destruct (process_at _ _ _ _ _ _ _ _) as [[] ].
Qed.

Lemma env_keeps d d' :
  rtc (env_step stack ex sock token) d d' -> manager_ok (d_mgr d) -> manager_ok (d_mgr d').
Proof.
  induction 1 as [d|d d1 d2 Hstep _ IH]; [done|]. intros Hm. apply IH.
  destruct Hstep as [d d1 Hs|]; [by destruct Hs | by apply process_keeps].
Qed.

Lemma ask_keeps d2 d2' :
  let d := ask_step stack ex t sock user token d2 d2' in
  is_Some (d_ask d) /\ d_end d = d_end d2' /\ (manager_ok (d_mgr d2) -> manager_ok (d_mgr d)).
Proof.
  unfold ask_step.
  pose proof (process_at_keeps stack ex (d_mgr d2) (d_fs d2) (d_fs d2') t sock
    (take 1024 (wire (CHUNKER_NEXT_FORMAT token user)))) as H.
  destruct (process_at _ _ _ _ _ _ _ _) as [[m fs] ev]. split; [by eexists | done].
Qed.

Lemma entry_request_fits d k :
  dinv user token False False d k -> manager_ok (d_mgr d) ->
  exists pd, mget token (_proc_coll (d_mgr d)) = Some pd /\ _user pd = user /\ _token pd = token /\
    entries_fit (d_mgr d) token.
Proof.
  intros (pd0 & pd & c & (Hm & (Hp & Hu & Hl) & _) & _) Hok. exists pd. split; [done|]. split; [done|].
  split; [by destruct Hok as [_ H]; apply (entry_key _ _ _ (H _ _ Hm))|]. split; [done|].
  intros pd' Hm'. rewrite Hm in Hm'. injection Hm' as <-. split; [done|].
  unfold process_item. rewrite !length_app. change (length sep) with 3. change (length (lit "%2C")) with 3.
  pose proof (length_dec_signed (_read_offset pd)). lia.
Qed.

(** Whatever happens between its questions, a GET is answered, and what the
    client gets is what its two steps give. *)
Lemma get_result d d1 d2 d2' d3 d4 e s k :
  dinv user token False False d k -> manager_ok (d_mgr d) -> d_ask d = None -> d_end d = false ->
  rtc (env_step stack ex sock token) d d1 -> rtc (env_step stack ex sock token) d1 d2 ->
  rtc (file_step token) d2 d2' ->
  rtc (env_step stack ex sock token) (ask_step stack ex t sock user token d2 d2') d3 ->
  rtc (env_step stack ex sock token) d3 d4 ->
  output_request e s -> oe_answer e = answers d1 d2 d2' -> oe_later e (d_fs d3) = d_fs d4 ->
  exists s' fs' msgs, OpMode.process e s (d_fs d3) = Ok (s', fs', msgs) /\
    resp_get s' HTTP_RESP_CODE ∈ [lit "200"; lit "202"; lit "410"] /\
    client_at stack ex t sock user token d2 d2' = Ok (ask_step stack ex t sock user token d2 d2') /\
    client_at stack ex t sock user token d3 d4 = Ok (receive s' fs' d4) /\
    d_end d2 = false /\ d_end d3 = false /\ d_ask d2 = None /\ is_Some (d_ask d3) /\ manager_ok (d_mgr d4).
Proof.
  intros Hi Hok Hask Hend H1 H2 H2' H3 H4 [Hr Hu Hv Hin Hw He Hopen] Ha Hlate.
  destruct (env_dinv stack ex sock user token Hsock next_fits False False d d1 k H1 ltac:(done) Hi) as (k1 & Hi1 & _).
  destruct (env_dinv stack ex sock user token Hsock next_fits False False d1 d2 k1 H2 ltac:(done) Hi1) as (k2 & Hi2 & _).
  pose proof (env_keeps d d1 H1 Hok) as Hok1. pose proof (env_keeps d1 d2 H2 Hok1) as Hok2.
  destruct (env_steps_evolve stack ex sock token d d2) as (Ha2 & _ & He2 & _); [by etrans|].
  rewrite Hask in Ha2. rewrite Hend in He2.
  destruct (client_at_dinv stack ex t sock user token Huser Htoken Hune token_ne Hsock next_fits False False d2 d2' k2)
    as (r & k3 & Hs2 & Hi3 & _); [done.. | unfold meanwhile; by rewrite Ha2 | done | done |].
  assert (client_at stack ex t sock user token d2 d2' = Ok (ask_step stack ex t sock user token d2 d2')) as Hs2'
    by (unfold client_at; by rewrite Ha2).
  rewrite Hs2 in Hs2'. injection Hs2' as ->.
  destruct (env_dinv stack ex sock user token Hsock next_fits False False _ d3 k3 H3 ltac:(done) Hi3) as (k4 & Hi4 & _).
  destruct (env_steps_evolve stack ex sock token _ d3 H3) as (Ha3 & _ & He3 & _).
  destruct (env_steps_evolve stack ex sock token d2 d2') as (_ & _ & He2' & _);
    [by apply (meanwhile_env stack ex sock token d2 d2'); unfold meanwhile; rewrite Ha2|].
  destruct (ask_keeps d2 d2') as ((answer & Hans) & Hae & Hka). rewrite Hae, He2', He2 in He3. rewrite Hans in Ha3.
  destruct (entry_request_fits d1 k1 Hi1 Hok1) as (pd & Hpd & Hpu & Hpt & Hfit).
  assert (token_request s token) as Htr by (unfold token_request; by rewrite Hu).
  pose proof (details_roundtrip stack ex (d_mgr d1) (d_fs d1) t sock (oe_indeterminate e) user token
    (proj1 Hfit) Huser Htoken Hune token_ne Hsock (request_fits (lit "details") ltac:(by_compute)) (proj2 Hfit)) as Hd.
  rewrite Hpd, decide_True, <- (details_answers d1 d2 d2'), <- Ha, <- Hu in Hd by done.
  pose proof (process_segment e s (d_fs d3) token _ Hr Htr Hv Hin Hw Hd) as Hp.
  rewrite decide_False in Hp by (cbn; rewrite Hpt; apply token_ne).
  destruct (client_at_dinv stack ex t sock user token Huser Htoken Hune token_ne Hsock next_fits False False d3 d4 k4)
    as (r & k5 & Hs3 & _); [done.. | unfold meanwhile; by rewrite Ha3 | done | done |].
  rewrite Ha, Hu, He, Hopen, Hlate, chunk_answers, Hans in Hp. pose proof Hs3 as Hs3'. unfold client_at in Hs3'.
  rewrite Ha3 in Hs3'. unfold read_step in Hs3'. destruct (get_chunk _ _ _ _ _ _ _ _) as [[out fs']|] eqn:G; [|done].
  cbn [res_bind] in Hs3'. destruct (Hp out fs' eq_refl) as (s' & Hs' & Hcode & Hbody). exists s', fs'. eexists.
  split; [exact Hs'|]. split; [rewrite Hcode; unfold segment_code; repeat case_decide; by_compute|]. split; [done|].
  split; [|split_and!; [done..|by eexists|by eapply env_keeps, env_keeps, Hka]].
  rewrite Hs3, <- Hs3'. f_equal. unfold receive. rewrite Hcode. revert Hbody. unfold segment_code.
  destruct (decide (out = lit "END")); [done|]. destruct (decide (out = [])) as [->|]; [by rewrite app_nil_r|].
  intros Hbody. by destruct Hbody as [-> _].
Qed.

(** ** Runs *)

Section Runs.
Context (between : delivery -> delivery -> Prop) (calm : Prop).
Context (Hcalm : calm -> forall s s', between s s' -> no_late_end token s s').

(** What holds between two requests. *)
Definition between_gets (d : delivery) : Prop :=
  (exists k, dinv user token False False d k) /\ (exists k, dinv user token False calm d k) /\
  manager_ok (d_mgr d) /\ d_ask d = None.

Lemma polls_rtc n d d1 d' :
  rtc (env_step stack ex sock token) d d1 -> polls stack ex t sock user token between n d1 d' ->
  polls stack ex t sock user token between n d d'.
Proof. induction 1 as [|d d0 d1 Hs _ IH]; [done|]. intros Hp. eapply polls_env; [exact Hs | by apply IH]. Qed.

Lemma env_between d d' : env_step stack ex sock token d d' -> between_gets d -> between_gets d'.
Proof.
  intros Hs%rtc_once ([k Hi] & [k1 Hi1] & Hok & Ha). destruct (env_steps_evolve _ _ _ _ _ _ Hs) as (Ha' & _).
  rewrite Ha in Ha'. split_and!; [..|by eapply env_keeps | done].
  - edestruct (env_dinv stack ex sock user token Hsock next_fits False False) as (k' & Hi' & _); [exact Hs|done..|by eexists].
  - edestruct (env_dinv stack ex sock user token Hsock next_fits False calm) as (k' & Hi' & _); [exact Hs|done..|by eexists].
Qed.

(** A GET is two steps of the client of [Delivery]. *)
Lemma get_two_steps d d' :
  between_gets d -> get_step between d d' ->
  between_gets d' /\
  forall n d'', polls stack ex t sock user token between n d' d'' ->
    polls stack ex t sock user token between (2 + n) d d''.
Proof.
  intros ([k Hi] & [kc Hic] & Hok & Ha) Hg.
  destruct Hg as [d d1 d2 d2' d3 d4 e s s' fs' msgs Hend H1 H2 H2' Hb2 H3 H4 Hb4 He Hans Hlate Hp].
  destruct (get_result d d1 d2 d2' d3 d4 e s k Hi Hok Ha Hend H1 H2 H2' H3 H4 He Hans Hlate)
    as (s1 & fs1 & msgs1 & Hp1 & _ & Hc2 & Hc3 & He2 & He3 & Ha2 & [answer Ha3] & Hok').
  rewrite Hp in Hp1. injection Hp1 as <- <- <-.
  assert (forall n d'', polls stack ex t sock user token between n (receive s' fs' d4) d'' ->
            polls stack ex t sock user token between (2 + n) d d'') as Hpolls.
  { intros n d'' Hn. eapply polls_rtc; [exact H1|]. eapply polls_rtc; [exact H2|].
    eapply polls_client; [exact He2 | apply client_moves with d2'; [unfold meanwhile; by rewrite Ha2 | exact Hb2 | exact Hc2]|].
    eapply polls_rtc; [exact H3|].
    eapply polls_client; [exact He3 | apply client_moves with d4; [unfold meanwhile; by rewrite Ha3 | exact Hb4 | exact Hc3]|exact Hn]. }
  split; [|exact Hpolls]. pose proof (Hpolls 0 _ (polls_done _ _ _ _ _ _ _ _)) as Hd. split_and!; [..|done|done].
  - by apply (polls_dinv stack ex t sock user token Huser Htoken Hune token_ne Hsock next_fits between False _ _ _ k) in Hd.
  - by apply (polls_dinv stack ex t sock user token Huser Htoken Hune token_ne Hsock next_fits between calm _ _ _ kc) in Hd.
Qed.

Lemma http_between d d' : rtc (http_step between) d d' -> between_gets d -> between_gets d'.
Proof.
  induction 1 as [|d d1 d' [Hs|Hg] _ IH]; [done|..]; intros Hb; apply IH; [by eapply env_between|].
  by apply get_two_steps in Hg as [].
Qed.

Lemma gets_polls n d d' :
  gets between n d d' -> between_gets d -> polls stack ex t sock user token between (2 * n) d d'.
Proof.
  induction 1 as [d|n d d1 d' Hs _ IH|n d d1 d' Hg _ IH]; intros Hb; [apply polls_done|..].
  - eapply polls_env; [exact Hs|]. apply IH. by eapply env_between.
  - destruct (get_two_steps d d1 Hb Hg) as [Hb1 Hp]. replace (2 * S n) with (2 + 2 * n) by lia. by apply Hp, IH.
Qed.

(** At most two requests more than the output has full chunks. *)
Lemma gets_bound n d d' :
  between_gets d -> gets between n d d' -> d_end d = false -> ended token (d_fs d) ->
  n <= 2 + length (d_written d) / CHUNKER_READ_SIZE.
Proof.
  intros Hb Hg He Hend. pose proof (gets_polls n d d' Hg Hb) as Hp. destruct Hb as ([k Hi] & _ & _ & Ha).
  pose proof (polls_bound stack ex t sock user token Huser Htoken Hune token_ne Hsock next_fits between _ _ _ _ Hp Hi Hend).
  assert (k <= 4 + 2 * (length (d_written d) / CHUNKER_READ_SIZE)) by (by eapply dinv_idle_bound). lia.
Qed.
End Runs.
End OpDelivery.

(** ** From the POST on *)

Section Started.
Context (e : op_env) (s : Session) (fs : files) (x : ascii) (h : str) (segs : list str).
Context (tok : str) (left : list (option str)).
Context (stack : str) (ex : str -> nat -> bool) (m : ChunkerManager) (t sock : N).

(** The command line and the user. *)
Let cmd : str := (x :: h) ++ (segs ≫= segment_arg (oe_unescape e)).
Let user : str := Http._user s.

(** A POST of a command of several words, with a token no command has. *)
Record start_request : Prop := {
  sr_request : op_request s (lit "POST") (op_path ((x :: h) ++ (segs ≫= cons slash)));
  sr_unescape : never_null (oe_unescape e);
  sr_head : slash ∉ h;
  sr_segs : Forall (fun g => slash ∉ g) segs;
  sr_some : segs <> [];
  sr_token : generate_token (oe_urandom e) = Ok (tok, left);
  sr_length : length tok = 16;
  sr_init : oe_init e 0 = true;
  sr_write : oe_write e 0 = true;
  sr_fits : length (CHUNKER_COMMAND_FORMAT tok cmd user) < 1024;
  sr_new : mget tok (_proc_coll m) = None;
  sr_files : fs !! chunk_file tok = None /\ fs !! end_file tok = None;
}.

(** A daemon with the piece size of the client, text that passes through its
    messages and answers, and a clock. *)
Record daemon_fit : Prop := {
  df_ok : manager_ok m;
  df_chunk : _chunk_size m = N.of_nat CHUNKER_READ_SIZE;
  df_cmd : clean cmd /\ clean_field pct cmd;
  df_user : clean user /\ clean_field pct user /\ length user < 900;
  df_time : (t < 2 ^ 63)%N;
  df_sock : sock <> 0%N;
}.

(** The daemon after the message. *)
Definition daemon_after (msg : str) : ChunkerManager :=
  (ChunkerManager.process stack ex m fs t sock (take 1024 msg)).1.1.

Lemma describe_short (pd : ChunkerManager.ProcessData) :
  length (ChunkerManager._command pd) + length (_token pd) + length (_user pd) < 1024 -> length (describe pd) + 30 < reply_size.
Proof.
  intros H. assert (1100 < reply_size) as Hr by (apply Nat.ltb_lt; vm_compute; reflexivity).
  unfold describe. rewrite !length_app. change (length sep) with 3.
  pose proof (length_dec_signed (ChunkerManager._start_time pd)). lia.
Qed.

Lemma post_ok :
  start_request ->
  process e s fs = Ok (started_response tok s, fs, [wire (CHUNKER_COMMAND_FORMAT tok cmd user)]).
Proof.
  intros [Hr Hnn Hh Hsegs Hne Htok Hlen Hi Hw Hfit _ _].
  assert (translate_rest_to_cli (oe_unescape e) ((x :: h) ++ (segs ≫= cons slash)) = Ok cmd) as Htr.
  { by rewrite translate_spec, translated_segments. }
  by eapply post_started.
Qed.

Lemma post_fresh :
  start_request -> daemon_fit ->
  exists s' msg, process e s fs = Ok (s', fs, [msg]) /\
    resp_get s' HTTP_RESP_CODE = lit "201" /\ resp_get s' HTTP_RESP_LOCATION = lit "rest/op/" ++ tok /\
    fresh user tok (daemon_after msg) fs /\ manager_ok (daemon_after msg).
Proof.
  intros Hsr [Hok Hc [Hcc Hcf] (Huc & Huf & _) Ht Hs]. pose proof (post_ok Hsr) as Hp.
  destruct Hsr as [_ _ _ _ _ Htok Hlen _ _ Hfit Hnew [Hfc Hfe]].
  assert (forall c, char_digit c = None -> c ∉ tok) as Htn by (intros c; by eapply token_notin).
  assert (tok <> []) as Htne by (by intros ->).
  eexists _, _. split; [exact Hp|]. split; [apply started_response_code|].
  split; [apply started_response_location|]. unfold daemon_after. split; [|by apply process_keeps].
  rewrite (start_registers (oe_urandom e) user cmd tok); try done;
    [|by apply (start_ok _ _ _ _ _ Htok); [lia|] | by destruct Huf].
  eexists. cbn [fst upd_coll _proc_coll]. rewrite mget_mset_eq. split; [done|].
  split; [|do 4 (split; [done|])].
  - split; [done|]. split; [done|]. split; [split; [done|]; split_and!; by apply Htn|]. split; [done|].
    destruct Hcc, Huc. split_and!; [done | by apply Htn | done].
  - split; [apply describe_short; change (length cmd + length tok + length user < 1024)|done].
    rewrite command_format_length, !cstr_id in Hfit by (apply Hcc || apply Huc || by apply Htn). lia.
Qed.

Lemma post_between (calm : Prop) :
  start_request -> daemon_fit ->
  exists s' msg, process e s fs = Ok (s', fs, [msg]) /\
    resp_get s' HTTP_RESP_CODE = lit "201" /\ resp_get s' HTTP_RESP_LOCATION = lit "rest/op/" ++ tok /\
    between_gets user tok calm (started_delivery (daemon_after msg) fs).
Proof.
  intros Hr Hd. destruct (post_fresh Hr Hd) as (s' & msg & H1 & H2 & H3 & Hf & Hok). exists s', msg.
  split_and!; [done..|]. split_and!; [by apply fresh_dinv | by apply fresh_dinv | done | done].
Qed.

(** A command started by a POST delivers its output to GETs of its
    location.  The POST is answered by a 201 with the location.  From then
    on, however the command's writes, its end, other requests at the daemon,
    other changes to files and the two answers and the read inside each GET
    interleave, as long as the end mark is not left, after more output,
    between two lookups for the same answer or read, the bodies of the 200
    responses put together leave out nothing of what the command has written,
    and a 410 comes only after all of it. *)
Theorem op_output_complete :
  start_request -> daemon_fit ->
  exists s' msg, process e s fs = Ok (s', fs, [msg]) /\
    resp_get s' HTTP_RESP_CODE = lit "201" /\ resp_get s' HTTP_RESP_LOCATION = lit "rest/op/" ++ tok /\
    forall d, rtc (http_step stack ex t sock user tok (no_late_end tok)) (started_delivery (daemon_after msg) fs) d ->
      exists c, covers (d_written d) (d_out d) c /\ (d_end d = true -> c = length (d_written d)).
Proof.
  intros Hr Hd. destruct (post_between True Hr Hd) as (s' & msg & H1 & H2 & H3 & Hb). exists s', msg.
  split_and!; [done..|]. intros d Hrun. destruct Hr, Hd as [_ _ _ (Hu & Huf & Hul) _ Hs].
  assert (clean tok) as Ht by (split; by eapply token_notin).
  assert (slash ∉ tok) as Hsl by (by eapply token_notin).
  destruct (http_between stack ex t sock user tok Hu Ht) with (between := no_late_end tok) (calm := True)
    (d := started_delivery (daemon_after msg) fs) (d' := d)
    as (_ & [k (pd0 & pd & c & _ & _ & Hcov & _ & Hin)] & _); try done; [by destruct Huf|].
  exists c. split; [done|]. intros He. rewrite He in Hin. by apply Hin.
Qed.

(** These GETs end, whatever happens at any moment.  At any point of such a
    run a GET is answered, with a 200, a 202 or a 410, whatever happens
    between its questions; and once the command has left its end mark, no run
    holds more GETs than the output has full chunks, and two, before the
    410. *)
Theorem op_output_ends :
  start_request -> daemon_fit ->
  exists s' msg, process e s fs = Ok (s', fs, [msg]) /\ resp_get s' HTTP_RESP_CODE = lit "201" /\
    forall d, rtc (http_step stack ex t sock user tok anything) (started_delivery (daemon_after msg) fs) d -> d_end d = false ->
      (forall d1 d2 d2' d3 d4 e1 s1,
         rtc (env_step stack ex sock tok) d d1 -> rtc (env_step stack ex sock tok) d1 d2 -> rtc (file_step tok) d2 d2' ->
         rtc (env_step stack ex sock tok) (ask_step stack ex t sock user tok d2 d2') d3 -> rtc (env_step stack ex sock tok) d3 d4 ->
         output_request user tok e1 s1 -> oe_answer e1 = answers stack ex t sock user tok d1 d2 d2' ->
         oe_later e1 (d_fs d3) = d_fs d4 ->
         exists s2 fs2 msgs, process e1 s1 (d_fs d3) = Ok (s2, fs2, msgs) /\
           resp_get s2 HTTP_RESP_CODE ∈ [lit "200"; lit "202"; lit "410"]) /\
      (is_Some (d_fs d !! end_file tok) ->
         forall n d', gets stack ex t sock user tok anything n d d' -> n <= 2 + length (d_written d) / CHUNKER_READ_SIZE).
Proof.
  intros Hr Hd. destruct (post_between False Hr Hd) as (s' & msg & H1 & H2 & H3 & Hb). exists s', msg.
  split_and!; [done..|]. intros d Hrun Hend. pose proof (sr_length Hr) as Hlen. destruct Hr, Hd as [_ _ _ (Hu & Huf & Hul) _ Hs].
  assert (clean tok) as Ht by (split; by eapply token_notin).
  assert (slash ∉ tok) as Hsl by (by eapply token_notin).
  assert (user <> []) as Hune by (by destruct Huf).
  assert (between_gets user tok False d) as Hb'
    by (by apply (http_between stack ex t sock user tok Hu Ht) with (between := anything) (calm := False)
          (d := started_delivery (daemon_after msg) fs)).
  split.
  - intros d1 d2 d2' d3 d4 e1 s1 Hd1 Hd2 Hd2' Hd3 Hd4 He1 Ha Hl. destruct Hb' as ([k Hi] & _ & Hok & Hask).
    destruct (get_result stack ex t sock user tok Hu Ht Hune Hsl Hlen Hul Hs d d1 d2 d2' d3 d4 e1 s1 k)
      as (s2 & fs2 & msgs & Hp & Hcode & _); try done. by exists s2, fs2, msgs.
  - intros He n d' Hg. by eapply (gets_bound stack ex t sock user tok Hu Ht Hune Hsl Hlen Hul Hs anything False ltac:(done) n d d').
Qed.
End Started.

(** ** A run *)

Definition demo_post : op_env := demo_op_env (fun _ => None).
Definition demo_post_session : Session := op_session (lit "POST") (lit "/rest/op/show/version/all") (lit "vyatta").

Lemma demo_start_request :
  start_request demo_post demo_post_session ∅ (ascii_of_nat 115) (lit "how") [lit "version"; lit "all"] demo_id []
    (main_manager default_config).
Proof. split; try by_compute; first [apply never_null_Some | done]. Qed.

Lemma demo_daemon_fit :
  daemon_fit demo_post demo_post_session (ascii_of_nat 115) (lit "how") [lit "version"; lit "all"]
    (main_manager default_config) 7 3.
Proof.
  split; try by_compute. split; [constructor|]. intros key pd H. by vm_compute in H.
Qed.

Definition demo_after : ChunkerManager :=
  daemon_after ∅ [] (fun _ _ => false) (main_manager default_config) 7 3
    (wire (CHUNKER_COMMAND_FORMAT demo_id (lit "show 'version' 'all'") (lit "vyatta"))).

(** The command has written a word; a GET of the location. *)
Definition demo_written : delivery := demo_append (lit "hello") (started_delivery demo_after ∅).
Definition demo_get_env : op_env :=
  demo_op_env (answers [] (fun _ _ => false) 7 3 (lit "vyatta") demo_id demo_written demo_written demo_written).

Lemma demo_get :
  exists d', get_step [] (fun _ _ => false) 7 3 (lit "vyatta") demo_id (no_late_end demo_id) demo_written d' /\
    d_out d' = lit "hello" /\ d_end d' = false.
Proof.
  assert (match process demo_get_env (op_session (lit "GET") (op_path demo_id) (lit "vyatta")) (d_fs demo_written) with
          | Ok (s', _, _) => bool_decide (resp_get s' HTTP_RESP_CODE = lit "200") &&
                             bool_decide (resp_get s' HTTP_BODY = lit "hello")
          | Fault _ => false
          end = true) as H by (vm_compute; reflexivity).
  destruct (process _ _ _) as [[[s' fs'] msgs]|] eqn:E; [|done].
  apply andb_true_iff in H as [Hc%bool_decide_eq_true Hb%bool_decide_eq_true].
  set (d3 := ask_step [] (fun _ _ => false) 7 3 (lit "vyatta") demo_id demo_written demo_written).
  exists (receive s' fs' d3). split.
  2: { unfold receive. rewrite Hc, Hb. split; vm_compute; reflexivity. }
  apply get_output with (d1 := demo_written) (d2 := demo_written) (d2' := demo_written) (d3 := d3) (e := demo_get_env)
    (s := op_session (lit "GET") (op_path demo_id) (lit "vyatta")) (msgs := msgs);
    [reflexivity | constructor | constructor | constructor | by left | constructor | constructor | by left
      | | reflexivity | reflexivity | exact E].
  split; [by_compute | reflexivity..].
Qed.

Lemma op_output_complete_witness :
  exists s' msg, process demo_post demo_post_session ∅ = Ok (s', ∅, [msg]) /\
    resp_get s' HTTP_RESP_CODE = lit "201" /\ resp_get s' HTTP_RESP_LOCATION = lit "rest/op/" ++ demo_id /\
    forall d, rtc (http_step [] (fun _ _ => false) 7 3 (lit "vyatta") demo_id (no_late_end demo_id))
                (started_delivery (daemon_after ∅ [] (fun _ _ => false) (main_manager default_config) 7 3 msg) ∅) d ->
      exists c, covers (d_written d) (d_out d) c /\ (d_end d = true -> c = length (d_written d)).
Proof. eapply op_output_complete; [apply demo_start_request | apply demo_daemon_fit]. Defined.

Lemma op_output_ends_witness :
  exists s' msg, process demo_post demo_post_session ∅ = Ok (s', ∅, [msg]) /\
    resp_get s' HTTP_RESP_CODE = lit "201" /\
    forall d, rtc (http_step [] (fun _ _ => false) 7 3 (lit "vyatta") demo_id anything)
                (started_delivery (daemon_after ∅ [] (fun _ _ => false) (main_manager default_config) 7 3 msg) ∅) d ->
      d_end d = false ->
      (forall d1 d2 d2' d3 d4 e1 s1,
         rtc (env_step [] (fun _ _ => false) 3 demo_id) d d1 -> rtc (env_step [] (fun _ _ => false) 3 demo_id) d1 d2 ->
         rtc (file_step demo_id) d2 d2' ->
         rtc (env_step [] (fun _ _ => false) 3 demo_id)
           (ask_step [] (fun _ _ => false) 7 3 (lit "vyatta") demo_id d2 d2') d3 ->
         rtc (env_step [] (fun _ _ => false) 3 demo_id) d3 d4 ->
         output_request (lit "vyatta") demo_id e1 s1 ->
         oe_answer e1 = answers [] (fun _ _ => false) 7 3 (lit "vyatta") demo_id d1 d2 d2' ->
         oe_later e1 (d_fs d3) = d_fs d4 ->
         exists s2 fs2 msgs, process e1 s1 (d_fs d3) = Ok (s2, fs2, msgs) /\
           resp_get s2 HTTP_RESP_CODE ∈ [lit "200"; lit "202"; lit "410"]) /\
      (is_Some (d_fs d !! end_file demo_id) ->
         forall n d', gets [] (fun _ _ => false) 7 3 (lit "vyatta") demo_id anything n d d' ->
           n <= 2 + length (d_written d) / CHUNKER_READ_SIZE).
Proof. eapply op_output_ends; [apply demo_start_request | apply demo_daemon_fit]. Defined.
