(* ===== verification/NodeJson.v ===== *)
(** * The description of a configuration node is JSON

    What [ConfMode] writes for a GET of a node: the texts of its template
    and of its values, as [Configuration] reads them from the daemon, and
    when the JSON made of them is JSON.  The value help and the help text
    are escaped; the values of the configuration are not. *)

From S2P Require Import Prelude CppString StrProc Common CppMap Http Json Configuration ConfMode.

(** ** Lines of the value help *)

Definition tabs_escaped (s : str) : str := s ≫= subst_char tab (backslash :: lit "t").

(** A character of a value help: a tab is escaped by the template's parser,
    a quote when the help is written. *)
Definition tabbed (c : ascii) : Prop := (32 <= N_of_ascii c)%N /\ c <> backslash \/ c = tab.

#[export] Instance tabbed_dec c : Decision (tabbed c).
Proof. unfold tabbed. apply _. Defined.

(** [type:values; help], with text in front of the first semicolon, which
    does not begin with a colon, and a character behind it. *)
Definition help_line (r : str) : Prop :=
  Forall tabbed r /\
  forall d h, r = d ++ semi :: h -> semi ∉ d ->
    (dquote ∉ d) /\ h <> [] /\ exists x d', d = x :: d' /\ x <> colon.

Lemma tabs_escaped_cons c s :
  tabs_escaped (c :: s) = (if decide (c = tab) then backslash :: lit "t" else [c]) ++ tabs_escaped s.
Proof. reflexivity. Qed.

Lemma tabs_escaped_app a b : tabs_escaped (a ++ b) = tabs_escaped a ++ tabs_escaped b.
Proof. apply bind_app. Qed.

(** Escaping tabs neither makes nor removes a character that is no part of
    the escape. *)
Lemma tabs_escaped_elem x s : x ∉ [tab; backslash; ascii_of_nat 116] -> (x ∈ tabs_escaped s <-> x ∈ s).
Proof.
  rewrite !not_elem_of_cons. intros (Ht & Hb & H116 & _). induction s as [|c s IH]; [done|].
  rewrite tabs_escaped_cons, elem_of_app, IH, elem_of_cons. case_decide as Hc.
  - subst c. change (lit "t") with [ascii_of_nat 116]. rewrite !elem_of_cons, elem_of_nil. tauto.
  - rewrite elem_of_cons, elem_of_nil. tauto.
Qed.

(** Quotes escaped and line ends dropped behind it, it is the text of a
    string. *)
Lemma tabs_escaped_quoted s :
  Forall tabbed s -> jtext ((tabs_escaped s ≫= subst_char dquote (esc dquote)) ≫= subst_char nl []).
Proof.
  intros Hs. unfold tabs_escaped. rewrite !bind_bind. apply jtext_bind. eapply Forall_impl; [exact Hs|].
  intros c Hc. unfold subst_char at 3. case_decide as Et; [apply jtext_escape; [by_compute | constructor]|].
  cbn [mbind list_bind]. rewrite app_nil_r. unfold subst_char at 2. case_decide as Ed.
  { apply jtext_escape; [by_compute | constructor]. }
  cbn [mbind list_bind]. rewrite app_nil_r. unfold subst_char. case_decide; [constructor|].
  apply jtext_chars, Forall_singleton, jplain_spec. destruct Hc as [[Hc Hb]|Hc]; [done|congruence].
Qed.

Lemma tabs_escaped_jtext s : Forall tabbed s -> dquote ∉ s -> jtext (tabs_escaped s).
Proof.
  intros Hs Hd. apply jtext_bind. rewrite Forall_forall in Hs |- *. intros c Hc. unfold subst_char.
  case_decide as Et; [apply jtext_escape; [by_compute | constructor]|].
  apply jtext_chars, Forall_singleton, jplain_spec.
  destruct (Hs c Hc) as [[Hp Hb]|?]; [|done]. split_and!; [done | by intros -> | done].
Qed.

Lemma tabs_escaped_nonempty x s : 1 <= length (tabs_escaped (x :: s)).
Proof. rewrite tabs_escaped_cons, length_app. case_decide; simpl; lia. Qed.

(** What [val_help_entry] cuts out of a line in front of and behind its
    semicolon. *)
Lemma help_line_help d y h :
  d <> [] ->
  substr (tabs_escaped d ++ semi :: tabs_escaped (y :: h)) (length (tabs_escaped d) + 2)
    (length (tabs_escaped d ++ semi :: tabs_escaped (y :: h)) - 3) =
  Ok ((if decide (y = tab) then lit "t" else []) ++ tabs_escaped h).
Proof.
  intros Hd. destruct d as [|x d]; [done|]. pose proof (tabs_escaped_nonempty x d) as Hx.
  set (t := tabs_escaped (x :: d)) in *. pose proof (tabs_escaped_nonempty y h) as Hy. unfold substr, sub.
  rewrite length_app in *. cbn [length] in *. rewrite decide_True by lia. f_equal.
  rewrite drop_app_add. cbn [drop]. rewrite tabs_escaped_cons in *.
  rewrite take_ge by (rewrite length_drop, length_app in *; lia). by case_decide.
Qed.

Lemma help_line_desc d :
  Forall tabbed d -> dquote ∉ d -> (exists x d', d = x :: d' /\ x <> colon) ->
  let desc := tabs_escaped d in
  let tv := match find desc [colon] 0 with
            | Some pos2 => (sub desc 0 pos2, sub desc (pos2 + 1) (length desc - 2))
            | None => (desc, lit " ")
            end in
  jtext tv.1 /\ jtext tv.2.
Proof.
  intros Hd Hq (x & d' & -> & Hx) desc. cbv zeta. rewrite find_0.
  destruct (decide (colon ∈ x :: d')) as [Hc|Hc].
  - apply list_elem_of_split_l in Hc as (a & b & E & Ha). destruct a as [|z a]; [cbn in E; congruence|].
    subst desc. rewrite E in *. apply Forall_app in Hd as [Hda Hdb]. inversion Hdb as [|? ? _ Hdb']; subst.
    apply not_elem_of_app in Hq as [Hqa Hqb]. apply not_elem_of_cons in Hqb as [_ Hqb].
    rewrite tabs_escaped_app, (tabs_escaped_cons colon), (decide_False (P := colon = tab)) by done.
    cbn [app]. rewrite find0_char_app by (rewrite tabs_escaped_elem; [done | by_compute]). unfold sub. cbn [fst snd].
    pose proof (tabs_escaped_nonempty z a) as Hz.
    rewrite drop_0, take_app_length, length_app, drop_app_add. cbn [drop length].
    rewrite drop_0, take_ge by lia. split; by apply tabs_escaped_jtext.
  - rewrite (proj2 (find0_char_None desc colon)) by (subst desc; rewrite tabs_escaped_elem; [done | by_compute]).
    split; [by apply tabs_escaped_jtext | apply jtext_chars; by_compute].
Qed.

(** A line of the value help, once its tabs are escaped, adds an object. *)
Lemma val_help_entry_json json r :
  json_clean json -> help_line r -> yields (val_help_entry json (tabs_escaped r)) json_clean.
Proof.
  intros Hj [Hr Hline]. unfold val_help_entry. rewrite find_0. destruct (decide (semi ∈ r)) as [Hin|Hin].
  2: { rewrite (proj2 (find0_char_None _ _)); [by apply yields_ok|]. by rewrite tabs_escaped_elem by by_compute. }
  apply list_elem_of_split_l in Hin as (d & h & -> & Hd). destruct (Hline d h eq_refl Hd) as (Hq & Hh & Hx).
  destruct h as [|y h]; [done|]. apply Forall_app in Hr as [Hrd Hrh].
  apply Forall_cons in Hrh as [_ Hrh]. apply Forall_cons in Hrh as [_ Hrh].
  rewrite tabs_escaped_app, (tabs_escaped_cons semi), (decide_False (P := semi = tab)) by done. cbn [app].
  rewrite find0_char_app by (rewrite tabs_escaped_elem; [done | by_compute]).
  rewrite help_line_help by (destruct Hx as (? & ? & -> & _); done). cbn [res_bind].
  rewrite mass_replace_char. cbn [res_bind]. rewrite mass_replace_char. cbn [res_bind].
  cbv zeta. replace (sub (tabs_escaped d ++ semi :: tabs_escaped (y :: h)) 0 (length (tabs_escaped d))) with (tabs_escaped d)
    by (unfold sub; by rewrite drop_0, take_app_length).
  pose proof (help_line_desc d Hrd Hq Hx) as Htv. cbv zeta in Htv.
  destruct (match find (tabs_escaped d) [colon] 0 with Some _ => _ | None => _ end) as [type val].
  destruct Htv as [Ht Hv]. cbn [fst snd] in *. apply yields_ok, json_clean_add_array; [done | apply jtext_chars; by_compute |].
  set (help := _ ≫= subst_char nl []).
  assert (jtext help) as Hhelp.
  { subst help. rewrite !bind_app. apply jtext_app; [|by apply tabs_escaped_quoted].
    case_decide; apply jtext_chars; by_compute. }
  object_form [(lit "type", type); (lit "vals", val); (lit "help", help)]; done.
Qed.

Lemma val_help_loop_json rs json :
  json_clean json -> Forall help_line rs -> yields (val_help_loop (tabs_escaped <$> rs) json) json_clean.
Proof.
  intros Hj Hrs. revert json Hj. induction Hrs as [|r rs Hr _ IH]; intros json Hj; [by apply yields_ok|].
  cbn [fmap list_fmap val_help_loop]. eapply yields_bind; [by apply val_help_entry_json|]. intros j Hc. by apply IH.
Qed.

Lemma split_lines_tabs s : split_lines (tabs_escaped s) = tabs_escaped <$> split_lines s.
Proof.
  assert (split_on nl (tabs_escaped s) = tabs_escaped <$> split_on nl s) as H.
  { induction s as [|c s IH]; [done|]. rewrite tabs_escaped_cons. cbn [split_on]. case_decide as Ht.
    - subst c. rewrite (decide_False (P := tab = nl)) by done. cbn [app lit]. 
      change (lit "t" ++ tabs_escaped s) with (ascii_of_nat 116 :: tabs_escaped s). cbn [split_on].
      rewrite !decide_False by done. rewrite IH. pose proof (split_on_nonempty nl s).
      destruct (split_on nl s) as [|h t]; [done|]. cbn [fmap list_fmap]. by rewrite tabs_escaped_cons, decide_True.
    - cbn [app split_on]. rewrite IH. case_decide as Hn; [done|]. pose proof (split_on_nonempty nl s).
      destruct (split_on nl s) as [|h t]; [done|]. cbn [fmap list_fmap]. by rewrite tabs_escaped_cons, decide_False. }
  unfold split_lines. rewrite H, fmap_last, length_fmap.
  destruct (last (split_on nl s)) as [[|c l]|]; cbn [fmap option_fmap option_map]; [by rewrite fmap_take| |done].
  pose proof (tabs_escaped_nonempty c l). destruct (tabs_escaped (c :: l)); [simpl in *; lia | done].
Qed.

(** ** What the daemon's texts have to be *)

(** An alternative of a node: it is put between quotes unless it holds some. *)
Definition enum_ok (x : str) : Prop := if contains x [dquote] then json JValue x else jtext x.

(** The alternatives a [syntax] entry lists. *)
Definition alternatives (value : str) : list str :=
  match syntax_enum value (new_TemplateParams NODE_TYPE_LEAF) with
  | Ok p => sset_elements (_enum p)
  | Fault _ => []
  end.

(** An entry of a template. *)
Definition entry_texts (key value : str) : Prop :=
  (key = lit "default" -> value = [nl] \/ jtext value) /\
  (key = lit "val_help" -> Forall help_line (split_lines value)) /\
  (key = lit "help" -> Forall simple value) /\
  (key = lit "syntax" -> Forall enum_ok (alternatives value)).

Record view_texts (v : configd_view) : Prop := {
  vt_entries path m entry key value :
    tmpl_get v path = Some m -> entry ∈ m -> split_entry entry = Some (key, value) -> entry_texts key value;
  vt_allowed path x :
    x ∈ tmpl_get_allowed v path ->
    x = [backslash; ascii_of_nat 60; backslash; ascii_of_nat 62] \/ Forall (fun c => jplain c = true) x;
  vt_children path x : x ∈ tmpl_get_children v path -> jtext x;
  vt_values db path x : x ∈ node_get v db path -> jtext x;
}.

(** What [node_json] needs. *)
Record params_json (p : TemplateParams) : Prop := {
  pj_help : jtext (_help p);
  pj_default : _default p = [nl] \/ jtext (_default p);
  pj_val_help : Forall (fun l => exists r, l = tabs_escaped r /\ help_line r) (sset_elements (_val_help p));
  pj_enum : Forall enum_ok (sset_elements (_enum p));
  pj_allowed : jtext (_allowed p);
  pj_name : jtext (_name (_data p)) /\ jtext (_is_changed (_data p));
  pj_children : Forall (fun n => jtext (_name n)) (_children_coll p);
}.

Lemma params_json_new nt : params_json (new_TemplateParams nt).
Proof. by repeat first [constructor | right; constructor]. Qed.

Lemma sset_insert_all (P : str -> Prop) l s :
  Forall P l -> Forall P (sset_elements s) ->
  Forall P (sset_elements (foldl (fun s x => sset_insert x s) s l)).
Proof.
  intros Hl. revert s. induction Hl as [|x l Hx _ IH]; intros s Hs; [done|]. cbn [foldl]. apply IH.
  rewrite Forall_forall in Hs |- *. intros y [->|Hy]%sset_insert_elements; auto.
Qed.

Lemma sset_elements_insert x y s : y ∈ sset_elements (sset_insert x s) <-> y = x \/ y ∈ sset_elements s.
Proof.
  split; [apply sset_insert_elements|]. unfold sset_insert, minsert, sset_elements.
  destruct (mget x s) as [u|] eqn:E.
  - intros [->|Hy]; [|done]. apply mget_Some_elem in E. apply list_elem_of_fmap. by exists (x, u).
  - intros Hy. apply dec_stable. intros Hn. apply mget_None in Hn. destruct (decide (y = x)) as [->|Hne].
    + by rewrite mget_mset_eq in Hn.
    + rewrite mget_mset_ne in Hn by done. apply mget_None in Hn. tauto.
Qed.

(** The alternatives of a [syntax] entry do not depend on those before. *)
Lemma syntax_loop_elements coll en en' x :
  (x ∈ sset_elements en -> x ∈ sset_elements (syntax_loop coll en)) /\
  (x ∈ sset_elements (syntax_loop coll en) -> x ∈ sset_elements en \/ x ∈ sset_elements (syntax_loop coll en')).
Proof.
  revert en en'. induction coll as [|b coll IH]; intros en en'; [naive_solver|]. cbn [syntax_loop].
  destruct (syntax_item b) as [tmp e]. case_decide; destruct e; try apply IH; rewrite ?sset_elements_insert; [tauto..| |tauto].
  pose proof (IH (sset_insert tmp en) (sset_insert tmp en')) as [H1 H2].
  pose proof (IH (sset_insert tmp en') en) as [H3 _]. rewrite !sset_elements_insert in *. tauto.
Qed.

Lemma syntax_enum_alternatives value p P :
  Forall P (alternatives value) -> Forall P (sset_elements (_enum p)) ->
  yields (syntax_enum value p) (fun p' => exists en, p' = set_enum en p /\ Forall P (sset_elements en)).
Proof.
  intros Ha Hp. assert (p = set_enum (_enum p) p) as Hsame by (by destruct p).
  unfold alternatives, syntax_enum in *. rewrite str_proc_ok in * by by_compute. cbn [res_bind] in *.
  case_decide; [|apply yields_ok; by exists (_enum p)].
  rewrite str_proc_ok in * by by_compute. cbn [res_bind] in *. apply yields_ok. eexists. split; [done|].
  cbn in Ha. rewrite Forall_forall in Ha, Hp |- *. intros x Hx.
  eapply syntax_loop_elements in Hx as [Hx|Hx]; [by apply Hp | by apply Ha].
Qed.

(** ** The template *)

Lemma help_text_json value : Forall simple value -> yields (help_text value) jtext.
Proof.
  intros Hs. unfold help_text. rewrite mass_replace_char. cbn [res_bind]. rewrite mass_replace_char. apply yields_ok.
  rewrite bind_bind. apply jtext_bind. eapply Forall_impl; [exact Hs|]. intros c [Hc Hb]. unfold subst_char at 2.
  case_decide as Hn; [constructor|]. cbn [mbind list_bind]. rewrite app_nil_r. unfold subst_char.
  case_decide as Hd; [apply jtext_chars; by_compute|].
  apply jtext_chars, Forall_singleton, jplain_spec. destruct Hc; [done | congruence].
Qed.

(** The fields [node_json] does not quote may be set to anything. *)
Lemma params_json_frame p p' :
  params_json p -> _help p' = _help p -> _default p' = _default p -> _val_help p' = _val_help p ->
  _enum p' = _enum p -> _allowed p' = _allowed p -> _data p' = _data p -> _children_coll p' = _children_coll p ->
  params_json p'.
Proof. intros [H1 H2 H3 H4 H5 H6 H7] E1 E2 E3 E4 E5 E6 E7. split; by rewrite ?E1, ?E2, ?E3, ?E4, ?E5, ?E6, ?E7. Qed.

(** Solves [params_json] of some setters. *)
Ltac frame := by eapply params_json_frame; [eassumption | reflexivity..].

Lemma params_json_enum p en : params_json p -> Forall enum_ok (sset_elements en) -> params_json (set_enum en p).
Proof. intros [] He. by split. Qed.

Definition entry_result (r : option (TemplateParams * bool)) : Prop :=
  forall p iv, r = Some (p, iv) -> params_json p.

Lemma entry_result_some p iv : params_json p -> yields (Ok (Some (p, iv))) entry_result.
Proof. intros Hp. apply yields_ok. by intros ?? [= <- <-]. Qed.

Lemma template_key_json key value p iv :
  entry_texts key value -> params_json p -> yields (template_key key value p iv) entry_result.
Proof.
  intros (Hdef & Hval & Hhelp & Hsyn) Hp. unfold template_key.
  repeat case_decide; try (apply entry_result_some; frame).
  - destruct (multi_limit_ok value (set_multi true p)) as [n ->]. apply entry_result_some. frame.
  - destruct (multi_limit_ok value (set_end true (set_multi true p))) as [n ->]. apply entry_result_some. frame.
  - apply entry_result_some. destruct Hp. split; auto.
  - rewrite str_proc_ok by by_compute. cbn [res_bind]. apply entry_result_some. case_decide; frame.
  - rewrite mass_replace_char. apply entry_result_some. frame.
  - rewrite mass_replace_char. apply entry_result_some. fold (tabs_escaped value). rewrite split_lines_tabs.
    destruct Hp. split; try done. apply sset_insert_all; [|done]. apply Forall_fmap.
    eapply Forall_impl; [by apply Hval|]. intros r Hr. by exists r.
  - eapply yields_bind; [by apply help_text_json, Hhelp|]. intros h Hh. apply entry_result_some.
    destruct Hp, (contains value (lit "[REQUIRED]")); by split.
  - eapply yields_bind; [apply syntax_enum_alternatives; [by apply Hsyn | apply (pj_enum _ Hp)]|].
    intros p' (en & -> & Hen). by apply entry_result_some, params_json_enum.
  - by apply yields_ok.
Qed.

Lemma template_loop_json leaf entries p iv :
  (forall entry key value, entry ∈ entries -> split_entry entry = Some (key, value) -> entry_texts key value) ->
  params_json p -> yields (template_loop leaf entries p iv) (fun r => params_json r.1).
Proof.
  revert p iv. induction entries as [|entry entries IH]; intros p iv He Hp; [by apply yields_ok|].
  assert (forall e k v, e ∈ entries -> split_entry e = Some (k, v) -> entry_texts k v) as He'
    by (intros e k v Hin; apply He; by right).
  cbn [template_loop]. destruct (split_entry entry) as [[key value]|] eqn:E; [|by apply IH].
  eapply yields_bind; [apply template_key_json; [eapply He; [by left | done] | done]|].
  intros [[p' iv']|] Hr; [|by apply IH]. specialize (Hr p' iv' eq_refl). apply IH; [done|]. destruct leaf; [frame | done].
Qed.

Lemma allowed_loop_json l en :
  Forall (fun x => x = [backslash; ascii_of_nat 60; backslash; ascii_of_nat 62] \/ Forall (fun c => jplain c = true) x) l ->
  Forall enum_ok (sset_elements en) -> yields (allowed_loop l en) (fun en' => Forall enum_ok (sset_elements en')).
Proof.
  intros Hl. revert en. induction Hl as [|x l Hx _ IH]; intros en Hen; [by apply yields_ok|]. cbn [allowed_loop].
  rewrite mass_replace_ok by done. cbn [res_bind]. apply IH, (sset_insert_all enum_ok [_]); [|done]. apply Forall_singleton.
  destruct Hx as [->|Hx]; [apply jtext_chars; by_compute|].
  assert ((backslash ∉ x) /\ dquote ∉ x) as [Hb Hd]
    by (rewrite Forall_forall in Hx; split; intros Hin; apply Hx, jplain_spec in Hin; tauto).
  rewrite replace_all_notin by done. unfold enum_ok, contains. rewrite (proj2 (find0_char_None x dquote)) by done.
  by apply jtext_chars.
Qed.

Lemma get_template_node_json v path p :
  view_texts v -> params_json p ->
  yields (get_template_node v path p) (fun r => forall p', r = Some p' -> params_json p').
Proof.
  intros Hv Hp. unfold get_template_node. destruct (tmpl_validate_path v path); [|by apply yields_ok].
  destruct (tmpl_get v path) as [m|] eqn:Em; [|apply yields_ok; by intros p' [= <-]].
  eapply yields_bind; [apply template_loop_json; [|exact Hp]|].
  { intros. eapply (vt_entries v Hv); eassumption. }
  intros [p1 iv] Hp1. cbn [fst] in Hp1. eapply yields_bind with (P := params_json).
  { case_decide; [|apply yields_ok; frame]. eapply yields_bind; [apply allowed_loop_json|].
    - apply Forall_forall. apply (vt_allowed v Hv).
    - apply (pj_enum _ Hp1).
    - intros en Hen. apply yields_ok, params_json_enum; [frame | done]. }
  intros p2 Hp2. set (p3 := if iv && _multi p2 && negb (_end p2) then _ else _).
  assert (params_json p3) as Hp3.
  { unfold p3. destruct (iv && _multi p2 && negb (_end p2)); [|done]. destruct Hp2. split; first [done | cbn; constructor]. }
  repeat case_decide; apply yields_ok; intros p' [= <-]; [done | frame | done].
Qed.

(** ** Values and states *)

Lemma get_node_params_json v cpath np :
  Forall (fun c => jplain c = true) cpath ->
  jtext (_name (get_node_params v cpath np)) /\ jtext (_is_changed (get_node_params v cpath np)).
Proof.
  intros Hp. unfold get_node_params.
  set (n := match rfind cpath [slash] with Some _ => _ | None => _ end).
  assert (jtext n) as Hn by (apply jtext_chars; unfold n; case_match; [by apply Forall_drop | done]).
  destruct (node_get_status v CANDIDATE cpath); cbn; split; try done; apply jtext_chars; by_compute.
Qed.

Lemma children_loop_json vals states np children :
  Forall jtext vals -> Forall (fun n => jtext (_name n)) children ->
  Forall (fun n => jtext (_name n)) (children_loop vals states np children).
Proof.
  intros Hv. revert np children. induction Hv as [|x vals Hx _ IH]; intros np children Hc; [done|].
  cbn [children_loop]. case_match; [|by apply IH]. apply IH, Forall_app. split; [done|]. by repeat constructor.
Qed.

Lemma value_steps_json escape v cpath fresh acc l :
  Forall jtext acc.1.2 -> Forall jtext l -> Forall jtext (foldl (value_step escape v cpath fresh) acc l).1.2.
Proof.
  intros Ha Hl. revert acc Ha. induction Hl as [|x l Hx _ IH]; intros [[np vals] states] Ha; [done|]. cbn [foldl].
  apply IH. cbn. destruct (fresh && _); [done|]. apply Forall_app. split; [done | by repeat constructor].
Qed.

Lemma container_steps_json v cpath acc l :
  Forall jtext acc.1 -> Forall jtext l -> Forall jtext (foldl (container_step v cpath) acc l).1.
Proof.
  intros Ha Hl. revert acc Ha. induction Hl as [|x l Hx _ IH]; intros [vals states] Ha; [done|]. cbn [foldl].
  apply IH, Forall_app. split; [done | by repeat constructor].
Qed.

Lemma parse_value_and_state_json escape v cpath p :
  view_texts v -> Forall (fun c => jplain c = true) cpath -> params_json p ->
  params_json (parse_value_and_state escape v cpath p).
Proof.
  intros Hv Hc Hp. pose proof (get_node_params_json v cpath (_data p) Hc) as Hn. unfold parse_value_and_state.
  set (acc := match _node_type (set_data _ p) with NODE_TYPE_LEAF => _ | _ => _ end).
  assert (Forall jtext acc.1.2) as Hacc.
  { assert (forall db, Forall jtext (node_get v db cpath)) as Hvals by (intros db; apply Forall_forall, (vt_values v Hv)).
    unfold acc. destruct (_node_type _); try (apply value_steps_json; [by apply value_steps_json | done]); [|constructor].
    assert (Forall jtext (tmpl_get_children v cpath)) as Hch by (apply Forall_forall, (vt_children v Hv)).
    pose proof (container_steps_json v cpath ([], []) _ (List.Forall_nil _) Hch) as H. by destruct (foldl _ _ _). }
  destruct acc as [[np vals] states]. destruct Hp. split; try done.
  cbn. by apply children_loop_json.
Qed.

Lemma get_configured_node_json escape configd path id p :
  view_texts (configd (conv_conf_id id)) -> Forall (fun c => jplain c = true) path -> params_json p ->
  yields (get_configured_node escape configd path id p) (fun r => forall p', r = Some p' -> params_json p').
Proof.
  intros Hv Hc Hp. unfold get_configured_node. eapply yields_bind; [by apply get_template_node_json|].
  intros [p1|] H1; apply yields_ok; [|done]. intros p' [= <-]. specialize (H1 p1 eq_refl).
  pose proof (parse_value_and_state_json escape _ path p1 Hv Hc H1) as [? ? ? ? ? ? Hch]. split; try done.
  apply Forall_fmap. exact Hch.
Qed.

(** ** The JSON of a node *)

Lemma state_name_json st : jtext (state_name st).
Proof. destruct st; apply jtext_chars; by_compute. Qed.

Lemma disable_name_json d : jtext (disable_name d).
Proof. destruct d; apply jtext_chars; by_compute. Qed.

Lemma children_json l json :
  json_clean json -> Forall (fun n => jtext (_name n)) l ->
  json_clean (foldl (fun j n => (add_array j (lit "children") (child_entry n) true).1) json l).
Proof.
  intros Hj Hl. revert json Hj. induction Hl as [|n l Hn _ IH]; intros json Hj; [done|]. cbn [foldl]. apply IH.
  apply json_clean_add_array; [done | apply jtext_chars; by_compute |].
  object_form [(lit "name", _name n); (lit "state", state_name (_state n));
               (lit "deactivate_state", disable_name (_disabled_state n))];
    [done | apply state_name_json | apply disable_name_json].
Qed.

Lemma enums_json l json : json_clean json -> Forall enum_ok l -> json_clean (foldl enum_entry json l).
Proof.
  intros Hj Hl. revert json Hj. induction Hl as [|x l Hx _ IH]; intros json Hj; [done|]. cbn [foldl]. apply IH.
  unfold enum_entry. case_decide; [done|]. by apply json_clean_add_array; [|apply jtext_chars; by_compute|].
Qed.

Lemma add_flag_json b k json : json_clean json -> jtext k -> json_clean (add_flag b k json).
Proof. intros Hj Hk. destruct b; [|done]. by apply json_clean_add_value; [..|apply jtext_chars; by_compute]. Qed.

Lemma g_type_str_json t : jtext (g_type_str t).
Proof. destruct t; apply jtext_chars; by_compute. Qed.

Lemma sset_tabs (s : sset) :
  Forall (fun l => exists r, l = tabs_escaped r /\ help_line r) (sset_elements s) ->
  exists rs, sset_elements s = tabs_escaped <$> rs /\ Forall help_line rs.
Proof.
  induction (sset_elements s) as [|l ls IH]; [by exists []|].
  intros [(r & -> & Hr) (rs & -> & Hrs)%IH]%Forall_cons. exists (r :: rs).
  split; [done | by apply Forall_cons].
Qed.

(** libcurl's escape leaves letters, digits and a few signs. *)
Definition escape_plain (escape : str -> option str) : Prop :=
  forall s, exists t, escape s = Some t /\ Forall (fun c => jplain c = true) t.

(** Adds the members one by one. *)
Ltac members :=
  repeat match goal with
  | |- json_clean (if decide _ then _ else _) => case_decide
  | |- json_clean (add_flag _ _ _) => apply add_flag_json
  | |- json_clean (add_value _ _ _) => apply json_clean_add_value
  | |- json_clean (add_array _ _ _ false).1 => apply json_clean_add_array
  | |- jtext (lit _) => apply jtext_chars; by_compute
  | |- jtext (g_type_str _) => apply g_type_str_json
  | |- jtext (dec_signed _) => apply jtext_dec_signed
  | |- jtext (state_name _) => apply state_name_json
  | |- jtext (disable_name _) => apply disable_name_json
  end.

Lemma node_json_clean e p : escape_plain (ce_escape e) -> params_json p -> yields (node_json e p) json_clean.
Proof.
  intros He Hp. unfold node_json. rewrite mass_replace_char. cbn [res_bind].
  destruct (He (_comp_help p ≫= subst_char dquote (esc dquote))) as (t & -> & Ht). cbn [res_bind].
  destruct (sset_tabs _ (pj_val_help _ Hp)) as (rs & -> & Hrs). destruct (pj_name _ Hp) as [Hname Hch].
  eapply yields_bind; [apply val_help_loop_json; [|exact Hrs]|].
  { members; try apply json_clean_new; try apply (pj_help _ Hp).
    - by destruct (pj_default _ Hp).
    - by apply jtext_chars, Forall_cstr. }
  intros json Hj. apply yields_ok, enums_json; [|apply (pj_enum _ Hp)].
  apply children_json; [|apply (pj_children _ Hp)]. members; first [assumption | apply (pj_allowed _ Hp)].
Qed.

Lemma add_array_value j k v q : _value (add_array j k v q).1 = _value j.
Proof. unfold add_array. case_decide; [done|]. by case_match. Qed.

(** The description of a node is never empty: it tells at least whether the
    node is disabled. *)
Lemma node_json_value e p j : node_json e p = Ok j -> _value j <> [].
Proof.
  intros H. unfold node_json in H.
  apply res_bind_ok in H as (t & _ & H). apply res_bind_ok in H as (c & _ & H).
  apply res_bind_ok in H as (json & _ & H). injection H as <-.
  match goal with |- _value (foldl enum_entry (foldl ?f ?j0 ?ch) ?en) <> [] =>
    assert (_value j0 <> []) as H0; [|revert H0; generalize j0 as j1; generalize ch as l1; generalize en as l2] end.
  { unfold add_value at 1. rewrite decide_False by (destruct (_disabled_state _); naive_solver). cbn [_value].
    match goal with |- mset ?k ?v ?m <> [] => intros E; pose proof (mget_mset_eq k v m) as Hm; by rewrite E in Hm end. }
  intros l2 l1 j1 H1.
  assert (forall j2, _value j2 <> [] -> _value (foldl enum_entry j2 l2) <> []) as He.
  { induction l2 as [|x l2 IH]; intros j2 H2; [done|]. apply IH. unfold enum_entry.
    case_decide; [done|]. by rewrite add_array_value. }
  apply He. clear He. revert j1 H1. induction l1 as [|n l1 IH]; intros j1 H1; [done|]. cbn [foldl]. apply IH.
  by rewrite add_array_value.
Qed.

Lemma node_json_text e p :
  escape_plain (ce_escape e) -> params_json p ->
  exists j, node_json e p = Ok j /\ json JValue (json_serialize j []).
Proof.
  intros He Hp. destruct (node_json_clean e p He Hp) as (j & Hj & Hc). exists j. split; [done|].
  destruct (json_clean_serialize j Hc) as [Hs|Hs]; [|done]. exfalso. apply (node_json_value e p j Hj).
  destruct Hc as (Hcoll & Ha & _). rewrite json_serialize_members in Hs
    by (split; [done|]; eapply Forall_impl; [exact Ha|]; by intros q (_ & ? & _)).
  destruct (json_members j) as [|m ms] eqn:E; [|done]. unfold json_members in E.
  apply app_eq_nil in E as [_ E]. by apply fmap_nil_inv in E.
Qed.

(** Claim C24: reading a template never fails on what the daemon returns,
    whatever its entries, and gives nothing exactly when the daemon knows no
    such path.  The help text of a result holds no double quote and no
    newline, and the lines of its value help no newline and no tab; other
    characters JSON does not allow are left in.  When the template has none
    of those, and its unescaped texts fit a JSON string as they are
    ([view_texts]), the description of the node is written, and is JSON. *)
Theorem template_node_json (e : conf_env) (v : configd_view) (path : str) (nt : node_type) :
  exists r, get_template_node v path (new_TemplateParams nt) = Ok r /\
    (r = None <-> tmpl_validate_path v path = false) /\
    (forall p, r = Some p -> texts_safe p) /\
    (view_texts v -> escape_plain (ce_escape e) -> forall p, r = Some p ->
       exists j, node_json e p = Ok j /\ json JValue (json_serialize j [])).
Proof.
  destruct (get_template_node_total v path nt) as (r & Hr & Hnone & Hsafe). exists r.
  split; [done|]. split; [done|]. split; [done|]. intros Hv He p ->. apply node_json_text; [done|].
  by apply (yields_inv _ _ _ (get_template_node_json v path _ Hv (params_json_new nt)) Hr).
Qed.

(** ** An example *)

Lemma help_line_intro x d h :
  Forall tabbed (x :: d ++ semi :: h) -> semi ∉ x :: d -> dquote ∉ x :: d -> h <> [] -> x <> colon ->
  help_line (x :: d ++ semi :: h).
Proof.
  intros Ht Hs Hq Hh Hx. split; [done|]. intros d2 h2 E H2. change (x :: d ++ semi :: h) with ((x :: d) ++ semi :: h) in E.
  pose proof (find0_char_app semi (x :: d) h Hs) as H. rewrite E, find0_char_app in H by done. injection H as Hlen.
  apply app_inj_1 in E as [<- [= <-]]; [|done]. split_and!; [done..|]. by exists x, d.
Qed.

(** [curl_easy_escape] *)
Definition percent_encode (c : ascii) : str :=
  let n := N_of_ascii c in
  let in_range a b := (a <=? n)%N && (n <=? b)%N in
  if in_range 48%N 57%N || in_range 65%N 90%N || in_range 97%N 122%N || bool_decide (c ∈ lit "-._~")
  then [c] else lit "%" ++ (digit_char <$> [(n / 16)%N; (n mod 16)%N]).

Definition demo_escape (s : str) : option str := Some (s ≫= percent_encode).

Lemma demo_escape_plain : escape_plain demo_escape.
Proof.
  intros s. eexists. split; [done|]. apply Forall_bind, Forall_true. intros c.
  destruct c as [[] [] [] [] [] [] [] []]; by_compute.
Qed.

(** A node with a help text and a value help that need their escapes, a
    default and a wildcard. *)
Definition demo_help_view : configd_view :=
  mkView (fun _ => true)
    (fun _ => Some [lit "help=the " ++ dquote :: lit "mtu" ++ dquote :: nl :: []; lit "type=txt"; lit "default=1500";
                    lit "val_help=u32:68-9000; " ++ tab :: lit "size in " ++ dquote :: lit "bytes" ++ [dquote; nl] ++ lit "<text>"])
    (fun _ => []) (fun _ => [[backslash; ascii_of_nat 60; backslash; ascii_of_nat 62]; lit "1500"])
    (fun _ => NODE_TYPE_LEAF) (fun _ _ => NODE_STATUS_UNCHANGED) (fun _ _ => true) (fun _ _ => [lit "9000"]).

Lemma demo_view_texts : view_texts demo_help_view.
Proof.
  split.
  - intros path m entry key value [= <-] Hin Hs. unfold entry_texts.
    rewrite !elem_of_cons in Hin. destruct Hin as [->|[->|[->|[->|[]%elem_of_nil]]]];
      vm_compute in Hs; injection Hs as <- <-; split_and!; intros Hk; try (exfalso; vm_compute in Hk; discriminate Hk).
    + by_compute.
    + right. apply jtext_chars. by_compute.
    + match goal with |- Forall _ ?l => let l' := eval vm_compute in l in change l with l' end.
      apply Forall_cons. split.
      * apply (help_line_intro (ascii_of_nat 117) (lit "32:68-9000")); by_compute.
      * apply Forall_singleton. split; [by_compute|]. intros d h E Hd.
        assert (semi ∈ d ++ semi :: h) as H by set_solver. rewrite <- E in H. exfalso. revert H. by_compute.
  - intros path x. cbn. rewrite !elem_of_cons. intros [->|[->|[]%elem_of_nil]]; [by left | right; by_compute].
  - intros path x []%elem_of_nil.
  - intros db path x ->%list_elem_of_singleton. apply jtext_chars. by_compute.
Qed.

Lemma template_node_json_witness :
  let e := mkConfEnv false (fun _ => demo_help_view) true (fun _ => false) (fun _ => (Some [], None))
             (fun _ => (Some [], None)) (Some []) (fun _ => None) (fun _ => None) [] (true, true) demo_escape Some
             NODE_TYPE_LEAF in
  exists p, get_template_node demo_help_view (lit "mtu") (new_TemplateParams NODE_TYPE_LEAF) = Ok (Some p) /\
    texts_safe p /\ exists j, node_json e p = Ok j /\ json JValue (json_serialize j []).
Proof.
  intros e. destruct (template_node_json e demo_help_view (lit "mtu") NODE_TYPE_LEAF) as (r & Hr & Hnone & Hsafe & Hjson).
  destruct r as [p|]; [|by discriminate (proj1 Hnone eq_refl)]. exists p. split; [exact Hr|].
  split; [by apply Hsafe|]. apply Hjson; [apply demo_view_texts | apply demo_escape_plain | reflexivity].
Defined.
