(* ===== verification/Bodies.v ===== *)
(** * The bodies of responses are JSON

    Which of the bodies that [ConfMode] and [OpMode] write are JSON, by the
    grammar of [Json], and for which texts they are not: what a command
    prints is escaped, what a user chose as the description of a session, as
    the argument of a command or as a value of the configuration is not. *)

From S2P Require Import Prelude CppString StrProc Common CppMap Http Json Mode ChunkerProcessor ChunkerManager MultiResp Configuration ConfMode NodeJson OpMode.

(** Without a body, or with JSON. *)
Definition json_body (s : Session) : Prop :=
  resp_get s HTTP_BODY = [] \/ json JValue (resp_get s HTTP_BODY).

(** A handler's step keeps it. *)
Definition json_kept (s s' : Session) : Prop := json_body s -> json_body s'.

#[export] Instance json_kept_preorder : PreOrder json_kept.
Proof. split; [intros s H; exact H | intros s t u H1 H2 H; by apply H2, H1]. Qed.

Create HintDb json discriminated.

Lemma json_kept_refl s : json_kept s s.
Proof. reflexivity. Qed.

Lemma json_kept_debug t s s' : json_kept s s' -> json_kept s (vyatta_debug t s').
Proof.
  intros H Hs. specialize (H Hs). unfold json_body in *. by rewrite resp_get_debug by done.
Qed.

Lemma json_kept_set k v s s' : k <> HTTP_BODY -> json_kept s s' -> json_kept s (resp_set k v s').
Proof. intros Hk H Hs. specialize (H Hs). unfold json_body in *. by rewrite resp_get_set_ne. Qed.

(** Every error response has a JSON body, or leaves the body alone. *)
Lemma error_body_json type msg : jtext msg -> error_body type msg = [] \/ json JValue (error_body type msg).
Proof.
  intros Hm. unfold error_body. destruct (http_response_error type) as [[code text] num] eqn:E.
  assert (jtext text /\ jtext num) as [Ht Hn] by (destruct type; injection E as <- <- <-; split; apply jtext_chars; by_compute).
  apply json_clean_serialize.
  apply json_clean_add_value; [apply json_clean_add_value | apply jtext_chars; by_compute | done].
  - apply json_clean_new.
  - apply jtext_chars. by_compute.
  - case_decide; [done|]. apply jtext_app; [done|]. apply jtext_app; [apply jtext_chars; by_compute | done].
Qed.

Lemma json_kept_error_msg type msg s s' : jtext msg -> json_kept s s' -> json_kept s (Error_msg type msg s').
Proof.
  intros Hm H Hs. specialize (H Hs). unfold Error_msg, json_body in *.
  pose proof (error_body_json type msg Hm) as Hb. destruct (http_response_error type) as [[code text] num].
  rewrite resp_get_set_ne by done. case_decide; [|done]. rewrite resp_get_set_eq. by right; destruct Hb.
Qed.

Lemma json_kept_error type s s' : json_kept s s' -> json_kept s (Error type s').
Proof. apply json_kept_error_msg. constructor. Qed.

Lemma json_kept_json j s s' : json_clean j -> json_kept s (set_json j s').
Proof. intros Hj _. unfold json_body, set_json. rewrite resp_get_set_eq. by apply json_clean_serialize. Qed.

#[export] Hint Resolve json_kept_refl json_kept_debug json_kept_error json_kept_json : json.

(** ** Escaped text *)

(** Text whose only control characters are tabs and line ends. *)
Definition readable (c : ascii) : Prop := (32 <= N_of_ascii c)%N \/ c ∈ [cr; nl; tab].

#[export] Instance readable_dec c : Decision (readable c).
Proof. unfold readable. apply _. Defined.

(** What the output of a POST may hold survives its escapes. *)
Lemma post_escape_json s : Forall readable s -> exists t, post_escape s = Ok t /\ jtext t.
Proof.
  intros Hs. exists (s ≫= escape_char). split; [apply post_escape_chars|]. apply jtext_bind.
  eapply Forall_impl; [exact Hs|]. intros c Hc. unfold escape_char.
  repeat (case_decide; [subst c; apply jtext_escape; [by_compute | constructor]|]).
  apply jtext_chars, Forall_singleton. unfold jplain. rewrite !bool_decide_eq_false_2 by done. cbn [negb].
  rewrite !andb_true_r. apply N.leb_le. destruct Hc as [Hc|Hc]; [done|].
  rewrite !elem_of_cons in Hc. by destruct Hc as [?|[?|[?|[]%elem_of_nil]]].
Qed.

(** So does [simple] text its fewer escapes in the error text of a PUT. *)
Lemma put_escape_json s : Forall simple s -> exists t, put_escape s = Ok t /\ jtext t.
Proof.
  intros Hs. unfold put_escape. rewrite mass_replace_char. cbn [res_bind]. rewrite mass_replace_char.
  eexists. split; [done|]. rewrite bind_bind. apply jtext_bind. eapply Forall_impl; [exact Hs|].
  intros c [Hc Hb]. unfold subst_char at 2. case_decide as Hd.
  - subst c. cbn. unfold subst_char. rewrite !decide_False by done. apply jtext_escape; [by_compute | constructor].
  - cbn [mbind list_bind]. rewrite app_nil_r. unfold subst_char. case_decide as Hn.
    + apply jtext_escape; [by_compute | constructor].
    + apply jtext_chars, Forall_singleton. unfold jplain. rewrite !bool_decide_eq_false_2 by done. cbn [negb].
      rewrite !andb_true_r. apply N.leb_le. by destruct Hc.
Qed.

(** ** [ConfMode] *)

(** What the texts have to be that the configuration requests write:
    nothing for the shell output of a POST but that it is readable; no
    backslash and no control characters but newlines for the texts that are
    escaped less, which are the error text of a PUT and the daemon's text
    for a commit or a save; no quotes at all for the names and descriptions
    of sessions, which are not escaped; and for the description of a node
    what [view_texts] says of the daemon's texts, and a URI without quotes. *)
Record conf_texts (e : conf_env) (s : Session) (fs : files) : Prop := {
  ct_debug : ce_debug e = false;
  ct_output c out st : ce_popen e c = Some (out, st) -> Forall readable out;
  ct_put c out st : req_get s HTTP_REQ_METHOD = lit "PUT" -> ce_popen e c = Some (out, st) -> Forall simple out;
  ct_daemon sid t :
    t ∈ [(ce_commit e sid).1; (ce_commit e sid).2; (ce_save e sid).1; (ce_save e sid).2] ->
    Forall simple (default [] t);
  ct_names names : ce_listing e = Some names -> Forall (Forall (fun c => jplain c = true)) names;
  ct_user : jtext (Http._user s);
  ct_description id user d : read_conf_modify_file fs id [] [] = (true, user, d) -> jtext d;
  ct_views sid : view_texts (ce_configd e sid);
  ct_escape : escape_plain (ce_escape e);
  ct_uri : Forall (fun c => jplain c = true) (req_get s HTTP_REQ_URI);
}.

Lemma Forall_getlines (P : ascii -> Prop) s : Forall P s -> Forall (Forall P) (getlines s).
Proof.
  induction 1 as [|c s Hc Hs IH]; [constructor|]. cbn [getlines]. case_decide; [by repeat constructor|].
  destruct IH; by repeat constructor.
Qed.

(** What [run_shell] gives holds what the command printed. *)
Lemma run_shell_text (P : ascii -> Prop) e sid cmd sout :
  (forall c out st, ce_popen e c = Some (out, st) -> Forall P out) -> P space -> Forall P sout ->
  Forall P (run_shell e sid cmd sout).1.2.
Proof.
  intros Hp Hsp Hs. unfold run_shell, execute.
  destruct (ce_popen e _) as [[out st]|] eqn:E; [|done]. apply Hp in E.
  assert (Forall P (sout ++ (getlines out ≫= (fun l => cstr l ++ [space])))) as H.
  { apply Forall_app. split; [done|]. apply Forall_bind. apply Forall_getlines in E.
    eapply Forall_impl; [exact E|]. intros l Hl. apply Forall_app. split; [by apply Forall_cstr | by repeat constructor]. }
  by destruct st.
Qed.

Lemma message_json t : jtext t -> json_clean (add_value new_JSON (lit "message") t).
Proof. intros Ht. apply json_clean_add_value; [apply json_clean_new | apply jtext_chars; by_compute | done]. Qed.
#[export] Hint Resolve message_json : json.

Lemma below_id_suffix cp a : below_id cp = Ok a -> exists k, a = drop k cp.
Proof.
  unfold below_id. intros H. apply res_bind_ok in H as (rest & _ & H).
  unfold substr_from in H. repeat case_match; simplify_eq; by eexists.
Qed.

Section ConfBodies.
Context (e : conf_env) (s0 : Session) (fs : files) (Ht : conf_texts e s0 fs).

Lemma put_json s id user cp r :
  req_get s0 HTTP_REQ_METHOD = lit "PUT" -> put e s fs id user cp = Ok r -> json_kept s r.1.1.
Proof.
  intros Hm H. unfold put in H. rewrite (ct_debug _ _ _ Ht) in H.
  opens H; cbn [fst]; auto with json. apply json_kept_error_msg; [|auto with json].
  match goal with R : run_shell ?e ?sid ?cmd ?o = (_, ?t, _), P : put_escape ?t = Ok _ |- _ =>
    pose proof (run_shell_text simple e sid cmd o (fun c out st => ct_put _ _ _ Ht c out st Hm)) as Hr;
    rewrite R in Hr; destruct (put_escape_json t) as (t' & Ht' & Hj); [by apply Hr; [by_compute | constructor]|];
    rewrite P in Ht'; by injection Ht' as ->
  end.
Qed.

Lemma delete_session_json s id user : json_kept s (delete_session e s fs id user).1.1.
Proof.
  unfold delete_session. rewrite (ct_debug _ _ _ Ht). case_decide; [cbn [fst]; auto with json|].
  destruct (discard_session e id true fs). cbn [fst]. apply json_kept_json, message_json, jtext_chars. by_compute.
Qed.

Lemma post_create_json s user cp r : post_create e s fs user cp = Ok r -> json_kept s r.1.1.
Proof.
  intros H. unfold post_create in H. opens H; cbn [fst]; auto with json.
  apply json_kept_error, json_kept_set; [done | auto with json].
Qed.

Lemma daemon_command_json s sid action r : daemon_command e s sid action = Ok r -> json_kept s r.1.
Proof.
  intros H. unfold daemon_command in H. rewrite (ct_debug _ _ _ Ht) in H.
  case_match; [by injection H as <-|].
  set (p := if bool_decide (action = lit "commit") then ce_commit e sid else ce_save e sid) in H.
  assert (Forall simple (default [] p.1) /\ Forall simple (default [] p.2)) as [H1 H2].
  { split; apply (ct_daemon _ _ _ Ht sid); unfold p; destruct (bool_decide _); rewrite !elem_of_cons; tauto. }
  destruct p as [buf text]. cbn [fst snd] in *.
  assert (exists buf' s', (match buf with
                           | Some _ => (buf, s)
                           | None => (text, Error CONFIGURATION_ERROR s)
                           end = (buf', s')) /\ Forall simple (default [] buf') /\ json_kept s s')
    as (buf' & s' & Hb & Hs & Hk) by (destruct buf; eexists _, _; split_and!; auto with json).
  rewrite Hb in H. apply res_bind_ok in H as (sout & Hsout & H). destruct buf' as [b|]; [|done].
  injection Hsout as <-. apply Forall_cstr in Hs. cbn in Hs.
  match type of H with res_bind (put_escape ?t) _ = _ => destruct (put_escape_json t) as (t' & Ht' & Hj) end.
  { case_decide; [by_compute | done]. }
  rewrite Ht' in H. injection H as <-. cbn [fst]. by apply json_kept_json, message_json.
Qed.

Lemma post_command_json s id user tag cp r :
  post_command e s fs id user tag cp = Ok r -> json_kept s r.1.1.
Proof.
  intros H. unfold post_command in H. rewrite (ct_debug _ _ _ Ht) in H.
  opens H; cbn [fst]; auto with json.
  all: try match goal with D : daemon_command _ _ _ _ = _ |- _ =>
    apply daemon_command_json in D; etrans; [|eassumption]; auto with json end.
  all: match goal with R : run_shell ?e ?sid ?cmd ?o = (_, ?t, _), P : post_escape ?t = Ok _ |- _ =>
      pose proof (run_shell_text readable e sid cmd o (ct_output _ _ _ Ht)) as Hr;
      rewrite R in Hr; destruct (post_escape_json t) as (t' & Ht' & Hj); [apply Hr; by_compute|];
      rewrite P in Ht'; injection Ht' as -> end.
  all: apply json_kept_json, message_json; exact Hj.
Qed.

(** The list of sessions. *)
Lemma list_entry_json j name :
  json_clean j -> Forall (fun c => jplain c = true) name -> json_clean (ConfMode.list_entry e fs (Http._user s0) j name).
Proof.
  intros Hj Hn. unfold ConfMode.list_entry. case_decide; [done|]. case_match; [|done].
  destruct (read_conf_modify_file fs (drop 14 name) [] []) as [[ok user] d] eqn:E. destruct ok; [|done]. cbn [negb].
  case_decide; [done|]. apply (ct_description _ _ _ Ht) in E.
  set (times := match ce_stat e _ with Some _ => _ | None => _ end).
  assert (jtext times.1 /\ jtext times.2) as [Hst Hup].
  { unfold times. destruct (ce_stat e _) as [[mt ct]|]; [split; apply jtext_dec_signed | split; apply jtext_chars; by_compute]. }
  destruct times as [started updated]. cbn [fst snd] in *.
  apply json_clean_add_array; [done | apply jtext_chars; by_compute |].
  set (mods := if is_configd_sess_changed _ _ then _ else _).
  assert (jtext mods) as Hmod by (unfold mods; destruct (is_configd_sess_changed _ _); apply jtext_chars; by_compute).
  object_form
    [(lit "id", drop 14 name); (lit "username", Http._user s0); (lit "description", d); (lit "started", started);
     (lit "modified", mods); (lit "updated", updated)]; try done.
  - by apply jtext_chars, Forall_drop.
  - apply (ct_user _ _ _ Ht).
Qed.

Lemma get_list_json s : Http._user s = Http._user s0 -> json_kept s (ConfMode.get_list e s fs).
Proof.
  intros Hu. unfold ConfMode.get_list. destruct (ce_listing e) as [names|] eqn:E; [|auto with json].
  apply json_kept_json. rewrite Hu.
  assert (json_clean (add_value new_JSON (lit "message") (lit " "))) as Hj by (apply message_json, jtext_chars; by_compute).
  revert Hj. generalize (add_value new_JSON (lit "message") (lit " ")) as j.
  apply (ct_names _ _ _ Ht) in E. induction E as [|name names Hn _ IH]; intros j Hj; [done|].
  cbn [foldl]. by apply IH, list_entry_json.
Qed.

(** The description of a node. *)
Lemma get_node_json s id user cp s' :
  Forall (fun c => jplain c = true) cp -> ConfMode.get_node e s id user cp = Ok s' -> json_kept s s'.
Proof.
  intros Hcp H. unfold ConfMode.get_node in H. opens H; auto with json.
  lazymatch goal with
  | B : below_id _ = Ok ?a, C : get_configured_node _ _ ?path _ _ = Ok (Some ?p), N : ConfMode.node_json _ ?p = Ok _ |- _ =>
      assert (Forall (fun c => jplain c = true) a) as Ha
        by (destruct (below_id_suffix _ _ B) as [k ->]; by apply Forall_drop);
      assert (Forall (fun c => jplain c = true) path) as Hp by (case_decide; [by apply Forall_drop | done]);
      pose proof (get_configured_node_json (ce_escape e) _ _ id _ (ct_views _ _ _ Ht _) Hp (params_json_new (ce_node_type0 e))) as Hj;
      pose proof (yields_inv _ _ _ Hj C p eq_refl) as Hpj;
      eapply json_kept_json, (yields_inv _ _ _ (node_json_clean e p (ct_escape _ _ _ Ht) Hpj) N)
  end.
Qed.
End ConfBodies.

(** Claim C26: with debugging off, every answer to a request below
    [/rest/conf] has a JSON body or none, for the texts [conf_texts] allows.
    What a shell command prints for a POST may be any text whose control
    characters are tabs, newlines and carriage returns, quotes and
    backslashes among it; the error text of a PUT and the text of a commit
    or a save must not hold backslashes or control characters other than
    newlines; the names, users and descriptions of sessions, the URI and the
    values of the configuration, which are not escaped, must fit a JSON
    string as they are. *)
Theorem conf_body_json (e : conf_env) (s : Session) (fs : files) (r : ConfMode.outcome) :
  conf_texts e s fs -> ConfMode.process e s fs = Ok r -> json_body s -> json_body r.1.1.
Proof.
  intros Ht H. change (json_kept s r.1.1). unfold ConfMode.process in H.
  autorewrite with rest in H.
  opens H; cbn [fst]; auto 8 with json; try (exfalso; auto; fail).
  all: first
    [ etrans; [|apply (get_list_json e s fs Ht); by autorewrite with rest]; auto 8 with json
    | match goal with
      | H : ConfMode.get_node _ _ _ _ _ = _ |- _ =>
          apply (get_node_json e s fs Ht) in H; [|apply Forall_drop, (ct_uri _ _ _ Ht)]
      | H : put _ _ _ _ _ _ = _ |- _ => apply (put_json e s fs Ht) in H; [|done]
      | H : post_create _ _ _ _ _ = _ |- _ => apply post_create_json in H
      | H : post_command _ _ _ _ _ _ _ = _ |- _ => apply (post_command_json e s fs Ht) in H
      end; (etrans; [|eassumption]); auto 8 with json
    | etrans; [|by apply (delete_session_json e s fs Ht)]; auto 8 with json ].
Qed.

(** A command whose output has everything the escapes are for, and the node
    of [demo_help_view]. *)
Definition demo_output : str := lit "a" ++ [backslash; dquote; tab; cr; nl] ++ lit "b".
Definition demo_texts : conf_env :=
  mkConfEnv false (fun _ => demo_help_view) true (fun _ => false) (fun _ => (Some [], None)) (fun _ => (Some [], None))
    (Some []) (fun _ => None) (fun _ => Some (demo_output, Exited 0)) [] (true, true) demo_escape Some NODE_TYPE_LEAF.
Definition demo_show : Session :=
  request_session (lit "POST") (lit "/rest/conf/0123456789ABCDEF/show") AUTH_TYPE_BASIC k_VYATTACFG (lit "vyatta").
Definition demo_mtu : Session :=
  request_session (lit "GET") (lit "/rest/conf/0123456789ABCDEF/mtu") AUTH_TYPE_BASIC k_VYATTACFG (lit "vyatta").
Definition demo_session_files : files := {[ VYATTA_MODIFY_FILE ++ lit "0123456789ABCDEF" := lit "vyatta/test" ]}.

Lemma demo_conf_texts s : s ∈ [demo_show; demo_mtu] -> conf_texts demo_texts s demo_session_files.
Proof.
  intros Hs. rewrite !elem_of_cons, elem_of_nil in Hs. split; try done.
  - intros c out st [= <- <-]. by_compute.
  - intros c out st H. exfalso. destruct Hs as [->|[->|[]]]; vm_compute in H; discriminate H.
  - intros sid t. rewrite !elem_of_cons. intros [->|[->|[->|[->|[]%elem_of_nil]]]]; constructor.
  - intros names [= <-]. constructor.
  - destruct Hs as [->|[->|[]]]; apply jtext_chars; by_compute.
  - intros i user d. unfold read_conf_modify_file.
    destruct (demo_session_files !! (VYATTA_MODIFY_FILE ++ i)) as [content|] eqn:E; [|done].
    unfold demo_session_files in E. apply lookup_singleton_Some in E as [_ <-]. vm_compute. intros [= _ <-]. apply jtext_chars. by_compute.
  - intros sid. apply demo_view_texts.
  - apply demo_escape_plain.
  - destruct Hs as [->|[->|[]]]; by_compute.
Qed.

Lemma conf_body_json_witness :
  Forall (fun s => exists r, ConfMode.process demo_texts s demo_session_files = Ok r /\
                     resp_get r.1.1 HTTP_BODY <> [] /\ json_body r.1.1) [demo_show; demo_mtu].
Proof.
  apply Forall_forall. intros s Hs.
  assert (match ConfMode.process demo_texts s demo_session_files with
          | Ok r => bool_decide (resp_get r.1.1 HTTP_BODY <> [])
          | Fault _ => false
          end = true) as H.
  { rewrite !elem_of_cons, elem_of_nil in Hs. destruct Hs as [->|[->|[]]]; vm_compute; reflexivity. }
  destruct (ConfMode.process demo_texts s demo_session_files) as [r|] eqn:E; [|discriminate].
  exists r. split; [reflexivity|]. split; [by apply bool_decide_eq_true in H|].
  apply (conf_body_json demo_texts s demo_session_files r (demo_conf_texts s Hs)); [exact E|].
  left. rewrite !elem_of_cons, elem_of_nil in Hs. by destruct Hs as [->|[->|[]]].
Defined.

(** A value of the configuration is not escaped: one double quote in it, and
    the description of its node is not JSON. *)
Definition demo_rack : conf_env :=
  let v := mkView (fun _ => true) (fun _ => Some [lit "help=a text"; lit "type=txt"]) (fun _ => []) (fun _ => [])
             (fun _ => NODE_TYPE_LEAF) (fun _ _ => NODE_STATUS_UNCHANGED) (fun _ _ => true)
             (fun _ _ => [lit "19" ++ dquote :: lit " rack"]) in
  mkConfEnv false (fun _ => v) true (fun _ => false) (fun _ => (Some [], None)) (fun _ => (Some [], None))
    (Some []) (fun _ => None) (fun _ => Some ([], Exited 0)) [] (true, true) demo_escape Some NODE_TYPE_LEAF.

Theorem value_quote_breaks :
  match ConfMode.process demo_rack demo_mtu demo_session_files with
  | Ok (s', _, _) => resp_get s' HTTP_BODY <> [] /\ forall k, ~ json k (resp_get s' HTTP_BODY)
  | Fault _ => False
  end.
Proof.
  assert (match ConfMode.process demo_rack demo_mtu demo_session_files with
          | Ok (s', _, _) => bool_decide (resp_get s' HTTP_BODY <> []) && bool_decide (backslash ∉ resp_get s' HTTP_BODY) &&
                             negb (Nat.even (quotes (resp_get s' HTTP_BODY)))
          | Fault _ => false
          end = true) as H by (vm_compute; reflexivity).
  destruct (ConfMode.process demo_rack demo_mtu demo_session_files) as [[[s' fs'] evs]|]; [|discriminate].
  apply andb_true_iff in H as [[Hne%bool_decide_eq_true Hb%bool_decide_eq_true]%andb_true_iff Hq]. split; [done|].
  intros k Hk. by rewrite (json_quotes k _ Hk Hb) in Hq.
Qed.

(** ** The list of [OpMode] *)

Lemma list_entry_text pd :
  list_entry pd = object_text
    [(lit "username", _username pd); (lit "started", dec_signed (_start_time pd));
     (lit "updated", dec_signed (_last_update pd)); (lit "id", _id pd); (lit "command", _command pd)].
Proof.
  unfold object_text. cbn [fmap list_fmap join]. unfold value_member. cbn [fst snd].
  unfold list_entry. rewrite <- !app_assoc. reflexivity.
Qed.

Section OpList.
Context (e : op_env) (s : Session) (fs : files) (stack : str) (ex : str -> nat -> bool) (m : ChunkerManager).
Context (dfs : files) (t sock : N).

(** The user's own commands. *)
Let own := (filter (owned (Http._user s)) (_proc_coll m)).*2.

(** A request for the list, with the daemon up. *)
Record list_request : Prop := {
  lq_request : op_request s (lit "GET") OP_REQ_ROOT;
  lq_user : clean (Http._user s) /\ Http._user s <> [] /\ length (Http._user s) < 900;
  lq_sock : sock <> 0%N;
  lq_init : oe_init e 0 = true;
  lq_write : oe_write e 0 = true;
  lq_answer : oe_answer e = daemon stack ex m dfs t sock;
  lq_entries : Forall plain_entry own;
  lq_fits : length (process_list m (Http._user s)) < reply_size;
}.

(** The body of the list. *)
Lemma list_body :
  list_request ->
  exists s', process e s fs = Ok (s', fs, []) /\
    resp_get s' HTTP_BODY =
    match own with
    | [] => []
    | _ => lit "{" ++ array_member (lit "process",
                        (fun pd => list_entry (client_view (oe_indeterminate e) pd)) <$> own) ++ lit "}"
    end.
Proof. intros [? (? & ? & ?) ? ? ? ? ? ?]. by eapply op_list_body. Qed.

(** The list of a user's background commands is JSON as long as
    the commands hold no quotes, no backslashes and no control
    characters. *)
Theorem op_list_json :
  list_request -> Forall (fun pd => jtext (ChunkerManager._command pd) /\ jtext (_user pd) /\ jtext (_token pd)) own ->
  exists s', process e s fs = Ok (s', fs, []) /\ json_body s'.
Proof.
  intros Hl Hj. destruct (list_body Hl) as (s' & Hs' & Hb). exists s'. split; [done|]. unfold json_body. rewrite Hb.
  assert (forall l, l <> [] -> Forall (fun pd => jtext (ChunkerManager._command pd) /\ jtext (_user pd) /\ jtext (_token pd)) l ->
    json JValue (lit "{" ++ array_member (lit "process",
      (fun pd => list_entry (client_view (oe_indeterminate e) pd)) <$> l) ++ lit "}")) as Hlist.
  { intros l Hne Hjl. apply json_object. unfold array_member. cbn [fst snd]. apply json_member_text; [apply jtext_chars; by_compute|].
    apply json_array, json_join_elements; [|by destruct l]. apply Forall_fmap. eapply Forall_impl; [exact Hjl|].
    intros pd (Hc & Hu & Ht). cbn. rewrite list_entry_text. apply object_text_json; [done|].
    repeat (constructor; [split; [apply jtext_chars; by_compute|]|]); cbn; try done; try apply jtext_dec_signed. }
  destruct own as [|pd l] eqn:E; [by left|]. right. by apply Hlist.
Qed.

Lemma quotes_object_text ms :
  quotes (object_text ms) = sum_list_with (fun p => 4 + quotes p.1 + quotes p.2) ms.
Proof.
  unfold object_text. rewrite !quotes_app. change (quotes (lit "{")) with 0. change (quotes (lit "}")) with 0.
  rewrite Nat.add_0_r. cbn [plus]. induction ms as [|p ms IH]; [done|]. rewrite fmap_cons. cbn [sum_list_with].
  assert (quotes (value_member p) = 4 + quotes p.1 + quotes p.2) as Hp.
  { unfold value_member. rewrite !quotes_app, !quotes_dq. change (quotes (lit ":")) with 0. lia. }
  rewrite <- IH. clear IH. destruct ms as [|q ms]; cbn [fmap list_fmap join]; [rewrite (quotes_none []) by apply not_elem_of_nil; lia|].
  rewrite !quotes_app. change (quotes (lit ",")) with 0. lia.
Qed.

(** One command with an odd number of quotes, such as one with a quote in an
    argument, and the list of its user is not JSON. *)
Theorem op_list_quote_breaks pd :
  list_request -> own = [pd] -> quotes (_user pd) = 0 -> quotes (_token pd) = 0 ->
  Nat.even (quotes (ChunkerManager._command pd)) = false ->
  backslash ∉ ChunkerManager._command pd -> backslash ∉ _user pd -> backslash ∉ _token pd ->
  exists s', process e s fs = Ok (s', fs, []) /\ resp_get s' HTTP_BODY <> [] /\
    forall k, ~ json k (resp_get s' HTTP_BODY).
Proof.
  intros Hl Hown Hqu Hqt Hodd Hbc Hbu Hbt. destruct (list_body Hl) as (s' & Hs' & Hb). exists s'. split; [done|].
  rewrite Hb, Hown. split; [done|]. intros k Hj. cbn [fmap list_fmap] in Hj. unfold array_member in Hj.
  cbn [fst snd join] in Hj. rewrite list_entry_text in Hj.
  assert (forall c n, char_digit c = None -> c <> ascii_of_nat 45 -> c ∉ dec_signed n) as Hd
    by (intros; by apply dec_signed_notin).
  apply json_quotes in Hj.
  - rewrite !quotes_app, quotes_dq, quotes_object_text in Hj. unfold client_view in Hj.
    cbn [sum_list_with fst snd _username _start_time _last_update _id _command] in Hj.
    rewrite !(quotes_none (dec_signed _)), Hqu, Hqt in Hj by (by apply Hd).
    repeat match type of Hj with context [quotes (lit ?x)] => change (quotes (lit x)) with 0 in Hj end.
    replace (0 + _) with (2 * 11 + quotes (ChunkerManager._command pd)) in Hj by lia.
    by rewrite Nat.add_comm, Nat.even_add_mul_2, Hodd in Hj.
  - assert (forall k v, backslash ∉ k -> backslash ∉ v -> backslash ∉ value_member (k, v)) as Hv
      by (intros k' v' Hk' Hv'; unfold value_member, dq; cbn [fst snd];
          rewrite !not_elem_of_app, !not_elem_of_cons, !not_elem_of_app; split_and!; first [done | by_compute]).
    unfold object_text. cbn [fmap list_fmap join]. unfold client_view. cbn [_username _start_time _last_update _id _command].
    rewrite !not_elem_of_app. split_and!;
      first [apply Hv; [by_compute | first [done | by apply Hd]] | by_compute].
Qed.
End OpList.

(** The table with one command of the user, given its line. *)
Definition demo_table (cmd : str) : ChunkerManager :=
  (ChunkerManager.process [] (fun _ _ => false) (main_manager default_config) ∅ 7 3
    (CHUNKER_COMMAND_FORMAT OpMode.demo_id cmd (lit "vyatta"))).1.1.

Definition demo_list : Session := op_session (lit "GET") OP_REQ_ROOT (lit "vyatta").
Definition demo_list_env (cmd : str) : op_env := demo_op_env (daemon [] (fun _ _ => false) (demo_table cmd) ∅ 9 3).

Lemma op_list_json_witness :
  exists s', process (demo_list_env (lit "show 'version'")) demo_list ∅ = Ok (s', ∅, []) /\ json_body s'.
Proof.
  apply (op_list_json _ demo_list ∅ [] (fun _ _ => false) (demo_table (lit "show 'version'")) ∅ 9 3).
  - split; [by_compute | by_compute | done | done | done | reflexivity | by_compute | by_compute].
  - vm_compute. repeat constructor.
Defined.

Lemma op_list_quote_breaks_witness :
  exists s', process (demo_list_env (lit "ping '" ++ [dquote] ++ lit "'")) demo_list ∅ = Ok (s', ∅, []) /\
    resp_get s' HTTP_BODY <> [] /\ forall k, ~ json k (resp_get s' HTTP_BODY).
Proof.
  eapply (op_list_quote_breaks _ demo_list ∅ [] (fun _ _ => false) (demo_table (lit "ping '" ++ [dquote] ++ lit "'")) ∅ 9 3).
  - split; [by_compute | by_compute | done | done | done | reflexivity | by_compute | by_compute].
  - vm_compute. reflexivity.
  - vm_compute. reflexivity.
  - vm_compute. reflexivity.
  - vm_compute. reflexivity.
  - by_compute.
  - by_compute.
  - by_compute.
Defined.

(** ** The other answers of [OpMode] *)

(** The texts of the operational daemon: help with no escapes but for
    quotes and line ends, and names that need none. *)
Record opd_texts (o : opd_view) : Prop := {
  ot_help path m entry value :
    opd_tmpl o path = Some m -> entry ∈ m -> split_entry entry = Some (lit "help", value) -> Forall simple value;
  ot_allowed path x : x ∈ opd_allowed o path -> jtext x;
  ot_children path x : x ∈ opd_children o path -> jtext x;
}.

(** What [OpMode.node_json] needs. *)
Definition op_params_json (p : TemplateParams) : Prop :=
  jtext (_help p) /\ Forall jtext (sset_elements (_enum p)) /\ Forall (fun n => jtext (_name n)) (_children_coll p).

Lemma op_template_loop_json o entries path p :
  opd_texts o ->
  (forall entry value, entry ∈ entries -> split_entry entry = Some (lit "help", value) -> Forall simple value) ->
  op_params_json p -> yields (op_template_loop o entries path p) op_params_json.
Proof.
  intros Ho. revert path p. induction entries as [|entry entries IH]; intros path p He Hp; [by apply yields_ok|].
  assert (forall x v, x ∈ entries -> split_entry x = Some (lit "help", v) -> Forall simple v) as He'
    by (intros x v Hx; apply He; by right).
  cbn [op_template_loop]. destruct (split_entry entry) as [[key value]|] eqn:E; [|by apply IH]. destruct Hp as (Hh & Hen & Hc).
  repeat case_decide; try by apply IH.
  - subst key. eapply yields_bind; [apply help_text_json; by apply (He entry); [left|]|]. intros t Ht.
    apply IH; [done|]. by destruct (contains value _).
  - apply IH; [done|]. split; [done|]. split; [|done]. apply sset_insert_all; [|done].
    apply Forall_forall. apply (ot_allowed o Ho).
Qed.

Lemma op_node_json e p nt :
  opd_texts (oe_opd e) ->
  yields (get_operational_node (oe_opd e) p (new_TemplateParams nt)) (fun params => json_clean (node_json params)).
Proof.
  intros Ho. unfold get_operational_node. cbv zeta. set (path := if decide _ then _ else _).
  apply yields_bind with (P := op_params_json).
  { assert (op_params_json (new_TemplateParams nt)) as Hn by (split_and!; constructor).
    unfold get_op_template_node. destruct (opd_tmpl (oe_opd e) path) as [m|] eqn:Em; [|by apply yields_ok].
    apply op_template_loop_json; [done| |done]. intros entry value. by apply (ot_help _ Ho path). }
  intros q (Hh & Hen & Hc).
  assert (forall q', op_params_json q' -> json_clean (node_json q')) as Hnode.
  { intros q' (Hh' & Hen' & Hc'). unfold node_json.
    repeat apply json_clean_add_all; try (apply jtext_chars; by_compute); [|by apply Forall_fmap | exact Hen'].
    apply json_clean_add_value; [|apply jtext_chars; by_compute | destruct (_action q'); apply jtext_chars; by_compute].
    by apply json_clean_add_value; [apply json_clean_new | apply jtext_chars; by_compute |]. }
  assert (Forall (fun n => jtext (_name n)) (op_child <$> opd_children (oe_opd e) path)) as Hch.
  { apply Forall_fmap, Forall_forall. intros x Hx. unfold op_child. cbn. case_decide; [apply jtext_chars; by_compute|].
    by apply (ot_children _ Ho path). }
  destruct (opd_children (oe_opd e) path) as [|c l]; apply yields_ok, Hnode; [done|].
  split; [done|]. split; [done|]. apply Forall_app. by split.
Qed.

Lemma op_get_node_json e s path s' :
  opd_texts (oe_opd e) -> OpMode.get_node e s path = Ok s' -> json_kept s s'.
Proof.
  intros Ho H. unfold OpMode.get_node in H. apply res_bind_ok in H as (params & Hp & H). injection H as <-.
  apply json_kept_json, (yields_inv _ _ _ (op_node_json e _ _ Ho) Hp).
Qed.

(** Every answer of [OpMode] but the list has a JSON body or none, or is
    output, which is sent as it is. *)
Theorem op_body_json e s fs r :
  opd_texts (oe_opd e) -> (req_get s HTTP_REQ_METHOD = lit "GET" -> req_get s HTTP_REQ_URI <> OP_REQ_ROOT) ->
  OpMode.process e s fs = Ok r -> json_body s -> json_body r.1.1 \/ _verbatim_body (_response r.1.1) = true.
Proof.
  intros Ho Hlist H Hs. cut (json_kept s r.1.1 \/ _verbatim_body (_response r.1.1) = true); [intros [Hk|]; auto|].
  unfold OpMode.process, OpMode.post, get_segment, segment_response, delete_command in H.
  opens H; cbn [fst]; auto 8 with json; try (exfalso; by apply Hlist); left.
  - apply json_kept_error, json_kept_debug, json_kept_set; [done | apply json_kept_refl].
  - by eapply op_get_node_json.
  - apply json_kept_json, message_json, jtext_chars. by_compute.
Qed.

Lemma op_body_json_witness :
  let e := mkOpEnv (fun _ => true) (fun _ => true) (fun _ => None) false true id 0 [] true
             (mkOpd (fun _ => Some [lit "help=show the " ++ dquote :: lit "version" ++ [dquote]]) (fun _ => [])
                    (fun _ => [lit "all"; lit "node.tag"]) (fun _ => true)) Some NODE_TYPE_LEAF in
  let s := op_session (lit "GET") (lit "/rest/op/show/version") (lit "vyatta") in
  exists r, OpMode.process e s ∅ = Ok r /\
    resp_get r.1.1 HTTP_BODY <> [] /\ (json_body r.1.1 \/ _verbatim_body (_response r.1.1) = true).
Proof.
  intros e s.
  assert (match OpMode.process e s ∅ with Ok r => bool_decide (resp_get r.1.1 HTTP_BODY <> []) | Fault _ => false end = true)
    as H by (vm_compute; reflexivity).
  destruct (OpMode.process e s ∅) as [r|] eqn:E; [|discriminate]. exists r. split; [reflexivity|].
  split; [by apply bool_decide_eq_true in H|]. apply (op_body_json e s ∅ r).
  - split.
    + intros path m entry value [= <-] ->%list_elem_of_singleton Hv. vm_compute in Hv. injection Hv as <-. by_compute.
    + intros path x []%elem_of_nil.
    + intros path x. cbn. rewrite !elem_of_cons. intros [->|[->|[]%elem_of_nil]]; apply jtext_chars; by_compute.
  - intros _. by_compute.
  - exact E.
  - by left.
Defined.

(** ** The arguments of a command *)

(** The arguments handed to the command runner are JSON, for text without
    quotes, backslashes and control characters. *)
Theorem opc_args_json args :
  Forall jtext args -> exists t, opc_args args = lit "OPC_ARGS=" ++ t /\ (t = [] \/ json JValue t).
Proof.
  intros Ha. unfold opc_args. eexists. split; [done|]. apply json_clean_serialize.
  change (foldl _ new_JSON args) with (add_all new_JSON (lit "args") args false).
  apply json_clean_add_all; [apply json_clean_new | apply jtext_chars; by_compute | done].
Qed.

Lemma opc_args_json_witness :
  exists t, opc_args [lit "show"; lit "version"] = lit "OPC_ARGS=" ++ t /\ (t = [] \/ json JValue t).
Proof. apply opc_args_json. repeat constructor; by_compute. Defined.

(** Double quotes in them are not escaped: one argument becomes two. *)
Theorem opc_args_quote_splits a b :
  a <> [] -> b <> [] -> opc_args [a ++ dquote :: comma :: dquote :: b] = opc_args [a; b].
Proof.
  intros Ha Hb.
  assert (forall l, Forall (fun v => v <> []) l -> l <> [] ->
    opc_args l = lit "OPC_ARGS=" ++ lit "{" ++ array_member (lit "args", dq <$> l) ++ lit "}") as Hl.
  { intros l Hne Hl. unfold opc_args. f_equal. change (foldl _ new_JSON l) with (add_all new_JSON (lit "args") l false).
    rewrite json_serialize_members by apply json_flat_add_all, json_flat_new.
    rewrite add_all_new by done. replace (filter (fun v => v <> []) l) with l.
    - destruct l as [|v l]; [done|]. unfold json_members. cbn [_array _value]. by rewrite app_nil_r.
    - clear Hl. induction Hne as [|v l Hv _ IH]; [done|]. by rewrite filter_cons, decide_True, <- IH. }
  rewrite (Hl [a ++ _]), (Hl [a; b]); [|by apply Forall_cons; split; [|apply Forall_singleton]|done|
    by apply Forall_singleton; destruct a | done].
  unfold array_member. cbn [fmap list_fmap join fst snd]. unfold dq.
  change (lit ",") with [comma]. cbn [app]. rewrite <- !app_assoc. cbn [app]. by rewrite <- !app_assoc.
Qed.

Lemma opc_args_quote_splits_witness :
  opc_args [lit "8.8.8.8" ++ dquote :: comma :: dquote :: lit "flood"] = opc_args [lit "8.8.8.8"; lit "flood"].
Proof. by apply opc_args_quote_splits. Defined.
