(* ===== verification/Scripts.v ===== *)
(** * [AppMode] and [ServiceMode] (appmode.cc, servicemode.cc)

    The two handlers that run a script for a request: the request's body
    goes into a file, a shell runs the script on it, and the output becomes
    the response. *)

From S2P Require Import Prelude CppString StrProc Common CppMap Http Mode Configuration.

(** The environment of a request.  [sc_written] is how many characters
    [fwrite] can write, [sc_append] whether the debug line can be added;
    [sc_run] is the run of a shell command that finds the given files. *)
Record script_env := mkScriptEnv {
  sc_debug : bool;
  sc_open : bool;
  sc_written : nat;
  sc_append : bool;
  sc_run : str -> files -> child_run;
  sc_stat : str -> bool;
  sc_opd : opd_view;
  sc_configd : configd_view;
  sc_node_type0 : node_type;
}.

(** The session, the files and the shell commands run. *)
Abbreviation script_outcome := (Session * files * list str)%type.

(** [export NAME=value;], unless the value is empty. *)
Definition export (name value : str) : str := lit "export " ++ name ++ lit "=" ++ value ++ lit ";".
Definition export_some (name value : str) : str := if decide (value = []) then [] else export name value.

(** The command both handlers run: [source] names the script file and the
    function in it. *)
Definition script_command (environment source command : str) : str :=
  lit "/bin/bash -p -c " ++ [quote] ++ environment ++ source ++ lit " " ++ command ++ lit " < " ++
  JSON_INPUT ++ [quote].

Section Handlers.
Variable e : script_env.

(** The [fopen] and [fwrite] of the body: the files, and success. *)
Definition write_input (json : str) (fs : files) : files * bool :=
  if sc_open e then
    (<[JSON_INPUT := take (sc_written e) json]> fs, bool_decide (length json <= sc_written e))
  else (fs, false).

(** [unlink], without debugging. *)
Definition unlink_input (fs : files) : files := if sc_debug e then fs else delete JSON_INPUT fs.

(** The line appended for debugging. *)
Definition append_debug (cmd : str) (fs : files) : files :=
  if sc_debug e && sc_append e then
    <[JSON_INPUT := default [] (fs !! JSON_INPUT) ++ lit "XE: " ++ [quote] ++ cstr cmd ++ [quote; nl]]> fs
  else fs.

(** Runs [cmd] on the files: a failing script sets the error, and its output
    is the response either way. *)
Definition run_script (failure : ERROR_TYPE) (cmd : str) (s : Session) (fs : files) : res Session :=
  let '(err, stdout) := system_out (sc_run e (cstr cmd) fs) [] in
  let s := if decide (err <> 0%Z) then Error failure s else s in
  handle_cmd_output stdout s.

(** ** [AppMode::process] *)

Definition app_environment (s : Session) : str :=
  export (lit "REQUEST_METHOD") (req_get s HTTP_REQ_METHOD) ++ lit "export COMMIT_VIA=gui2_app;" ++
  export_some (lit "SESSION") (_session_key s) ++ export_some (lit "USERNAME") (_user s).

Definition app_source : str := lit "umask 000; source /usr/lib/cgi-bin/vyatta-app;_vyatta_app_run".

Definition app_process (s : Session) (fs : files) : res script_outcome :=
  let s := vyatta_debug (lit "XC") s in
  if decide (_auth_type s = AUTH_TYPE_NONE) then Ok (Error AUTHORIZATION_FAILURE s, fs, [])
  else
    let path := req_get s HTTP_REQ_URI in
    if decide (path = []) then Ok (Error VALIDATION_FAILURE s, fs, [])
    else
      let* command := substr_from path (length APP_REQ_ROOT) in
      if decide (command = []) then Ok (Error VALIDATION_FAILURE s, fs, [])
      else
        let environment := app_environment s in
        let '(fs, ok) := write_input (req_get s HTTP_BODY) fs in
        if ok : bool then
          let appmodecmd := script_command environment app_source command in
          let* s := run_script APPMODE_SCRIPT_ERROR appmodecmd s fs in
          let fs := append_debug appmodecmd (unlink_input fs) in
          Ok (vyatta_debug (lit "XE:" ++ appmodecmd) s, fs, [appmodecmd])
        else Ok (Error SERVER_ERROR s, fs, []).

(** ** [ServiceMode] *)

Definition service_entry (name help : str) : str :=
  lit "{" ++ dq (lit "id") ++ lit ":" ++ dq name ++ lit "," ++
  dq (lit "description") ++ lit ":" ++ dq help ++ lit "}".

(** The loop of [service_index]: a child without a template is tried again
    and again, since [continue] skips [++i]. *)
Fixpoint index_loop (fuel : nat) (children : list NodeParams) (json : JSON) : res JSON :=
  match fuel with
  | O => Fault OutOfFuel
  | S f =>
      match children with
      | [] => Ok json
      | i :: rest =>
          let* tmpl := get_template_node (sc_configd e) (SERVICE_COMMAND_DIR ++ lit "/" ++ _name i)
                         (new_TemplateParams (sc_node_type0 e)) in
          match tmpl with
          | None => index_loop f children json
          | Some p => index_loop f rest (add_array json (lit "services") (service_entry (_name i) (_help p)) true).1
          end
      end
  end.

Definition service_index (fuel : nat) (s : Session) : res Session :=
  let* params := get_operational_node (sc_opd e) SERVICE_COMMAND_DIR (new_TemplateParams (sc_node_type0 e)) in
  let* json := index_loop fuel (_children_coll params) new_JSON in
  Ok (set_json json s).

Definition service_environment (s : Session) : str :=
  export (lit "REQUEST_METHOD") (req_get s HTTP_REQ_METHOD) ++
  export_some (lit "SESSION") (_session_key s) ++
  export_some (lit "VYATTA_SESSION_USERNAME") (_user s) ++ lit "export VYATTA_ACCESS_LEVEL=service-user;".

Definition service_source : str :=
  lit "umask 000; source /usr/lib/cgi-bin/vyatta-service;_vyatta_service_run".

Definition execute_service (s : Session) (fs : files) (path : str) : res script_outcome :=
  let* command := substr_from path (length SERVICE_REQ_ROOT) in
  if decide (command = []) then Ok (Error VALIDATION_FAILURE s, fs, [])
  else
    let environment := service_environment s in
    let '(fs, ok) := write_input (req_get s HTTP_BODY) fs in
    if ok : bool then
      let servicecmd := script_command environment service_source command in
      let* s := run_script SERVICEMODE_SCRIPT_ERROR servicecmd s fs in
      Ok (s, append_debug servicecmd (unlink_input fs), [servicecmd])
    else Ok (Error SERVER_ERROR s, fs, []).

(** The walk of [validate_service_cmd] down the template directory. *)
Fixpoint walk (coll : list str) (path : str) : str :=
  match coll with
  | [] => path
  | c :: coll' =>
      if sc_stat e (path ++ lit "/" ++ c) then walk coll' (path ++ lit "/" ++ c)
      else if sc_stat e (path ++ lit "/node.tag") then walk coll' (path ++ lit "/node.tag")
      else []
  end.

Definition validate_service_cmd (cmd : str) : res str :=
  if decide (length cmd <= length SERVICE_REQ_ROOT) then Ok []
  else
    let* coll := str_proc (drop (length SERVICE_REQ_ROOT) cmd) [slash] in
    Ok (walk coll SERVICE_COMMAND_DIR).

Definition service_process (fuel : nat) (s : Session) (fs : files) : res script_outcome :=
  if decide (_auth_type s = AUTH_TYPE_NONE) then Ok (Error AUTHORIZATION_FAILURE s, fs, [])
  else
    let path := req_get s HTTP_REQ_URI in
    if decide (path = []) then Ok (Error VALIDATION_FAILURE s, fs, [])
    else
      let method := req_get s HTTP_REQ_METHOD in
      if decide (method = lit "GET" /\ path = SERVICE_REQ_ROOT) then
        let* s := service_index fuel s in Ok (s, fs, [])
      else
        let* valid := (if decide (method = lit "GET") then validate_service_cmd path else Ok []) in
        if decide (valid <> []) then execute_service s fs path
        else Ok (Error VALIDATION_FAILURE s, fs, []).
End Handlers.

(** ** A script's response *)

(** What the script of a run printed, when the pipe could be made. *)
Definition script_output (run : child_run) : str := if run_pipe run then read_loop (run_reads run) [] else [].

Definition script_failed (run : child_run) : bool := negb (run_pipe run) || bool_decide (run_status run <> 0%N).

Lemma run_script_spec e failure cmd s fs :
  let run := sc_run e (cstr cmd) fs in
  exists s', run_script e failure cmd s fs = Ok s' /\
    resp_get s' HTTP_BODY = (script_parts (script_output run)).2 /\
    resp_get s' HTTP_RESP_CODE = (if script_failed run then (http_response_error failure).1.1
                                  else resp_get s HTTP_RESP_CODE) /\
    same_but_response s s'.
Proof.
  intros run. unfold run_script. fold run. unfold script_output, script_failed, system_out.
  destruct (if run_pipe run then _ else _) as [err out] eqn:E.
  rewrite handle_cmd_output_parts. eexists. split; [done|].
  set (s1 := if decide (err <> 0%Z) then _ else _).
  destruct (overrides_facts (script_parts out).1 s1) as (H1 & _ & H3).
  assert (same_but_response s s1) as Hs1.
  { unfold s1. case_decide; [apply same_but_response_error | done]. }
  split; [|split].
  - destruct (run_pipe run); injection E as <- <-; apply resp_get_set_eq.
  - rewrite resp_get_set_ne, H3 by done. unfold s1. clear H1 H3 Hs1 s1.
    destruct (run_pipe run); injection E as <- <-; cbn [negb orb].
    + case_bool_decide as Hz; [rewrite decide_True by lia; apply Error_code|].
      rewrite decide_False by lia. done.
    + rewrite decide_True by done. apply Error_code.
  - etrans; [exact Hs1|]. etrans; [exact H1 | apply same_but_response_upd].
Qed.

Lemma app_environment_debug d s : app_environment (vyatta_debug d s) = app_environment s.
Proof.
  unfold app_environment. autorewrite with rest.
  destruct (same_but_response_debug d s) as (_ & _ & _ & _ & _ & _ & ->). done.
Qed.

Lemma auth_debug d s : _auth_type (vyatta_debug d s) = _auth_type s.
Proof. by destruct (same_but_response_debug d s) as (_ & _ & _ & _ & _ & -> & _). Qed.
#[export] Hint Rewrite auth_debug app_environment_debug : rest.

(** Everything an application request with a body file does. *)
Lemma app_process_run e s fs command :
  _auth_type s <> AUTH_TYPE_NONE -> req_get s HTTP_REQ_URI = APP_REQ_ROOT ++ command -> command <> [] ->
  sc_open e = true -> length (req_get s HTTP_BODY) <= sc_written e ->
  let cmd := script_command (app_environment s) app_source command in
  let input := <[JSON_INPUT := req_get s HTTP_BODY]> fs in
  exists s1, run_script e APPMODE_SCRIPT_ERROR cmd (vyatta_debug (lit "XC") s) input = Ok s1 /\
    app_process e s fs =
    Ok (vyatta_debug (lit "XE:" ++ cmd) s1, append_debug e cmd (unlink_input e input), [cmd]).
Proof.
  intros Hauth Huri Hne Hopen Hw cmd input. unfold app_process. autorewrite with rest.
  rewrite decide_False by done. rewrite Huri, decide_False by done.
  unfold substr_from. rewrite decide_True by (rewrite length_app; lia). rewrite drop_app_length.
  cbn [res_bind]. rewrite decide_False by done. unfold write_input. rewrite Hopen, take_ge by done.
  rewrite bool_decide_eq_true_2 by done. fold cmd input.
  destruct (run_script_spec e APPMODE_SCRIPT_ERROR cmd (vyatta_debug (lit "XC") s) input) as (s1 & Hs1 & _).
  exists s1. rewrite Hs1. done.
Qed.

(** Claim C30: an application request runs exactly one command, and runs it
    while the file the command reads holds exactly the request's body; it
    always yields a response: the body is what the script printed on that
    file (behind its headers), also when it fails, in which case the status is
    400.  The server changes no other file, and the body file is gone
    afterwards unless debugging. *)
Theorem app_run_correct (e : script_env) (s : Session) (fs : files) (command : str) :
  _auth_type s <> AUTH_TYPE_NONE -> req_get s HTTP_REQ_URI = APP_REQ_ROOT ++ command -> command <> [] ->
  sc_open e = true -> length (req_get s HTTP_BODY) <= sc_written e ->
  let cmd := script_command (app_environment s) app_source command in
  let run := sc_run e (cstr cmd) (<[JSON_INPUT := req_get s HTTP_BODY]> fs) in
  exists s' fs', app_process e s fs = Ok (s', fs', [cmd]) /\
    resp_get s' HTTP_BODY = (script_parts (script_output run)).2 /\
    resp_get s' HTTP_RESP_CODE = (if script_failed run then lit "400" else resp_get s HTTP_RESP_CODE) /\
    (forall f, f <> JSON_INPUT -> fs' !! f = fs !! f) /\
    (sc_debug e = false -> fs' !! JSON_INPUT = None).
Proof.
  intros Hauth Huri Hne Hopen Hw cmd run.
  destruct (app_process_run e s fs command Hauth Huri Hne Hopen Hw) as (s1 & Hs1 & ->). fold cmd in Hs1 |- *.
  destruct (run_script_spec e APPMODE_SCRIPT_ERROR cmd (vyatta_debug (lit "XC") s) (<[JSON_INPUT := req_get s HTTP_BODY]> fs))
    as (s1' & Hs1' & Hb & Hc & _).
  rewrite Hs1 in Hs1'. injection Hs1' as <-. fold run in Hb, Hc.
  eexists _, _. split; [done|]. autorewrite with rest in *. split; [done|]. split; [done|].
  unfold append_debug, unlink_input. split.
  - intros f Hf. destruct (sc_debug e), (sc_append e); cbn [andb];
      by rewrite ?lookup_insert_ne, ?lookup_delete_ne, ?lookup_insert_ne.
  - intros ->. cbn [andb]. apply lookup_delete_eq.
Qed.

Definition demo_env (out : str) (status : N) : script_env :=
  mkScriptEnv false true 4096 true (fun _ _ => mkRun true [ReadData out; ReadAgain; ReadEnd] status)
    (fun _ => true) (mkOpd (fun _ => None) (fun _ => []) (fun _ => [lit "vpn"]) (fun _ => false))
    (mkView (fun _ => true) (fun _ => Some [lit "help=a service"]) (fun _ => []) (fun _ => [])
       (fun _ => NODE_TYPE_CONTAINER) (fun _ _ => NODE_STATUS_UNCHANGED) (fun _ _ => true) (fun _ _ => []))
    NODE_TYPE_CONTAINER.

Definition app_session (path : str) : Session :=
  request_session (lit "GET") path AUTH_TYPE_VYATTA_SESSION k_VYATTAOP (lit "vyatta").

(** A script that prints the file. *)
Definition demo_cat : script_env :=
  let e := demo_env [] 0 in
  mkScriptEnv false true 4096 true (fun _ fs => mkRun true [ReadData (default [] (fs !! JSON_INPUT)); ReadEnd] 1)
    (sc_stat e) (sc_opd e) (sc_configd e) (sc_node_type0 e).

Lemma app_run_correct_witness :
  let s := upd_request (fun h => http_set h HTTP_BODY (lit "hello")) (app_session (lit "/rest/app/status")) in
  let cmd := script_command (app_environment s) app_source (lit "/status") in
  let run := sc_run demo_cat (cstr cmd) (<[JSON_INPUT := req_get s HTTP_BODY]> ∅) in
  script_output run = lit "hello" /\
  exists s' fs', app_process demo_cat s ∅ = Ok (s', fs', [cmd]) /\
    resp_get s' HTTP_BODY = (script_parts (script_output run)).2 /\
    resp_get s' HTTP_RESP_CODE = (if script_failed run then lit "400" else resp_get s HTTP_RESP_CODE) /\
    (forall f, f <> JSON_INPUT -> fs' !! f = (∅ : files) !! f) /\
    (sc_debug demo_cat = false -> fs' !! JSON_INPUT = None).
Proof.
  intros s cmd run. split; [vm_compute; reflexivity|].
  apply (app_run_correct demo_cat s ∅ (lit "/status")); try done. by_compute.
Defined.

(** ** Quotes in the path *)

Lemma export_some_notin c name value :
  c ∉ lit "export " -> c ∉ name -> c ∉ lit "=" -> c ∉ value -> c ∉ lit ";" -> c ∉ export_some name value.
Proof. intros. unfold export_some, export. case_decide; notin. Qed.

Lemma app_environment_quote s :
  quote ∉ req_get s HTTP_REQ_METHOD -> quote ∉ _session_key s -> quote ∉ _user s ->
  quote ∉ app_environment s.
Proof.
  intros. unfold app_environment, export.
  notin; try (by_compute); apply export_some_notin; done || by_compute.
Qed.

(** The pieces of a command between single quotes. *)
Lemma script_command_quotes environment source c1 c2 :
  quote ∉ environment -> quote ∉ source -> quote ∉ c1 ->
  split_on quote (script_command environment source (c1 ++ quote :: c2)) =
  lit "/bin/bash -p -c " :: (environment ++ source ++ lit " " ++ c1) ::
  split_on quote (c2 ++ lit " < " ++ JSON_INPUT ++ [quote]).
Proof.
  intros He Hs Hc. unfold script_command.
  change ([quote] ++ ?x) with (quote :: x). rewrite split_on_app by by_compute. f_equal.
  rewrite <- split_on_app; [f_equal; by rewrite <- !app_assoc|].
  notin. by_compute.
Qed.

(** The path of an application request is put between single quotes
    unchanged, so that a quote in it ends the text handed to the inner
    shell: what the path holds behind it is read by the outer shell as part
    of its own command line. *)
Theorem app_quote_injection (e : script_env) (s : Session) (fs : files) (c1 c2 : str) :
  _auth_type s <> AUTH_TYPE_NONE -> req_get s HTTP_REQ_URI = APP_REQ_ROOT ++ c1 ++ quote :: c2 ->
  sc_open e = true -> length (req_get s HTTP_BODY) <= sc_written e ->
  quote ∉ req_get s HTTP_REQ_METHOD -> quote ∉ _session_key s -> quote ∉ _user s -> quote ∉ c1 ->
  exists s' fs' cmd, app_process e s fs = Ok (s', fs', [cmd]) /\
    split_on quote cmd =
    lit "/bin/bash -p -c " :: (app_environment s ++ app_source ++ lit " " ++ c1) ::
    split_on quote (c2 ++ lit " < " ++ JSON_INPUT ++ [quote]).
Proof.
  intros Hauth Huri Hopen Hw Hm Hk Hu Hc.
  destruct (app_process_run e s fs (c1 ++ quote :: c2) Hauth Huri) as (s1 & _ & Hp); [by destruct c1 | done.. |].
  eexists _, _, _. split; [exact Hp|]. apply script_command_quotes; [by apply app_environment_quote | by_compute | done].
Qed.

Lemma app_quote_injection_witness :
  let s := app_session (lit "/rest/app/x" ++ [quote] ++ lit ";reboot;") in
  exists s' fs' cmd, app_process (demo_env [] 0) s ∅ = Ok (s', fs', [cmd]) /\
    split_on quote cmd =
    lit "/bin/bash -p -c " :: (app_environment s ++ app_source ++ lit " " ++ lit "/x") ::
    split_on quote (lit ";reboot;" ++ lit " < " ++ JSON_INPUT ++ [quote]).
Proof.
  intros s. apply (app_quote_injection (demo_env [] 0) s ∅ (lit "/x") (lit ";reboot;")); try done; by_compute.
Defined.

(** ** Services *)

(** The steps down the template directory: by the name of the component, or
    by the node that stands for any name. *)
Inductive below (e : script_env) : str -> list str -> Prop :=
| below_nil path : below e path []
| below_name path c coll :
    sc_stat e (path ++ lit "/" ++ c) = true -> below e (path ++ lit "/" ++ c) coll ->
    below e path (c :: coll)
| below_tag path c coll :
    sc_stat e (path ++ lit "/" ++ c) = false -> sc_stat e (path ++ lit "/node.tag") = true ->
    below e (path ++ lit "/node.tag") coll -> below e path (c :: coll).

Lemma walk_below e coll path : path <> [] -> (walk e coll path <> [] <-> below e path coll).
Proof.
  revert path; induction coll as [|c coll IH]; intros path Hp; cbn [walk]; [split; [constructor | done]|].
  assert (forall x, path ++ x <> []) as Happ by (intros x; by destruct path).
  destruct (sc_stat e (path ++ lit "/" ++ c)) eqn:E1.
  - rewrite IH by apply Happ. split; [by constructor|]. inversion 1; [done | congruence].
  - destruct (sc_stat e (path ++ lit "/node.tag")) eqn:E2.
    + rewrite IH by apply Happ. split; [by constructor|]. inversion 1; [congruence | done].
    + split; [done|]. inversion 1; congruence.
Qed.

(** Claim C31: a service request runs a script only when it is an
    authenticated GET of a path whose components lead down the template
    directory; any other request (the list apart) runs nothing, writes no
    file and is answered by an error. *)
Theorem service_runs_valid_only (e : script_env) (fuel : nat) (s : Session) (fs : files) r :
  service_process e fuel s fs = Ok r ->
  let path := req_get s HTTP_REQ_URI in
  path <> SERVICE_REQ_ROOT ->
  (r.2 <> [] \/ r.1.2 <> fs ->
     _auth_type s <> AUTH_TYPE_NONE /\ req_get s HTTP_REQ_METHOD = lit "GET" /\
     length SERVICE_REQ_ROOT < length path /\
     below e SERVICE_COMMAND_DIR (str_proc_spec (drop (length SERVICE_REQ_ROOT) path) [slash]) /\
     r.2 ∈ [[]; [script_command (service_environment s) service_source
                   (drop (length SERVICE_REQ_ROOT) path)]]) /\
  (r.2 = [] -> resp_get r.1.1 HTTP_RESP_CODE ∈ [lit "400"; lit "401"; lit "500"]).
Proof.
  unfold service_process. intros H Hpath. set (path := req_get s HTTP_REQ_URI) in *.
  assert (forall t, resp_get (Error t s) HTTP_RESP_CODE = (http_response_error t).1.1) as Hcode
    by (intros t; apply Error_code).
  case_decide; [injection H as <-; cbn [fst snd]; split; [naive_solver | intros _; rewrite Hcode; by_compute]|].
  case_decide; [injection H as <-; cbn [fst snd]; split; [naive_solver | intros _; rewrite Hcode; by_compute]|].
  rewrite decide_False in H by naive_solver. apply res_bind_ok in H as (valid & Hv & H).
  case_decide as Hval; [|injection H as <-; cbn [fst snd]; split; [naive_solver | intros _; rewrite Hcode; by_compute]].
  case_decide as Hget; [|injection Hv as <-; done].
  unfold validate_service_cmd in Hv. case_decide; [injection Hv as <-; done|].
  rewrite str_proc_ok in Hv by (by_compute || done). cbn [res_bind] in Hv. injection Hv as <-.
  apply walk_below in Hval; [|done].
  unfold execute_service, substr_from in H. rewrite decide_True in H by lia. cbn [res_bind] in H.
  case_decide as Hne; [injection H as <-; cbn [fst snd]; split; [naive_solver | intros _; rewrite Hcode; by_compute]|].
  destruct (write_input e _ fs) as [fs1 ok]. destruct ok.
  - destruct (run_script_spec e SERVICEMODE_SCRIPT_ERROR (script_command (service_environment s)
      service_source (drop (length SERVICE_REQ_ROOT) path)) s fs1) as (s' & Hs' & _).
    rewrite Hs' in H. cbn [res_bind] in H. injection H as <-. cbn [fst snd]. split; [|done].
    intros _. split_and!; try done; [lia|]. apply elem_of_cons; right. by apply list_elem_of_singleton.
  - injection H as <-. cbn [fst snd]. split; [|intros _; rewrite Hcode; by_compute].
    intros _. split_and!; try done; [lia|]. by apply elem_of_cons; left.
Qed.

Lemma service_runs_valid_only_witness :
  let s := app_session (lit "/rest/service/vpn") in
  exists r, service_process (demo_env [] 0) 3 s ∅ = Ok r /\ r.2 <> [] /\
  ((r.2 <> [] \/ r.1.2 <> ∅ ->
     _auth_type s <> AUTH_TYPE_NONE /\ req_get s HTTP_REQ_METHOD = lit "GET" /\
     length SERVICE_REQ_ROOT < length (req_get s HTTP_REQ_URI) /\
     below (demo_env [] 0) SERVICE_COMMAND_DIR
       (str_proc_spec (drop (length SERVICE_REQ_ROOT) (req_get s HTTP_REQ_URI)) [slash]) /\
     r.2 ∈ [[]; [script_command (service_environment s) service_source
                   (drop (length SERVICE_REQ_ROOT) (req_get s HTTP_REQ_URI))]]) /\
  (r.2 = [] -> resp_get r.1.1 HTTP_RESP_CODE ∈ [lit "400"; lit "401"; lit "500"])).
Proof.
  intros s. eexists. split; [vm_compute; reflexivity|]. split; [done|].
  apply (service_runs_valid_only (demo_env [] 0) 3 s ∅); [vm_compute; reflexivity | done].
Defined.

(** The path of a service's template. *)
Definition service_path (i : NodeParams) : str := SERVICE_COMMAND_DIR ++ lit "/" ++ _name i.

Definition has_template (e : script_env) (i : NodeParams) : Prop :=
  tmpl_validate_path (sc_configd e) (service_path i) = true.

Lemma index_loop_ok e children json :
  Forall (has_template e) children ->
  exists helps, length helps = length children /\
    index_loop e (S (length children)) children json =
    Ok (add_all json (lit "services") (zip_with (fun i h => service_entry (_name i) h) children helps) true).
Proof.
  intros Hc. revert json; induction Hc as [|i children Hi Hc IH]; intros json; [by exists []|].
  cbn [index_loop length]. destruct (get_template_node_total (sc_configd e) (service_path i) (sc_node_type0 e))
    as (r & Hr & Hnone & _).
  unfold service_path in Hr. rewrite Hr. cbn [res_bind].
  destruct r as [p|]; [|apply proj1 in Hnone; unfold has_template in Hi; by rewrite Hnone in Hi].
  destruct (IH (add_array json (lit "services") (service_entry (_name i) (_help p)) true).1)
    as (helps & Hl & IH').
  exists (_help p :: helps). cbn [length]. rewrite Hl. split; [done|].
  cbn [index_loop] in IH'. exact IH'.
Qed.

Lemma index_loop_stuck e fuel children json :
  Exists (fun i => ~ has_template e i) children -> index_loop e fuel children json = Fault OutOfFuel.
Proof.
  intros Hc. revert children json Hc; induction fuel as [|f IH]; intros children json Hc; [done|].
  destruct children as [|i children]; [by inversion Hc|]. cbn [index_loop].
  destruct (get_template_node_total (sc_configd e) (service_path i) (sc_node_type0 e)) as (r & Hr & Hnone & _).
  unfold service_path in Hr. rewrite Hr. cbn [res_bind].
  destruct r as [p|]; [|by apply IH].
  apply IH. inversion Hc as [? ? Hbad|]; subst; [|done].
  exfalso. unfold has_template, service_path in Hbad. destruct (tmpl_validate_path _ _) eqn:E; [done|].
  destruct Hnone as [_ Hnone]. by specialize (Hnone eq_refl).
Qed.

(** Claim C32: the list of services is the names of all children of the
    service directory with the help texts of their templates; it is computed
    when each of them has a template.  One child without a template makes
    the loop spin for ever. *)
Theorem service_index_termination (e : script_env) (s : Session) (params : TemplateParams) :
  get_operational_node (sc_opd e) SERVICE_COMMAND_DIR (new_TemplateParams (sc_node_type0 e)) = Ok params ->
  let children := _children_coll params in
  (Forall (has_template e) children ->
     exists helps, length helps = length children /\
       service_index e (S (length children)) s =
       Ok (set_json (add_all new_JSON (lit "services")
             (zip_with (fun i h => service_entry (_name i) h) children helps) true) s)) /\
  (~ Forall (has_template e) children -> forall fuel, service_index e fuel s = Fault OutOfFuel).
Proof.
  intros Hp children. unfold service_index. rewrite Hp. cbn [res_bind]. fold children. split.
  - intros Hc. destruct (index_loop_ok e children new_JSON Hc) as (helps & Hl & H).
    exists helps. split; [done|]. by rewrite H.
  - intros Hc fuel. rewrite index_loop_stuck; [done|]. apply not_Forall_Exists; [|done].
    intros i. unfold has_template. apply _.
Qed.

Lemma service_index_termination_witness :
  let e := demo_env [] 0 in
  let s := app_session SERVICE_REQ_ROOT in
  let children := [op_child (lit "vpn")] in
  (Forall (has_template e) children ->
     exists helps, length helps = length children /\
       service_index e (S (length children)) s =
       Ok (set_json (add_all new_JSON (lit "services")
             (zip_with (fun i h => service_entry (_name i) h) children helps) true) s)) /\
  (~ Forall (has_template e) children -> forall fuel, service_index e fuel s = Fault OutOfFuel).
Proof.
  intros e s.
  apply (service_index_termination e s
    (set_children_coll [op_child (lit "vpn")] (new_TemplateParams NODE_TYPE_CONTAINER))).
  vm_compute. reflexivity.
Defined.

(** ** The interface *)

Lemma responded_script e failure cmd s fs s' : run_script e failure cmd s fs = Ok s' -> responded s s'.
Proof.
  unfold run_script. destruct (system_out _ _) as [err out]. intros H%responded_output.
  etrans; [|exact H]. case_decide; auto with responds.
Qed.

(** The command of a request, with the environment of its user. *)
Definition app_allowed (s : Session) (_ : files) (cmd : str) : Prop :=
  _auth_type s <> AUTH_TYPE_NONE /\
  cmd = script_command (app_environment s) app_source (drop (length APP_REQ_ROOT) (req_get s HTTP_REQ_URI)).

#[export] Instance app_mode e : Mode (app_process e) app_allowed.
Proof.
  split.
  - intros s fs Ha. unfold app_process. rewrite auth_debug, decide_True by done. eexists. split; [done|].
    apply refused_error; [auto with responds | by_compute].
  - intros s fs s' fs' evs H. unfold app_process in H. opens H; auto with responds.
    match goal with H : run_script _ _ _ _ _ = _ |- _ => apply responded_script in H end.
    apply responded_debug. etrans; [|eassumption]. auto with responds.
  - intros s fs s' fs' evs H. unfold app_process in H. autorewrite with rest in H.
    opens H; try apply Forall_nil_2. apply Forall_singleton. split; [done|].
    match goal with H : substr_from _ _ = Ok _ |- _ => unfold substr_from in H; opens H end; done.
  - intros s s' fs ev (_ & Hr & Hu & _ & _ & Ha & Hk). unfold app_allowed, app_environment, req_get.
    by rewrite Hr, Hu, Ha, Hk.
Qed.

Definition service_allowed (s : Session) (_ : files) (cmd : str) : Prop :=
  _auth_type s <> AUTH_TYPE_NONE /\ req_get s HTTP_REQ_METHOD = lit "GET" /\
  cmd = script_command (service_environment s) service_source
          (drop (length SERVICE_REQ_ROOT) (req_get s HTTP_REQ_URI)).

#[export] Instance service_mode e fuel : Mode (service_process e fuel) service_allowed.
Proof.
  split.
  - intros s fs Ha. unfold service_process. rewrite decide_True by done. eexists. split; [done|].
    apply refused_error; [done | by_compute].
  - intros s fs s' fs' evs H. unfold service_process, service_index, execute_service in H.
    opens H; auto with responds.
    + match goal with H : context [index_loop] |- _ => opens H end. auto with responds.
    + match goal with H : run_script _ _ _ _ _ = _ |- _ => by apply responded_script in H end.
  - intros s fs s' fs' evs H. unfold service_process, execute_service in H.
    opens H; try apply Forall_nil_2. apply Forall_singleton. unfold service_allowed.
    match goal with H : substr_from _ _ = Ok _ |- _ => unfold substr_from in H; opens H end; [|done].
    match goal with H : (if decide (_ = lit "GET") then _ else _) = Ok _ |- _ => opens H end; done.
  - intros s s' fs ev (_ & Hr & Hu & _ & _ & Ha & Hk). unfold service_allowed, service_environment, req_get.
    by rewrite Hr, Hu, Ha, Hk.
Qed.
