(* ===== verification/Permissions.v ===== *)
(** * [Permissions] (permissions.hh, permissions.cc)

    The rules of the configuration and of the operational daemon as JSON.
    The JSON library is a parameter: which texts it accepts as strings, and
    the text of an object. *)

From S2P Require Import Prelude CppString StrProc Common CppMap Http Mode.

(** [atoi]: [strtol] cut down to 32 bits. *)
Definition atoi (s : str) : Z := ((strtol s + 2 ^ 31) mod 2 ^ 32 - 2 ^ 31)%Z.

(** One object of the array; a path that is no JSON string is left out. *)
Record rule := mkRule {
  r_rule : Z;
  r_path : option str;
  r_perms : Z;
}.

#[export] Instance rule_eq_dec : EqDecision rule.
Proof. solve_decision. Defined.

Record perm_env := mkPermEnv {
  pe_configd : option (list str);   (* configd_auth_getperms; None without a connection *)
  pe_opd : option (list str);       (* opd_getperms *)
  pe_utf8 : str -> bool;            (* json_string accepts *)
  pe_dumps : list (str * list rule) -> option str;
}.

Section Handlers.
Variable e : perm_env.

(** One entry of the map: no rule for an entry of another form. *)
Definition maptojson_entry (next : str) : res (option rule) :=
  let entry := cstr next in
  match find entry (lit "=") 0 with
  | None => Ok None
  | Some pos =>
      let key := sub entry 0 pos in
      let* perm := substr entry (pos + 1) (length entry - pos) in
      let* r :=
        (if decide (key <> lit "DEFAULT") then
           match find key (lit ":") 0 with
           | None => Ok None
           | Some pos =>
               let rnum := sub key 0 pos in
               let* path := substr key (pos + 2) (length entry - pos + 1) in
               Ok (Some (rnum, path))
           end
         else Ok (Some (lit "10000", key))) in
      match r with
      | None => Ok None
      | Some (rnum, path) =>
          Ok (Some (mkRule (atoi rnum) (if pe_utf8 e (cstr path) then Some (cstr path) else None) (atoi perm)))
      end
  end.

Fixpoint maptojson (perm : list str) : res (list rule) :=
  match perm with
  | [] => Ok []
  | next :: perm' =>
      let* r := maptojson_entry next in
      let* arr := maptojson perm' in
      Ok (match r with Some r => r :: arr | None => arr end)
  end.

Definition add_perms (key : str) (perm : option (list str)) : res (list (str * list rule)) :=
  match perm with
  | None => Ok []
  | Some perm => let* arr := maptojson perm in Ok [(key, arr)]
  end.

Definition process (s : Session) : res Session :=
  if decide (_auth_type s = AUTH_TYPE_NONE) then Ok (Error AUTHORIZATION_FAILURE s)
  else
    let path := req_get s HTTP_REQ_URI in
    if decide (path = []) then Ok (Error VALIDATION_FAILURE (vyatta_debug (lit "perm:1") s))
    else if decide (length path < length PERM_REQ_ROOT) then Ok (Error VALIDATION_FAILURE s)
    else if decide (req_get s HTTP_REQ_METHOD = lit "GET") then
      let* conf := add_perms (lit "conf") (pe_configd e) in
      let* op := add_perms (lit "op") (pe_opd e) in
      match pe_dumps e (conf ++ op) with
      | Some buf => Ok (resp_set HTTP_BODY (cstr buf) s)
      | None => Fault NullString
      end
    else Ok (Error VALIDATION_FAILURE s).

(** ** The rules *)

Definition eqc : ascii := ascii_of_nat 61.

(** The rule of an entry that is cut at its first equals sign. *)
Definition key_rule (key perm : str) : res (option rule) :=
  let* r :=
    (if decide (key <> lit "DEFAULT") then
       match find0 key [colon] with
       | None => Ok None
       | Some pos => let* path := substr_from key (pos + 2) in Ok (Some (sub key 0 pos, path))
       end
     else Ok (Some (lit "10000", key))) in
  match r with
  | None => Ok None
  | Some (rnum, path) =>
      Ok (Some (mkRule (atoi rnum) (if pe_utf8 e (cstr path) then Some (cstr path) else None) (atoi perm)))
  end.

Lemma maptojson_entry_key next key perm :
  cstr next = key ++ eqc :: perm -> eqc ∉ key ->
  maptojson_entry next = key_rule key perm.
Proof.
  intros Hs Hk. unfold maptojson_entry. rewrite Hs. change (lit "=") with [eqc].
  rewrite find_0, find0_char_app by done.
  assert (length (key ++ eqc :: perm) - length key = length perm + 1) as ->
    by (rewrite length_app; simpl; lia).
  unfold substr at 1. rewrite decide_True by (rewrite length_app; simpl; lia). cbn [res_bind].
  assert (sub (key ++ eqc :: perm) (length key + 1) (length perm + 1) = perm) as ->.
  { unfold sub. rewrite drop_app_add. cbn [drop]. rewrite drop_0. apply take_ge. lia. }
  assert (sub (key ++ eqc :: perm) 0 (length key) = key) as ->
    by (unfold sub; by rewrite drop_0, take_app_length).
  change (lit ":") with [colon]. rewrite find_0. unfold key_rule. case_decide; [|done].
  destruct (find0 key [colon]) as [pos|] eqn:E; [|done].
  assert (substr key (pos + 2) (length (key ++ eqc :: perm) - pos + 1) = substr_from key (pos + 2)) as ->; [|done].
  unfold substr, substr_from. case_decide; [|done]. f_equal. apply take_ge.
  rewrite length_drop, length_app. simpl. lia.
Qed.

(** An entry as the daemons write it. *)
Definition rule_text (rnum path perm : str) : str := (rnum ++ colon :: space :: path) ++ eqc :: perm.

Definition plain_rule (rnum path perm : str) : Prop :=
  (colon ∉ rnum) /\ (eqc ∉ rnum) /\ (eqc ∉ path) /\
  (nul ∉ rnum) /\ (nul ∉ path) /\ nul ∉ perm.

#[export] Instance plain_rule_dec rnum path perm : Decision (plain_rule rnum path perm).
Proof. unfold plain_rule. apply _. Defined.

Lemma maptojson_entry_rule rnum path perm :
  plain_rule rnum path perm -> pe_utf8 e path = true ->
  maptojson_entry (rule_text rnum path perm) = Ok (Some (mkRule (atoi rnum) (Some path) (atoi perm))).
Proof.
  intros (Hc & He & Hp & Hn1 & Hn2 & Hn3) Hu. set (key := rnum ++ colon :: space :: path).
  rewrite (maptojson_entry_key _ key perm); [| |unfold key; notin].
  2: { unfold rule_text. rewrite cstr_id; [done|]. notin. }
  unfold key_rule. rewrite decide_True.
  2: { intros Hk. assert (colon ∈ key) as Hin by (unfold key; set_solver). rewrite Hk in Hin.
       revert Hin. by_compute. }
  unfold key at 1. rewrite find0_char_app by done.
  unfold substr_from. rewrite decide_True by (unfold key; rewrite length_app; simpl; lia). cbn [res_bind].
  assert (sub key 0 (length rnum) = rnum) as -> by (unfold sub, key; by rewrite drop_0, take_app_length).
  assert (drop (length rnum + 2) key = path) as -> by (unfold key; by rewrite drop_app_add).
  by rewrite cstr_id, Hu.
Qed.

(** The daemons' rules arrive unchanged and in order: a map of
    entries of the form [number: path=permissions] becomes the array of
    these numbers, paths and permissions. *)
Theorem maptojson_correct (rules : list (str * str * str)) :
  Forall (fun '(rnum, path, perm) => plain_rule rnum path perm /\ pe_utf8 e path = true) rules ->
  maptojson ((fun '(rnum, path, perm) => rule_text rnum path perm) <$> rules) =
  Ok ((fun '(rnum, path, perm) => mkRule (atoi rnum) (Some path) (atoi perm)) <$> rules).
Proof.
  induction 1 as [|[[rnum path] perm] rules [Hr Hu] _ IH]; [done|].
  rewrite !fmap_cons. cbn [maptojson]. rewrite maptojson_entry_rule by done. cbn [res_bind]. by rewrite IH.
Qed.

(** An entry whose key ends in its first colon. *)
Definition bad_entry (next : str) : Prop :=
  exists rnum perm, cstr next = (rnum ++ [colon]) ++ eqc :: perm /\ (eqc ∉ rnum) /\ colon ∉ rnum.

Lemma key_rule_faults key perm :
  (exists f, key_rule key perm = Fault f) <-> exists rnum, key = rnum ++ [colon] /\ colon ∉ rnum.
Proof.
  unfold key_rule. case_decide as Hd.
  2: { split; [by intros [f Hf]|]. intros (rnum & -> & _). exfalso. 
       assert (colon ∈ rnum ++ [colon]) as Hin by set_solver. rewrite Hd in Hin. revert Hin. by_compute. }
  destruct (find0 key [colon]) as [pos|] eqn:E.
  2: { apply find0_char_None in E. split; [by intros [f Hf]|]. intros (rnum & -> & _). set_solver. }
  destruct (find0_char_split _ _ _ E) as (Hs & Hn & Hl). unfold substr_from. case_decide as Hp.
  - split; [by intros [f Hf]|]. intros (rnum & Hk & Hr). exfalso.
    rewrite Hk in E. rewrite find0_char_app in E by done. injection E as <-.
    rewrite Hk, length_app in Hp. simpl in Hp. lia.
  - split; [|intros _; by eexists]. intros _. exists (take pos key). split; [|done].
    rewrite Hs at 1. do 2 f_equal. apply drop_ge. lia.
Qed.

Lemma maptojson_entry_faults next : (exists f, maptojson_entry next = Fault f) <-> bad_entry next.
Proof.
  destruct (find0 (cstr next) [eqc]) as [pos|] eqn:E.
  - destruct (find0_char_split _ _ _ E) as (Hs & Hn & _).
    rewrite (maptojson_entry_key _ _ _ Hs Hn), key_rule_faults. split.
    + intros (rnum & Hk & Hr). exists rnum, (drop (S pos) (cstr next)). rewrite <- Hk.
      split; [done|]. split; [|done]. rewrite Hk in Hn. by apply not_elem_of_app in Hn as [? _].
    + intros (rnum & perm & Hk & He & Hr). exists rnum. split; [|done].
      rewrite Hk in E. rewrite find0_char_app in E by (notin; by_compute). injection E as <-.
      by rewrite Hk, take_app_length.
  - unfold maptojson_entry. change (lit "=") with [eqc]. rewrite find_0, E.
    split; [by intros [f Hf]|]. intros (rnum & perm & Hk & _). apply find0_char_None in E.
    rewrite Hk in E. set_solver.
Qed.

(** A rule whose number is followed by a colon at the very end of
    the key brings the server down, since the path is taken from one
    character behind the end; a map without such an entry never does. *)
Theorem maptojson_faults (perm : list str) :
  (exists f, maptojson perm = Fault f) <-> Exists bad_entry perm.
Proof.
  induction perm as [|next perm IH]; cbn [maptojson].
  - split; [by intros [f Hf] | by inversion 1].
  - rewrite Exists_cons, <- IH, <- maptojson_entry_faults.
    destruct (maptojson_entry next) as [r|f]; cbn [res_bind]; [|naive_solver].
    destruct (maptojson perm) as [arr|f]; cbn [res_bind]; naive_solver.
Qed.
End Handlers.

Lemma maptojson_correct_witness :
  maptojson (mkPermEnv None None (fun _ => true) (fun _ => None))
    [rule_text (lit "10") (lit "/interfaces/*") (lit "7")] = Ok [mkRule 10 (Some (lit "/interfaces/*")) 7].
Proof.
  apply (maptojson_correct (mkPermEnv None None (fun _ => true) (fun _ => None))
           [(lit "10", lit "/interfaces/*", lit "7")]).
  repeat constructor; by_compute.
Defined.

(** ** The interface *)

(** [Permissions] reaches nothing outside. *)
Definition perm_process (e : perm_env) (s : Session) (fs : files) : res (Session * files * list Empty_set) :=
  let* s := process e s in Ok (s, fs, []).

#[export] Instance perm_mode e : Mode (perm_process e) (fun _ _ _ => False).
Proof.
  split.
  - intros s fs Ha. unfold perm_process, process. rewrite decide_True by done. eexists. split; [done|].
    apply refused_error; [done | by_compute].
  - intros s fs s' fs' evs H. unfold perm_process, process in H. apply res_bind_ok in H as (s1 & H & Hr).
    injection Hr as <- _ _. opens H; try discriminate; auto with responds.
  - intros s fs s' fs' evs H. by destruct evs as [|[] _].
  - done.
Qed.
