(* ===== verification/Auth.v ===== *)
(** * Authentication (authenticate.cc, authbase.hh, authbasic.cc, authsession.cc)

    The two schemes behind [Authenticate::validate]: a name and a password
    checked by PAM, and a key looked up in the file of sessions, whose lock
    and rewriting are part of it.  The system calls that change the identity
    of the process are events. *)

From S2P Require Import Prelude CppString StrProc Common CppMap Http.

(** The identity of the process. *)
Inductive id_event :=
| SetGroups (groups : list N)
| SetLoginUid (uid : N)
| SetEgid (gid : N)
| SetEuid (uid : N).

#[export] Instance id_event_eq_dec : EqDecision id_event.
Proof. solve_decision. Defined.

(** The environment of a request.  [au_stack] is what the array [out] of
    [AuthBasic::authorized] holds before it is written to, as far as a NUL
    behind it; [au_decode] is what the base64 filter writes into it, at most
    1024 characters, [None] when its read fails. *)
Record auth_env := mkAuthEnv {
  au_decode : str -> option str;
  au_stack : str;
  au_pam_start : str -> str -> bool;            (* service, user *)
  au_pam_authenticate : str -> str -> str -> bool;   (* and password *)
  au_pam_acct : str -> str -> bool;
  au_pam_end : bool;
  au_passwd : str -> option (N * N);            (* getpwnam: uid and gid *)
  au_groups : str -> N -> list N;               (* getgrouplist *)
  au_group_name : N -> option str;              (* getgrgid *)
  au_setgroups : bool;
  au_loginuid : bool;
  au_setegid : bool;
  au_seteuid : bool;
  au_lock : nat -> bool;                        (* open of the lock file, by attempt *)
  au_tmp_open : bool;
  au_fputs : nat -> bool;                       (* by call *)
  au_time : N;
}.

(** A result: accepted, the session, the files and the events. *)
Abbreviation auth_outcome := (bool * Session * files * list id_event)%type.

(** [conv_fun]: PAM's questions, whatever they are, get the password. *)
Definition conv_fun (msgs : list str) (passwd : str) : list str := (fun _ => passwd) <$> msgs.

Definition _session_file : str := lit "/var/run/gui/session".
Definition tmp_file : str := _session_file ++ lit "_tmp".
Definition lck_file : str := _session_file ++ lit ".lck".
Definition _session_timeout : N := 1800.
Definition _retry_lock_count : nat := 5.

(** Whether a user has configuration rights. *)
Definition is_cfg_group (e : auth_env) (g : N) : bool :=
  bool_decide (au_group_name e g = Some (lit "vyattacfg")).

(** [AuthSession::AuthSession]: all sessions end when the server starts. *)
Definition new_AuthSession (fs : files) : files :=
  delete lck_file (delete tmp_file (delete _session_file fs)).

Section Handlers.
Variable e : auth_env.

(** [getgrouplist] with room for [n] groups. *)
Definition getgrouplist (user : str) (gid : N) (n : nat) : option (list N) :=
  let l := au_groups e user gid in if decide (n < length l) then None else Some l.

(** The loop over the groups; the primary group of the process is the last
    configuration group. *)
Definition groups_step (acc : Session * N) (g : N) : Session * N :=
  if is_cfg_group e g then (vyatta_debug (lit "AAF0") (set_access k_VYATTACFG acc.1), g) else acc.

(** ** [AuthBasic] *)

Definition basic_handle (auth : str) : bool := is_prefix AUTH_BASIC auth.

(** The text the decoded array is taken for, and the length of the result. *)
Definition decoded (auth : str) : str * option nat :=
  match au_decode e auth with
  | Some d => (cstr (d ++ drop (length d) (au_stack e)), Some (length d))
  | None => (cstr (au_stack e), None)
  end.

(** [str_out.substr(pos+1, len-pos-1)]; a length below zero wraps. *)
Definition password_of (str_out : str) (pos : nat) (len : option nat) : str :=
  match len with
  | Some n => if decide (pos + 1 <= n) then take (n - pos - 1) (drop (pos + 1) str_out)
              else drop (pos + 1) str_out
  | None => drop (pos + 1) str_out
  end.

(** The calls to PAM. *)
Definition pam_accepts (service user password : str) (s : Session) : bool * Session :=
  if au_pam_start e service user then
    if au_pam_authenticate e service user password then
      if au_pam_acct e service user then
        if au_pam_end e then (true, s) else (false, vyatta_debug (lit "AAJ") s)
      else (false, vyatta_debug (lit "AAI") s)
    else (false, vyatta_debug (lit "AAH") s)
  else (false, vyatta_debug (lit "AAG") s).

(** The user's groups, set before the password is checked: the uid and the
    primary group, or [None] when the request is refused. *)
Definition basic_groups (username : str) (s : Session) : option (N * N) * Session * list id_event :=
  match au_passwd e username with
  | None => (None, vyatta_debug (lit "AAC") s, [])
  | Some (uid, gid) =>
      match getgrouplist username gid 10 with
      | None => (None, vyatta_debug (lit "AAF0") s, [])
      | Some groups =>
          let '(s, primary) := foldl groups_step (s, gid) groups in
          if au_setgroups e then (Some (uid, primary), s, [SetGroups groups])
          else (None, vyatta_debug (lit "AAF5") s, [])
      end
  end.

(** The change of identity after the password was accepted. *)
Definition basic_identity (uid gid : N) (s : Session) : bool * Session * list id_event :=
  if au_loginuid e then
    if au_setegid e then
      if au_seteuid e then (true, s, [SetLoginUid uid; SetEgid gid; SetEuid uid])
      else (false, vyatta_debug (lit "AAL") s, [SetLoginUid uid; SetEgid gid])
    else (false, vyatta_debug (lit "AAK") s, [SetLoginUid uid])
  else (false, s, []).

(** A path or a pragma for service users. *)
Definition service_request (s : Session) : bool :=
  starts_with (req_get s HTTP_REQ_URI) SERVICE_REQ_ROOT ||
  contains (req_get s HTTP_REQ_PRAGMA) PRAGMA_SERVICE_USER.

Definition pam_service (s : Session) : str :=
  if service_request s then lit "vyatta-service-users.conf" else lit "login".

Definition basic_authorized (val : str) (s : Session) : bool * Session * list id_event :=
  if decide (length val < length AUTH_BASIC + 1) then (false, s, [])
  else
    let auth := drop (length AUTH_BASIC + 1) val in
    if decide (auth = []) then (false, vyatta_debug (lit "AAB") s, [])
    else
      let '(str_out, len) := decoded auth in
      match find str_out [colon] 0 with
      | None => (false, s, [])
      | Some pos =>
          let username := sub str_out 0 pos in
          let password := password_of str_out pos len in
          let service := pam_service s in
          let s := if service_request s
                   then set_access k_VYATTASERVICE_USER (set_service_user true (set_user username s))
                   else set_user username s in
          let '(ids, s, ev) :=
            if _service_user s then (Some (0%N, 0%N), s, []) else basic_groups username s in
          match ids with
          | None => (false, s, ev)
          | Some (uid, gid) =>
              let '(ok, s) := pam_accepts service username (cstr password) s in
              if ok : bool then
                let '(ok, s, ev') :=
                  if _service_user s then (true, s, []) else basic_identity uid gid s in
                if ok : bool then (true, set_auth_type AUTH_TYPE_BASIC s, ev ++ ev')
                else (false, s, ev ++ ev')
              else (false, s, ev)
          end
      end.

(** ** [Lock] *)

(** The attempts to create the lock file: how many failed. *)
Fixpoint lock_attempts (ct left : nat) : nat :=
  match left with
  | O => ct
  | S left' => if au_lock e ct then ct else lock_attempts (S ct) left'
  end.

(** [Lock::Lock]: the files and the status. *)
Definition lock (fs : files) : files * bool :=
  let ct := lock_attempts 0 _retry_lock_count in
  let fs := if decide (ct < _retry_lock_count) then <[lck_file := []]> fs else fs in
  let exists_file := bool_decide (is_Some (fs !! _session_file)) in
  let fs := if au_tmp_open e then <[tmp_file := []]> fs else fs in
  (fs, exists_file && au_tmp_open e && bool_decide (ct <> _retry_lock_count)).

(** [Lock::~Lock], once the temporary file holds [content]. *)
Definition unlock (fs : files) : files :=
  delete lck_file
    match fs !! tmp_file with
    | Some content => delete tmp_file (<[_session_file := content]> fs)
    | None => fs
    end.

(** ** [AuthSession] *)

Definition session_handle (auth : str) : bool :=
  contains auth AUTH_VYATTA_PATH_LOC || is_prefix AUTH_VYATTA_SESSION auth.

(** [val.substr(pos + |mark| + 1, 16)] behind the first occurrence of a mark. *)
Definition key_after (val mark : str) : res str :=
  match find val mark 0 with
  | Some pos => substr val (pos + length mark + 1) 16
  | None => Ok []
  end.

(** The key a header presents; [None] when it presents none. *)
Definition session_key (val : str) : res (option str) :=
  if decide (length val < length AUTH_VYATTA_SESSION + 1 \/ length val < length AUTH_VYATTA_PATH_LOC + 1)
  then Ok None
  else
    let* key := key_after val AUTH_VYATTA_PATH_LOC in
    let* auth := key_after val AUTH_VYATTA_SESSION in
    if decide (auth = [] /\ key = []) then Ok None
    else Ok (Some (if decide (auth = []) then key else auth)).

(** The variables of the loop over the file: the session, what was written
    to the temporary file, the calls to [fputs], [found], [pw], [groups]
    and [ngroups]. *)
Record scan := mkScan {
  sc_session : Session;
  sc_out : str;
  sc_puts : nat;
  sc_found : bool;
  sc_pw : option (N * N);
  sc_groups : list N;
  sc_ngroups : nat;
}.

Inductive line_end := Next | Break | Return.

Definition set_session (s : Session) (st : scan) : scan :=
  mkScan s (sc_out st) (sc_puts st) (sc_found st) (sc_pw st) (sc_groups st) (sc_ngroups st).

(** [fputs] to the temporary file. *)
Definition put_line (line : str) (st : scan) : bool * scan :=
  let ok := au_fputs e (sc_puts st) in
  (ok, mkScan (sc_session st) (if ok then sc_out st ++ line else sc_out st) (S (sc_puts st))
         (sc_found st) (sc_pw st) (sc_groups st) (sc_ngroups st)).

(** The user of the session and its groups, unless it is a service user. *)
Definition session_groups (st : scan) (username : str) : bool * scan :=
  let s := sc_session st in
  if _service_user s then (true, st)
  else
    match au_passwd e username with
    | None =>
        (false, mkScan (vyatta_debug (lit "AAC") s) (sc_out st) (sc_puts st) (sc_found st) None
                  (sc_groups st) (sc_ngroups st))
    | Some (uid, gid) =>
        match getgrouplist (_user s) gid (sc_ngroups st) with
        | None =>
            (false, mkScan (vyatta_debug (lit "AAF0") s) (sc_out st) (sc_puts st) (sc_found st)
                      (Some (uid, gid)) (sc_groups st) (length (au_groups e (_user s) gid)))
        | Some groups =>
            (true, mkScan (foldl groups_step (s, gid) groups).1 (sc_out st) (sc_puts st) (sc_found st)
                     (Some (uid, gid)) groups (length groups))
        end
    end.

(** The line of a session with a time. *)
Definition session_text (f : list str) (time : N) : str :=
  cstr (sp_get f 0) ++ lit "," ++ cstr (sp_get f 1) ++ lit "," ++ dec_signed time ++ lit "," ++
  cstr (sp_get f 3) ++ lit "," ++ cstr (sp_get f 4) ++ [nl].

(** Whether a session of that time is still valid. *)
Definition unexpired (session_time : N) : bool :=
  bool_decide (au_time e < (session_time + _session_timeout) mod u64)%N.

(** The body of the loop for our own session. *)
Definition own_session (f : list str) (session_time : N) (st : scan) : res (line_end * scan) :=
  let s := vyatta_debug (lit "AABs8") (sc_session st) in
  let s := set_session_key (sp_get f 0) (set_user (sp_get f 1) s) in
  let s := if decide (sp_get f 4 = lit "service-user")
           then set_service_user true (set_access k_VYATTASERVICE_USER s) else s in
  let '(ok, st) := session_groups (set_session s st) (cstr (sp_get f 1)) in
  if ok : bool then
    let keep := contains (req_get s HTTP_REQ_PRAGMA) PRAGMA_NO_VYATTA_SESSION_UPDATE in
    let* updated_sess := sprintf_into 1024 (session_text f (if keep then session_time else au_time e)) in
    let '(ok, st) := put_line updated_sess st in
    if ok : bool then
      Ok (Next, mkScan (set_auth_type AUTH_TYPE_VYATTA_SESSION (sc_session st)) (sc_out st) (sc_puts st)
                  true (sc_pw st) (sc_groups st) (sc_ngroups st))
    else Ok (Next, st)
  else Ok (Return, st).

Definition scan_line (auth buf : str) (st : scan) : res (line_end * scan) :=
  let* f := str_proc buf (lit ",") in
  let st := set_session (vyatta_debug (lit "AABs6") (vyatta_debug (lit "AABs5") (sc_session st))) st in
  let session_time := strtoul (sp_get f 2) in
  if unexpired session_time then
    let st := set_session (vyatta_debug (lit "AABs7") (sc_session st)) st in
    if decide (sp_get f 0 = auth) then own_session f session_time st
    else
      let '(ok, st) := put_line buf st in
      Ok (if ok : bool then Next else Break, st)
  else Ok (Next, st).

(** The loop; the result says whether it ended by [return false]. *)
Fixpoint scan_loop (fuel : nat) (auth fp : str) (st : scan) : res (bool * scan) :=
  match fuel with
  | O => Fault OutOfFuel
  | S fuel' =>
      match fgets 1024 fp with
      | None => Ok (false, st)
      | Some (buf, fp) =>
          let* '(le, st) := scan_line auth (cstr buf) st in
          match le with
          | Next => scan_loop fuel' auth fp st
          | Break => Ok (false, st)
          | Return => Ok (true, st)
          end
      end
  end.

(** The change of identity of a found session. *)
Definition session_identity (st : scan) : res (bool * Session * list id_event) :=
  let s := sc_session st in
  if sc_found st && negb (_service_user s) then
    match sc_pw st with
    | None => Fault NullString
    | Some (uid, gid) =>
        Ok (if au_loginuid e then
              if au_setgroups e then
                if au_setegid e then
                  if au_seteuid e
                  then (true, s, [SetLoginUid uid; SetGroups (sc_groups st); SetEgid gid; SetEuid uid])
                  else (false, vyatta_debug (lit "AAF7") s,
                        [SetLoginUid uid; SetGroups (sc_groups st); SetEgid gid])
                else (false, vyatta_debug (lit "AAF6") s, [SetLoginUid uid; SetGroups (sc_groups st)])
              else (false, vyatta_debug (lit "AAF5") s, [SetLoginUid uid])
            else (false, s, []))
    end
  else Ok (sc_found st, s, []).

Definition session_authorized (val : str) (s : Session) (fs : files) : res auth_outcome :=
  let* key := session_key val in
  match key with
  | None =>
      let empty := bool_decide (length AUTH_VYATTA_SESSION + 1 <= length val /\
                                length AUTH_VYATTA_PATH_LOC + 1 <= length val) in
      Ok (false, if empty then vyatta_debug (lit "AABs1") s else s, fs, [])
  | Some auth =>
      let '(fs, status) := lock fs in
      if status : bool then
        let fp := default [] (fs !! _session_file) in
        let s := vyatta_debug (lit "AABs4") (vyatta_debug (lit "AABs3") s) in
        let* '(returned, st) := scan_loop (S (length fp)) auth fp (mkScan s [] 0 false None [] 10) in
        let fs := unlock (<[tmp_file := sc_out st]> fs) in
        if returned : bool then Ok (false, sc_session st, fs, [])
        else
          let* '(ok, s, ev) := session_identity st in
          Ok (ok, s, fs, ev)
      else Ok (false, s, unlock fs, [])
  end.

(** ** [Authenticate::validate] *)

Definition validate (s : Session) (fs : files) : res auth_outcome :=
  let auth := req_get s HTTP_REQ_AUTHORIZATION in
  let cookie := req_get s HTTP_REQ_COOKIE in
  if decide (auth = [] /\ cookie = []) then Ok (false, vyatta_debug (lit "AAA") s, fs, [])
  else
    let auth := if decide (auth = []) then cookie else auth in
    let s := vyatta_debug (lit "AAAA:" ++ auth) s in
    if basic_handle auth then
      let '(ok, s, ev) := basic_authorized auth s in Ok (ok, s, fs, ev)
    else if session_handle auth then session_authorized auth s fs
    else Ok (false, s, fs, []).
End Handlers.

(** ** Headers *)

(** Claim C40: a header or cookie that ends in the name of the session cookie
    brings the server down before anybody is authenticated: the key is taken
    from one character behind the end of the text. *)
Theorem cookie_crash (e : auth_env) (s : Session) (fs : files) (x : str) :
  (req_get s HTTP_REQ_AUTHORIZATION = x ++ AUTH_VYATTA_PATH_LOC \/
   req_get s HTTP_REQ_AUTHORIZATION = [] /\ req_get s HTTP_REQ_COOKIE = x ++ AUTH_VYATTA_PATH_LOC) ->
  x <> [] -> ascii_of_nat 118 ∉ x -> is_prefix AUTH_BASIC (x ++ AUTH_VYATTA_PATH_LOC) = false ->
  validate e s fs = Fault OutOfRange.
Proof.
  intros Hreq Hx Hv Hb. unfold validate. set (val := x ++ AUTH_VYATTA_PATH_LOC) in *.
  assert (val <> []) as Hval by (unfold val; by destruct x).
  rewrite decide_False by (destruct Hreq as [-> | [-> ->]]; naive_solver).
  assert ((if decide (req_get s HTTP_REQ_AUTHORIZATION = []) then req_get s HTTP_REQ_COOKIE
           else req_get s HTTP_REQ_AUTHORIZATION) = val) as ->.
  { destruct Hreq as [-> | [-> ->]]; [by rewrite decide_False | by rewrite decide_True]. }
  unfold basic_handle. rewrite Hb.
  assert (find0 val AUTH_VYATTA_PATH_LOC = Some (length x)) as Hf.
  { unfold val. rewrite <- (app_nil_r AUTH_VYATTA_PATH_LOC).
    apply (find0_app (ascii_of_nat 118) (drop 1 AUTH_VYATTA_PATH_LOC) x []). done. }
  assert (session_handle val = true) as ->.
  { unfold session_handle, contains. rewrite bool_decide_eq_true_2; [done|]. rewrite Hf. by eexists. }
  unfold session_authorized, session_key.
  assert (length val = length x + 16) as Hl by (unfold val; by rewrite length_app).
  assert (0 < length x) by (destruct x; [done | simpl; lia]).
  rewrite decide_False by (change (length AUTH_VYATTA_SESSION) with 14; change (length AUTH_VYATTA_PATH_LOC) with 16; lia).
  unfold key_after at 1. rewrite find_0, Hf. unfold substr.
  rewrite decide_False by (change (length AUTH_VYATTA_PATH_LOC) with 16; lia). done.
Qed.

Definition demo_auth : auth_env :=
  mkAuthEnv (fun _ => Some (lit "vyatta:secret")) [] (fun _ _ => true)
    (fun _ u p => bool_decide (u = lit "vyatta" /\ p = lit "secret")) (fun _ _ => true) true
    (fun u => if decide (u = lit "vyatta") then Some (1000, 100)%N else None) (fun _ g => [g; 7%N])
    (fun g => if decide (g = 7%N) then Some (lit "vyattacfg") else Some (lit "users"))
    true true true true (fun _ => true) true (fun _ => true) 1000000.

(** A request with a header. *)
Definition header_session (k : KEY) (v : str) : Session :=
  upd_request (fun h => http_set h k v) (new_Session false).

Lemma cookie_crash_witness :
  validate demo_auth (header_session HTTP_REQ_COOKIE (lit "a" ++ AUTH_VYATTA_PATH_LOC)) ∅ = Fault OutOfRange.
Proof.
  apply (cookie_crash demo_auth _ ∅ (lit "a")); [right; by split | done | by_compute | done].
Defined.

Lemma decoded_some e auth d :
  au_decode e auth = Some d -> au_stack e = d -> nul ∉ d -> decoded e auth = (d, Some (length d)).
Proof. intros Hd Hs Hn. unfold decoded. by rewrite Hd, Hs, drop_ge, app_nil_r, cstr_id. Qed.

(** A basic header that cannot be decoded is not refused.  It is
    judged by what the array for the decoded text held before: if that is
    the name and password of an earlier request, the result is the one of
    the header of that request. *)
Theorem basic_stale_buffer (e : auth_env) (s : Session) (x y d : str) :
  au_decode e x = None -> au_decode e y = Some d -> au_stack e = d -> nul ∉ d ->
  x <> [] -> y <> [] ->
  basic_authorized e (AUTH_BASIC ++ space :: x) s = basic_authorized e (AUTH_BASIC ++ space :: y) s.
Proof.
  intros Hx Hy Hs Hn Hxn Hyn. unfold basic_authorized.
  assert (forall z, drop (length AUTH_BASIC + 1) (AUTH_BASIC ++ space :: z) = z) as Hdrop
    by (intros z; by rewrite drop_app_add).
  rewrite !Hdrop, !(decide_False (P := _ < _)), !(decide_False (P := _ = [])) by (done || (rewrite length_app; simpl; lia)).
  rewrite (decoded_some e y d) by done.
  assert (decoded e x = (d, None)) as -> by (unfold decoded; by rewrite Hx, Hs, cstr_id).
  rewrite find_0. destruct (find0 d [colon]) as [pos|] eqn:E; [|done].
  apply find0_char_split in E as (_ & _ & Hl).
  assert (password_of d pos (Some (length d)) = password_of d pos None) as ->; [|done].
  unfold password_of. rewrite decide_True by lia. apply take_ge. rewrite length_drop. lia.
Qed.

Lemma basic_stale_buffer_witness :
  let d := lit "vyatta:secret" in
  let e := mkAuthEnv (fun z => if decide (z = lit "?") then None else Some d) d (fun _ _ => true)
    (au_pam_authenticate demo_auth) (fun _ _ => true) true (au_passwd demo_auth) (au_groups demo_auth)
    (au_group_name demo_auth) true true true true (fun _ => true) true (fun _ => true) 0 in
  let s := header_session HTTP_REQ_AUTHORIZATION (lit "Basic ?") in
  (basic_authorized e (AUTH_BASIC ++ space :: lit "dnlhdHRhOnNlY3JldA==") s).1.1 = true /\
  basic_authorized e (AUTH_BASIC ++ space :: lit "?") s =
  basic_authorized e (AUTH_BASIC ++ space :: lit "dnlhdHRhOnNlY3JldA==") s.
Proof.
  intros d e s. split; [vm_compute; reflexivity|].
  apply (basic_stale_buffer e s (lit "?") (lit "dnlhdHRhOnNlY3JldA==") d); try done; by_compute.
Defined.

(** ** The lock *)

Lemma lock_attempts_none e ct left :
  (forall n, ct <= n < ct + left -> au_lock e n = false) -> lock_attempts e ct left = ct + left.
Proof.
  revert ct; induction left as [|left IH]; intros ct H; cbn [lock_attempts]; [lia|].
  rewrite H by lia. rewrite IH; [lia|]. intros n Hn. apply H. lia.
Qed.

(** A session request that cannot get the lock is refused, but not
    without effect: the end of the lock replaces the file of sessions by the
    temporary file it has just emptied, so that every session is gone, and
    removes the lock of whoever holds it. *)
Theorem lock_timeout_drops_sessions (e : auth_env) (s : Session) (fs : files) (val key : str) :
  session_key val = Ok (Some key) -> (forall n, n < _retry_lock_count -> au_lock e n = false) ->
  au_tmp_open e = true ->
  exists fs', session_authorized e val s fs = Ok (false, s, fs', []) /\
    fs' !! _session_file = Some [] /\ fs' !! lck_file = None /\ fs' !! tmp_file = None /\
    (forall f, f <> _session_file -> f <> lck_file -> f <> tmp_file -> fs' !! f = fs !! f).
Proof.
  intros Hk Hlock Htmp. unfold session_authorized. rewrite Hk. cbn [res_bind]. unfold lock.
  rewrite (lock_attempts_none e 0 _retry_lock_count) by (intros; apply Hlock; lia). rewrite Htmp.
  rewrite decide_False by lia. rewrite (bool_decide_eq_false_2 (_ <> _)) by (intros H; by apply H).
  rewrite andb_false_r. eexists. split; [done|]. unfold unlock. rewrite lookup_insert_eq.
  split_and!.
  - rewrite lookup_delete_ne, lookup_delete_ne by done. apply lookup_insert_eq.
  - apply lookup_delete_eq.
  - rewrite lookup_delete_ne by done. apply lookup_delete_eq.
  - intros f H1 H2 H3. by rewrite !lookup_delete_ne, !lookup_insert_ne by done.
Qed.

Lemma lock_timeout_drops_sessions_witness :
  let e := mkAuthEnv (fun _ => None) [] (fun _ _ => true) (fun _ _ _ => true) (fun _ _ => true) true
    (fun _ => None) (fun _ _ => []) (fun _ => None) true true true true (fun _ => false) true
    (fun _ => true) 0 in
  let s := header_session HTTP_REQ_COOKIE (lit "Vyatta-Session 00112233445566778899") in
  exists fs', session_authorized e (lit "Vyatta-Session 00112233445566778899") s
      {[ _session_file := lit "0011223344556677,vyatta,999,10.0.0.1,admin" ++ [nl] ]} = Ok (false, s, fs', []) /\
    fs' !! _session_file = Some [] /\ fs' !! lck_file = None /\ fs' !! tmp_file = None /\
    (forall f, f <> _session_file -> f <> lck_file -> f <> tmp_file ->
       fs' !! f = ({[ _session_file := lit "0011223344556677,vyatta,999,10.0.0.1,admin" ++ [nl] ]} : files) !! f).
Proof.
  intros e s. apply (lock_timeout_drops_sessions e s _ _ (lit "0011223344556677")); done.
Defined.
