(* ===== verification/AuthFacts.v ===== *)
(** * Who is authenticated

    [Auth] accepts a request only for a password PAM accepted or for a live
    session of the session file, and it maintains that file. *)

From S2P Require Import Prelude CppString StrProc Common CppMap Http Auth.

(** ** Soundness *)

(** Everything of a session but its response and access level. *)
Definition same_identity (s s' : Session) : Prop :=
  _request s' = _request s /\ _user s' = _user s /\ _service_user s' = _service_user s /\
  _auth_type s' = _auth_type s /\ _session_key s' = _session_key s.

Lemma same_identity_debug d s : same_identity s (vyatta_debug d s).
Proof. by destruct (same_but_response_debug d s) as (? & ? & ? & ? & ? & ? & ?). Qed.

Lemma same_identity_trans s1 s2 s3 : same_identity s1 s2 -> same_identity s2 s3 -> same_identity s1 s3.
Proof. unfold same_identity. intuition congruence. Qed.

#[export] Instance same_identity_preorder : PreOrder same_identity.
Proof. split; [by intros s | intros s1 s2 s3; apply same_identity_trans]. Qed.

Section Sound.
Context (e : auth_env).

(** The user is in the configuration group. *)
Definition cfg_member (user : str) : Prop :=
  exists uid gid g, au_passwd e (cstr user) = Some (uid, gid) /\ g ∈ au_groups e user gid /\
    is_cfg_group e g = true.

Lemma groups_fold l s gid :
  let r := foldl (groups_step e) (s, gid) l in
  same_identity s r.1 /\
  _access_level r.1 = (if existsb (is_cfg_group e) l then k_VYATTACFG else _access_level s).
Proof.
  revert s gid; induction l as [|g l IH]; intros s gid; [done|]. cbn [foldl existsb].
  unfold groups_step at 2 4. destruct (is_cfg_group e g); cbn [orb fst].
  - destruct (IH (vyatta_debug (lit "AAF0") (set_access k_VYATTACFG s)) g) as [H1 H2].
    split.
    + etrans; [|exact H1]. etrans; [|apply same_identity_debug]. done.
    + rewrite H2. autorewrite with rest. by destruct (existsb _ l).
  - apply IH.
Qed.

Lemma existsb_member l : existsb (is_cfg_group e) l = true -> exists g, g ∈ l /\ is_cfg_group e g = true.
Proof. intros (g & Hg & Hc)%existsb_exists. exists g. by rewrite list_elem_of_In. Qed.

Lemma getgrouplist_some user gid n l : getgrouplist e user gid n = Some l -> l = au_groups e user gid /\ length l <= n.
Proof. unfold getgrouplist. case_decide; [done|]. intros [= <-]. split; [done | lia]. Qed.

(** *** A password *)

Lemma pam_accepts_true service user password s s' :
  pam_accepts e service user password s = (true, s') ->
  s' = s /\ au_pam_start e service user = true /\ au_pam_authenticate e service user password = true /\
  au_pam_acct e service user = true /\ au_pam_end e = true.
Proof. unfold pam_accepts. repeat case_match; intros [= <-]; done. Qed.

Lemma basic_groups_some username s uid gid s' ev :
  basic_groups e username s = (Some (uid, gid), s', ev) -> nul ∉ username ->
  (exists gid0, au_passwd e username = Some (uid, gid0)) /\ same_identity s s' /\
  (_access_level s' = k_VYATTACFG -> _access_level s = k_VYATTACFG \/ cfg_member username).
Proof.
  unfold basic_groups. intros H Hn. destruct (au_passwd e username) as [[uid0 gid0]|] eqn:Ep; [|done].
  destruct (getgrouplist e username gid0 10) as [groups|] eqn:Eg; [|done].
  pose proof (groups_fold groups s gid0) as [H1 H2].
  destruct (foldl (groups_step e) (s, gid0) groups) as [s1 primary]. cbn in H1, H2.
  destruct (au_setgroups e); [|done]. injection H as <- <- <- <-.
  split; [by eexists|]. split; [done|]. rewrite H2.
  destruct (existsb (is_cfg_group e) groups) eqn:Ex; [|by left]. intros _. right.
  apply existsb_member in Ex as (g & Hg & Hc). apply getgrouplist_some in Eg as [-> _].
  exists uid0, gid0, g. by rewrite cstr_id.
Qed.

Lemma basic_identity_true uid gid s s' ev :
  basic_identity e uid gid s = (true, s', ev) -> s' = s /\ SetEuid uid ∈ ev.
Proof.
  unfold basic_identity. repeat case_match; intros [= <- <-]. split; [done|]. set_solver.
Qed.

(** What it takes to be accepted by name and password. *)
Definition basic_accepted (val : str) (s s' : Session) (ev : list id_event) : Prop :=
  exists username rest password,
    (decoded e (drop (length AUTH_BASIC + 1) val)).1 = username ++ colon :: rest /\ (colon ∉ username) /\
    password = cstr (password_of (username ++ colon :: rest) (length username)
                       (decoded e (drop (length AUTH_BASIC + 1) val)).2) /\
    au_pam_start e (pam_service s) username = true /\
    au_pam_authenticate e (pam_service s) username password = true /\
    au_pam_acct e (pam_service s) username = true /\ au_pam_end e = true /\
    _user s' = username /\ _auth_type s' = AUTH_TYPE_BASIC /\
    (_access_level s' = k_VYATTACFG -> _access_level s = k_VYATTACFG \/ cfg_member username) /\
    (_service_user s' = false ->
       exists uid gid, au_passwd e username = Some (uid, gid) /\ SetEuid uid ∈ ev).

Lemma decoded_nul val : nul ∉ (decoded e val).1.
Proof.
  assert (forall x, nul ∉ cstr x) as H.
  { induction x as [|c x IH]; [apply not_elem_of_nil|]. cbn [cstr].
    case_decide; [apply not_elem_of_nil | notin]. }
  unfold decoded. destruct (au_decode e val); apply H.
Qed.

Lemma basic_authorized_sound val s s' ev :
  basic_authorized e val s = (true, s', ev) -> basic_accepted val s s' ev.
Proof.
  unfold basic_authorized. case_decide; [done|]. case_decide; [done|]. set (auth := drop _ val).
  pose proof (decoded_nul auth) as Hnul. unfold basic_accepted. fold auth.
  destruct (decoded e auth) as [str_out len] eqn:Ed. cbn [fst snd] in *. rewrite find_0.
  destruct (find0 str_out [colon]) as [pos|] eqn:Ef; [|done].
  destruct (find0_char_split _ _ _ Ef) as (Hsplit & Hcol & Hlen).
  assert (sub str_out 0 pos = take pos str_out) as -> by (unfold sub; by rewrite drop_0).
  set (username := take pos str_out) in *. set (rest := drop (S pos) str_out) in *.
  assert (length username = pos) as Hpos by (unfold username; rewrite length_take; lia).
  assert (nul ∉ username) as Hnu by (intros Hin; apply Hnul; rewrite Hsplit; set_solver).
  set (s1 := if service_request s then _ else _).
  assert (_user s1 = username) as Hu1 by (unfold s1; by destruct (service_request s)).
  assert (_access_level s1 = k_VYATTACFG -> _access_level s = k_VYATTACFG) as Ha1
    by (unfold s1; by destruct (service_request s)).
  intros Hres. exists username, rest, (cstr (password_of str_out pos len)).
  rewrite <- Hsplit, Hpos. split; [done|]. split; [done|]. split; [done|].
  destruct (_service_user s1) eqn:Es.
  - destruct (pam_accepts e (pam_service s) username _ s1) as [ok s2] eqn:Epam.
    destruct ok; [|done]. apply pam_accepts_true in Epam as (-> & ? & ? & ? & ?).
    rewrite Es in Hres. injection Hres as <- <-. split_and!; try done; [by left; apply Ha1|].
    cbn. intros Hf. by rewrite Es in Hf.
  - destruct (basic_groups e username s1) as [[[[uid gid]|] s2] ev1] eqn:Eg; [|done].
    apply basic_groups_some in Eg as ((gid0 & Hpw) & Hid & Hacc); [|done].
    destruct (pam_accepts e (pam_service s) username _ s2) as [ok s3] eqn:Epam.
    destruct ok; [|done]. apply pam_accepts_true in Epam as (-> & ? & ? & ? & ?).
    destruct Hid as (_ & Hu & Hsu & _). rewrite Hsu, Es in Hres.
    destruct (basic_identity e uid gid s2) as [[ok s4] ev2] eqn:Ei. destruct ok; [|done].
    apply basic_identity_true in Ei as (-> & Hin). injection Hres as <- <-. cbn. split_and!; try done.
    + by rewrite Hu.
    + intros Hc. destruct (Hacc Hc) as [Hl|Hr]; [left; by apply Ha1 | by right].
    + intros _. exists uid, gid0. split; [done|]. apply elem_of_app. by right.
Qed.

(** *** A session *)

(** The lines the loop reads. *)
Fixpoint read_lines (fuel : nat) (fp : str) : list str :=
  match fuel with
  | O => []
  | S f => match fgets 1024 fp with
           | None => []
           | Some (buf, fp) => buf :: read_lines f fp
           end
  end.

(** The fields of a live session of that key in the file. *)
Definition live_session (key fp : str) (f : list str) : Prop :=
  exists buf, buf ∈ read_lines (S (length fp)) fp /\ str_proc (cstr buf) (lit ",") = Ok f /\
    sp_get f 0 = key /\ unexpired e (strtoul (sp_get f 2)) = true.

Section Scan.
Context (P : list str -> Prop) (s0 : Session).

(** What the loop maintains: an accepted session is one of those of [P], and
    so is whoever gave the session its rights. *)
Definition scan_inv (st : scan) : Prop :=
  let s := sc_session st in
  _request s = _request s0 /\
  (sc_found st = true ->
     _auth_type s = AUTH_TYPE_VYATTA_SESSION /\
     exists f, P f /\ _user s = sp_get f 1 /\
       (_service_user s = false ->
          exists uid gid, au_passwd e (cstr (sp_get f 1)) = Some (uid, gid) /\ sc_pw st = Some (uid, gid))) /\
  (_access_level s = k_VYATTACFG ->
     _access_level s0 = k_VYATTACFG \/ exists f, P f /\ cfg_member (sp_get f 1)).

Lemma scan_inv_debug d st : scan_inv st -> scan_inv (set_session (vyatta_debug d (sc_session st)) st).
Proof.
  unfold scan_inv. cbn. destruct (same_identity_debug d (sc_session st)) as (-> & -> & -> & -> & _).
  by rewrite access_debug.
Qed.

Lemma scan_inv_put line st ok st' : put_line e line st = (ok, st') -> scan_inv st -> scan_inv st'.
Proof. unfold put_line. intros [= <- <-]. done. Qed.

Lemma own_session_inv f t st le st' :
  P f -> own_session e f t st = Ok (le, st') -> scan_inv st -> le = Return \/ scan_inv st'.
Proof.
  intros HP. unfold own_session.
  set (s2 := if decide (sp_get f 4 = _) then _ else _).
  intros H (Hreq & Hfound & Hacc).
  assert (_request s2 = _request s0 /\ _user s2 = sp_get f 1 /\ _auth_type s2 = _auth_type (sc_session st) /\
          (_access_level s2 = k_VYATTACFG -> _access_level (sc_session st) = k_VYATTACFG)) as (R2 & U2 & T2 & A2).
  { destruct (same_identity_debug (lit "AABs8") (sc_session st)) as (Hr & Hu & _ & Ht & _).
    pose proof (access_debug (lit "AABs8") (sc_session st)) as Ha.
    unfold s2. case_decide; cbn; rewrite ?Hr, ?Ht, ?Ha; done. }
  clearbody s2.
  destruct (session_groups e (set_session s2 st) (cstr (sp_get f 1))) as [ok st1] eqn:Eg.
  assert (sc_found st1 = sc_found st) as F1
    by (unfold session_groups in Eg; repeat case_match; simplify_eq; done).
  assert (ok = true -> same_identity s2 (sc_session st1) /\
    (_access_level (sc_session st1) = k_VYATTACFG -> _access_level s2 = k_VYATTACFG \/ cfg_member (sp_get f 1)) /\
    (_service_user s2 = false ->
       exists uid gid, au_passwd e (cstr (sp_get f 1)) = Some (uid, gid) /\ sc_pw st1 = Some (uid, gid))) as Hg.
  { intros ->. unfold session_groups in Eg. cbn in Eg. destruct (_service_user s2) eqn:Es.
    - injection Eg as <-. split; [done|]. split; [by left | done].
    - destruct (au_passwd e (cstr (sp_get f 1))) as [[uid gid]|] eqn:Ep; [|done].
      destruct (getgrouplist e (_user s2) gid (sc_ngroups st)) as [groups|] eqn:El; [|done].
      injection Eg as <-. cbn. destruct (groups_fold groups s2 gid) as [H1 H2].
      split; [done|]. rewrite H2. split; [|by eexists _, _].
      destruct (existsb (is_cfg_group e) groups) eqn:Ex; [|by left]. intros _. right.
      apply existsb_member in Ex as (g & Hgin & Hc). apply getgrouplist_some in El as [-> _].
      exists uid, gid, g. by rewrite U2 in Hgin. }
  destruct ok; [|injection H as <- <-; by left]. destruct (Hg eq_refl) as (Hid & Hac & Hpw). right.
  apply res_bind_ok in H as (line & _ & H). destruct (put_line e line st1) as [ok st2] eqn:Epl.
  unfold put_line in Epl. injection Epl as Eok <-. destruct Hid as (R3 & U3 & S3 & T3 & _).
  assert (_access_level (sc_session st1) = k_VYATTACFG ->
     _access_level s0 = k_VYATTACFG \/ exists f, P f /\ cfg_member (sp_get f 1)) as Hac'.
  { intros Hc. destruct (Hac Hc) as [H1|H1]; [by apply Hacc, A2 | right; by exists f]. }
  assert (exists f, P f /\ _user (sc_session st1) = sp_get f 1 /\
       (_service_user (sc_session st1) = false ->
          exists uid gid, au_passwd e (cstr (sp_get f 1)) = Some (uid, gid) /\ sc_pw st1 = Some (uid, gid))) as Hf.
  { exists f. split; [done|]. rewrite U3, S3. done. }
  destruct ok; injection H as <- <-; unfold scan_inv; cbn; rewrite R3, R2; split_and!; try done.
  rewrite F1, T3, T2. intros Hfd. split; [by apply Hfound | done].
Qed.

Lemma scan_line_inv auth buf st le st' :
  (forall f, str_proc buf (lit ",") = Ok f -> sp_get f 0 = auth ->
     unexpired e (strtoul (sp_get f 2)) = true -> P f) ->
  scan_line e auth buf st = Ok (le, st') -> scan_inv st -> le = Return \/ scan_inv st'.
Proof.
  intros HP H Hinv. unfold scan_line in H. apply res_bind_ok in H as (f & Hf & H).
  set (st1 := set_session _ st) in H.
  assert (scan_inv st1) as H1.
  { unfold st1. apply (scan_inv_debug (lit "AABs6")
      (set_session (vyatta_debug (lit "AABs5") (sc_session st)) st)). by apply scan_inv_debug. }
  destruct (unexpired e (strtoul (sp_get f 2))) eqn:Et; [|injection H as <- <-; by right].
  apply (scan_inv_debug (lit "AABs7")) in H1. case_decide as Hk.
  - eapply own_session_inv; [by apply HP | exact H | exact H1].
  - destruct (put_line e buf _) as [ok st2] eqn:Ep. injection H as <- <-. right. by eapply scan_inv_put.
Qed.

Lemma scan_loop_inv fuel auth fp st r st' :
  (forall buf f, buf ∈ read_lines fuel fp -> str_proc (cstr buf) (lit ",") = Ok f -> sp_get f 0 = auth ->
     unexpired e (strtoul (sp_get f 2)) = true -> P f) ->
  scan_loop e fuel auth fp st = Ok (r, st') -> scan_inv st -> r = true \/ scan_inv st'.
Proof.
  revert fp st; induction fuel as [|fuel IH]; intros fp st HP H Hinv; [done|].
  cbn [scan_loop read_lines] in *. destruct (fgets 1024 fp) as [[buf fp']|]; [|injection H as <- <-; by right].
  apply res_bind_ok in H as ([le st1] & Hl & H).
  apply scan_line_inv in Hl as [->|Hl]; [| |intros f; apply HP; by left |done].
  - injection H as <- <-. by left.
  - destruct le; [|injection H as <- <-; by right|injection H as <- <-; by left].
    eapply IH; [|exact H|exact Hl]. intros b f Hb. apply HP. by right.
Qed.
End Scan.

(** What it takes to be accepted by a session key. *)
Definition session_accepted (val : str) (fs : files) (s s' : Session) (ev : list id_event) : Prop :=
  exists key fp f, session_key val = Ok (Some key) /\ fs !! _session_file = Some fp /\
    live_session key fp f /\ _user s' = sp_get f 1 /\ _auth_type s' = AUTH_TYPE_VYATTA_SESSION /\
    (_access_level s' = k_VYATTACFG ->
       _access_level s = k_VYATTACFG \/ exists g, live_session key fp g /\ cfg_member (sp_get g 1)) /\
    (_service_user s' = false ->
       exists uid gid, au_passwd e (cstr (sp_get f 1)) = Some (uid, gid) /\ SetEuid uid ∈ ev).

Lemma session_identity_true st s ev :
  session_identity e st = Ok (true, s, ev) ->
  s = sc_session st /\ sc_found st = true /\
  (_service_user s = false -> exists uid gid, sc_pw st = Some (uid, gid) /\ SetEuid uid ∈ ev).
Proof.
  unfold session_identity. destruct (sc_found st) eqn:Ef; cbn [andb]; [|done].
  destruct (_service_user (sc_session st)) eqn:Es; cbn [negb].
  - intros [= <- <-]. split; [done|]. split; [done|]. by rewrite Es.
  - destruct (sc_pw st) as [[uid gid]|]; [|done].
    repeat case_match; intros [= <- <-]. split; [done|]. split; [done|].
    intros _. eexists _, _. split; [done|]. set_solver.
Qed.

Lemma lock_status_file fs fs' : lock e fs = (fs', true) -> exists fp, fs !! _session_file = Some fp /\ fs' !! _session_file = Some fp.
Proof.
  unfold lock. set (fs1 := if decide (lock_attempts _ _ _ < _) then _ else _).
  assert (fs1 !! _session_file = fs !! _session_file) as H1
    by (unfold fs1; case_decide; [by rewrite lookup_insert_ne | done]).
  intros [= <- H]. destruct (au_tmp_open e); [|by rewrite andb_false_r in H].
  apply andb_true_iff in H as [[H _]%andb_true_iff _]. apply bool_decide_eq_true in H as [fp Hfp].
  exists fp. rewrite <- H1. split; [done|]. by rewrite lookup_insert_ne.
Qed.

Lemma session_authorized_sound val s fs s' fs' ev :
  session_authorized e val s fs = Ok (true, s', fs', ev) -> session_accepted val fs s s' ev.
Proof.
  unfold session_authorized. intros H. apply res_bind_ok in H as (key & Hk & H).
  destruct key as [key|]; [|done]. destruct (lock e fs) as [fs1 status] eqn:El. destruct status; [|done].
  apply lock_status_file in El as (fp & Hfp & Hfp1). rewrite Hfp1 in H. cbn [default] in H.
  set (s1 := vyatta_debug _ _) in H.
  apply res_bind_ok in H as ([ret st] & Hscan & H). destruct ret; [done|].
  apply res_bind_ok in H as ([[ok s2] ev2] & Hid & H). injection H as -> <- <- <-.
  apply session_identity_true in Hid as (-> & Hfound & Hev).
  assert (_access_level s1 = _access_level s) as Ha by (unfold s1; by autorewrite with rest).
  destruct (scan_loop_inv (live_session key fp) s1 _ _ _ _ _ _ (fun buf f Hb Hf H0 Ht =>
    ex_intro _ buf (conj Hb (conj Hf (conj H0 Ht)))) Hscan) as [?|(_ & Hf & Hacc)]; [|done|].
  { split; [done|]. split; [done|]. by left. }
  destruct (Hf Hfound) as (Htype & f & Hlive & Huser & Hpw). rewrite Ha in Hacc.
  exists key, fp, f. split_and!; try done.
  intros Hsu. destruct (Hpw Hsu) as (uid & gid & Hp & Hsc). destruct (Hev Hsu) as (uid' & gid' & Hsc' & Hin).
  exists uid, gid. split; [done|]. congruence.
Qed.

(** Authentication touches no files but those of the sessions. *)
Definition session_paths : list str := [_session_file; tmp_file; lck_file].

Lemma validate_files s fs ok s' fs' ev f :
  validate e s fs = Ok (ok, s', fs', ev) -> f ∉ session_paths -> fs' !! f = fs !! f.
Proof.
  unfold session_paths. rewrite !not_elem_of_cons. intros Hv (Hs & Ht & Hl & _). unfold validate in Hv.
  case_decide; [by injection Hv as _ _ <- _|]. case_match; [destruct (basic_authorized _ _ _) as [[? ?] ?]; by injection Hv as _ _ <- _|].
  case_match; [|by injection Hv as _ _ <- _]. unfold session_authorized in Hv. apply res_bind_ok in Hv as (key & _ & Hv).
  destruct key as [key|]; [|by injection Hv as _ _ <- _].
  destruct (lock e fs) as [fs1 status] eqn:El.
  assert (fs1 !! f = fs !! f) as Hlk
    by (unfold lock in El; injection El as <- _; repeat case_match; rewrite ?lookup_insert_ne by congruence; done).
  assert (forall fs2, fs2 !! f = fs !! f -> unlock fs2 !! f = fs !! f) as Hu
    by (intros fs2 <-; unfold unlock; destruct (fs2 !! tmp_file); by rewrite ?lookup_delete_ne, ?lookup_insert_ne by congruence).
  destruct status; [|injection Hv as _ _ <- _; by apply Hu].
  apply res_bind_ok in Hv as ([ret st] & _ & Hv).
  assert (unlock (<[tmp_file := sc_out st]> fs1) !! f = fs !! f) as Hf by (apply Hu; by rewrite lookup_insert_ne by congruence).
  destruct ret; [by injection Hv as _ _ <- _|].
  apply res_bind_ok in Hv as ([[ok1 t1] ev1] & _ & Hv). by injection Hv as _ _ <- _.
Qed.

(** Claim C8: nobody is authenticated without a proof.  A request is accepted
    only if it presents a name and a password that PAM accepted, or the key
    of an unexpired line of the session file; the session's user is the one
    that was proved, configuration rights come from a group of that user (or
    of the owner of a line of the same key), and unless the user is a
    service user the process has taken that user's uid. *)
Theorem validate_sound (s s' : Session) (fs fs' : files) (ev : list id_event) :
  validate e s fs = Ok (true, s', fs', ev) ->
  let val := if decide (req_get s HTTP_REQ_AUTHORIZATION = []) then req_get s HTTP_REQ_COOKIE
             else req_get s HTTP_REQ_AUTHORIZATION in
  exists s1, same_but_response s s1 /\
    ((basic_handle val = true /\ basic_accepted val s1 s' ev) \/
     (session_handle val = true /\ session_accepted val fs s1 s' ev)).
Proof.
  unfold validate. case_decide; [done|]. set (val := if decide _ then _ else _).
  set (s1 := vyatta_debug _ s). intros H1. exists s1. split; [apply same_but_response_debug|].
  destruct (basic_handle val) eqn:Eb.
  - left. split; [done|]. destruct (basic_authorized e val s1) as [[ok s2] ev2] eqn:E.
    injection H1 as -> <- <- <-. by apply basic_authorized_sound.
  - destruct (session_handle val) eqn:Es; [|done]. right. split; [done|].
    by eapply session_authorized_sound.
Qed.
End Sound.

Lemma validate_sound_witness :
  let s := header_session HTTP_REQ_AUTHORIZATION (lit "Basic dnlhdHRhOnNlY3JldA==") in
  exists s' ev, validate demo_auth s ∅ = Ok (true, s', ∅, ev) /\
  let val := if decide (req_get s HTTP_REQ_AUTHORIZATION = []) then req_get s HTTP_REQ_COOKIE
             else req_get s HTTP_REQ_AUTHORIZATION in
  exists s1, same_but_response s s1 /\
    ((basic_handle val = true /\ basic_accepted demo_auth val s1 s' ev) \/
     (session_handle val = true /\ session_accepted demo_auth val ∅ s1 s' ev)).
Proof.
  intros s. eexists _, _. split; [vm_compute; reflexivity|].
  apply (validate_sound demo_auth s _ ∅ ∅). vm_compute. reflexivity.
Defined.

(** ** Maintaining the session file *)

(** A line of the file, as the script that creates sessions writes it. *)
Record session_rec := mkRec {
  s_key : str;
  s_user : str;
  s_time : N;
  s_addr : str;
  s_level : str;
}.

Definition rec_fields (r : session_rec) : list str := [s_key r; s_user r; dec (s_time r); s_addr r; s_level r].

Definition rec_text (r : session_rec) : str := join [comma] (rec_fields r).
Definition rec_line (r : session_rec) : str := rec_text r ++ [nl].

Definition set_time (t : N) (r : session_rec) : session_rec :=
  mkRec (s_key r) (s_user r) t (s_addr r) (s_level r).

Definition rec_ok (r : session_rec) : Prop :=
  Forall (fun f => clean_field comma f /\ nul ∉ f) [s_key r; s_user r; s_addr r; s_level r] /\
  (s_time r < 2 ^ 63)%N /\ length (rec_text r) <= 1000.

#[export] Instance rec_ok_dec r : Decision (rec_ok r).
Proof. unfold rec_ok. apply _. Defined.

Lemma dec_clean_comma n : clean_field comma (dec n).
Proof. split; [apply dec_not_nil|]. split_and!; by apply dec_notin. Qed.

Lemma rec_fields_clean r :
  rec_ok r -> Forall (clean_field comma) (rec_fields r) /\ Forall (fun f => nul ∉ f) (rec_fields r).
Proof.
  intros (Hf & _). rewrite !Forall_cons in Hf. destruct Hf as ([] & [] & [] & [] & _).
  unfold rec_fields. split; repeat (apply Forall_cons; split; [first [done | apply dec_clean_comma | by apply dec_notin]|]); apply Forall_nil; done.
Qed.

Lemma rec_text_notin r c :
  rec_ok r -> c = nl \/ c = nul -> c ∉ rec_text r.
Proof.
  intros Hr Hc Hin. destruct (rec_fields_clean r Hr) as [H1 H2]. rewrite Forall_forall in H1, H2.
  apply elem_of_join in Hin as [Hin | (f & Hf & Hin)].
  - destruct Hc as [-> | ->]; revert Hin; by_compute.
  - destruct (H1 _ Hf) as (_ & _ & _ & Hn & _). specialize (H2 _ Hf). by destruct Hc as [-> | ->].
Qed.

Lemma cstr_rec_line r : rec_ok r -> cstr (rec_line r) = rec_line r.
Proof. intros Hr. apply cstr_id. unfold rec_line. pose proof (rec_text_notin r nul Hr). notin. naive_solver. Qed.

Lemma fgets_go_terminated k a rest :
  nl ∉ a -> length a < k -> fgets_go k (a ++ nl :: rest) = (a ++ [nl], rest).
Proof.
  revert k; induction a as [|c a IH]; intros k Hn Hk; (destruct k as [|k]; [simpl in Hk; lia|]).
  - cbn [app fgets_go]. by rewrite decide_True.
  - apply not_elem_of_cons in Hn as [Hc Ha]. cbn [app fgets_go]. rewrite decide_False by done.
    rewrite IH by (simpl in Hk; done || lia). done.
Qed.

Lemma fgets_rec r rest : rec_ok r -> fgets 1024 (rec_line r ++ rest) = Some (rec_line r, rest).
Proof.
  intros Hr. unfold rec_line. rewrite <- app_assoc. cbn [app]. unfold fgets.
  destruct Hr as (Hf & Ht & Hl). pose proof (rec_text_notin r nl (conj Hf (conj Ht Hl)) (or_introl eq_refl)) as Hn.
  rewrite fgets_go_terminated by (done || lia). by destruct (rec_text r).
Qed.

Lemma rec_line_fields r : rec_ok r -> str_proc (rec_line r) (lit ",") = Ok (rec_fields r).
Proof.
  intros Hr. destruct (rec_fields_clean r Hr) as [H1 _].
  destruct (str_proc_join comma [] (rec_fields r) H1) as [_ H2]; [by_compute.. | exact H2].
Qed.

Lemma rec_field_0 r : sp_get (rec_fields r) 0 = s_key r. Proof. done. Qed.
Lemma rec_field_1 r : sp_get (rec_fields r) 1 = s_user r. Proof. done. Qed.
Lemma rec_field_2 r : sp_get (rec_fields r) 2 = dec (s_time r). Proof. done. Qed.
Lemma rec_field_3 r : sp_get (rec_fields r) 3 = s_addr r. Proof. done. Qed.
Lemma rec_field_4 r : sp_get (rec_fields r) 4 = s_level r. Proof. done. Qed.

Lemma rec_time r : rec_ok r -> strtoul (sp_get (rec_fields r) 2) = s_time r.
Proof.
  intros (_ & Ht & _). rewrite rec_field_2. apply strtoul_dec. etrans; [exact Ht | done].
Qed.

Lemma length_dec n : (n < 2 ^ 63)%N -> length (dec n) <= 19.
Proof. intros Hn. apply (length_dec_le n 18). etrans; [exact Hn | done]. Qed.

Lemma session_text_rec r t :
  rec_ok r -> (t < 2 ^ 63)%N ->
  session_text (rec_fields r) t = rec_line (set_time t r) /\ length (rec_line (set_time t r)) < 1024.
Proof.
  intros (Hf & Ht & Hl) Htt. split.
  - unfold session_text. rewrite rec_field_0, rec_field_1, rec_field_3, rec_field_4.
    rewrite !Forall_cons in Hf. destruct Hf as ([_ H0] & [_ H1] & [_ H3] & [_ H4] & _).
    rewrite !cstr_id by done. unfold dec_signed. rewrite decide_True by done.
    unfold rec_line, rec_text, rec_fields. cbn [join s_key s_user s_time s_addr s_level set_time].
    rewrite <- !app_assoc. done.
  - pose proof (length_dec t Htt). unfold rec_line, rec_text, rec_fields in *.
    cbn [join s_key s_user s_time s_addr s_level set_time] in *.
    rewrite !length_app in *. simpl in *. lia.
Qed.

Section Refresh.
Context (e : auth_env).
Hypothesis puts_ok : forall n, au_fputs e n = true.
Hypothesis time_ok : (au_time e < 2 ^ 63)%N.

Definition live (r : session_rec) : bool := unexpired e (s_time r).

(** The variables of the loop, up to the debugging header. *)
Definition scan_moved (st st' : scan) (out : str) : Prop :=
  same_but_response (sc_session st) (sc_session st') /\ sc_out st' = sc_out st ++ out /\
  sc_found st' = sc_found st /\ sc_pw st' = sc_pw st /\ sc_groups st' = sc_groups st /\
  sc_ngroups st' = sc_ngroups st.

Lemma scan_moved_trans st1 st2 st3 a b :
  scan_moved st1 st2 a -> scan_moved st2 st3 b -> scan_moved st1 st3 (a ++ b).
Proof.
  intros (H1 & H2 & H3 & H4 & H5 & H6) (G1 & G2 & G3 & G4 & G5 & G6). unfold scan_moved.
  split; [by etrans|]. rewrite G2, H2, app_assoc. split_and!; congruence.
Qed.

(** A session of another key is kept while it lives. *)
Definition other (key : str) (r : session_rec) : Prop := rec_ok r /\ (s_key r = key -> live r = false).

Lemma scan_line_other key r st :
  other key r -> exists st', scan_line e key (rec_line r) st = Ok (Next, st') /\
    scan_moved st st' (if live r then rec_line r else []).
Proof.
  intros [Hr Hk]. unfold scan_line. rewrite rec_line_fields by done. cbn [res_bind].
  rewrite rec_time by done. fold (live r). rewrite rec_field_0.
  assert (forall b1 b2, same_but_response (sc_session st) (vyatta_debug b1 (vyatta_debug b2 (sc_session st)))) as H2
    by (intros; etrans; apply same_but_response_debug).
  destruct (live r) eqn:El.
  - rewrite decide_False by naive_solver. unfold put_line. rewrite puts_ok. eexists. split; [done|].
    split; [|split_and!; done]. cbn. etrans; [apply H2 | apply same_but_response_debug].
  - eexists. split; [done|]. split; [apply H2|]. split_and!; try done. cbn. by rewrite app_nil_r.
Qed.

Lemma scan_loop_line key r rest st fuel :
  rec_ok r ->
  scan_loop e (S fuel) key (rec_line r ++ rest) st =
  res_bind (scan_line e key (rec_line r) st) (fun '(le, st) =>
    match le with
    | Next => scan_loop e fuel key rest st
    | Break => Ok (false, st)
    | Return => Ok (true, st)
    end).
Proof. intros Hr. cbn [scan_loop]. rewrite fgets_rec by done. by rewrite cstr_rec_line. Qed.

Lemma scan_others key recs rest st fuel :
  Forall (other key) recs ->
  exists st', scan_loop e (length recs + fuel) key ((recs ≫= rec_line) ++ rest) st =
      scan_loop e fuel key rest st' /\
    scan_moved st st' (filter (fun r => live r = true) recs ≫= rec_line).
Proof.
  intros Hr. revert st; induction Hr as [|r recs Hr Hrs IH]; intros st.
  - exists st. split; [done|]. split; [done|]. cbn. rewrite app_nil_r. done.
  - rewrite bind_cons, <- app_assoc. cbn [length Nat.add]. rewrite scan_loop_line by apply Hr.
    destruct (scan_line_other key r st Hr) as (st1 & -> & H1). cbn [res_bind].
    destruct (IH st1) as (st2 & -> & H2). exists st2. split; [done|].
    pose proof (scan_moved_trans _ _ _ _ _ H1 H2) as H3. rewrite filter_cons.
    destruct (live r) eqn:El; [rewrite decide_True by done | rewrite decide_False by done]; exact H3.
Qed.

(** An ordinary user whose groups fit. *)
Definition known_user (user : str) (uid gid : N) : Prop :=
  au_passwd e user = Some (uid, gid) /\ length (au_groups e user gid) <= 10.

(** The rights a user's groups give. *)
Definition user_access (user : str) (gid : N) (a : AccessLevel) : AccessLevel :=
  if existsb (is_cfg_group e) (au_groups e user gid) then k_VYATTACFG else a.

Definition no_update (s : Session) : bool :=
  contains (req_get s HTTP_REQ_PRAGMA) PRAGMA_NO_VYATTA_SESSION_UPDATE.

(** The line of the request's session afterwards. *)
Definition refreshed (s : Session) (r : session_rec) : session_rec :=
  if no_update s then r else set_time (au_time e) r.

Lemma scan_line_own r st uid gid :
  rec_ok r -> live r = true -> s_level r <> lit "service-user" ->
  known_user (s_user r) uid gid -> sc_ngroups st = 10 -> _service_user (sc_session st) = false ->
  exists st', scan_line e (s_key r) (rec_line r) st = Ok (Next, st') /\
    sc_out st' = sc_out st ++ rec_line (refreshed (sc_session st) r) /\ sc_found st' = true /\
    sc_pw st' = Some (uid, gid) /\ sc_groups st' = au_groups e (s_user r) gid /\
    _user (sc_session st') = s_user r /\ _session_key (sc_session st') = s_key r /\
    _auth_type (sc_session st') = AUTH_TYPE_VYATTA_SESSION /\ _service_user (sc_session st') = false /\
    _access_level (sc_session st') = user_access (s_user r) gid (_access_level (sc_session st)).
Proof.
  intros Hr Hlive Hlevel [Hpw Hgr] Hng Hsu. unfold scan_line. rewrite rec_line_fields by done. cbn [res_bind].
  rewrite rec_time by done. fold (live r). rewrite Hlive, rec_field_0, decide_True by done.
  unfold own_session. rewrite rec_field_4, (decide_False (P := s_level r = _)) by done.
  rewrite rec_field_0, rec_field_1. cbn [sc_session set_session].
  set (s1 := vyatta_debug (lit "AABs8") _).
  assert (same_but_response (sc_session st) s1) as Hs1 by (unfold s1; repeat (etrans; [|apply same_but_response_debug]); done).
  destruct Hs1 as (D1 & R1 & U1 & A1 & V1 & T1 & K1). clearbody s1.
  destruct Hr as (Hf & Ht & Hl). pose proof Hf as Hf'. rewrite !Forall_cons in Hf'.
  destruct Hf' as (_ & [_ Hun] & _). rewrite (cstr_id (s_user r)) by done.
  unfold session_groups. cbn [sc_session set_session]. cbn [_service_user set_session_key set_user].
  rewrite V1, Hsu, Hpw. unfold getgrouplist. cbn [sc_ngroups set_session _user set_session_key set_user].
  rewrite Hng, decide_False by lia.
  set (s2 := set_session_key _ _).
  destruct (groups_fold e (au_groups e (s_user r) gid) s2 gid) as [(R3 & U3 & V3 & T3 & K3) A3].
  set (s3 := (foldl _ _ _).1) in *.
  set (t := if contains _ _ then _ else _).
  assert ((t < 2 ^ 63)%N /\ rec_line (set_time t r) = rec_line (refreshed (sc_session st) r)) as [Htt Hline].
  { unfold t, refreshed, no_update. replace (req_get s2 HTTP_REQ_PRAGMA) with (req_get (sc_session st) HTTP_REQ_PRAGMA)
      by (unfold req_get, s2; cbn; by rewrite R1).
    destruct (contains (req_get (sc_session st) HTTP_REQ_PRAGMA) _); split; try done. }
  destruct (session_text_rec r t) as [Htext Hlen]; [by repeat split | done |].
  rewrite Htext. unfold sprintf_into. rewrite decide_True by done. cbn [res_bind].
  unfold put_line. rewrite puts_ok. rewrite Hline. eexists. split; [done|].
  cbn [sc_session sc_out sc_found sc_pw sc_groups set_auth_type _user _session_key _auth_type _service_user
       _access_level set_session].
  rewrite U3, K3, V3, A3. unfold s2. cbn. rewrite V1, Hsu, A1. by repeat split.
Qed.
End Refresh.

Section SessionFile.
Context (e : auth_env).

(** The lock is free, files can be written and the clock is sane. *)
Definition file_env : Prop :=
  (exists n, n < _retry_lock_count /\ au_lock e n = true) /\ au_tmp_open e = true /\
  (forall n, au_fputs e n = true) /\ (au_time e < 2 ^ 63)%N.

Lemma lock_attempts_some ct left :
  (exists n, ct <= n < ct + left /\ au_lock e n = true) -> lock_attempts e ct left < ct + left.
Proof.
  revert ct; induction left as [|left IH]; intros ct (n & Hn & Hl); [lia|]. cbn [lock_attempts].
  destruct (au_lock e ct) eqn:E; [lia|]. destruct (decide (n = ct)) as [->|]; [congruence|].
  assert (lock_attempts e (S ct) left < S ct + left) as H; [|lia]. apply IH. exists n. split; [lia | done].
Qed.

Lemma lock_taken fs fp :
  file_env -> fs !! _session_file = Some fp ->
  lock e fs = (<[tmp_file := []]> (<[lck_file := []]> fs), true).
Proof.
  intros ((n & Hn & Hl) & Htmp & _) Hfp. unfold lock.
  assert (lock_attempts e 0 _retry_lock_count < _retry_lock_count) as Hlt
    by (apply (lock_attempts_some 0); exists n; split; [lia | done]).
  rewrite decide_True, Htmp by done. rewrite lookup_insert_ne, Hfp by done.
  rewrite !bool_decide_eq_true_2 by (done || lia). done.
Qed.

Lemma unlock_written fs out :
  let fs' := unlock (<[tmp_file := out]> (<[tmp_file := []]> (<[lck_file := []]> fs))) in
  fs' !! _session_file = Some out /\ fs' !! lck_file = None /\
  (forall f, f <> _session_file -> f <> lck_file -> f <> tmp_file -> fs' !! f = fs !! f).
Proof.
  intros fs'. unfold fs', unlock. rewrite lookup_insert_eq. split; [|split].
  - rewrite !lookup_delete_ne by done. apply lookup_insert_eq.
  - apply lookup_delete_eq.
  - intros f H1 H2 H3. by rewrite !lookup_delete_ne, !lookup_insert_ne.
Qed.

Definition file_of (recs : list session_rec) : str := recs ≫= rec_line.

Lemma file_length recs : length recs <= length (file_of recs).
Proof.
  induction recs as [|r recs IH]; [done|]. unfold file_of in *. rewrite bind_cons, length_app.
  unfold rec_line at 1. rewrite length_app. simpl. lia.
Qed.

Definition keep_live (recs : list session_rec) : list session_rec := filter (fun r => live e r = true) recs.

Lemma scan_done fuel key st : scan_loop e (S fuel) key [] st = Ok (false, st).
Proof. done. Qed.

(** The session the loop starts with. *)
Definition scan_start (s : Session) : scan :=
  mkScan (vyatta_debug (lit "AABs4") (vyatta_debug (lit "AABs3") s)) [] 0 false None [] 10.

Lemma scan_start_frame s : same_but_response s (sc_session (scan_start s)).
Proof. unfold scan_start. cbn. etrans; apply same_but_response_debug. Qed.

(** Claim C18: a key that no live line of the session file has is refused,
    with nothing of the request's identity changed; the lines that are still
    alive are kept exactly as they were, in their order, the others are
    dropped, and the lock is released. *)
Theorem session_unknown (s : Session) (fs : files) (val key : str) (recs : list session_rec) :
  file_env -> session_key val = Ok (Some key) -> fs !! _session_file = Some (file_of recs) ->
  Forall (other e key) recs ->
  exists s' fs', session_authorized e val s fs = Ok (false, s', fs', []) /\ same_but_response s s' /\
    fs' !! _session_file = Some (file_of (keep_live recs)) /\ fs' !! lck_file = None /\
    (forall f, f <> _session_file -> f <> lck_file -> f <> tmp_file -> fs' !! f = fs !! f).
Proof.
  intros Henv Hk Hfp Hrecs. unfold session_authorized. rewrite Hk. cbn [res_bind].
  rewrite (lock_taken fs _ Henv Hfp). rewrite !lookup_insert_ne, Hfp by done. cbn [default from_option id].
  fold (scan_start s). destruct Henv as (_ & _ & Hputs & _).
  destruct (scan_others e Hputs key recs [] (scan_start s) (S (length (file_of recs) - length recs)) Hrecs)
    as (st & Hscan & (Hs & Hout & Hfound & _)).
  rewrite app_nil_r in Hscan. fold (file_of recs) in Hscan.
  replace (length recs + S (length (file_of recs) - length recs)) with (S (length (file_of recs))) in Hscan
    by (pose proof (file_length recs); lia).
  rewrite Hscan, scan_done. cbn [res_bind]. unfold session_identity. rewrite Hfound. cbn [scan_start sc_found andb res_bind].
  eexists _, _. split; [done|]. split; [by etrans; [apply scan_start_frame|]|].
  rewrite Hout. apply unlock_written.
Qed.

(** Claim C9: the key of a live line identifies its user.  The request is
    accepted as that user, with the rights of the user's groups, and the
    process takes the user's identity; in the file the line gets the current
    time (unless the request asks not to), every other live line stays as it
    was, and the order is kept. *)
Theorem session_refresh (s : Session) (fs : files) (val : str) (before after : list session_rec)
    (own : session_rec) (uid gid : N) :
  file_env -> session_key val = Ok (Some (s_key own)) ->
  fs !! _session_file = Some (file_of (before ++ own :: after)) ->
  Forall (other e (s_key own)) before -> Forall (other e (s_key own)) after ->
  rec_ok own -> live e own = true -> s_level own <> lit "service-user" ->
  known_user e (s_user own) uid gid -> _service_user s = false ->
  au_loginuid e = true -> au_setgroups e = true -> au_setegid e = true -> au_seteuid e = true ->
  exists s' fs', session_authorized e val s fs =
      Ok (true, s', fs', [SetLoginUid uid; SetGroups (au_groups e (s_user own) gid); SetEgid gid; SetEuid uid]) /\
    _user s' = s_user own /\ _session_key s' = s_key own /\ _auth_type s' = AUTH_TYPE_VYATTA_SESSION /\
    _access_level s' = user_access e (s_user own) gid (_access_level s) /\
    fs' !! _session_file = Some (file_of (keep_live before ++ refreshed e s own :: keep_live after)) /\
    fs' !! lck_file = None /\
    (forall f, f <> _session_file -> f <> lck_file -> f <> tmp_file -> fs' !! f = fs !! f).
Proof.
  intros Henv Hk Hfp Hbef Haft Hok Hlive Hlev Huser Hsu Hl Hg Hge Hu.
  unfold session_authorized. rewrite Hk. cbn [res_bind].
  rewrite (lock_taken fs _ Henv Hfp). rewrite !lookup_insert_ne, Hfp by done. cbn [default from_option id].
  fold (scan_start s). destruct Henv as (_ & _ & Hputs & Htime).
  set (recs := before ++ own :: after) in *.
  set (left := S (length (file_of recs) - length recs)).
  destruct (scan_others e Hputs (s_key own) before (rec_line own ++ file_of after) (scan_start s)
              (S (length after + left)) Hbef) as (st1 & Hs1 & Hm1 & Ho1 & _ & _ & _ & Hn1).
  assert (file_of recs = (before ≫= rec_line) ++ rec_line own ++ file_of after) as Hfile
    by (unfold recs, file_of; by rewrite bind_app, bind_cons).
  assert (S (length (file_of recs)) = length before + S (length after + left)) as Hfuel.
  { pose proof (file_length recs) as Hlen. unfold left. unfold recs in Hlen |- * at 2. rewrite length_app in *.
    cbn [length] in *. unfold recs. rewrite length_app. cbn [length]. lia. }
  rewrite Hfuel, Hfile, Hs1, scan_loop_line by done.
  pose proof (scan_start_frame s) as Hs0.
  assert (same_but_response s (sc_session st1)) as (_ & R1 & _ & A1 & V1 & _) by (by etrans).
  destruct (scan_line_own e Hputs Htime own st1 uid gid) as
    (st2 & -> & Ho2 & Hf2 & Hp2 & Hg2 & Hu2 & Hk2 & Ht2 & Hsu2 & Ha2); [done.. | by rewrite V1 |].
  cbn [res_bind].
  destruct (scan_others e Hputs (s_key own) after [] st2 left Haft) as (st3 & Hs3 & Hm3 & Ho3 & Hf3 & Hp3 & Hg3 & _).
  rewrite app_nil_r in Hs3. fold (file_of after) in Hs3. rewrite Hs3. unfold left. rewrite scan_done. cbn [res_bind].
  destruct Hm3 as (_ & _ & U3 & A3 & V3 & T3 & K3).
  unfold session_identity. rewrite Hf3, Hf2, V3, Hsu2, Hp3, Hp2, Hl, Hg, Hge, Hu, Hg3, Hg2. cbn [andb negb res_bind].
  eexists _, _. split; [done|].
  assert (sc_out st3 = file_of (keep_live before ++ refreshed e s own :: keep_live after)) as ->.
  { rewrite Ho3, Ho2, Ho1. unfold file_of, keep_live. rewrite bind_app, bind_cons. cbn [scan_start sc_out].
    rewrite <- !app_assoc. cbn [app]. do 2 f_equal.
    unfold refreshed, no_update, req_get. by rewrite R1. }
  rewrite U3, K3, T3, A3, Hu2, Hk2, Ht2, Ha2, A1. repeat (split; [done|]). apply unlock_written.
Qed.
End SessionFile.

Definition demo_own : session_rec :=
  mkRec (lit "0011223344556677") (lit "vyatta") 999000 (lit "10.0.0.1") (lit "admin").
Definition demo_peer : session_rec :=
  mkRec (lit "8899AABBCCDDEEFF") (lit "operator") 999500 (lit "10.0.0.2") (lit "operator").
Definition demo_expired : session_rec :=
  mkRec (lit "0123456789ABCDEF") (lit "operator") 900000 (lit "10.0.0.3") (lit "operator").

Definition demo_sessions (recs : list session_rec) : files := {[ _session_file := file_of recs ]}.

Lemma demo_file_env : file_env demo_auth.
Proof. split; [exists 0; split; [unfold _retry_lock_count; lia | done]|]. by repeat split. Qed.

Lemma session_unknown_witness :
  let s := new_Session false in
  let recs := [demo_peer; demo_expired] in
  exists s' fs', session_authorized demo_auth (lit "Vyatta-Session 0011223344556677") s (demo_sessions recs) =
      Ok (false, s', fs', []) /\ same_but_response s s' /\
    fs' !! _session_file = Some (file_of (keep_live demo_auth recs)) /\ fs' !! lck_file = None /\
    (forall f, f <> _session_file -> f <> lck_file -> f <> tmp_file -> fs' !! f = demo_sessions recs !! f).
Proof.
  intros s recs. apply (session_unknown demo_auth s _ _ (lit "0011223344556677"));
    [apply demo_file_env | vm_compute; reflexivity | apply lookup_singleton_eq |].
  repeat (apply Forall_cons; split; [split; [by_compute | done]|]). by apply Forall_nil.
Defined.

Lemma session_refresh_witness :
  let s := new_Session false in
  let fs := demo_sessions ([demo_expired] ++ demo_own :: [demo_peer]) in
  exists s' fs', session_authorized demo_auth (lit "Vyatta-Session 0011223344556677") s fs =
      Ok (true, s', fs', [SetLoginUid 1000; SetGroups (au_groups demo_auth (lit "vyatta") 100);
                          SetEgid 100; SetEuid 1000]) /\
    _user s' = s_user demo_own /\ _session_key s' = s_key demo_own /\
    _auth_type s' = AUTH_TYPE_VYATTA_SESSION /\
    _access_level s' = user_access demo_auth (s_user demo_own) 100 (_access_level s) /\
    fs' !! _session_file =
      Some (file_of (keep_live demo_auth [demo_expired] ++ refreshed demo_auth s demo_own ::
                     keep_live demo_auth [demo_peer])) /\
    fs' !! lck_file = None /\
    (forall f, f <> _session_file -> f <> lck_file -> f <> tmp_file -> fs' !! f = fs !! f).
Proof.
  intros s fs.
  apply (session_refresh demo_auth s fs _ [demo_expired] [demo_peer] demo_own 1000 100);
    [apply demo_file_env | vm_compute; reflexivity | apply lookup_singleton_eq | | | by_compute | done |
     done | split; [done | simpl; lia] | done..].
  all: repeat (apply Forall_cons; split; [split; [by_compute | done]|]); by apply Forall_nil.
Defined.
