(* ===== verification/SessionLock.v ===== *)
(** * Several servers at one session file (authsession.cc)

    The web server runs two server processes, which share the session file
    under [Lock].  [Auth] describes a request as if it had the file for
    itself.  Here the steps of a request -- the attempts to take the lock, the
    two opens, the scan, and what the destructor does -- interleave with those
    of all the others, on names and inodes.  Other programs, like the one that
    logs users in (lib/Vyatta/WebGUI2/SessionKey.pm), change the files at any
    moment and in any way; what a theorem asks of them is its hypothesis. *)

From S2P Require Import Prelude CppString Common FileStore CppMap Http Auth AuthFacts.

(** What [authorized] returns: accepted, the session, and the changes of
    identity. *)
Definition outcome : Type := bool * Session * list id_event.

(** A call of [authorized] that gets as far as the lock. *)
Record lock_request := mkLockRequest {
  lr_env : auth_env;
  lr_session : Session;
  lr_header : str;
  lr_key : str;
}.

(** ** The steps of a request *)

(** Where a request is: [ct] is how many attempts at the lock failed. *)
Inductive phase :=
| Locking (ct : nat)
| OpenFile (ct : nat)
| OpenTmp (ct : nat) (fp : option nat)
| Scanning (ct : nat) (fp fp_tmp : option nat)
| Closing (ct : nat) (fp_tmp : option nat) (out : str) (o : outcome)
| Renaming (ct : nat) (o : outcome)
| Unlinking (ct : nat) (o : outcome)
| Finished (o : outcome)
| Crashed.

(** [authorized] between the two ends of the lock: the outcome and what is
    written to the temporary file. *)
Definition scan_file (e : auth_env) (key fp : str) (s : Session) : res (outcome * str) :=
  let s := vyatta_debug (lit "AABs4") (vyatta_debug (lit "AABs3") s) in
  let* '(returned, st) := scan_loop e (S (length fp)) key fp (mkScan s [] 0 false None [] 10) in
  if returned : bool then Ok ((false, sc_session st, []), sc_out st)
  else let* o := session_identity e st in Ok (o, sc_out st).

(** The next step.  The scan reads the whole file and fills the buffer of
    the temporary file, which [fclose] writes.  Here creating the lock file
    fails because it exists; the other failures are the action [Refused]. *)
Definition pstep (r : lock_request) (ph : phase) (st : store) : phase * store :=
  match ph with
  | Locking ct =>
      if decide (ct < _retry_lock_count) then
        match open_excl lck_file st with
        | Some st => (OpenFile ct, st)
        | None => (Locking (S ct), st)
        end
      else (OpenFile ct, st)
  | OpenFile ct => (OpenTmp ct (open_r _session_file st), st)
  | OpenTmp ct fp =>
      if au_tmp_open (lr_env r)
      then let '(i, st) := open_w tmp_file st in (Scanning ct fp (Some i), st)
      else (Scanning ct fp None, st)
  | Scanning ct (Some i) (Some j) =>
      if decide (ct <> _retry_lock_count) then
        match scan_file (lr_env r) (lr_key r) (read_inode i st) (lr_session r) with
        | Ok (o, out) => (Closing ct (Some j) out o, st)
        | Fault _ => (Crashed, st)
        end
      else (Closing ct (Some j) [] (false, lr_session r, []), st)
  | Scanning ct _ fp_tmp => (Closing ct fp_tmp [] (false, lr_session r, []), st)
  | Closing ct fp_tmp out o =>
      (Renaming ct o, match fp_tmp with Some j => write_inode j out st | None => st end)
  | Renaming ct o => (Unlinking ct o, rename tmp_file _session_file st)
  | Unlinking ct o => (Finished o, unlink lck_file st)
  | Finished o => (Finished o, st)
  | Crashed => (Crashed, st)
  end.

(** From the lock to the end of the destructor; a process that crashed does
    not give the lock back. *)
Definition holding (ph : phase) : bool :=
  match ph with
  | Locking _ | Finished _ => false
  | _ => true
  end.

Definition running (ph : phase) : bool :=
  match ph with
  | Finished _ | Crashed => false
  | _ => true
  end.

(** ** All of them *)

Inductive entry :=
| Authorized (r : lock_request) (ct : nat) (o : outcome)
| Changed (before after : files)
| TimedOut (r : lock_request)
| Restarted.

Record system := mkSystem {
  sy_store : store;
  sy_procs : gmap nat (lock_request * phase);
  sy_log : list entry;
}.

Definition shared (st : store) : system := mkSystem st ∅ [].

(** What a step adds to the log. *)
Definition step_entry (r : lock_request) (ph : phase) : list entry :=
  match ph with
  | Locking ct => if decide (ct < _retry_lock_count) then [] else [TimedOut r]
  | Unlinking ct o => [Authorized r ct o]
  | _ => []
  end.

(** A process takes a request, or goes one step further in the one it has,
    or cannot create the lock file for another reason than that it exists;
    another program changes files; a server starts
    ([AuthSession::AuthSession]). *)
Inductive action :=
| Accept (pid : nat) (r : lock_request)
| Run (pid : nat)
| Refused (pid : nat)
| Outside (changes : list file_change)
| Start.

(** A process between two requests. *)
Definition vacant (σ : system) (pid : nat) : bool :=
  match sy_procs σ !! pid with
  | None | Some (_, Finished _) => true
  | _ => false
  end.

(** [AuthSession::AuthSession] *)
Definition clear_files (st : store) : store :=
  unlink lck_file (unlink tmp_file (unlink _session_file st)).

Definition lstep (a : action) (σ : system) : option system :=
  match a with
  | Accept pid r =>
      if vacant σ pid then
        match session_key (lr_header r) with
        | Ok (Some key) =>
            if decide (key = lr_key r)
            then Some (mkSystem (sy_store σ) (<[pid := (r, Locking 0)]> (sy_procs σ)) (sy_log σ))
            else None
        | _ => None
        end
      else None
  | Run pid =>
      match sy_procs σ !! pid with
      | Some (r, ph) =>
          if running ph then
            let '(ph', st) := pstep r ph (sy_store σ) in
            Some (mkSystem st (<[pid := (r, ph')]> (sy_procs σ)) (sy_log σ ++ step_entry r ph))
          else None
      | None => None
      end
  | Refused pid =>
      match sy_procs σ !! pid with
      | Some (r, Locking ct) =>
          if decide (ct < _retry_lock_count)
          then Some (mkSystem (sy_store σ) (<[pid := (r, Locking (S ct))]> (sy_procs σ)) (sy_log σ))
          else None
      | _ => None
      end
  | Outside changes =>
      let st := foldl change_file (sy_store σ) changes in
      Some (mkSystem st (sy_procs σ) (sy_log σ ++ [Changed (view (sy_store σ)) (view st)]))
  | Start =>
      Some (mkSystem (clear_files (sy_store σ)) (sy_procs σ) (sy_log σ ++ [Restarted]))
  end.

Fixpoint lsteps (acts : list action) (σ : system) : option system :=
  match acts with
  | [] => Some σ
  | a :: acts' => match lstep a σ with Some σ' => lsteps acts' σ' | None => None end
  end.

Definition holds (σ : system) (pid : nat) : Prop :=
  exists r ph, sy_procs σ !! pid = Some (r, ph) /\ holding ph = true.

(** ** One after the other *)

(** The environment of a request that fails [ct] times at the lock. *)
Definition with_lock (ct : nat) (e : auth_env) : auth_env :=
  mkAuthEnv (au_decode e) (au_stack e) (au_pam_start e) (au_pam_authenticate e) (au_pam_acct e)
    (au_pam_end e) (au_passwd e) (au_groups e) (au_group_name e) (au_setgroups e) (au_loginuid e)
    (au_setegid e) (au_seteuid e) (fun n => bool_decide (ct <= n)) (au_tmp_open e) (au_fputs e) (au_time e).

(** The request as [Auth] describes it, with the files for itself. *)
Definition authorize (ct : nat) (r : lock_request) (fs : files) : res auth_outcome :=
  session_authorized (with_lock ct (lr_env r)) (lr_header r) (lr_session r) fs.

(** An entry of the log as one step on the files. *)
Inductive serial_step : entry -> files -> files -> Prop :=
| serial_authorized r ct ok s ev fs fs' :
    ct < _retry_lock_count -> authorize ct r fs = Ok (ok, s, fs', ev) ->
    serial_step (Authorized r ct (ok, s, ev)) fs fs'
| serial_changed fs fs' : serial_step (Changed fs fs') fs fs'.

Fixpoint serial (fs : files) (log : list entry) (fs' : files) : Prop :=
  match log with
  | [] => fs' = fs
  | x :: log' => exists fs1, serial_step x fs fs1 /\ serial fs1 log' fs'
  end.

(** The files between two requests. *)
Definition settled (fs : files) : Prop := fs !! lck_file = None /\ fs !! tmp_file = None.

#[export] Instance settled_dec fs : Decision (settled fs).
Proof. unfold settled. apply _. Defined.

(** No request gave up waiting, no server started meanwhile, and other
    programs changed files only while the lock was free, and left neither a
    lock nor a temporary file. *)
Definition timely (x : entry) : Prop :=
  match x with
  | TimedOut _ | Restarted => False
  | Changed before after => settled before /\ settled after
  | Authorized _ _ _ => True
  end.

(** ** The request alone, step by step *)

Lemma scan_with_lock ct e key fp s : scan_file (with_lock ct e) key fp s = scan_file e key fp s.
Proof. reflexivity. Qed.

Lemma attempts_with_lock ct e :
  ct < _retry_lock_count -> lock_attempts (with_lock ct e) 0 _retry_lock_count = ct.
Proof. intros H. do 5 (destruct ct as [|ct]; [done|]). unfold _retry_lock_count in H. lia. Qed.

(** The files while the lock is held and the temporary file is open. *)
Definition locked_files (e : auth_env) (fs : files) : files :=
  let fs := <[lck_file := []]> fs in if au_tmp_open e then <[tmp_file := []]> fs else fs.

Lemma locked_session e fs : locked_files e fs !! _session_file = fs !! _session_file.
Proof. unfold locked_files. destruct (au_tmp_open e); by rewrite !lookup_insert_ne. Qed.

Lemma authorize_steps ct r fs :
  ct < _retry_lock_count -> session_key (lr_header r) = Ok (Some (lr_key r)) ->
  authorize ct r fs =
  let fs1 := locked_files (lr_env r) fs in
  match fs !! _session_file, au_tmp_open (lr_env r) with
  | Some fp, true =>
      let* '(o, out) := scan_file (lr_env r) (lr_key r) fp (lr_session r) in
      Ok (o.1.1, o.1.2, unlock (<[tmp_file := out]> fs1), o.2)
  | _, _ => Ok (false, lr_session r, unlock fs1, [])
  end.
Proof.
  intros Hct Hk. unfold authorize, session_authorized. rewrite Hk. cbn [res_bind].
  unfold lock. rewrite attempts_with_lock by done. cbn [with_lock au_tmp_open].
  rewrite decide_True, (bool_decide_eq_true_2 (ct <> _)) by lia. rewrite andb_true_r.
  fold (locked_files (lr_env r) fs). rewrite locked_session.
  destruct (fs !! _session_file) as [fp|] eqn:E.
  2: { rewrite lookup_insert_ne, E by done. rewrite bool_decide_eq_false_2 by (intros [? [=]]). done. }
  rewrite lookup_insert_ne, E, bool_decide_eq_true_2 by (done || by eexists). cbn [andb].
  destruct (au_tmp_open (lr_env r)); [|done]. cbn [default from_option id].
  rewrite <- (scan_with_lock ct). unfold scan_file.
  destruct (scan_loop _ _ _ _ _) as [[[] st]|]; cbn [res_bind]; [done| |done].
  destruct (session_identity _ _) as [[[ok s] ev]|]; done.
Qed.

Lemma unlock_clean fs : unlock fs !! lck_file = None /\ unlock fs !! tmp_file = None.
Proof.
  unfold unlock. split; [apply lookup_delete_eq|]. rewrite lookup_delete_ne by done.
  destruct (fs !! tmp_file) eqn:E; [apply lookup_delete_eq | done].
Qed.

Lemma serial_snoc fs log fs1 x fs2 :
  serial fs log fs1 -> serial_step x fs1 fs2 -> serial fs (log ++ [x]) fs2.
Proof.
  revert fs; induction log as [|y log IH]; intros fs H Hx; cbn [serial app] in *.
  - subst fs1. by exists fs2.
  - destruct H as (fs0 & Hy & H). exists fs0. split; [done | by apply IH].
Qed.

(** ** The invariant *)

(** The session file is still the one from before, and the lock is held. *)
Definition untouched (st : store) (fs : files) : Prop :=
  view st !! _session_file = fs !! _session_file /\ is_Some (view st !! lck_file).

(** Where the holder of the lock is, when the files were [fs] before. *)
Definition phase_inv (r : lock_request) (ph : phase) (st : store) (fs : files) : Prop :=
  match ph with
  | Locking _ | Finished _ => False
  | OpenFile ct => ct < _retry_lock_count /\ view st = <[lck_file := []]> fs
  | OpenTmp ct fp =>
      ct < _retry_lock_count /\ view st = <[lck_file := []]> fs /\ fp = open_r _session_file st
  | Scanning ct fp fp_tmp =>
      ct < _retry_lock_count /\ view st = locked_files (lr_env r) fs /\ fp = open_r _session_file st /\
      if au_tmp_open (lr_env r) then exists j, fp_tmp = Some j /\ open_r tmp_file st = Some j else fp_tmp = None
  | Closing ct fp_tmp out o =>
      ct < _retry_lock_count /\ untouched st fs /\
      exists fs', authorize ct r fs = Ok (o.1.1, o.1.2, fs', o.2) /\
        match fp_tmp with
        | Some j => open_r tmp_file st = Some j /\ view st !! tmp_file = Some [] /\
                    fs' = unlock (<[tmp_file := out]> (view st))
        | None => fs' = unlock (view st)
        end
  | Renaming ct o =>
      ct < _retry_lock_count /\ untouched st fs /\
      exists fs', authorize ct r fs = Ok (o.1.1, o.1.2, fs', o.2) /\ fs' = unlock (view st)
  | Unlinking ct o =>
      ct < _retry_lock_count /\ is_Some (view st !! lck_file) /\
      exists fs', authorize ct r fs = Ok (o.1.1, o.1.2, fs', o.2) /\ settled fs' /\
        fs' = delete lck_file (view st)
  | Crashed => untouched st fs
  end.

Lemma phase_inv_locked r ph st fs : phase_inv r ph st fs -> is_Some (view st !! lck_file).
Proof.
  destruct ph as [| | |ct fp fp_tmp| | | | |]; cbn; try done; try (by intros (_ & [_ H] & _)); try naive_solver.
  - intros [_ ->]. rewrite lookup_insert_eq. by eexists.
  - intros (_ & -> & _). rewrite lookup_insert_eq. by eexists.
  - intros (_ & -> & _). unfold locked_files.
    destruct (au_tmp_open (lr_env r)); rewrite ?lookup_insert_ne, lookup_insert_eq by done; by eexists.
  - by intros [_ H].
Qed.

Section Steps.
Context (r : lock_request) (Hkey : session_key (lr_header r) = Ok (Some (lr_key r))).
Context (st : store) (fs : files) (Hok : store_ok st) (Hs : settled fs).

Lemma untouched_locked : view st = locked_files (lr_env r) fs -> untouched st fs.
Proof.
  intros Hv. split; rewrite Hv; [apply locked_session|]. unfold locked_files.
  destruct (au_tmp_open (lr_env r)); rewrite ?lookup_insert_ne, lookup_insert_eq by done; by eexists.
Qed.

Lemma open_tmp_step ct fp :
  phase_inv r (OpenTmp ct fp) st fs ->
  let '(ph', st') := pstep r (OpenTmp ct fp) st in store_ok st' /\ holding ph' = true /\ phase_inv r ph' st' fs.
Proof.
  intros (Hct & Hv & Hfp). cbn [pstep phase_inv]. unfold locked_files.
  destruct (au_tmp_open (lr_env r)) eqn:E.
  - destruct (open_w_view tmp_file st Hok) as (Hv' & Hok' & Hn).
    assert (open_r _session_file (open_w tmp_file st).2 = open_r _session_file st) as Hsess.
    { unfold open_r, open_w. destruct (st_names st !! tmp_file); [done|]. cbn. by rewrite lookup_insert_ne. }
    destruct (open_w tmp_file st) as [j st']. cbn [fst snd holding phase_inv] in *.
    split; [done|]. split; [done|]. unfold locked_files. rewrite E, Hv', Hv, Hsess. split_and!; try done. by exists j.
  - split; [done|]. split; [done|]. cbn [phase_inv]. unfold locked_files. by rewrite E.
Qed.

Lemma scanning_step ct fp fp_tmp :
  phase_inv r (Scanning ct fp fp_tmp) st fs ->
  let '(ph', st') := pstep r (Scanning ct fp fp_tmp) st in store_ok st' /\ holding ph' = true /\ phase_inv r ph' st' fs.
Proof.
  intros (Hct & Hv & -> & Htmp). pose proof (untouched_locked Hv) as Hu.
  pose proof (authorize_steps ct r fs Hct Hkey) as Hauth. cbv zeta in Hauth.
  pose proof (locked_session (lr_env r) fs) as Hls. rewrite <- Hv in Hls, Hauth. rewrite <- Hls in Hauth.
  assert (au_tmp_open (lr_env r) = true -> view st !! tmp_file = Some []) as Hempty.
  { intros E. rewrite Hv. unfold locked_files. rewrite E. apply lookup_insert_eq. }
  unfold open_r in *. destruct (st_names st !! _session_file) as [i|] eqn:Ei.
  - rewrite (read_view st _ i) in Hauth by done.
    destruct (au_tmp_open (lr_env r)); [destruct Htmp as (j & -> & Hj) | subst fp_tmp]; cbn [pstep].
    + rewrite decide_True by lia. destruct (scan_file _ _ _ _) as [[o out]|f]; split; try done; split; try done.
      cbn [phase_inv]. split; [done|]. split; [done|]. eexists. split; [exact Hauth|]. by split_and!; [|apply Hempty|].
    + split; [done|]. split; [done|]. cbn [phase_inv]. split; [done|]. split; [done|]. by eexists.
  - rewrite (proj2 (view_none st _session_file Hok) Ei) in Hauth.
    cbn [pstep]. split; [done|]. split; [done|]. cbn [phase_inv]. split; [done|]. split; [done|].
    eexists. split; [exact Hauth|]. destruct (au_tmp_open (lr_env r)); [destruct Htmp as (j & -> & Hj) | by subst].
    split; [done|]. split; [by apply Hempty|]. by rewrite insert_id by (by apply Hempty).
Qed.

Lemma closing_step ct fp_tmp out o :
  phase_inv r (Closing ct fp_tmp out o) st fs ->
  let '(ph', st') := pstep r (Closing ct fp_tmp out o) st in store_ok st' /\ holding ph' = true /\ phase_inv r ph' st' fs.
Proof.
  intros (Hct & [Hu Hl] & fs' & Hauth & Htmp). cbn [pstep]. destruct fp_tmp as [j|].
  - destruct Htmp as (Hj & He & ->). destruct (write_view tmp_file j out st Hok Hj He) as [Hv Hok'].
    split; [done|]. split; [done|]. cbn [phase_inv]. unfold untouched. rewrite Hv.
    rewrite !lookup_insert_ne by done. split; [done|]. split; [done|]. by eexists.
  - split; [done|]. split; [done|]. split; [done|]. split; [done|]. by eexists.
Qed.

Lemma renaming_step ct o :
  phase_inv r (Renaming ct o) st fs ->
  let '(ph', st') := pstep r (Renaming ct o) st in store_ok st' /\ holding ph' = true /\ phase_inv r ph' st' fs.
Proof.
  intros (Hct & [Hu Hl] & fs' & Hauth & ->). cbn [pstep].
  destruct (rename_view tmp_file _session_file st Hok) as [Hv Hok']; [done|].
  split; [done|]. split; [done|]. cbn [phase_inv]. split; [done|]. split.
  - rewrite Hv. destruct (view st !! tmp_file); [by rewrite lookup_delete_ne, lookup_insert_ne | done].
  - eexists. split; [exact Hauth|]. split; [apply unlock_clean|]. by rewrite Hv.
Qed.

Lemma unlinking_step ct o :
  phase_inv r (Unlinking ct o) st fs ->
  store_ok (unlink lck_file st) /\ serial_step (Authorized r ct o) fs (view (unlink lck_file st)) /\
  settled (view (unlink lck_file st)).
Proof.
  intros (Hct & _ & fs' & Hauth & Hset & ->). destruct (unlink_view lck_file st Hok) as [-> Hok'].
  split; [done|]. split; [|done]. destruct o as [[ok s] ev]. by apply serial_authorized.
Qed.

(** One step of the holder: it goes on holding, or the files are those after
    the whole request. *)
Lemma phase_step ph ph' st' :
  phase_inv r ph st fs -> running ph = true -> pstep r ph st = (ph', st') ->
  store_ok st' /\
  if holding ph' then phase_inv r ph' st' fs /\ step_entry r ph = []
  else exists ct o, step_entry r ph = [Authorized r ct o] /\
         serial_step (Authorized r ct o) fs (view st') /\ settled (view st').
Proof.
  intros Hinv Hr Hp.
  assert ((let '(ph', st') := pstep r ph st in store_ok st' /\ holding ph' = true /\ phase_inv r ph' st' fs) ->
          step_entry r ph = [] ->
          store_ok st' /\ if holding ph' then phase_inv r ph' st' fs /\ step_entry r ph = [] else
            exists ct o, step_entry r ph = [Authorized r ct o] /\
              serial_step (Authorized r ct o) fs (view st') /\ settled (view st')) as Hstay.
  { rewrite Hp. intros (H1 & -> & H2) He. by split. }
  destruct ph as [| |ct fp|ct fp j|ct j out o|ct o|ct o| |]; try done.
  - apply Hstay; [|done]. cbn. by destruct Hinv.
  - apply Hstay; [|done]. by apply open_tmp_step.
  - apply Hstay; [|done]. by apply scanning_step.
  - apply Hstay; [|done]. by apply closing_step.
  - apply Hstay; [|done]. by apply renaming_step.
  - injection Hp as <- <-. destruct (unlinking_step ct o Hinv) as (H1 & H2 & H3).
    split; [done|]. by exists ct, o.
Qed.
End Steps.

(** What is true of all the processes together, when the requests of the log
    took the files from [fs0] to [fs]. *)
Record sys_inv (fs0 : files) (σ : system) (fs : files) : Prop := mkSysInv {
  inv_store : store_ok (sy_store σ);
  inv_keys : forall p r ph, sy_procs σ !! p = Some (r, ph) -> session_key (lr_header r) = Ok (Some (lr_key r));
  inv_serial : serial fs0 (sy_log σ) fs;
  inv_settled : settled fs;
  inv_holder :
    ((forall p, ~ holds σ p) /\ view (sy_store σ) = fs) \/
    (exists p r ph, sy_procs σ !! p = Some (r, ph) /\ holding ph = true /\
       phase_inv r ph (sy_store σ) fs /\ forall q, holds σ q -> q = p);
}.

Lemma holds_insert σ st log p r ph q :
  holds (mkSystem st (<[p := (r, ph)]> (sy_procs σ)) log) q <->
  (q = p /\ holding ph = true) \/ (q <> p /\ holds σ q).
Proof.
  unfold holds. cbn [sy_procs]. destruct (decide (q = p)) as [->|Hq].
  - rewrite lookup_insert_eq. naive_solver.
  - rewrite lookup_insert_ne by done. naive_solver.
Qed.

Lemma vacant_holds σ p : vacant σ p = true -> ~ holds σ p.
Proof. unfold vacant, holds. intros Hi (r & ph & Hp & Hh). rewrite Hp in Hi. by destruct ph. Qed.

Lemma keys_insert (procs : gmap nat (lock_request * phase)) p r ph :
  session_key (lr_header r) = Ok (Some (lr_key r)) ->
  (forall q r' ph', procs !! q = Some (r', ph') -> session_key (lr_header r') = Ok (Some (lr_key r'))) ->
  forall q r' ph', <[p := (r, ph)]> procs !! q = Some (r', ph') -> session_key (lr_header r') = Ok (Some (lr_key r')).
Proof. intros Hr Hall q r' ph' [[_ [= <- <-]]|[_ Hq]]%lookup_insert_Some; [done | by eapply Hall]. Qed.

(** A process whose new phase does not hold the lock, and did not before. *)
Lemma sys_inv_waiting fs0 σ fs p r ph :
  sys_inv fs0 σ fs -> session_key (lr_header r) = Ok (Some (lr_key r)) -> ~ holds σ p -> holding ph = false ->
  sys_inv fs0 (mkSystem (sy_store σ) (<[p := (r, ph)]> (sy_procs σ)) (sy_log σ)) fs.
Proof.
  intros [Hok Hk Hser Hset Hh] Hr Hnp Hph. split; cbn [sy_store sy_procs sy_log]; try done.
  { by apply keys_insert. }
  destruct Hh as [[Hno Hv]|(q & r' & ph' & Hq & Hhq & Hinv & Huniq)]; [left | right].
  - split; [|done]. intros q. rewrite holds_insert, Hph. naive_solver.
  - exists q, r', ph'. assert (q <> p) as Hne by (intros ->; apply Hnp; by exists r', ph').
    rewrite lookup_insert_ne by done. split_and!; try done. intros q'. rewrite holds_insert, Hph. naive_solver.
Qed.

Lemma accept_inv fs0 σ fs p r σ' :
  sys_inv fs0 σ fs -> lstep (Accept p r) σ = Some σ' -> sys_inv fs0 σ' fs.
Proof.
  intros Hinv H. cbn [lstep] in H. destruct (vacant σ p) eqn:Hi; [|done].
  destruct (session_key (lr_header r)) as [[key|]|] eqn:Hk; try done. case_decide; [|done]. subst key.
  injection H as <-. apply sys_inv_waiting; try done. by apply vacant_holds.
Qed.

Lemma refused_inv fs0 σ fs p σ' :
  sys_inv fs0 σ fs -> lstep (Refused p) σ = Some σ' -> sys_inv fs0 σ' fs.
Proof.
  intros Hinv H. cbn [lstep] in H. destruct (sy_procs σ !! p) as [[r [ct| | | | | | | |]]|] eqn:Hp; try done.
  case_decide; [|done]. injection H as <-. apply sys_inv_waiting; try done; [by eapply inv_keys|].
  intros (? & ? & E & Hh). rewrite Hp in E. by injection E as <- <-.
Qed.

Lemma outside_inv fs0 σ fs cs σ' :
  sys_inv fs0 σ fs -> lstep (Outside cs) σ = Some σ' -> Forall timely (sy_log σ') -> exists fs', sys_inv fs0 σ' fs'.
Proof.
  intros [Hok Hk Hser Hset Hh] H Ht. cbn [lstep] in H. injection H as <-. cbn [sy_log] in Ht.
  apply Forall_app in Ht as [_ [[[Hl _] Hafter] _]%Forall_cons].
  destruct Hh as [[Hno <-]|(p & r & ph & _ & _ & Hinv & _)].
  2: { apply phase_inv_locked in Hinv. rewrite Hl in Hinv. by destruct Hinv. }
  eexists. split; cbn [sy_store sy_procs sy_log];
    [by apply change_files_ok | done | by eapply serial_snoc, serial_changed | done | left; by split].
Qed.

(** A step of the holder of the lock. *)
Lemma holder_inv fs0 σ fs p r ph ph' st' :
  sys_inv fs0 σ fs -> sy_procs σ !! p = Some (r, ph) -> holding ph = true -> running ph = true ->
  pstep r ph (sy_store σ) = (ph', st') ->
  exists fs', sys_inv fs0 (mkSystem st' (<[p := (r, ph')]> (sy_procs σ)) (sy_log σ ++ step_entry r ph)) fs'.
Proof.
  intros [Hok Hk Hser Hset Hh] Hp Hhold Hrun Hstep.
  destruct Hh as [[Hno _]|(q & r' & ph1 & Hq & _ & Hinv & Huniq)]; [exfalso; apply (Hno p); by exists r, ph|].
  assert (p = q) as <- by (apply Huniq; by exists r, ph). rewrite Hp in Hq. injection Hq as <- <-.
  destruct (phase_step r (Hk _ _ _ Hp) (sy_store σ) fs Hok ph ph' st' Hinv Hrun Hstep) as [Hok' Hafter].
  destruct (holding ph') eqn:Hh'.
  - destruct Hafter as [Hinv' ->]. exists fs. rewrite app_nil_r. split; cbn [sy_store sy_procs sy_log]; try done.
    { by eapply keys_insert; [eapply Hk|]. }
    right. exists p, r, ph'. rewrite lookup_insert_eq. split_and!; try done.
    intros q. rewrite holds_insert. naive_solver.
  - destruct Hafter as (ct & o & -> & Hs & Hset'). exists (view st').
    split; cbn [sy_store sy_procs sy_log]; try done; [by eapply keys_insert; [eapply Hk|] | by eapply serial_snoc|].
    left. split; [|done]. intros q. rewrite holds_insert, Hh'. naive_solver.
Qed.

(** An attempt at the lock: it is free exactly when nobody holds it. *)
Lemma attempt_inv fs0 σ fs p r ct ph' st' :
  sys_inv fs0 σ fs -> sy_procs σ !! p = Some (r, Locking ct) -> ct < _retry_lock_count ->
  pstep r (Locking ct) (sy_store σ) = (ph', st') ->
  sys_inv fs0 (mkSystem st' (<[p := (r, ph')]> (sy_procs σ)) (sy_log σ)) fs.
Proof.
  intros Hinv Hp Hct Hstep. pose proof Hinv as [Hok Hk Hser Hset Hh]. cbn [pstep] in Hstep.
  rewrite decide_True in Hstep by done. pose proof (open_excl_view lck_file (sy_store σ) Hok) as Ho.
  assert (~ holds σ p) as Hnp by (intros (? & ? & E & E'); rewrite Hp in E; injection E as <- <-; done).
  destruct (open_excl lck_file (sy_store σ)) as [st1|]; injection Hstep as <- <-.
  2: { apply sys_inv_waiting; try done. by eapply Hk. }
  destruct Ho as (Hl & Hv & Hok'). destruct Hh as [[Hno Hfs]|(q & r' & ph & _ & _ & Hi & _)].
  2: { apply phase_inv_locked in Hi. rewrite Hl in Hi. by destruct Hi. }
  split; cbn [sy_store sy_procs sy_log]; try done; [by eapply keys_insert; [eapply Hk|]|].
  right. exists p, r, (OpenFile ct). rewrite lookup_insert_eq. split_and!; try done.
  - split; [done | by rewrite Hv, Hfs].
  - intros q. rewrite holds_insert. naive_solver.
Qed.

Lemma run_inv fs0 σ fs p σ' :
  sys_inv fs0 σ fs -> lstep (Run p) σ = Some σ' -> Forall timely (sy_log σ') -> exists fs', sys_inv fs0 σ' fs'.
Proof.
  intros Hinv H Ht. cbn [lstep] in H. destruct (sy_procs σ !! p) as [[r ph]|] eqn:Hp; [|done].
  destruct (running ph) eqn:Hrun; [|done]. destruct (pstep r ph (sy_store σ)) as [ph' st'] eqn:Hstep.
  injection H as <-. destruct (holding ph) eqn:Hh; [by eapply holder_inv|].
  destruct ph as [ct| | | | | | | |]; try done. exists fs. cbn [step_entry sy_log] in *. case_decide as Hct.
  - rewrite app_nil_r. by eapply attempt_inv.
  - apply Forall_app in Ht as [_ Ht]. by inversion Ht.
Qed.

(** The log only grows. *)
Lemma lstep_log a σ σ' : lstep a σ = Some σ' -> exists more, sy_log σ' = sy_log σ ++ more.
Proof.
  destruct a as [p r|p|p|cs|]; cbn [lstep]; intros H; repeat case_match; try done;
    injection H as <-; cbn [sy_log]; try (by eexists); exists []; by rewrite app_nil_r.
Qed.

Lemma lstep_inv fs0 σ fs a σ' :
  sys_inv fs0 σ fs -> lstep a σ = Some σ' -> Forall timely (sy_log σ') -> exists fs', sys_inv fs0 σ' fs'.
Proof.
  intros Hinv H Ht. destruct a as [p r|p|p|cs|].
  - exists fs. by eapply accept_inv.
  - by eapply run_inv.
  - exists fs. by eapply refused_inv.
  - by eapply outside_inv.
  - injection H as <-. cbn [sy_log] in Ht. apply Forall_app in Ht as [_ Ht]. by inversion Ht.
Qed.

Lemma lsteps_log acts σ σ' : lsteps acts σ = Some σ' -> exists more, sy_log σ' = sy_log σ ++ more.
Proof.
  revert σ; induction acts as [|a acts IH]; intros σ H; cbn [lsteps] in H.
  - injection H as <-. exists []. by rewrite app_nil_r.
  - destruct (lstep a σ) as [σ1|] eqn:E; [|done]. apply lstep_log in E as [m1 E1].
    apply IH in H as [m2 ->]. exists (m1 ++ m2). by rewrite E1, app_assoc.
Qed.

Lemma lsteps_inv fs0 acts σ fs σ' :
  sys_inv fs0 σ fs -> lsteps acts σ = Some σ' -> Forall timely (sy_log σ') -> exists fs', sys_inv fs0 σ' fs'.
Proof.
  revert σ fs; induction acts as [|a acts IH]; intros σ fs Hinv H Ht; cbn [lsteps] in H.
  - injection H as <-. by exists fs.
  - destruct (lstep a σ) as [σ1|] eqn:E; [|done].
    assert (Forall timely (sy_log σ1)) as Ht1.
    { apply lsteps_log in H as [more Hm]. rewrite Hm in Ht. by apply Forall_app in Ht as [Ht _]. }
    destruct (lstep_inv _ _ _ _ _ Hinv E Ht1) as [fs1 Hinv1]. by eapply IH.
Qed.

Lemma start_inv st0 : store_ok st0 -> settled (view st0) -> sys_inv (view st0) (shared st0) (view st0).
Proof.
  intros Hok Hs. split; cbn; try done.
  left. split; [|done]. by intros p (r & ph & Hp & _).
Qed.

Lemma phase_inv_session r ph st fs :
  phase_inv r ph st fs ->
  (exists ct o, ph = Unlinking ct o) \/ view st !! _session_file = fs !! _session_file.
Proof.
  intros H. destruct ph as [| | |ct fp j|ct j out o|ct o|ct o| |]; cbn in H; try done;
    try (by left; exists ct, o); right.
  - destruct H as [_ ->]. by rewrite lookup_insert_ne.
  - destruct H as (_ & -> & _). by rewrite lookup_insert_ne.
  - destruct H as (_ & -> & _). apply locked_session.
  - apply H.
  - apply H.
  - apply H.
Qed.

(** Whoever opens the session file finds it as after a whole number of
    requests. *)
Lemma sys_inv_whole fs0 σ fs :
  sys_inv fs0 σ fs -> exists more fs', length more <= 1 /\ serial fs0 (sy_log σ ++ more) fs' /\
    view (sy_store σ) !! _session_file = fs' !! _session_file.
Proof.
  intros [_ _ Hser _ [[_ Hv]|(p & r & ph & _ & _ & Hinv & _)]].
  - exists [], fs. rewrite app_nil_r, Hv. split; [simpl; lia | done].
  - destruct (phase_inv_session _ _ _ _ Hinv) as [(ct & o & ->)|Hv].
    + destruct Hinv as (Hct & _ & fs' & Hauth & _ & ->). exists [Authorized r ct o], (delete lck_file (view (sy_store σ))).
      split; [simpl; lia|]. split; [|by rewrite lookup_delete_ne].
      eapply serial_snoc; [exact Hser|]. destruct o as [[ok s] ev]. by apply serial_authorized.
    + exists [], fs. rewrite app_nil_r. split; [simpl; lia | done].
Qed.

(** Claim C4: however the steps of any number of requests in any number of
    processes interleave, as long as none of them gives up waiting for the
    lock, no server starts, and other programs (such as the one that logs
    users in, whose steps are not modelled) change the files only in one go,
    while the lock is free, and leave neither a lock nor a temporary file: at
    most one process is between taking the lock and giving it back; every
    request has the outcome, and leaves the files, that [Auth] gives it when
    it has the files for itself, one after the other in the order of the log;
    and at any moment the session file is that of a whole number of requests
    and changes. *)
Theorem session_file_serial (st0 : store) (acts : list action) (σ : system) :
  store_ok st0 -> settled (view st0) ->
  lsteps acts (shared st0) = Some σ -> Forall timely (sy_log σ) ->
  (forall p q, holds σ p -> holds σ q -> p = q) /\
  (exists fs, serial (view st0) (sy_log σ) fs /\ ((forall p, ~ holds σ p) -> view (sy_store σ) = fs)) /\
  exists more fs', length more <= 1 /\ serial (view st0) (sy_log σ ++ more) fs' /\
    view (sy_store σ) !! _session_file = fs' !! _session_file.
Proof.
  intros Hok Hset Hrun Ht. destruct (lsteps_inv _ _ _ _ _ (start_inv st0 Hok Hset) Hrun Ht) as [fs Hinv].
  split; [|split; [|by eapply sys_inv_whole]].
  - destruct Hinv as [_ _ _ _ [[Hno _]|(p & r & ph & _ & _ & _ & Huniq)]]; intros a b Ha Hb; [by destruct (Hno a)|].
    by rewrite (Huniq a Ha), (Huniq b Hb).
  - exists fs. destruct Hinv as [_ _ Hser _ [[_ Hv]|(p & r & ph & Hp & Hh & _)]]; split; try done.
    intros Hno. exfalso. apply (Hno p). by exists r, ph.
Qed.

(** ** A request does not wait for ever *)

(** The steps a request may still take. *)
Definition rank (ph : phase) : nat :=
  match ph with
  | Locking ct => 7 + (_retry_lock_count - ct)
  | OpenFile _ => 6
  | OpenTmp _ _ => 5
  | Scanning _ _ _ => 4
  | Closing _ _ _ _ => 3
  | Renaming _ _ => 2
  | Unlinking _ _ => 1
  | Finished _ | Crashed => 0
  end.

(** The steps of one process in a run. *)
Fixpoint runs (p : nat) (acts : list action) : nat :=
  match acts with
  | [] => 0
  | (Run q | Refused q) :: acts' => (if decide (q = p) then 1 else 0) + runs p acts'
  | _ :: acts' => runs p acts'
  end.

Lemma pstep_rank r ph st : running ph = true -> rank (pstep r ph st).1 < rank ph.
Proof.
  unfold _retry_lock_count. destruct ph as [ct| | |ct [i|] [j|]| | | | |]; cbn [pstep rank]; intros Hr; try done;
    repeat case_match; cbn [fst rank]; try lia; done.
Qed.

Lemma lstep_phase a σ σ' p r ph :
  lstep a σ = Some σ' -> sy_procs σ !! p = Some (r, ph) -> (forall r', a <> Accept p r') ->
  exists ph', sy_procs σ' !! p = Some (r, ph') /\ runs p [a] + rank ph' <= rank ph.
Proof.
  intros H Hp Ha. destruct a as [q r'|q|q|cs|]; cbn [lstep runs] in *.
  - repeat case_match; try done. injection H as <-. cbn [sy_procs].
    assert (q <> p) by (intros ->; by apply (Ha r')). rewrite lookup_insert_ne by done. by exists ph.
  - destruct (sy_procs σ !! q) as [[r' ph1]|] eqn:Hq; [|done]. destruct (running ph1) eqn:Hr; [|done].
    pose proof (pstep_rank r' ph1 (sy_store σ) Hr) as Hrank. destruct (pstep _ _ _) as [ph' st'].
    injection H as <-. cbn [sy_procs fst] in *. case_decide as Hqp.
    + subst q. rewrite Hp in Hq. injection Hq as <- <-. rewrite lookup_insert_eq. exists ph'. split; [done | lia].
    + rewrite lookup_insert_ne by done. by exists ph.
  - destruct (sy_procs σ !! q) as [[r' [ct| | | | | | | |]]|] eqn:Hq; try done. case_decide as Hct; [|done].
    injection H as <-. cbn [sy_procs]. case_decide as Hqp.
    + subst q. rewrite Hp in Hq. injection Hq as <- ->. rewrite lookup_insert_eq. exists (Locking (S ct)).
      split; [done|]. cbn [rank]. lia.
    + rewrite lookup_insert_ne by done. by exists ph.
  - injection H as <-. by exists ph.
  - injection H as <-. by exists ph.
Qed.

(** Claim C37: a request ends.  Whatever the other processes do, even if one
    of them keeps the lock for ever, it takes at most twelve steps of its own
    from the first attempt at the lock to its answer, attempts that fail for
    another reason than the lock included, and in none of them it has to wait
    for anybody. *)
Theorem request_bounded (σ σ' : system) (acts : list action) (p : nat) (r : lock_request) :
  sy_procs σ !! p = Some (r, Locking 0) -> lsteps acts σ = Some σ' -> (forall r', Accept p r' ∉ acts) ->
  exists ph, sy_procs σ' !! p = Some (r, ph) /\ runs p acts + rank ph <= 12 /\
    if running ph then exists σ1, lstep (Run p) σ' = Some σ1 else True.
Proof.
  change 12 with (rank (Locking 0)). generalize (Locking 0) as ph0. revert σ.
  induction acts as [|a acts IH]; intros σ ph0 Hp H Ha; cbn [lsteps] in H.
  - injection H as <-. exists ph0. split; [done|]. split; [simpl; lia|]. destruct (running ph0) eqn:E; [|done].
    cbn [lstep]. rewrite Hp, E. destruct (pstep _ _ _). by eexists.
  - destruct (lstep a σ) as [σ1|] eqn:E; [|done].
    destruct (lstep_phase a σ σ1 p r ph0 E Hp) as (ph1 & Hp1 & Hr1); [intros r' ->; apply (Ha r'); by left|].
    destruct (IH σ1 ph1 Hp1 H) as (ph & Hp' & Hr & Hrun); [intros r' Hin; apply (Ha r'); by right|].
    exists ph. split; [done|]. split; [|done].
    assert (runs p (a :: acts) = runs p [a] + runs p acts) as -> by (destruct a; cbn; lia). lia.
Qed.

(** ** Giving up at the lock *)

Lemma lsteps_app acts1 acts2 σ :
  lsteps (acts1 ++ acts2) σ = match lsteps acts1 σ with Some σ' => lsteps acts2 σ' | None => None end.
Proof.
  revert σ; induction acts1 as [|a acts1 IH]; intros σ; [done|]. cbn [app lsteps].
  by destruct (lstep a σ).
Qed.

(** The system after steps of one process that made it [ph]. *)
Definition after (q : nat) (r : lock_request) (ph : phase) (st : store) (more : list entry) (σ : system) : system :=
  mkSystem st (<[q := (r, ph)]> (sy_procs σ)) (sy_log σ ++ more).

Lemma run_after q r ph st more σ ph' st' acts :
  running ph = true -> pstep r ph st = (ph', st') ->
  lsteps (Run q :: acts) (after q r ph st more σ) =
  lsteps acts (after q r ph' st' (more ++ step_entry r ph) σ).
Proof.
  intros Hr Hp. cbn [lsteps lstep after sy_procs sy_store sy_log]. rewrite lookup_insert_eq, Hr, Hp.
  unfold after. by rewrite insert_insert_eq, app_assoc.
Qed.

(** What a request without the lock does to the files from the end of its
    attempts on. *)
Lemma late_request q r σ :
  store_ok (sy_store σ) -> sy_procs σ !! q = Some (r, Locking _retry_lock_count) ->
  au_tmp_open (lr_env r) = true ->
  exists o st', lsteps (replicate 7 (Run q)) σ =
      Some (after q r (Finished o) st' [TimedOut r; Authorized r _retry_lock_count o] σ) /\
    store_ok st' /\ view st' !! _session_file = Some [] /\ view st' !! lck_file = None.
Proof.
  intros Hok Hq Htmp. set (st := sy_store σ) in *.
  assert (σ = after q r (Locking _retry_lock_count) st [] σ) as Hσ.
  { destruct σ. unfold after. cbn in *. by rewrite insert_id, app_nil_r. }
  destruct (open_w_view tmp_file st Hok) as (Hv1 & Hok1 & Hn).
  destruct (open_w tmp_file st) as [j st1] eqn:Ho. cbn [fst snd] in *.
  destruct (write_view tmp_file j [] st1 Hok1 Hn) as [Hv2 Hok2]; [rewrite Hv1; apply lookup_insert_eq|].
  destruct (rename_view tmp_file _session_file _ Hok2) as [Hv3 Hok3]; [done|].
  rewrite Hv2, lookup_insert_eq in Hv3. destruct (unlink_view lck_file _ Hok3) as [Hv4 Hok4].
  eexists (false, lr_session r, []), _. split; [|split; [exact Hok4|]].
  - rewrite Hσ at 1. cbn [replicate].
    rewrite (run_after _ _ _ _ _ _ (OpenFile _retry_lock_count) st) by done.
    rewrite (run_after _ _ _ _ _ _ (OpenTmp _retry_lock_count (open_r _session_file st)) st) by done.
    rewrite (run_after _ _ _ _ _ _ (Scanning _retry_lock_count (open_r _session_file st) (Some j)) st1)
      by (done || by cbn [pstep]; rewrite Htmp, Ho).
    rewrite (run_after _ _ _ _ _ _ (Closing _retry_lock_count (Some j) [] (false, lr_session r, [])) st1)
      by (done || by destruct (open_r _session_file st)).
    do 3 (erewrite run_after; [|done|reflexivity]). done.
  - rewrite Hv4. split; [|apply lookup_delete_eq].
    rewrite lookup_delete_ne, Hv3, lookup_delete_ne by done. apply lookup_insert_eq.
Qed.

(** Claim C38: a request that gives up at the lock opens it for everybody.
    While one process is still at work on the session file, the end of such a
    request leaves the session file empty and lets the next request in as
    well: two processes hold the lock, and the one that had it has not been
    told anything. *)
Theorem lock_timeout_breaks_exclusion (σ : system) (p q z : nat) (r r' : lock_request) :
  store_ok (sy_store σ) -> holds σ p -> sy_procs σ !! q = Some (r, Locking _retry_lock_count) ->
  au_tmp_open (lr_env r) = true ->
  vacant σ z = true -> session_key (lr_header r') = Ok (Some (lr_key r')) ->
  exists σ', lsteps (replicate 7 (Run q) ++ [Accept z r'; Run z]) σ = Some σ' /\
    view (sy_store σ') !! _session_file = Some [] /\ p <> z /\ holds σ' p /\ holds σ' z /\
    sy_procs σ' !! p = sy_procs σ !! p.
Proof.
  intros Hok Hp Hq Htmp Hz Hk. destruct (late_request q r σ Hok Hq Htmp) as (o & st' & Hrun & Hok' & Hv & Hl).
  assert (p <> z) as Hpz by (intros ->; by apply (vacant_holds σ z)).
  assert (q <> z) as Hqz by (intros ->; unfold vacant in Hz; by rewrite Hq in Hz).
  assert (p <> q) as Hpq.
  { intros ->. destruct Hp as (? & ? & E & E'). rewrite Hq in E. injection E as <- <-. done. }
  pose proof (open_excl_view lck_file st' Hok') as Ho. rewrite Hl in Ho.
  destruct (open_excl lck_file st') as [st1|] eqn:Hex; [|by destruct Ho]. destruct Ho as (_ & Hv1 & _).
  set (σ1 := after _ _ _ _ _ _) in Hrun.
  exists (mkSystem st1 (<[z := (r', OpenFile 0)]> (<[z := (r', Locking 0)]> (sy_procs σ1))) (sy_log σ1 ++ [])).
  split; [|split; [|split; [done|split; [|split]]]].
  - rewrite lsteps_app, Hrun. cbn [lsteps lstep]. unfold vacant. cbn [σ1 after sy_procs].
    rewrite lookup_insert_ne by done. unfold vacant in Hz. rewrite Hz, Hk, decide_True by done.
    cbn [sy_procs sy_store sy_log]. rewrite lookup_insert_eq. cbn [running pstep step_entry].
    change (sy_store σ1) with st'. rewrite decide_True by (unfold _retry_lock_count; lia). by rewrite Hex.
  - cbn [sy_store]. by rewrite Hv1, lookup_insert_ne.
  - destruct Hp as (rp & ph & Hp & Hh). exists rp, ph. cbn [sy_procs σ1 after]. by rewrite !lookup_insert_ne.
  - exists r', (OpenFile 0). cbn [sy_procs]. by rewrite lookup_insert_eq.
  - cbn [sy_procs σ1 after]. by rewrite !lookup_insert_ne.
Qed.

(** ** A run *)

#[export] Instance timely_dec x : Decision (timely x).
Proof. destruct x; cbn; apply _. Defined.

Definition demo_store : store :=
  mkStore {[ _session_file := 0 ]} {[ 0 := file_of [demo_own; demo_peer] ]}.

Lemma demo_store_ok : store_ok demo_store.
Proof.
  split; cbn.
  - intros p i [_ <-]%lookup_singleton_Some. by eexists.
  - by intros p q i [<- _]%lookup_singleton_Some [<- _]%lookup_singleton_Some.
Qed.

Lemma demo_settled : settled (view demo_store).
Proof. split; by apply (view_none _ _ demo_store_ok). Qed.

Definition demo_lock_request (key : str) : lock_request :=
  mkLockRequest demo_auth (new_Session false) (lit "Vyatta-Session " ++ key) key.

(** Two requests of which the second finds the lock taken, and a login in
    one go. *)
Definition demo_schedule : list action :=
  [Accept 0 (demo_lock_request (s_key demo_own)); Accept 1 (demo_lock_request (s_key demo_peer)); Run 0; Run 0; Run 1] ++
  replicate 5 (Run 0) ++ [Outside [WriteFile tmp_file (file_of [demo_peer]); RenameFile tmp_file _session_file]] ++ replicate 7 (Run 1).

Lemma session_file_serial_witness :
  exists σ, lsteps demo_schedule (shared demo_store) = Some σ /\ length (sy_log σ) = 3 /\ Forall timely (sy_log σ) /\
    (forall p q, holds σ p -> holds σ q -> p = q) /\
    (exists fs, serial (view demo_store) (sy_log σ) fs /\ ((forall p, ~ holds σ p) -> view (sy_store σ) = fs)) /\
    exists more fs', length more <= 1 /\ serial (view demo_store) (sy_log σ ++ more) fs' /\
      view (sy_store σ) !! _session_file = fs' !! _session_file.
Proof.
  assert (match lsteps demo_schedule (shared demo_store) with
          | Some σ => bool_decide (length (sy_log σ) = 3) && bool_decide (Forall timely (sy_log σ))
          | None => false
          end = true) as H by (vm_compute; reflexivity).
  destruct (lsteps demo_schedule (shared demo_store)) as [σ|] eqn:E; [|discriminate].
  apply andb_prop in H as [Hl%bool_decide_eq_true_1 Ht%bool_decide_eq_true_1].
  exists σ. split; [reflexivity|]. split; [exact Hl|]. split; [exact Ht|].
  apply (session_file_serial demo_store demo_schedule σ); [apply demo_store_ok | apply demo_settled | exact E | exact Ht].
Defined.

(** The second request at its [n]-th attempt, while the first keeps the lock. *)
Definition demo_waiting (n : nat) : system :=
  let st := default demo_store (open_excl lck_file demo_store) in
  mkSystem st {[ 0 := (demo_lock_request (s_key demo_own), OpenFile 0);
                 1 := (demo_lock_request (s_key demo_peer), Locking n) ]} [].

Lemma request_bounded_witness :
  exists σ', lsteps (replicate 12 (Run 1)) (demo_waiting 0) = Some σ' /\
    exists ph, sy_procs σ' !! 1 = Some (demo_lock_request (s_key demo_peer), ph) /\
      runs 1 (replicate 12 (Run 1)) + rank ph <= 12 /\
      if running ph then exists σ1, lstep (Run 1) σ' = Some σ1 else True.
Proof.
  assert (bool_decide (is_Some (lsteps (replicate 12 (Run 1)) (demo_waiting 0))) = true) as H
    by (vm_compute; reflexivity).
  destruct (lsteps (replicate 12 (Run 1)) (demo_waiting 0)) as [σ'|] eqn:E; [|discriminate].
  exists σ'. split; [reflexivity|].
  apply (request_bounded (demo_waiting 0) σ' (replicate 12 (Run 1)) 1 (demo_lock_request (s_key demo_peer)));
    [reflexivity | exact E | intros r' Hin; apply elem_of_replicate in Hin as [Hin _]; discriminate].
Defined.

Lemma lock_timeout_breaks_exclusion_witness :
  let r' := demo_lock_request (s_key demo_own) in
  let σ := demo_waiting 5 in
  exists σ', lsteps (replicate 7 (Run 1) ++ [Accept 2 r'; Run 2]) σ = Some σ' /\
    view (sy_store σ') !! _session_file = Some [] /\ 0 <> 2 /\ holds σ' 0 /\ holds σ' 2 /\
    sy_procs σ' !! 0 = sy_procs σ !! 0.
Proof.
  intros r' σ.
  apply (lock_timeout_breaks_exclusion σ 0 1 2 (demo_lock_request (s_key demo_peer)) r');
    [apply (open_excl_view lck_file demo_store demo_store_ok) | by eexists _, _ | reflexivity..].
Defined.
