(* ===== verification/Server.v ===== *)
(** * The server (main.cc, process.hh, process.cc)

    One request from its environment variables to the response that is
    written: parsing, authentication, and the dispatch to the five modes.
    What a request does outside the server is one list of events. *)

From S2P Require Import Prelude CppString StrProc Common CppMap Http Mode.
From S2P Require Auth AuthFacts ConfMode ConfModeFacts OpMode Permissions Scripts.

#[local] Existing Instances Scripts.app_mode Scripts.service_mode OpMode.op_mode ConfModeFacts.conf_mode
  Permissions.perm_mode.

Inductive server_event :=
| EvId (ev : Auth.id_event)
| EvConf (ev : ConfMode.conf_event)
| EvOp (msg : str)
| EvApp (cmd : str)
| EvService (cmd : str).

(** The environment of a request. *)
Record server_env := mkServerEnv {
  sv_debug : bool;
  sv_getenv : str -> option str;
  sv_stdin : str;                         (* FCGI_getchar *)
  sv_auth : Auth.auth_env;
  sv_scripts : Scripts.script_env;
  sv_op : OpMode.op_env;
  sv_conf : ConfMode.conf_env;
  sv_perms : Permissions.perm_env;
  sv_reformat : str -> option str;        (* json_loads and json_dumps *)
  sv_fuel : nat;                          (* of the service list *)
  sv_environ : list str;
  sv_fopen : str -> bool;                 (* fopen of the debugging files *)
}.

Abbreviation server_outcome := (Session * files * list server_event)%type.

Section Server.
Variable e : server_env.

(** ** [Process::dispatch] *)

Definition tag_events {A} (c : A -> server_event) (r : Session * files * list A) : server_outcome :=
  (r.1, c <$> r.2).

Definition dispatch (s : Session) (fs : files) : res server_outcome :=
  let s := vyatta_debug (lit "XA") s in
  let path := req_get s HTTP_REQ_URI in
  if decide (path = []) then Ok (s, fs, [])
  else
    let s := vyatta_debug (lit "XB:" ++ path) s in
    if decide (_access_level s = k_VYATTASERVICE_USER) then
      if starts_with path SERVICE_REQ_ROOT then
        let* r := Scripts.service_process (sv_scripts e) (sv_fuel e) s fs in Ok (tag_events EvService r)
      else Ok (Error VALIDATION_FAILURE s, fs, [])
    else if starts_with path APP_REQ_ROOT then
      let* r := Scripts.app_process (sv_scripts e) s fs in Ok (tag_events EvApp r)
    else if starts_with path OP_REQ_ROOT then
      let* r := OpMode.process (sv_op e) s fs in Ok (tag_events EvOp r)
    else if starts_with path CONF_REQ_ROOT then
      let* r := ConfMode.process (sv_conf e) s fs in Ok (tag_events EvConf r)
    else if starts_with path PERM_REQ_ROOT then
      let* s := Permissions.process (sv_perms e) s in Ok (s, fs, [])
    else Ok (Error VALIDATION_FAILURE s, fs, []).

(** ** [parse] *)

Definition req_set_c (k : KEY) (v : option str) (s : Session) : Session :=
  upd_request (fun h => http_set_c h k v) s.

Definition parse_headers (s : Session) : Session :=
  let s := req_set_c HTTP_REQ_URI (sv_getenv e (lit "REQUEST_URI")) s in
  let s := req_set_c HTTP_REQ_QUERY_STRING (sv_getenv e (lit "QUERY_STRING")) s in
  let s := req_set_c HTTP_REQ_METHOD (sv_getenv e (lit "REQUEST_METHOD")) s in
  let s := req_set_c HTTP_REQ_ACCEPT (sv_getenv e (lit "ACCEPT")) s in
  let s := req_set_c HTTP_REQ_CONTENT_LENGTH (sv_getenv e (lit "CONTENT_LENGTH")) s in
  let s := req_set_c HTTP_REQ_AUTHORIZATION (sv_getenv e (lit "HTTP_AUTHORIZATION")) s in
  let s := req_set_c HTTP_REQ_COOKIE (sv_getenv e (lit "HTTP_COOKIE")) s in
  let s := req_set_c HTTP_REQ_VYATTA_SPECIFICATION_VERSION
             (sv_getenv e (lit "VYATTA_SPECIFICATION_VERSION")) s in
  let s := req_set_c HTTP_REQ_ACCEPT (sv_getenv e (lit "ACCEPT")) s in
  let s := req_set_c HTTP_REQ_HOST (sv_getenv e (lit "HOST")) s in
  req_set_c HTTP_REQ_PRAGMA (sv_getenv e (lit "HTTP_PRAGMA")) s.

Definition too_large : str := lit "Request body exceeds maximum allowable size".

Definition parse (s : Session) : bool * Session :=
  let s := parse_headers s in
  let slen := req_get s HTTP_REQ_CONTENT_LENGTH in
  if decide (slen <> []) then
    let len := strtoul slen in
    if decide (MAX_BODY_SIZE < len)%N then (false, Error_msg VALIDATION_FAILURE too_large s)
    else (true, upd_request (fun h => http_set h HTTP_BODY (take (N.to_nat len) (sv_stdin e))) s)
  else (true, s).

(** ** [main] *)

(** The session a request starts with. *)
Definition start_session : Session :=
  let s := new_Session (sv_debug e) in
  let s := resp_set HTTP_RESP_CONTENT_TYPE (lit "application/json") s in
  let s := resp_set HTTP_RESP_VYATTA_SPECIFICATION_VERSION REST_SERVER_VERSION s in
  let s := resp_set HTTP_RESP_CACHE_CONTROL (lit "no-cache") s in
  vyatta_debug (lit "A") s.

(** [session._response.serialize()] *)
Definition serialize (s : Session) : str := (http_serialize (sv_reformat e) (_response s)).1.

(** [dump_env] *)
Definition dump_env (fs : files) : files :=
  if sv_fopen e (lit "/tmp/environ")
  then <[lit "/tmp/environ" := sv_environ e ≫= (fun v => cstr v ++ [nl])]> fs else fs.

(** The response appended for debugging. *)
Definition dump_out (out : str) (fs : files) : files :=
  if sv_fopen e (lit "/tmp/rest_out")
  then <[lit "/tmp/rest_out" := default [] (fs !! lit "/tmp/rest_out") ++ out]> fs else fs.

(** [Interface::initialize] and [Command::validate]: every request is
    supported. *)
Definition command_validate (_ : Session) : bool := true.

(** One turn of the loop up to [done]: the text written, the files and the
    events.  [FCGI_printf] stops at a NUL. *)
Definition handle (fs : files) : res (str * files * list server_event) :=
  let fs := if sv_debug e then dump_env fs else fs in
  let '(ok, s) := parse start_session in
  if ok : bool then
    let s := vyatta_debug (lit "C") (vyatta_debug (lit "B") s) in
    if command_validate s then
      let s := vyatta_debug (lit "D") s in
      let* '(ok, s, fs, ids) := Auth.validate (sv_auth e) s fs in
      if ok : bool then
        let* '(s, fs, evs) := dispatch (vyatta_debug (lit "E") s) fs in
        let out := serialize s in
        Ok (out, if sv_debug e then dump_out out fs else fs, (EvId <$> ids) ++ evs)
      else Ok (cstr (serialize (Error AUTHORIZATION_FAILURE s)), fs, EvId <$> ids)
    else Ok (cstr (serialize s), fs, [])
  else
    let* '(s, fs, evs) := dispatch s fs in Ok (cstr (serialize s), fs, evs).

(** ** The dispatch, from the interfaces of the modes *)

(** What an event says of the authenticated session [s] and the files [fs]
    it was dispatched with. *)
Definition event_for (s : Session) (fs : files) (ev : server_event) : Prop :=
  match ev with
  | EvId _ => False
  | EvApp cmd => Scripts.app_allowed s fs cmd
  | EvService cmd => Scripts.service_allowed s fs cmd
  | EvOp msg => OpMode.op_allowed s fs msg
  | EvConf ev => ConfModeFacts.conf_allowed s fs ev
  end.

(** What the dispatch to a mode keeps of its interface. *)
Definition mode_outcome (s : Session) (fs : files) (r : server_outcome) : Prop :=
  responded s r.1.1 /\ Forall (event_for s fs) r.2.

Section Branch.
Context {E : Type} {process : Session -> files -> res (Session * files * list E)}
  {allowed : Session -> files -> E -> Prop} `{!Mode process allowed}.
Context (c : E -> server_event).
Context (Hc : forall s fs ev, allowed s fs ev -> event_for s fs (c ev)).

Lemma branch_refuses s t fs :
  responded s t -> _auth_type s = AUTH_TYPE_NONE ->
  exists s', (let* r := process t fs in Ok (tag_events c r)) = Ok (s', fs, []) /\ refused s s'.
Proof.
  intros Hst Ha. destruct (mode_refuses t fs) as (s' & -> & Hr & Hcode).
  { destruct Hst as [(_ & _ & _ & _ & _ & -> & _) _]. done. }
  exists s'. split; [done|]. split; [by etrans | done].
Qed.

Lemma branch_outcome s t fs r :
  responded s t -> (let* r := process t fs in Ok (tag_events c r)) = Ok r -> mode_outcome s fs r.
Proof.
  intros Hst ([[s' fs'] evs] & Hp & H)%res_bind_ok. injection H as <-. split.
  - etrans; [exact Hst|]. by eapply mode_responds.
  - apply Forall_fmap. eapply Forall_impl; [by eapply mode_allowed|]. intros ev Hev. apply Hc.
    eapply mode_allowed_frame; [apply Hst | done].
Qed.
End Branch.

Lemma dispatch_refused (s : Session) (fs : files) :
  _auth_type s = AUTH_TYPE_NONE ->
  exists s', dispatch s fs = Ok (s', fs, []) /\ responded s s' /\
    (req_get s HTTP_REQ_URI <> [] -> resp_get s' HTTP_RESP_CODE ∈ [lit "400"; lit "401"]).
Proof.
  intros Ha. unfold dispatch. autorewrite with rest.
  case_decide as Hp; [eexists; split; [done|]; split; [auto with responds | done]|].
  set (s1 := vyatta_debug (lit "XB:" ++ _) _).
  assert (responded s s1) as Hs1 by (unfold s1; auto with responds).
  assert (forall r : res server_outcome, (exists s', r = Ok (s', fs, []) /\ refused s s') ->
    exists s', r = Ok (s', fs, []) /\ responded s s' /\
      (req_get s HTTP_REQ_URI <> [] -> resp_get s' HTTP_RESP_CODE ∈ [lit "400"; lit "401"])) as Hdone
    by (intros r (s' & -> & Hr & Hcode); by eexists).
  apply Hdone. clear Hdone.
  assert (exists s', Ok (Error VALIDATION_FAILURE s1, fs, [] : list server_event) = Ok (s', fs, []) /\
            refused s s') as Hno.
  { eexists. split; [done|]. apply refused_error; [done | by_compute]. }
  repeat (case_decide || case_match); try exact Hno; try (by apply branch_refuses).
  destruct (mode_refuses (Mode := Permissions.perm_mode (sv_perms e)) s1 fs) as (s' & Hs' & Hr & Hcode).
  { destruct Hs1 as [(_ & _ & _ & _ & _ & -> & _) _]. done. }
  apply res_bind_ok in Hs' as (s2 & Hs2 & [= ->]). rewrite Hs2. exists s'. split; [done|]. split; [by etrans | done].
Qed.

Lemma dispatch_outcome s fs r : dispatch s fs = Ok r -> mode_outcome s fs r.
Proof.
  unfold dispatch. autorewrite with rest. intros H.
  set (s1 := vyatta_debug (lit "XB:" ++ _) _) in H.
  assert (responded s s1) as Hs1 by (unfold s1; auto with responds).
  assert (forall t, responded s t -> mode_outcome s fs (t, fs, [])) as Hno by (intros; split; [done | constructor]).
  repeat (case_decide || case_match);
    try (injection H as <-; apply Hno; by auto with responds);
    try (refine (branch_outcome _ _ _ _ _ _ Hs1 H); cbn; tauto).
  apply res_bind_ok in H as (s2 & Hp & H). injection H as <-. apply Hno. etrans; [exact Hs1|].
  eapply (mode_responds (Mode := Permissions.perm_mode (sv_perms e)) s1 fs).
  unfold Permissions.perm_process. rewrite Hp. done.
Qed.

(** ** What a request may do *)


Lemma parse_headers_auth s : _auth_type (parse_headers s) = _auth_type s.
Proof. done. Qed.

Lemma parse_auth s ok s' : parse s = (ok, s') -> _auth_type s' = _auth_type s.
Proof.
  unfold parse. intros H. case_decide; [|by injection H as <- <-].
  case_decide; injection H as <- <-; [|done].
  by destruct (same_but_response_error VALIDATION_FAILURE too_large (parse_headers s)) as (_ & _ & _ & _ & _ & -> & _).
Qed.

Lemma start_session_auth : _auth_type start_session = AUTH_TYPE_NONE.
Proof. unfold start_session. by rewrite Scripts.auth_debug. Qed.

(** The files a request starts with, and the session it has when it comes to
    authentication. *)
Definition first_files (fs : files) : files := if sv_debug e then dump_env fs else fs.
Definition parsed_session : Session :=
  vyatta_debug (lit "D") (vyatta_debug (lit "C") (vyatta_debug (lit "B") (parse start_session).2)).

Lemma handle_parsed fs :
  (parse start_session).1 = true ->
  handle fs =
  let* '(ok, s, fs, ids) := Auth.validate (sv_auth e) parsed_session (first_files fs) in
  if ok : bool then
    let* '(s, fs, evs) := dispatch (vyatta_debug (lit "E") s) fs in
    let out := serialize s in
    Ok (out, if sv_debug e then dump_out out fs else fs, (EvId <$> ids) ++ evs)
  else Ok (cstr (serialize (Error AUTHORIZATION_FAILURE s)), fs, EvId <$> ids).
Proof.
  unfold handle, command_validate, parsed_session, first_files. destruct (parse start_session) as [ok s0].
  cbn [fst snd]. by intros ->.
Qed.


Lemma parse_failed s s' : parse s = (false, s') -> resp_get s' HTTP_RESP_CODE = lit "400".
Proof. unfold parse. intros H. repeat case_decide; simplify_eq. apply Error_code. Qed.

Lemma handle_unparsed fs :
  (parse start_session).1 = false ->
  exists s, handle fs = Ok (cstr (serialize s), first_files fs, []) /\
    resp_get s HTTP_RESP_CODE ∈ [lit "400"; lit "401"] /\ responded (parse start_session).2 s.
Proof.
  unfold handle. destruct (parse start_session) as [ok s0] eqn:E. cbn [fst snd]. intros ->.
  pose proof (parse_failed _ _ E) as Hcode. apply parse_auth in E. rewrite start_session_auth in E.
  destruct (dispatch_refused s0 (first_files fs) E) as (s1 & Hd & Hr & Hc). exists s1.
  unfold first_files in Hd |- *. rewrite Hd. split; [done|]. split; [|done].
  destruct (decide (req_get s0 HTTP_REQ_URI = [])) as [Hu|Hu]; [|by apply Hc].
  unfold dispatch in Hd. autorewrite with rest in Hd. rewrite decide_True in Hd by done. injection Hd as <-.
  autorewrite with rest. rewrite Hcode. by_compute.
Qed.

(** Claim C16: a request that is not authenticated gets nothing done.  One
    whose body is announced too large is not even asked who it is; the
    dispatch that follows all the same returns, changes no file and reaches no
    daemon and no shell, and the answer is a 400 or a 401.  One that
    authentication turns down is answered by a 401, and all it has done is
    what authentication did: no file but the session file, its lock and its
    temporary copy changed, and no event but changes of identity.  (That
    authentication itself returns is the condition of the second part: C40
    has a cookie with which it does not.) *)
Theorem request_unauthenticated (fs : files) :
  ((parse start_session).1 = false ->
     exists s, handle fs = Ok (cstr (serialize s), first_files fs, []) /\
       resp_get s HTTP_RESP_CODE ∈ [lit "400"; lit "401"]) /\
  ((parse start_session).1 = true ->
   forall s fs1 ids, Auth.validate (sv_auth e) parsed_session (first_files fs) = Ok (false, s, fs1, ids) ->
     let s' := Error AUTHORIZATION_FAILURE s in
     handle fs = Ok (cstr (serialize s'), fs1, EvId <$> ids) /\ resp_get s' HTTP_RESP_CODE = lit "401" /\
     forall f, f ∉ AuthFacts.session_paths -> fs1 !! f = first_files fs !! f).
Proof.
  split.
  - intros (s & Hh & Hc & _)%(handle_unparsed fs). by exists s.
  - intros Hp s fs1 ids Hv s'. rewrite handle_parsed, Hv by done. split; [done|]. split; [apply Error_code|].
    intros f Hf. by eapply AuthFacts.validate_files.
Qed.

(** Claim C34: a service user is confined to the services: for any path
    outside [/rest/service] the answer is a 400 and nothing else happens;
    below it the request is answered as [ServiceMode] answers it, and all that
    runs is the service script of the path, with the user in its
    environment. *)
Theorem service_user_confined (s : Session) (fs : files) (r : server_outcome) :
  _access_level s = k_VYATTASERVICE_USER -> req_get s HTTP_REQ_URI <> [] -> dispatch s fs = Ok r ->
  (starts_with (req_get s HTTP_REQ_URI) SERVICE_REQ_ROOT = false ->
     r.1.2 = fs /\ r.2 = [] /\ resp_get r.1.1 HTTP_RESP_CODE = lit "400") /\
  (starts_with (req_get s HTTP_REQ_URI) SERVICE_REQ_ROOT = true ->
     exists s1 cmds, same_but_response s s1 /\
       Scripts.service_process (sv_scripts e) (sv_fuel e) s1 fs = Ok (r.1, cmds) /\ r.2 = EvService <$> cmds) /\
  (forall ev, ev ∈ r.2 -> exists cmd, ev = EvService cmd /\ Scripts.service_allowed s fs cmd).
Proof.
  intros Ha Hp H. pose proof (dispatch_outcome s fs r H) as [_ Hev].
  assert (forall cmds : list str, r.2 = EvService <$> cmds ->
            forall ev, ev ∈ r.2 -> exists cmd, ev = EvService cmd /\ Scripts.service_allowed s fs cmd) as Hall.
  { intros cmds E ev Hin. rewrite Forall_forall in Hev. specialize (Hev ev Hin). rewrite E in Hin.
    apply list_elem_of_fmap in Hin as (cmd & -> & _). by exists cmd. }
  unfold dispatch in H. autorewrite with rest in H. rewrite decide_False, decide_True in H by done.
  destruct (starts_with _ SERVICE_REQ_ROOT) eqn:Es.
  - apply res_bind_ok in H as ([[s' fs'] cmds] & Hs & H). injection H as <-.
    split; [done|]. split; [|by apply (Hall cmds)]. intros _. eexists _, cmds. split; [|by split].
    etrans; apply same_but_response_debug.
  - injection H as <-. split; [|split; [done|by intros ev ?%elem_of_nil]]. intros _. cbn [fst snd].
    split_and!; try done. apply Error_code.
Qed.

(** ** Bodies *)

Lemma req_set_body k v s : req_get (upd_request (fun h => http_set h k v) s) k = v.
Proof. apply http_get_set_eq. Qed.

(** Claim C35: a body of at most the maximal size is read as long as it was
    announced and no further; a longer one (and a negative length, which
    wraps to one) is refused without reading any of it. *)
Theorem parse_body (s : Session) :
  let slen := req_get (parse_headers s) HTTP_REQ_CONTENT_LENGTH in
  slen <> [] ->
  ((strtoul slen <= MAX_BODY_SIZE)%N ->
     exists s', parse s = (true, s') /\
       req_get s' HTTP_BODY = take (N.to_nat (strtoul slen)) (sv_stdin e) /\
       (N.of_nat (length (req_get s' HTTP_BODY)) <= MAX_BODY_SIZE)%N) /\
  ((MAX_BODY_SIZE < strtoul slen)%N ->
     exists s', parse s = (false, s') /\ same_but_response (parse_headers s) s' /\
       resp_get s' HTTP_RESP_CODE = lit "400").
Proof.
  intros slen Hne. unfold parse. rewrite decide_True by done. fold slen. split; intros Hlen.
  - rewrite decide_False by lia. eexists. split; [done|]. rewrite req_set_body. split; [done|].
    rewrite length_take. lia.
  - rewrite decide_True by done. eexists. split; [done|]. split; [apply same_but_response_error|].
    apply Error_code.
Qed.
End Server.

(** ** Examples *)

Definition demo_getenv (method uri auth clen : str) (name : str) : option str :=
  if decide (name = lit "REQUEST_METHOD") then Some method
  else if decide (name = lit "REQUEST_URI") then Some uri
  else if decide (name = lit "HTTP_AUTHORIZATION") then Some auth
  else if decide (name = lit "CONTENT_LENGTH") then Some clen
  else None.

Definition demo_server (method uri auth clen stdin : str) : server_env :=
  mkServerEnv false (demo_getenv method uri auth clen) stdin Auth.demo_auth (Scripts.demo_env [] 0)
    (OpMode.demo_op_env OpMode.demo_answer) ConfMode.demo_env
    (Permissions.mkPermEnv None None (fun _ => true) (fun _ => Some (lit "{}"))) (fun _ => None) 5 [] (fun _ => true).

Definition demo_delete_conf : server_env :=
  demo_server (lit "DELETE") (lit "/rest/conf/" ++ ConfMode.demo_id) (lit "Basic dnlhdHRhOnNlY3JldA==") [] [].

(** No credentials. *)
Definition demo_stranger : server_env := demo_server (lit "DELETE") (lit "/rest/conf/" ++ ConfMode.demo_id) [] [] [].

Lemma request_unauthenticated_witness :
  let e := demo_stranger in
  (parse e (start_session e)).1 = true /\
  exists s fs1 ids, Auth.validate (sv_auth e) (parsed_session e) (first_files e ∅) = Ok (false, s, fs1, ids) /\
  let s' := Error AUTHORIZATION_FAILURE s in
  handle e ∅ = Ok (cstr (serialize e s'), fs1, EvId <$> ids) /\ resp_get s' HTTP_RESP_CODE = lit "401" /\
  forall f, f ∉ AuthFacts.session_paths -> fs1 !! f = first_files e ∅ !! f.
Proof.
  intros e. assert ((parse e (start_session e)).1 = true) as Hp by (vm_compute; reflexivity). split; [exact Hp|].
  assert (match Auth.validate (sv_auth e) (parsed_session e) (first_files e ∅) with Ok (false, _, _, _) => true | _ => false end = true)
    as Hv by (vm_compute; reflexivity).
  destruct (Auth.validate (sv_auth e) (parsed_session e) (first_files e ∅)) as [[[[[] s] fs1] ids]|] eqn:E; try discriminate.
  exists s, fs1, ids. split; [reflexivity|]. exact (proj2 (request_unauthenticated demo_stranger ∅) Hp s fs1 ids E).
Defined.


Definition demo_service_session : Session :=
  request_session (lit "GET") (lit "/rest/service/vpn") AUTH_TYPE_BASIC k_VYATTASERVICE_USER (lit "svc").

Lemma service_user_confined_witness :
  let e := demo_delete_conf in
  let s := demo_service_session in
  exists r, dispatch e s ∅ = Ok r /\ r.2 <> [] /\
  (starts_with (req_get s HTTP_REQ_URI) SERVICE_REQ_ROOT = false ->
     r.1.2 = ∅ /\ r.2 = [] /\ resp_get r.1.1 HTTP_RESP_CODE = lit "400") /\
  (starts_with (req_get s HTTP_REQ_URI) SERVICE_REQ_ROOT = true ->
     exists s1 cmds, same_but_response s s1 /\
       Scripts.service_process (sv_scripts e) (sv_fuel e) s1 ∅ = Ok (r.1, cmds) /\ r.2 = EvService <$> cmds) /\
  (forall ev, ev ∈ r.2 -> exists cmd, ev = EvService cmd /\ Scripts.service_allowed s ∅ cmd).
Proof.
  intros e s. assert (match dispatch e s ∅ with Ok (_, _ :: _) => true | _ => false end = true) as H
    by (vm_compute; reflexivity).
  destruct (dispatch e s ∅) as [r|] eqn:E; [|discriminate]. exists r. split; [reflexivity|].
  split; [intros Hn; destruct r as [r evs]; cbn in Hn; subst evs; discriminate|].
  apply (service_user_confined demo_delete_conf demo_service_session ∅ r); [reflexivity | discriminate | exact E].
Defined.

Lemma parse_body_witness :
  let e := demo_server (lit "PUT") (lit "/rest/conf") [] (lit "3") (lit "abcdef") in
  let slen := req_get (parse_headers e (start_session e)) HTTP_REQ_CONTENT_LENGTH in
  ((strtoul slen <= MAX_BODY_SIZE)%N ->
     exists s', parse e (start_session e) = (true, s') /\
       req_get s' HTTP_BODY = take (N.to_nat (strtoul slen)) (sv_stdin e) /\
       (N.of_nat (length (req_get s' HTTP_BODY)) <= MAX_BODY_SIZE)%N) /\
  ((MAX_BODY_SIZE < strtoul slen)%N ->
     exists s', parse e (start_session e) = (false, s') /\ same_but_response (parse_headers e (start_session e)) s' /\
       resp_get s' HTTP_RESP_CODE = lit "400").
Proof. intros e. apply (parse_body e (start_session e)). by_compute. Defined.
