(* ===== verification/ServerLoop.v ===== *)
(** * The server's loop (main.cc)

    Requests one after the other in one process: the identity the process
    takes for a request and gives up again, and the text of every response. *)

From S2P Require Import Prelude CppString StrProc Common CppMap Http Mode Auth Server.

(** ** Authentication and the response *)

(** What authentication leaves alone: the request, the order of the
    response's parameters and, unless it is debugged, the response. *)
Definition keeps (s s' : Session) : Prop :=
  _request s' = _request s /\ (response_wf s -> response_wf s') /\
  (_debug s = false -> _debug s' = false /\ _response s' = _response s).

#[export] Instance keeps_preorder : PreOrder keeps.
Proof.
  split; [by intros s|]. intros s t u (H1 & H2 & H3) (H4 & H5 & H6). split_and!; [congruence | auto|].
  intros Hd. destruct (H3 Hd) as [Hd' <-]. auto.
Qed.

Create HintDb keeps discriminated.

Lemma keeps_debug d s t : keeps s t -> keeps s (vyatta_debug d t).
Proof.
  intros H. etrans; [exact H|]. split_and!; [|apply response_wf_debug | by intros Hd; rewrite vyatta_debug_off].
  by destruct (same_but_response_debug d t) as (_ & ? & _).
Qed.

Lemma keeps_user u s t : keeps s t -> keeps s (set_user u t).
Proof. done. Qed.

Lemma keeps_access a s t : keeps s t -> keeps s (set_access a t).
Proof. done. Qed.

Lemma keeps_service b s t : keeps s t -> keeps s (set_service_user b t).
Proof. done. Qed.

Lemma keeps_auth a s t : keeps s t -> keeps s (set_auth_type a t).
Proof. done. Qed.

Lemma keeps_key k s t : keeps s t -> keeps s (set_session_key k t).
Proof. done. Qed.

Lemma keeps_refl s : keeps s s.
Proof. done. Qed.

#[export] Hint Resolve keeps_refl keeps_debug keeps_user keeps_access keeps_service keeps_auth keeps_key : keeps.

Section Keeps.
Context (e : auth_env) (s : Session).

Lemma keeps_groups t gid l : keeps s t -> keeps s (foldl (groups_step e) (t, gid) l).1.
Proof.
  revert t gid; induction l as [|g l IH]; intros t gid H; [done|]. cbn [foldl]. unfold groups_step at 2.
  destruct (is_cfg_group e g); apply IH; cbn [fst]; auto 10 with keeps.
Qed.

Lemma keeps_pam service user password t : keeps s t -> keeps s (pam_accepts e service user password t).2.
Proof. intros H. unfold pam_accepts. repeat case_match; cbn [snd]; auto 10 with keeps. Qed.

Lemma keeps_basic_groups username t : keeps s t -> keeps s (basic_groups e username t).1.2.
Proof.
  intros H. unfold basic_groups. destruct (au_passwd e username) as [[uid gid]|]; cbn [fst snd]; [|auto 10 with keeps].
  destruct (getgrouplist e username gid 10) as [l|]; cbn [fst snd]; [|auto 10 with keeps].
  pose proof (keeps_groups t gid l H) as Hg. destruct (foldl (groups_step e) (t, gid) l) as [t1 primary].
  destruct (au_setgroups e); cbn [fst snd] in *; auto 10 with keeps.
Qed.

Lemma keeps_basic_identity uid gid t : keeps s t -> keeps s (basic_identity e uid gid t).1.2.
Proof. intros H. unfold basic_identity. repeat case_match; cbn [fst snd]; auto 10 with keeps. Qed.

Lemma keeps_basic val t : keeps s t -> keeps s (basic_authorized e val t).1.2.
Proof.
  intros H. unfold basic_authorized. case_decide; [done|]. case_decide; [cbn [fst snd]; auto 10 with keeps|].
  destruct (decoded e _) as [str_out len]. destruct (find str_out [colon] 0) as [pos|]; [|done].
  set (t1 := if service_request t then _ else _).
  assert (keeps s t1) as Ht1 by (unfold t1; case_match; auto 10 with keeps). clearbody t1.
  set (g := if _service_user t1 then _ else _).
  assert (keeps s g.1.2) as Hg by (unfold g; case_match; [done | by apply keeps_basic_groups]).
  destruct g as [[[[uid gid]|] t2] ev]; [|done]. cbn [fst snd] in Hg.
  pose proof (keeps_pam (pam_service t) (sub str_out 0 pos) (cstr (password_of str_out pos len)) t2 Hg) as Hp.
  destruct (pam_accepts _ _ _ _ _) as [ok t3]. cbn [snd] in Hp. destruct ok; [|done].
  set (i := if _service_user t3 then _ else _).
  assert (keeps s i.1.2) as Hi by (unfold i; case_match; [done | by apply keeps_basic_identity]).
  destruct i as [[ok t4] ev4]. cbn [fst snd] in *. destruct ok; cbn [fst snd]; auto 10 with keeps.
Qed.

Lemma keeps_session_groups st username :
  keeps s (sc_session st) -> keeps s (sc_session (session_groups e st username).2).
Proof.
  intros H. unfold session_groups. destruct (_service_user (sc_session st)); [done|].
  destruct (au_passwd e username) as [[uid gid]|]; cbn [snd sc_session]; [|auto 10 with keeps].
  destruct (getgrouplist _ _ _ _); cbn [snd sc_session]; [by apply keeps_groups | auto 10 with keeps].
Qed.

Lemma keeps_own_session f t st le st' :
  keeps s (sc_session st) -> own_session e f t st = Ok (le, st') -> keeps s (sc_session st').
Proof.
  intros H Ho. unfold own_session in Ho.
  set (s2 := if decide (sp_get f 4 = _) then _ else _) in Ho.
  assert (keeps s s2) as H2 by (unfold s2; case_decide; auto 10 with keeps).
  pose proof (keeps_session_groups (set_session s2 st) (cstr (sp_get f 1)) H2) as Hg.
  destruct (session_groups _ _ _) as [ok st1]. cbn [snd] in Hg.
  destruct ok; [|by injection Ho as <- <-].
  apply res_bind_ok in Ho as (line & _ & Ho). unfold put_line in Ho.
  destruct (au_fputs e (sc_puts st1)); injection Ho as <- <-; cbn [sc_session]; auto 10 with keeps.
Qed.

Lemma keeps_scan_line auth buf st le st' :
  keeps s (sc_session st) -> scan_line e auth buf st = Ok (le, st') -> keeps s (sc_session st').
Proof.
  intros H Hl. unfold scan_line in Hl. apply res_bind_ok in Hl as (f & _ & Hl).
  destruct (unexpired _ _); [|injection Hl as <- <-; cbn [sc_session set_session]; auto 10 with keeps].
  case_decide; [eapply keeps_own_session; [|exact Hl]; cbn [sc_session set_session]; auto 10 with keeps|].
  unfold put_line in Hl. injection Hl as <- <-. cbn [sc_session set_session]. auto 10 with keeps.
Qed.

Lemma keeps_scan_loop fuel auth fp st r st' :
  keeps s (sc_session st) -> scan_loop e fuel auth fp st = Ok (r, st') -> keeps s (sc_session st').
Proof.
  revert fp st; induction fuel as [|fuel IH]; intros fp st H Hl; [done|]. cbn [scan_loop] in Hl.
  destruct (fgets 1024 fp) as [[buf fp']|]; [|by injection Hl as <- <-].
  apply res_bind_ok in Hl as ([le st1] & H1 & Hl). apply keeps_scan_line in H1; [|done].
  destruct le; [by eapply IH | by injection Hl as <- <-..].
Qed.

Lemma keeps_session_identity st ok t ev :
  keeps s (sc_session st) -> session_identity e st = Ok (ok, t, ev) -> keeps s t.
Proof.
  intros H Hi. unfold session_identity in Hi.
  destruct (sc_found st && negb _); [destruct (sc_pw st) as [[uid gid]|]; [|done]|];
    injection Hi as Hi; repeat case_match; simplify_eq; auto 10 with keeps.
Qed.

Lemma keeps_session val t fs ok t' fs' ev :
  keeps s t -> session_authorized e val t fs = Ok (ok, t', fs', ev) -> keeps s t'.
Proof.
  intros H Ha. unfold session_authorized in Ha. apply res_bind_ok in Ha as (key & _ & Ha).
  destruct key as [key|]; [|injection Ha as _ <- _ _; case_match; auto 10 with keeps].
  destruct (lock e fs) as [fs1 status]. destruct status; [|by injection Ha as _ <- _ _].
  apply res_bind_ok in Ha as ([ret st] & Hs & Ha).
  apply keeps_scan_loop in Hs; [|cbn [sc_session]; auto 10 with keeps].
  destruct ret; [by injection Ha as _ <- _ _|].
  apply res_bind_ok in Ha as ([[ok1 t1] ev1] & Hi & Ha). injection Ha as _ <- _ _.
  by eapply keeps_session_identity.
Qed.

Lemma keeps_validate t fs ok t' fs' ev :
  keeps s t -> validate e t fs = Ok (ok, t', fs', ev) -> keeps s t'.
Proof.
  intros H Hv. unfold validate in Hv. case_decide; [injection Hv as _ <- _ _; auto 10 with keeps|].
  set (auth := if decide _ then _ else _) in Hv.
  assert (keeps s (vyatta_debug (lit "AAAA:" ++ auth) t)) as Ht1 by auto 10 with keeps.
  case_match.
  - pose proof (keeps_basic auth _ Ht1) as Hb. destruct (basic_authorized _ _ _) as [[ok1 t1] ev1].
    by injection Hv as _ <- _ _.
  - case_match; [by eapply keeps_session | by injection Hv as _ <- _ _].
Qed.
End Keeps.

(** ** Every response *)

Lemma start_session_wf e : response_wf (start_session e).
Proof. unfold start_session. auto 10 with rest. Qed.

Lemma parse_wf e s ok s' : parse e s = (ok, s') -> response_wf s -> response_wf s'.
Proof.
  unfold parse. intros H Hs. assert (response_wf (parse_headers e s)) as Hp by done.
  case_decide; [|by injection H as <- <-]. case_decide; injection H as <- <-; [by apply response_wf_error | done].
Qed.

(** The text of a response: with a body [b], what is sent of it, and where;
    without one. *)
Definition framed (e : server_env) (s : Session) : Prop :=
  let h := _response s in
  match mget HTTP_BODY (_param_coll h) with
  | Some b =>
      exists l, _param_coll h = l ++ [(HTTP_BODY, b)] /\
        let over := bool_decide (MAX_BODY_SIZE < N.of_nat (length b))%N in
        let body := if over then [] else out_body (sv_reformat e) h b in
        serialize e s =
          (if over then lit "Status: 500" ++ crlf else status_line h) ++ header_lines l ++
          lit "Content-Length: " ++ dec (N.of_nat (length body)) ++ crlf ++ crlf ++ body
  | None => serialize e s = status_line h ++ header_lines (_param_coll h) ++ crlf
  end.

Lemma response_wf_framed e s : response_wf s -> framed e s.
Proof.
  intros Hs. unfold framed. destruct (mget HTTP_BODY _) as [b|] eqn:E; [by apply http_serialize_framing|].
  by apply http_serialize_plain.
Qed.

(** Whether a request is parsed and authenticated. *)
Definition admitted (e : server_env) (fs : files) : bool :=
  (parse e (start_session e)).1 &&
  match Auth.validate (sv_auth e) (parsed_session e) (first_files e fs) with
  | Ok (true, _, _, _) => true
  | _ => false
  end.

(** Claim C28: whatever a request is, when its handling returns the server has
    answered it with the text of one well-formed response: the status line
    (when the response has a status), the headers in the order of their keys,
    and, when it has a body, the length of the body in bytes, a blank line and
    exactly that body, which is empty under status 500 when it is too large;
    without a body there is no length and the text ends with the blank line.
    For a request that is parsed and authenticated that text is written in
    full; for the others it is written as a C string, up to its first NUL. *)
Theorem response_framed (e : server_env) (fs fs' : files) (out : str) (evs : list server_event) :
  handle e fs = Ok (out, fs', evs) ->
  exists s, response_wf s /\ framed e s /\
    out = (if admitted e fs then serialize e s else cstr (serialize e s)) /\
    (admitted e fs = false -> is_Some (mget HTTP_RESP_CODE (_param_coll (_response s)))).
Proof.
  intros H. cut (exists s, response_wf s /\ out = (if admitted e fs then serialize e s else cstr (serialize e s)) /\
    (admitted e fs = false -> is_Some (mget HTTP_RESP_CODE (_param_coll (_response s))))).
  { intros (s & Hs & Hout & Hcode). exists s. split; [done|]. split; [by apply response_wf_framed | done]. }
  assert (forall s, resp_get s HTTP_RESP_CODE <> [] -> is_Some (mget HTTP_RESP_CODE (_param_coll (_response s)))) as Hcode.
  { intros s. unfold resp_get, http_get. destruct (mget _ _); [by eexists | done]. }
  unfold admitted. destruct (parse e (start_session e)).1 eqn:Hp; cbn [andb].
  - rewrite handle_parsed in H by done. unfold parsed_session in H |- *.
    destruct (parse e (start_session e)) as [ok s0] eqn:Ep. cbn [fst snd] in *. subst ok.
    pose proof (parse_wf _ _ _ _ Ep (start_session_wf e)) as H0. set (s1 := vyatta_debug (lit "D") _) in *.
    assert (response_wf s1) as H1 by (unfold s1; auto 10 with rest).
    apply res_bind_ok in H as ([[[ok s2] fs2] ids] & Hv & H). rewrite Hv.
    destruct (keeps_validate _ s1 _ _ _ _ _ _ (keeps_refl s1) Hv) as (_ & H2 & _). specialize (H2 H1).
    destruct ok.
    + apply res_bind_ok in H as ([[s3 fs3] evs3] & Hd & H). injection H as <- _ _.
      apply dispatch_outcome in Hd as [[_ Hd] _]. exists s3. split; [apply Hd; auto with rest | done].
    + injection H as <- _ _. eexists. split; [by apply (response_wf_error AUTHORIZATION_FAILURE [])|].
      split; [done|]. intros _. apply Hcode. unfold Error. by rewrite Error_code.
  - destruct (handle_unparsed e fs Hp) as (s & Hh & Hc & [_ Hr]).
    rewrite Hh in H. injection H as <- _ _. exists s. split; [|split; [done|]].
    + apply Hr. eapply parse_wf; [|apply start_session_wf]. apply surjective_pairing.
    + intros _. apply Hcode. intros E. rewrite E, !elem_of_cons in Hc. by destruct Hc as [Hc|[Hc|[]%elem_of_nil]].
Qed.

Lemma response_framed_witness :
  let fs := ConfMode.demo_files (lit "vyatta/work") in
  let e := demo_delete_conf in
  exists out fs' evs s, handle e fs = Ok (out, fs', evs) /\ admitted e fs = true /\
    response_wf s /\ framed e s /\ out = (if admitted e fs then serialize e s else cstr (serialize e s)) /\
    (admitted e fs = false -> is_Some (mget HTTP_RESP_CODE (_param_coll (_response s)))).
Proof.
  intros fs e. assert (admitted e fs = true) as Ha by (vm_compute; reflexivity).
  destruct (handle e fs) as [[[out fs'] evs]|f] eqn:E; [|vm_compute in E; discriminate].
  exists out, fs', evs. destruct (response_framed e fs fs' out evs E) as (s & H).
  exists s. split; [reflexivity|]. split; [exact Ha | exact H].
Defined.

(** ** The identity of the process *)

(** Real, effective and saved ids, the supplementary groups and the login
    uid of the audit system. *)
Record creds := mkCreds {
  ruid : N; euid : N; suid : N;
  rgid : N; egid : N; sgid : N;
  groups : list N;
  loginuid : N;
}.

(** A change of identity that succeeded. *)
Definition apply_id (c : creds) (ev : id_event) : creds :=
  match ev with
  | SetGroups g => mkCreds (ruid c) (euid c) (suid c) (rgid c) (egid c) (sgid c) g (loginuid c)
  | SetLoginUid u => mkCreds (ruid c) (euid c) (suid c) (rgid c) (egid c) (sgid c) (groups c) u
  | SetEgid g => mkCreds (ruid c) (euid c) (suid c) (rgid c) g (sgid c) (groups c) (loginuid c)
  | SetEuid u => mkCreds (ruid c) u (suid c) (rgid c) (egid c) (sgid c) (groups c) (loginuid c)
  end.

(** POSIX [setuid] and [setgid]: a privileged process sets all three ids,
    another one may make its real or saved id the effective one; otherwise
    the call fails and nothing changes. *)
Definition setuid (u : N) (c : creds) : creds :=
  if decide (euid c = 0%N) then mkCreds u u u (rgid c) (egid c) (sgid c) (groups c) (loginuid c)
  else if decide (u = ruid c \/ u = suid c)
  then mkCreds (ruid c) u (suid c) (rgid c) (egid c) (sgid c) (groups c) (loginuid c)
  else c.

Definition setgid (g : N) (c : creds) : creds :=
  if decide (euid c = 0%N) then mkCreds (ruid c) (euid c) (suid c) g g g (groups c) (loginuid c)
  else if decide (g = rgid c \/ g = sgid c)
  then mkCreds (ruid c) (euid c) (suid c) (rgid c) g (sgid c) (groups c) (loginuid c)
  else c.

(** From [done] on: the ids the server was started with, and its login uid,
    when the audit system lets it. *)
Definition reset (g_uid g_gid : N) (audit : bool) (c : creds) : creds :=
  let c := setgid g_gid (setuid g_uid c) in
  if audit then apply_id c (SetLoginUid g_uid) else c.

(** The changes of identity among the events of a request. *)
Definition id_events (evs : list server_event) : list id_event :=
  evs ≫= (fun ev => match ev with EvId i => [i] | _ => [] end).

(** A request as it comes: what happened to the files since the one before,
    its environment, and whether the login uid can be reset after it. *)
Record request_turn := mkRequest {
  rq_outside : files -> files;
  rq_env : server_env;
  rq_audit : bool;
}.

(** The loop: the responses, the identity and the files. *)
Fixpoint serve (g_uid g_gid : N) (reqs : list request_turn) (c : creds) (fs : files)
    : res (list str * creds * files) :=
  match reqs with
  | [] => Ok ([], c, fs)
  | r :: reqs' =>
      let* '(out, fs, evs) := handle (rq_env r) (rq_outside r fs) in
      let c := reset g_uid g_gid (rq_audit r) (foldl apply_id c (id_events evs)) in
      let* '(outs, c, fs) := serve g_uid g_gid reqs' c fs in
      Ok (out :: outs, c, fs)
  end.

(** [RUNDIR] of main.cc. *)
Definition RUNDIR : str := lit "/run/vyatta-webgui2".

Section Start.
Variable mkdir : gset str -> str -> mkdir_result.

(** [mkrundir] *)
Definition mkrundir (fs : files) (dirs : gset str) : Z * gset str :=
  if decide (RUNDIR ∈ dirs) then (0%Z, dirs)
  else if decide (is_Some (fs !! RUNDIR)) then ((-1)%Z, dirs)
  else match mkdir dirs RUNDIR with
       | Made => (0%Z, {[RUNDIR]} ∪ dirs)
       | _ => ((-1)%Z, dirs)
       end.

(** Whether the file that turns debugging on is there. *)
Definition debug_flag (fs : files) (dirs : gset str) : bool :=
  let path := RUNDIR ++ lit "/debug_webgui2" in
  bool_decide (is_Some (fs !! path) \/ path ∈ dirs).

(** [main]: whether or not there is a run directory, the sessions of an
    earlier server end and the loop starts with the real ids.  The requests
    come with environments for either value of the debug flag. *)
Definition rest_main (reqs : bool -> list request_turn) (c : creds) (fs : files) (dirs : gset str)
    : res (list str * creds * files) :=
  let '(_, dirs) := mkrundir fs dirs in
  let debug := debug_flag fs dirs in
  serve (ruid c) (rgid c) (reqs debug) c (new_AuthSession fs).

(** It succeeds exactly when the directory is there afterwards, and makes no
    other. *)
Lemma mkrundir_spec fs dirs :
  let '(r, dirs') := mkrundir fs dirs in
  (r = 0%Z <-> RUNDIR ∈ dirs') /\ dirs ⊆ dirs' /\ dirs' ⊆ {[RUNDIR]} ∪ dirs.
Proof.
  unfold mkrundir. case_decide; [|case_decide; [|destruct (mkdir dirs RUNDIR)]]; set_solver.
Qed.
End Start.

(** The ids of a process that has not taken anybody's identity. *)
Definition own_ids (c : creds) : Prop :=
  euid c = ruid c /\ suid c = ruid c /\ egid c = rgid c /\ sgid c = rgid c.

Definition same_ids (c c' : creds) : Prop :=
  ruid c' = ruid c /\ rgid c' = rgid c /\ (own_ids c -> own_ids c').

Lemma apply_ids_real evs c :
  let c' := foldl apply_id c evs in
  ruid c' = ruid c /\ suid c' = suid c /\ rgid c' = rgid c /\ sgid c' = sgid c.
Proof.
  revert c; induction evs as [|ev evs IH]; intros c; [done|]. cbn [foldl].
  destruct (IH (apply_id c ev)) as (-> & -> & -> & ->). by destruct ev.
Qed.

Lemma reset_ids audit evs c :
  own_ids c -> let c' := reset (ruid c) (rgid c) audit (foldl apply_id c evs) in
  ruid c' = ruid c /\ rgid c' = rgid c /\ own_ids c'.
Proof.
  intros (H1 & H2 & H3 & H4). destruct (apply_ids_real evs c) as (E1 & E2 & E3 & E4).
  destruct (foldl apply_id c evs) as [r e' s rg eg sg gs l]. cbn in E1, E2, E3, E4. subst r s rg sg.
  unfold reset, setuid, setgid, own_ids. cbn [euid ruid suid].
  destruct audit; repeat (case_decide; cbn in * ); split_and!; congruence || naive_solver.
Qed.

Lemma serve_ids g_uid g_gid reqs c fs outs c' fs' :
  g_uid = ruid c -> g_gid = rgid c -> own_ids c ->
  serve g_uid g_gid reqs c fs = Ok (outs, c', fs') ->
  ruid c' = ruid c /\ rgid c' = rgid c /\ own_ids c' /\ length outs = length reqs.
Proof.
  intros -> ->. revert c fs outs. induction reqs as [|r reqs IH]; intros c fs outs Hown H; cbn [serve] in H.
  { by injection H as <- <- <-. }
  apply res_bind_ok in H as ([[out fs1] evs] & _ & H).
  apply res_bind_ok in H as ([[outs1 c1] fs2] & Hs & H). injection H as <- <- <-.
  destruct (reset_ids (rq_audit r) (id_events evs) c Hown) as (E1 & E2 & Hown').
  set (c0 := reset _ _ _ _) in *. clearbody c0. rewrite <- E1, <- E2 in Hs. apply IH in Hs as (-> & -> & Ho & Hl); [|done].
  cbn [length]. by rewrite Hl.
Qed.

(** Claim C7: between requests the server is nobody but itself.  However
    many requests of whichever users it has served, failed authentications
    included, its real, effective and saved ids are those it was started
    with, so that no request is handled with the rights of the one before;
    and every request got one response. *)
Theorem server_restores_identity (mkdir : gset str -> str -> mkdir_result) (reqs : bool -> list request_turn)
    (c c' : creds) (fs fs' : files) (dirs : gset str) (outs : list str) :
  own_ids c -> rest_main mkdir reqs c fs dirs = Ok (outs, c', fs') ->
  ruid c' = ruid c /\ rgid c' = rgid c /\ own_ids c' /\
  length outs = length (reqs (debug_flag fs (mkrundir mkdir fs dirs).2)).
Proof. intros Hc H. unfold rest_main in H. destruct (mkrundir mkdir fs dirs) as [r dirs']. by eapply serve_ids in H. Qed.

Definition demo_request (e : server_env) : request_turn := mkRequest (fun fs => fs) e true.

Lemma server_restores_identity_witness :
  let c := mkCreds 0 0 0 0 0 0 [] 4294967295 in
  let mkdir := fun _ _ => Made in
  let fs := ConfMode.demo_files (lit "vyatta/work") in
  let reqs := fun debug : bool =>
    [demo_request demo_delete_conf; demo_request (demo_server (lit "GET") (lit "/rest/conf") [] [] [])] in
  exists outs c' fs', rest_main mkdir reqs c fs ∅ = Ok (outs, c', fs') /\
    ruid c' = ruid c /\ rgid c' = rgid c /\ own_ids c' /\
    length outs = length (reqs (debug_flag fs (mkrundir mkdir fs ∅).2)).
Proof.
  intros c mkdir fs reqs.
  destruct (rest_main mkdir reqs c fs ∅) as [[[outs c'] fs']|f] eqn:E;
    [|vm_compute in E; discriminate].
  exists outs, c', fs'. split; [reflexivity|].
  apply (server_restores_identity mkdir reqs c c' fs fs' ∅ outs);
    [repeat split | exact E].
Defined.

(** The supplementary groups are not given back: what authentication set
    for one request is in force when the next one is read. *)
Lemma groups_not_reset g_uid g_gid audit c : groups (reset g_uid g_gid audit c) = groups c.
Proof. unfold reset, setuid, setgid. destruct audit; repeat case_decide; done. Qed.
