(* ===== verification/ServerDelivery.v ===== *)
(** * The output of a command, from request to response text

    [Server] on top of [OpDelivery]: the requests are what the web server
    hands to the process, with their authentication, and the client reads the
    status and the body out of the text it gets back. *)

From S2P Require Import Prelude CppString StrProc Common CppMap Http Mode ChunkerProcessor ChunkerManager MultiResp Daemon Delivery DeliveryFacts Configuration OpMode OpDelivery Server ServerLoop.
From S2P Require Auth AuthFacts.

(** ** What a client reads *)

(** The number behind [Status: ]. *)
Definition status_of (out : str) : str := take 3 (drop (length (lit "Status: ")) out).

(** What follows the first blank line. *)
Fixpoint after_headers (out : str) : str :=
  match out with
  | [] => []
  | a :: out' =>
      match out' with
      | b :: c :: d :: body =>
          if decide ([a; b; c; d] = crlf ++ crlf) then body else after_headers out'
      | _ => after_headers out'
      end
  end.

Lemma after_headers_skip x out : cr ∉ x -> after_headers (x ++ out) = after_headers out.
Proof.
  induction x as [|c x IH]; [done|]. intros [Hc Hx]%not_elem_of_cons. rewrite <- IH by done. cbn [app after_headers].
  destruct (x ++ out) as [|b [|c' [|d body]]]; try done. rewrite decide_False; [done|]. intros [= E _]. by rewrite E in Hc.
Qed.

Lemma after_headers_line y out : cr ∉ y -> y <> [] -> after_headers (crlf ++ y ++ out) = after_headers out.
Proof.
  intros Hy Hne. destruct y as [|c y]; [done|]. etrans; [|by apply (after_headers_skip (c :: y))].
  apply not_elem_of_cons in Hy as [Hc _]. cbn [app crlf after_headers].
  destruct (y ++ out) as [|d l]; [done|]. rewrite decide_False by (by intros [= E _]).
  destruct l; [done|]. by rewrite decide_False by (by intros [= E]).
Qed.

(** ** The texts of responses *)

(** The response a request starts with. *)
Definition base : HTTP := _response (resp_set HTTP_RESP_CACHE_CONTROL (lit "no-cache")
  (resp_set HTTP_RESP_VYATTA_SPECIFICATION_VERSION REST_SERVER_VERSION
    (resp_set HTTP_RESP_CONTENT_TYPE (lit "application/json") (new_Session false)))).

Lemma start_base e : sv_debug e = false -> Http._debug (start_session e) = false /\ _response (start_session e) = base.
Proof. intros Hd. unfold start_session. rewrite Hd. done. Qed.

(** A response with output. *)
Definition output_session (out : str) (s : Session) : Session :=
  Error E_OK (upd_response set_verbatim (resp_set HTTP_BODY out (resp_set HTTP_RESP_CONTENT_TYPE (lit "text/plain") s))).

Lemma serialize_step_app reformat h l o b : exists o' b', foldl (serialize_step reformat h) (o, b) l = (o ++ o', b').
Proof.
  revert o b. induction l as [|[k v] l IH]; intros o b; [exists [], b; by rewrite app_nil_r|]. cbn [foldl serialize_step].
  destruct (header_name (k, v).1); [|case_decide];
    (edestruct IH as (o' & b' & ->); eexists _, _; rewrite <- ?app_assoc; done) ||
    (edestruct IH as (o' & b' & E); exists o', b'; exact E).
Qed.

(** A text begins with its status line, unless the body is too large. *)
Lemma serialize_prefix reformat h :
  (forall b, mget HTTP_BODY (_param_coll h) = Some b -> (N.of_nat (length b) <= MAX_BODY_SIZE)%N) ->
  exists rest, (http_serialize reformat h).1 = status_line h ++ rest.
Proof.
  intros Hb. unfold http_serialize. fold (status_line h).
  assert ((match mget HTTP_BODY (_param_coll h) with
           | Some body => if decide (MAX_BODY_SIZE < N.of_nat (length body))%N
                          then (lit "Status: 500" ++ crlf, http_set h HTTP_BODY []) else (status_line h, h)
           | None => (status_line h, h)
           end) = (status_line h, h)) as ->.
  { destruct (mget HTTP_BODY (_param_coll h)) as [b|]; [|done]. rewrite decide_False; [done|]. specialize (Hb b eq_refl). lia. }
  destruct (serialize_step_app reformat h (_param_coll h) (status_line h) []) as (o & b & ->). cbn [fst].
  rewrite serialize_tail, <- app_assoc. by eexists.
Qed.

Lemma error_status e s type :
  _response s = base -> status_of (serialize e (Error type s)) = (http_response_error type).1.1.
Proof.
  intros Hs. destruct s as [d req resp u acc su auth key]. assert (resp = base) as -> by exact Hs. clear Hs. unfold serialize.
  edestruct serialize_prefix as [rest ->].
  - intros b Hb. destruct type; vm_compute in Hb; try discriminate; injection Hb as <-; by vm_compute.
  - destruct type; reflexivity.
Qed.

Lemma output_text e s out :
  _response s = base -> out <> [] -> length out <= CHUNKER_READ_SIZE ->
  serialize e (output_session out s) =
  (lit "Status: 200" ++ crlf) ++
  ((lit "Content-Type: text/plain" ++ crlf) ++
   (lit "Vyatta-Specification-Version: " ++ REST_SERVER_VERSION ++ crlf) ++ (lit "Cache-Control: no-cache" ++ crlf)) ++
  lit "Content-Length: " ++ dec (N.of_nat (length out)) ++ crlf ++ crlf ++ out.
Proof.
  intros Hs Hne Hl. destruct s as [d req resp u acc su auth key]. assert (resp = base) as -> by exact Hs. clear Hs.
  destruct (http_serialize_framing (sv_reformat e) (_response (output_session out (mkSession d req base u acc su auth key))) out)
    as (l & Hp & H).
  - apply response_wf_error, (response_wf_set HTTP_BODY out), response_wf_set. unfold response_wf, base. cbn [_response].
    apply response_wf_set, response_wf_set, response_wf_set, response_wf_new.
  - reflexivity.
  - unfold serialize. rewrite H. rewrite bool_decide_eq_false_2. 
    2: { assert (N.of_nat CHUNKER_READ_SIZE <= MAX_BODY_SIZE)%N by (vm_compute; discriminate). lia. }
    change (out_body _ _ out) with (if decide (out <> [] /\ true = false) then match sv_reformat e (cstr out) with Some obuf => cstr obuf | None => out end else out).
    rewrite decide_False by naive_solver.
    change (_param_coll _) with (removelast (_param_coll (_response (output_session out (mkSession d req base u acc su auth key)))) ++ [(HTTP_BODY, out)]) in Hp.
    apply app_inj_tail in Hp as [<- _]. reflexivity.
Qed.

Lemma output_read e s out :
  _response s = base -> out <> [] -> length out <= CHUNKER_READ_SIZE ->
  status_of (serialize e (output_session out s)) = lit "200" /\ after_headers (serialize e (output_session out s)) = out.
Proof.
  intros Hs Hne Hl. rewrite output_text by done. split; [reflexivity|].
  rewrite <- !app_assoc.
  repeat first
    [ rewrite (after_headers_line (lit _)) by by_compute
    | rewrite (after_headers_skip (lit _)) by by_compute
    | rewrite (after_headers_skip REST_SERVER_VERSION) by by_compute ].
  rewrite after_headers_skip; [done|]. by apply dec_notin.
Qed.

(** The response to a POST that started a command. *)
Lemma started_text e s tok :
  _response s = base -> Http._debug s = false ->
  serialize e (started_response tok s) =
  (lit "Status: 201" ++ crlf ++ lit "Content-Type: application/json" ++ crlf) ++
  (lit "Location: rest/op/" ++ tok ++ crlf) ++
  lit "Vyatta-Specification-Version: " ++ REST_SERVER_VERSION ++ crlf ++ lit "Cache-Control: no-cache" ++ crlf ++ crlf.
Proof.
  intros Hs Hd. unfold started_response. rewrite vyatta_debug_off by done.
  destruct s as [d req resp u acc su auth key]. assert (resp = base) as -> by exact Hs. clear Hs Hd.
  unfold serialize, http_serialize. set (h := _response _).
  assert (_param_coll h =
    [(HTTP_RESP_CODE, lit "201"); (HTTP_RESP_CONTENT_TYPE, lit "application/json");
     (HTTP_RESP_LOCATION, lit "rest/op/" ++ tok); (HTTP_RESP_VYATTA_SPECIFICATION_VERSION, REST_SERVER_VERSION);
     (HTTP_RESP_CACHE_CONTROL, lit "no-cache")]) as Hp by reflexivity.
  clearbody h. assert (mget HTTP_BODY (_param_coll h) = None) as -> by (by rewrite Hp).
  assert (mget HTTP_RESP_CODE (_param_coll h) = Some (lit "201")) as -> by (by rewrite Hp).
  rewrite Hp, serialize_fold by by_compute. cbn [fst].
  rewrite decide_False by naive_solver. unfold header_lines. cbn [mbind list_bind fst snd header_name].
  rewrite app_nil_r, <- !app_assoc. reflexivity.
Qed.

Lemma fread_length n rest : 10 <= n -> length (fread_loop 6 n rest []) <= n.
Proof.
  intros Hn. rewrite (fread_loop_spec 4) by lia. pose proof (prefix_length _ _ (cstr_prefix (take n rest))) as Hp.
  rewrite length_take in Hp. lia.
Qed.

(** A piece of output is not larger than what is read at once. *)
Lemma get_chunk_length w answer opened einval fs fs1 user token out fs' :
  get_chunk w answer opened einval fs fs1 user token = Ok (out, fs') -> length out <= CHUNKER_READ_SIZE.
Proof.
  intros H. assert (10 <= CHUNKER_READ_SIZE) as Hr by (apply Nat.leb_le; vm_compute; reflexivity).
  unfold get_chunk in H. revert Hr H. generalize CHUNKER_READ_SIZE. intros n Hr H. opens H; try (apply Nat.le_trans with 10; [apply Nat.leb_le; reflexivity | exact Hr]).
  exact (fread_length n _ Hr).
Qed.

Lemma debug_error type s : Http._debug s = false -> Http._debug (Error type s) = false.
Proof. intros <-. by destruct (same_but_response_error type [] s). Qed.

(** The session after a request for output, when it is not debugged. *)
Lemma segment_session (oe : op_env) s fs token r :
  slash ∉ token -> length token = 16 -> Http._debug s = false ->
  op_request s (lit "GET") (op_path token) -> validate_op_cmd oe (op_path token) = None ->
  OpMode.process oe s fs = Ok r ->
  (exists type, type <> E_OK /\ r.1.1 = Error type s) \/
  (exists out, out <> [] /\ length out <= CHUNKER_READ_SIZE /\ r.1.1 = output_session out s).
Proof.
  intros Hs Hl Hd Hr Hv H. rewrite (process_dispatch _ _ _ _ _ Hr), (decide_False (P := lit "GET" = _)),
    (decide_True (P := lit "GET" = _)), Hv, get_segment_id in H by done. cbv zeta in H.
  rewrite !(vyatta_debug_off _ s), !(vyatta_debug_off _ (Error SERVER_ERROR s)) in H by auto using debug_error.
  unfold segment_response in H. opens H; cbn [fst]; try (left; eexists; split; [|reflexivity]; done).
  right. match goal with C : get_chunk _ _ _ _ _ _ _ _ = Ok (?out, _) |- _ => exists out; apply get_chunk_length in C end.
  done.
Qed.

(** ** An accepted request *)

(** A request the server parses and authenticates, without debugging: the
    session and the files it is dispatched with. *)
Record accepted (e : server_env) (fs : files) (s : Session) (fs1 : files) (ids : list Auth.id_event) : Prop := {
  ac_debug : sv_debug e = false;
  ac_parse : (parse e (start_session e)).1 = true;
  ac_auth : Auth.validate (sv_auth e) (parse e (start_session e)).2 fs = Ok (true, s, fs1, ids);
  ac_level : _access_level s <> k_VYATTASERVICE_USER;
}.

Lemma parse_keeps_response e s s' :
  parse e s = (true, s') -> Http._debug s' = Http._debug s /\ _response s' = _response s.
Proof. unfold parse. intros H. repeat case_decide; simplify_eq; done. Qed.

Section Accepted.
Context (e : server_env) (fs : files) (s : Session) (fs1 : files) (ids : list Auth.id_event).
Context (Hac : accepted e fs s fs1 ids).

Lemma accepted_session : Http._debug s = false /\ _response s = base.
Proof.
  destruct Hac as [Hd Hp Hv _]. destruct (parse e (start_session e)) as [ok s0] eqn:E. cbn [fst snd] in *. subst ok.
  destruct (start_base e Hd) as [H1 H2], (parse_keeps_response _ _ _ E) as [H3 H4].
  destruct (keeps_validate _ s0 _ _ _ _ _ _ (keeps_refl s0) Hv) as (_ & _ & Hk). rewrite <- H2, <- H4. apply Hk. congruence.
Qed.

(** It is handled by the mode of its path, here [OpMode]. *)
Lemma accepted_op method rest :
  op_request s method (op_path rest) ->
  handle e fs = (let* r := OpMode.process (sv_op e) s fs1 in
                 Ok (serialize e r.1.1, r.1.2, (EvId <$> ids) ++ (EvOp <$> r.2))).
Proof.
  intros (Ha & _ & Huri). pose proof accepted_session as [Hds _]. destruct Hac as [Hd Hparse Hv Hlevel].
  unfold handle, command_validate. rewrite Hd. destruct (parse e (start_session e)) as [ok s0] eqn:E.
  cbn [fst snd] in *. subst ok.
  destruct (start_base e Hd) as [H1 _], (parse_keeps_response _ _ _ E) as [H3 _]. rewrite H1 in H3.
  rewrite !(vyatta_debug_off _ s0), Hv by done. cbn [res_bind].
  unfold dispatch. rewrite !(vyatta_debug_off _ s) by done. rewrite Huri.
  rewrite decide_False by done. rewrite decide_False by done.
  change (starts_with (op_path rest) APP_REQ_ROOT) with false. cbn iota.
  change (starts_with (op_path rest) OP_REQ_ROOT) with true. cbn iota.
  by destruct (OpMode.process (sv_op e) s fs1) as [[[]]|].
Qed.
End Accepted.

(** ** GETs *)

Section ServerDelivery.
Context (stack : str) (ex : str -> nat -> bool) (t sock : N) (user token : str).

(** What the client has after the text of a response: it takes the body of a
    200, and a 410 for the end. *)
Definition receive_text (out : str) (fs' : files) (d : delivery) : delivery :=
  mkDelivery (d_mgr d) fs' (d_written d) None
    (if decide (status_of out = lit "200") then d_out d ++ after_headers out else d_out d)
    (bool_decide (status_of out = lit "410")).

Definition with_files (fs : files) (d : delivery) : delivery :=
  mkDelivery (d_mgr d) fs (d_written d) (d_ask d) (d_out d) (d_end d).

Section Requests.
Context (between : delivery -> delivery -> Prop).

(** A GET at the server: the daemon's answers at [d1] and at [d2] with [d2'],
    authentication and the first look at the data file at [d3], and its read,
    or the look for the end mark, at [d4].  (Other processes at the session
    file are the subject of [SessionLock].) *)
Inductive server_get : delivery -> delivery -> Prop :=
| server_output d d1 d2 d2' d3 d4 e s fs1 ids out fs' evs :
    d_end d = false -> rtc (env_step stack ex sock token) d d1 -> rtc (env_step stack ex sock token) d1 d2 ->
    rtc (file_step token) d2 d2' -> between d2 d2' ->
    rtc (env_step stack ex sock token) (ask_step stack ex t sock user token d2 d2') d3 ->
    accepted e (d_fs d3) s fs1 ids ->
    rtc (env_step stack ex sock token) (with_files fs1 d3) d4 -> between (with_files fs1 d3) d4 ->
    output_request user token (sv_op e) s ->
    oe_answer (sv_op e) = answers stack ex t sock user token d1 d2 d2' -> oe_later (sv_op e) fs1 = d_fs d4 ->
    handle e (d_fs d3) = Ok (out, fs', evs) ->
    server_get d (receive_text out fs' d4).

Inductive server_step (d d' : delivery) : Prop :=
| server_env_step : env_step stack ex sock token d d' -> server_step d d'
| server_get_step : server_get d d' -> server_step d d'.

(** A run that holds [n] requests. *)
Inductive server_gets : nat -> delivery -> delivery -> Prop :=
| server_gets_done d : server_gets 0 d d
| server_gets_env n d d1 d' : env_step stack ex sock token d d1 -> server_gets n d1 d' -> server_gets n d d'
| server_gets_get n d d1 d' : server_get d d1 -> server_gets n d1 d' -> server_gets (S n) d d'.
End Requests.

Context (Huser : clean user) (Htoken : clean token) (Hune : user <> []) (Hslash : slash ∉ token).
Context (Hlen : length token = 16) (Hul : length user < 900) (Hsock : sock <> 0%N).

(** Authentication is one of the changes to files. *)
Lemma accepted_env e d s fs1 ids :
  accepted e (d_fs d) s fs1 ids -> d_end d = false ->
  env_step stack ex sock token d (with_files fs1 d).
Proof.
  intros [_ _ Hv _] He. destruct d as [m fs w a o en]. cbn in *. subst en.
  apply step_file, step_outside; (eapply AuthFacts.validate_files; [exact Hv|]); by intros Hin; unfold AuthFacts.session_paths in Hin;
    rewrite !elem_of_cons in Hin; destruct Hin as [E|[E|[E|[]%elem_of_nil]]]; apply (f_equal (fun l => l !! 1)) in E.
Qed.

(** What is read out of the text is what [OpMode] answered. *)
Lemma receive_text_spec e d s fs s' fs' msgs :
  _response s = base -> Http._debug s = false -> op_request s (lit "GET") (op_path token) ->
  validate_op_cmd (sv_op e) (op_path token) = None ->
  OpMode.process (sv_op e) s fs = Ok (s', fs', msgs) ->
  status_of (serialize e s') = resp_get s' HTTP_RESP_CODE /\ receive_text (serialize e s') fs' d = receive s' fs' d.
Proof.
  intros Hb Hd Hr Hv Hp. unfold receive_text, receive.
  destruct (segment_session (sv_op e) s fs token _ Hslash Hlen Hd Hr Hv Hp) as [(type & Ht & E) | (out & Hne & Hout & E)];
    cbn [fst snd] in E; subst s'.
  - pose proof (Error_code type [] s) as Hc. fold (Error type s) in Hc.
    rewrite (error_status e s type Hb), Hc. split; [done|]. by destruct type.
  - destruct (output_read e s out Hb Hne Hout) as [Hs Ha]. rewrite Hs, Ha.
    assert (resp_get (output_session out s) HTTP_RESP_CODE = lit "200") as -> by apply Error_code.
    assert (resp_get (output_session out s) HTTP_BODY = out) as ->; [|done].
    unfold output_session, Error, Error_msg. cbn [http_response_error]. rewrite resp_get_set_ne by done.
    apply (resp_get_set_eq HTTP_BODY out).
Qed.

(** A GET at the server is a GET at [OpMode]. *)
Lemma server_end d d1 d2 d2' d3 :
  d_end d = false -> rtc (env_step stack ex sock token) d d1 -> rtc (env_step stack ex sock token) d1 d2 ->
  rtc (file_step token) d2 d2' ->
  rtc (env_step stack ex sock token) (ask_step stack ex t sock user token d2 d2') d3 -> d_end d3 = false.
Proof.
  intros He H1 H2 H2' H3. destruct (env_steps_evolve stack ex sock token _ _ H3) as (_ & _ & -> & _).
  destruct (ask_keeps stack ex t sock user token d2 d2') as (_ & -> & _). rewrite <- He.
  apply (env_steps_evolve stack ex sock token). do 2 (etrans; [done|]). revert H2'. apply rtc_subrel. intros ??. apply step_file.
Qed.

Lemma server_get_get between d d' : server_get between d d' -> get_step stack ex t sock user token between d d'.
Proof.
  intros [d0 d1 d2 d2' d3 d4 e s fs1 ids out fs' evs Hend H1 H2 H2' Hb2 H3 Hac H4 Hb4 Hor Hans Hlate Hh].
  destruct (accepted_session e (d_fs d3) s fs1 ids Hac) as [Hd Hb].
  pose proof (accepted_env e d3 s fs1 ids Hac (server_end d0 d1 d2 d2' d3 Hend H1 H2 H2' H3)) as Henv.
  rewrite (accepted_op e _ s fs1 ids Hac _ _ (or_request _ _ _ _ Hor)) in Hh.
  apply res_bind_ok in Hh as ([[s' fs2] msgs] & Hp & Hh). injection Hh as <- <- <-. cbn [fst snd].
  destruct (receive_text_spec e d4 s fs1 s' fs2 msgs Hb Hd (or_request _ _ _ _ Hor) (or_command _ _ _ _ Hor) Hp) as [_ ->].
  eapply get_output; [done | exact H1 | exact H2 | exact H2' | exact Hb2 | eapply rtc_r; [exact H3 | exact Henv]
    | exact H4 | exact Hb4 | exact Hor | exact Hans | exact Hlate | exact Hp].
Qed.

Lemma server_http between d d' :
  rtc (server_step between) d d' -> rtc (http_step stack ex t sock user token between) d d'.
Proof.
  apply rtc_subrel. intros x y [Hs|Hg]; [by apply http_env | by apply http_get, server_get_get].
Qed.

Lemma server_gets_gets between n d d' :
  server_gets between n d d' -> gets stack ex t sock user token between n d d'.
Proof.
  induction 1 as [d|n d d1 d' Hs _ IH|n d d1 d' Hg _ IH]; [apply gets_done | by eapply gets_env|].
  eapply gets_get; [by apply server_get_get | done].
Qed.

(** A GET is answered, with one of three codes. *)
Lemma server_get_answered calm d d1 d2 d2' d3 d4 e s fs1 ids :
  between_gets user token calm d -> d_end d = false ->
  rtc (env_step stack ex sock token) d d1 -> rtc (env_step stack ex sock token) d1 d2 -> rtc (file_step token) d2 d2' ->
  rtc (env_step stack ex sock token) (ask_step stack ex t sock user token d2 d2') d3 ->
  accepted e (d_fs d3) s fs1 ids -> rtc (env_step stack ex sock token) (with_files fs1 d3) d4 ->
  output_request user token (sv_op e) s ->
  oe_answer (sv_op e) = answers stack ex t sock user token d1 d2 d2' -> oe_later (sv_op e) fs1 = d_fs d4 ->
  exists out fs' evs, handle e (d_fs d3) = Ok (out, fs', evs) /\
    status_of out ∈ [lit "200"; lit "202"; lit "410"].
Proof.
  intros ([k Hi] & _ & Hok & Hask) Hend H1 H2 H2' H3 Hac H4 Hor Hans Hlate.
  destruct (accepted_session e (d_fs d3) s fs1 ids Hac) as [Hd Hb].
  pose proof (accepted_env e d3 s fs1 ids Hac (server_end d d1 d2 d2' d3 Hend H1 H2 H2' H3)) as Henv.
  destruct (get_result stack ex t sock user token Huser Htoken Hune Hslash Hlen Hul Hsock d d1 d2 d2' _ d4 (sv_op e) s k
    Hi Hok Hask Hend H1 H2 H2' (rtc_r _ _ _ H3 Henv) H4 Hor Hans Hlate) as (s' & fs' & msgs & Hp & Hcode & _). cbn [d_fs with_files] in Hp.
  destruct (receive_text_spec e d3 s fs1 s' fs' msgs Hb Hd (or_request _ _ _ _ Hor) (or_command _ _ _ _ Hor) Hp) as [Hst _].
  eexists _, _, _. rewrite (accepted_op e _ s fs1 ids Hac _ _ (or_request _ _ _ _ Hor)), Hp. split; [reflexivity|].
  cbn [fst]. by rewrite Hst.
Qed.
End ServerDelivery.

(** ** From the POST on *)

Section ServerStarted.
Context (e : server_env) (fs : files) (s : Session) (fs1 : files) (ids : list Auth.id_event).
Context (x : ascii) (h : str) (segs : list str) (tok : str) (left : list (option str)).
Context (stack : str) (ex : str -> nat -> bool) (m : ChunkerManager) (t sock : N).
Let user : str := Http._user s.

(** The server's answer to a POST that starts a command. *)
Lemma server_started (calm : Prop) :
  accepted e fs s fs1 ids -> start_request (sv_op e) s fs1 x h segs tok left m -> daemon_fit (sv_op e) s x h segs m t sock ->
  exists out msg, handle e fs = Ok (out, fs1, (EvId <$> ids) ++ [EvOp msg]) /\
    status_of out = lit "201" /\ contains out (lit "Location: rest/op/" ++ tok ++ crlf) = true /\
    between_gets user tok calm (started_delivery (daemon_after fs1 stack ex m t sock msg) fs1).
Proof.
  intros Hac Hr Hd. destruct (accepted_session e fs s fs1 ids Hac) as [Hdbg Hb].
  destruct (post_between (sv_op e) s fs1 x h segs tok left stack ex m t sock calm Hr Hd) as (s' & msg & Hp & _ & _ & Hbetween).
  rewrite (post_ok (sv_op e) s fs1 x h segs tok left m Hr) in Hp. injection Hp as <- <-.
  pose proof (accepted_op e fs s fs1 ids Hac _ _ (sr_request _ _ _ _ _ _ _ _ _ Hr)) as Hh.
  rewrite (post_ok (sv_op e) s fs1 x h segs tok left m Hr) in Hh. cbn [res_bind fst snd] in Hh.
  rewrite (started_text e s tok Hb Hdbg) in Hh. eexists _, _. split; [exact Hh|]. split; [reflexivity|].
  split; [apply contains_sub | exact Hbetween].
Qed.

(** Claim C1: a command started by a POST delivers its output, from the
    requests the server is handed to the texts it writes.  An accepted POST
    is answered by a text with status 201 and the location.  From then on the
    command's writes, its end, other requests at the daemon, other changes to
    files and the steps inside each GET interleave, where a GET has five: the
    daemon's answer about the command, its lookup of the data file and of the
    end mark for the next position, and the client's own lookup of the data
    file and its read or lookup of the end mark.  In every such run in which
    the end mark is not left, after more output, between the two lookups of
    the daemon or the two of the client, what a client that reads status and
    body out of the texts of the GETs puts together leaves out nothing of
    what the command has written (it is made of pieces of the output none of
    which begins behind the end of the one before, so that text may be
    repeated), and it sees a 410 only after all of it.  The command writes
    text without NUL characters and without the word [END], of less than
    4 GiB; the data file can be opened and [errno] holds nothing from before;
    one client fetches the output. *)
Theorem server_output_complete :
  accepted e fs s fs1 ids -> start_request (sv_op e) s fs1 x h segs tok left m -> daemon_fit (sv_op e) s x h segs m t sock ->
  exists out msg, handle e fs = Ok (out, fs1, (EvId <$> ids) ++ [EvOp msg]) /\
    status_of out = lit "201" /\ contains out (lit "Location: rest/op/" ++ tok ++ crlf) = true /\
    forall d,
      rtc (server_step stack ex t sock user tok (no_late_end tok))
        (started_delivery (daemon_after fs1 stack ex m t sock msg) fs1) d ->
      exists c, covers (d_written d) (d_out d) c /\ (d_end d = true -> c = length (d_written d)).
Proof.
  intros Hac Hr Hd. destruct (server_started True Hac Hr Hd) as (out & msg & H1 & H2 & H3 & Hb). exists out, msg.
  split_and!; [done..|]. intros d Hrun. pose proof (sr_length _ _ _ _ _ _ _ _ _ Hr) as Hlen.
  destruct Hr, Hd as [_ _ _ (Hu & Huf & Hul) _ Hs].
  assert (clean tok) as Ht by (split; by eapply token_notin).
  assert (slash ∉ tok) as Hsl by (by eapply token_notin).
  assert (user <> []) as Hune by (by destruct Huf).
  apply (server_http stack ex t sock user tok Hsl Hlen) in Hrun.
  destruct (http_between stack ex t sock user tok Hu Ht Hune Hsl Hlen Hul Hs (no_late_end tok) True ltac:(done) _ d Hrun Hb)
    as (_ & [k (pd0 & pd & c & _ & _ & Hcov & _ & Hin)] & _).
  exists c. split; [done|]. intros He. rewrite He in Hin. by apply Hin.
Qed.

(** Claim C2: these GETs end, with no condition on what happens between the
    lookups.  At any point of a run an accepted GET is answered by a text with
    status 200, 202 or 410, whatever happens between its steps; and once the
    command has left its end mark, no run holds more GETs than the output has
    full chunks, and two, before the 410. *)
Theorem server_output_ends :
  accepted e fs s fs1 ids -> start_request (sv_op e) s fs1 x h segs tok left m -> daemon_fit (sv_op e) s x h segs m t sock ->
  exists out msg, handle e fs = Ok (out, fs1, (EvId <$> ids) ++ [EvOp msg]) /\ status_of out = lit "201" /\
    forall d,
      rtc (server_step stack ex t sock user tok anything) (started_delivery (daemon_after fs1 stack ex m t sock msg) fs1) d ->
      d_end d = false ->
      (forall d1 d2 d2' d3 d4 e2 s2 fs2 ids2,
         rtc (env_step stack ex sock tok) d d1 -> rtc (env_step stack ex sock tok) d1 d2 -> rtc (file_step tok) d2 d2' ->
         rtc (env_step stack ex sock tok) (ask_step stack ex t sock user tok d2 d2') d3 ->
         accepted e2 (d_fs d3) s2 fs2 ids2 -> rtc (env_step stack ex sock tok) (with_files fs2 d3) d4 ->
         output_request user tok (sv_op e2) s2 ->
         oe_answer (sv_op e2) = answers stack ex t sock user tok d1 d2 d2' -> oe_later (sv_op e2) fs2 = d_fs d4 ->
         exists out2 fs' evs, handle e2 (d_fs d3) = Ok (out2, fs', evs) /\
           status_of out2 ∈ [lit "200"; lit "202"; lit "410"]) /\
      (is_Some (d_fs d !! end_file tok) ->
         forall n d', server_gets stack ex t sock user tok anything n d d' -> n <= 2 + length (d_written d) / CHUNKER_READ_SIZE).
Proof.
  intros Hac Hr Hd. destruct (server_started False Hac Hr Hd) as (out & msg & H1 & H2 & _ & Hb). exists out, msg.
  split_and!; [done..|]. intros d Hrun Hend. pose proof (sr_length _ _ _ _ _ _ _ _ _ Hr) as Hlen.
  destruct Hr, Hd as [_ _ _ (Hu & Huf & Hul) _ Hs].
  assert (clean tok) as Ht by (split; by eapply token_notin).
  assert (slash ∉ tok) as Hsl by (by eapply token_notin).
  assert (user <> []) as Hune by (by destruct Huf).
  apply (server_http stack ex t sock user tok Hsl Hlen) in Hrun.
  pose proof (http_between stack ex t sock user tok Hu Ht Hune Hsl Hlen Hul Hs anything False ltac:(done) _ d Hrun Hb) as Hb'. split.
  - intros d1 d2 d2' d3 d4 e2 s2 fs2 ids2. intros.
    by eapply (server_get_answered stack ex t sock user tok Hu Ht Hune Hsl Hlen Hul Hs False d d1 d2 d2' d3 d4 e2 s2 fs2 ids2).
  - intros He n d' Hg. apply (server_gets_gets stack ex t sock user tok Hsl Hlen) in Hg.
    by apply (gets_bound stack ex t sock user tok Hu Ht Hune Hsl Hlen Hul Hs anything False ltac:(done) n d d').
Qed.
End ServerStarted.

(** ** A run *)

Definition demo_post_server : server_env :=
  demo_server (lit "POST") (lit "/rest/op/show/version/all") (lit "Basic dnlhdHRhOnNlY3JldA==") [] [].

(** What authentication makes of it. *)
Definition demo_accepted : Session :=
  match Auth.validate (sv_auth demo_post_server) (parse demo_post_server (start_session demo_post_server)).2 ∅ with
  | Ok (_, s, _, _) => s
  | Fault _ => start_session demo_post_server
  end.
Definition demo_ids : list Auth.id_event :=
  [Auth.SetGroups [100; 7]%N; Auth.SetLoginUid 1000; Auth.SetEgid 7; Auth.SetEuid 1000].

Lemma demo_server_accepted : accepted demo_post_server ∅ demo_accepted ∅ demo_ids.
Proof. split; vm_compute; [reflexivity.. | discriminate]. Qed.

Lemma demo_server_request :
  start_request (sv_op demo_post_server) demo_accepted ∅ (ascii_of_nat 115) (lit "how") [lit "version"; lit "all"]
    OpMode.demo_id [] (main_manager default_config).
Proof. split; try by_compute; first [apply never_null_Some | done]. Qed.

Lemma demo_server_daemon :
  daemon_fit (sv_op demo_post_server) demo_accepted (ascii_of_nat 115) (lit "how") [lit "version"; lit "all"]
    (main_manager default_config) 7 3.
Proof. split; try by_compute. split; [constructor|]. intros key pd H. by vm_compute in H. Qed.

Lemma server_output_complete_witness :
  exists out msg, handle demo_post_server ∅ = Ok (out, ∅, (EvId <$> demo_ids) ++ [EvOp msg]) /\
    status_of out = lit "201" /\ contains out (lit "Location: rest/op/" ++ OpMode.demo_id ++ crlf) = true /\
    forall d, rtc (server_step [] (fun _ _ => false) 7 3 (lit "vyatta") OpMode.demo_id (no_late_end OpMode.demo_id))
                (started_delivery (daemon_after ∅ [] (fun _ _ => false) (main_manager default_config) 7 3 msg) ∅) d ->
      exists c, covers (d_written d) (d_out d) c /\ (d_end d = true -> c = length (d_written d)).
Proof.
  exact (server_output_complete demo_post_server ∅ demo_accepted ∅ demo_ids _ _ _ _ _ [] (fun _ _ => false) _ 7 3
    demo_server_accepted demo_server_request demo_server_daemon).
Defined.

Lemma server_output_ends_witness :
  exists out msg, handle demo_post_server ∅ = Ok (out, ∅, (EvId <$> demo_ids) ++ [EvOp msg]) /\
    status_of out = lit "201" /\
    forall d, rtc (server_step [] (fun _ _ => false) 7 3 (lit "vyatta") OpMode.demo_id anything)
                (started_delivery (daemon_after ∅ [] (fun _ _ => false) (main_manager default_config) 7 3 msg) ∅) d ->
      d_end d = false ->
      (forall d1 d2 d2' d3 d4 e2 s2 fs2 ids2,
         rtc (env_step [] (fun _ _ => false) 3 OpMode.demo_id) d d1 ->
         rtc (env_step [] (fun _ _ => false) 3 OpMode.demo_id) d1 d2 -> rtc (file_step OpMode.demo_id) d2 d2' ->
         rtc (env_step [] (fun _ _ => false) 3 OpMode.demo_id)
           (ask_step [] (fun _ _ => false) 7 3 (lit "vyatta") OpMode.demo_id d2 d2') d3 ->
         accepted e2 (d_fs d3) s2 fs2 ids2 ->
         rtc (env_step [] (fun _ _ => false) 3 OpMode.demo_id) (with_files fs2 d3) d4 ->
         output_request (lit "vyatta") OpMode.demo_id (sv_op e2) s2 ->
         oe_answer (sv_op e2) = answers [] (fun _ _ => false) 7 3 (lit "vyatta") OpMode.demo_id d1 d2 d2' ->
         oe_later (sv_op e2) fs2 = d_fs d4 ->
         exists out2 fs' evs, handle e2 (d_fs d3) = Ok (out2, fs', evs) /\
           status_of out2 ∈ [lit "200"; lit "202"; lit "410"]) /\
      (is_Some (d_fs d !! end_file OpMode.demo_id) ->
         forall n d', server_gets [] (fun _ _ => false) 7 3 (lit "vyatta") OpMode.demo_id anything n d d' ->
           n <= 2 + length (d_written d) / CHUNKER_READ_SIZE).
Proof.
  exact (server_output_ends demo_post_server ∅ demo_accepted ∅ demo_ids _ _ _ _ _ [] (fun _ _ => false) _ 7 3
    demo_server_accepted demo_server_request demo_server_daemon).
Defined.

(** A GET of the location, once the command has written a word. *)
Definition demo_get_server : server_env :=
  mkServerEnv false (demo_getenv (lit "GET") (op_path OpMode.demo_id) (lit "Basic dnlhdHRhOnNlY3JldA==") []) []
    Auth.demo_auth (Scripts.demo_env [] 0) demo_get_env ConfMode.demo_env
    (Permissions.mkPermEnv None None (fun _ => true) (fun _ => Some (lit "{}"))) (fun _ => None) 5 [] (fun _ => true).

Definition demo_get_accepted : Session :=
  match Auth.validate (sv_auth demo_get_server) (parse demo_get_server (start_session demo_get_server)).2 ∅ with
  | Ok (_, s, _, _) => s
  | Fault _ => start_session demo_get_server
  end.

Lemma demo_get_server_accepted fs : accepted demo_get_server fs demo_get_accepted fs demo_ids.
Proof. split; vm_compute; [reflexivity.. | discriminate]. Qed.

Lemma demo_output_request : output_request (lit "vyatta") OpMode.demo_id demo_get_env demo_get_accepted.
Proof. split; [by_compute | reflexivity | reflexivity | reflexivity | reflexivity | reflexivity | reflexivity]. Qed.

Lemma demo_server_get :
  exists d', server_get [] (fun _ _ => false) 7 3 (lit "vyatta") OpMode.demo_id (no_late_end OpMode.demo_id) demo_written d' /\
    d_out d' = lit "hello" /\ d_end d' = false.
Proof.
  set (d3 := ask_step [] (fun _ _ => false) 7 3 (lit "vyatta") OpMode.demo_id demo_written demo_written).
  assert (match handle demo_get_server (d_fs d3) with
          | Ok (out, _, _) => bool_decide (status_of out = lit "200") && bool_decide (after_headers out = lit "hello")
          | Fault _ => false
          end = true) as H by (vm_compute; reflexivity).
  destruct (handle demo_get_server (d_fs d3)) as [[[out fs'] evs]|] eqn:E; [|discriminate].
  apply andb_true_iff in H as [Hs%bool_decide_eq_true Hb%bool_decide_eq_true].
  exists (receive_text out fs' (with_files (d_fs d3) d3)). split.
  - apply (server_output _ _ _ _ _ _ _ demo_written demo_written demo_written demo_written d3 (with_files (d_fs d3) d3)
      demo_get_server demo_get_accepted (d_fs d3) demo_ids out fs' evs);
      [reflexivity | constructor | constructor | constructor | by left | constructor | apply demo_get_server_accepted
      | constructor | by left | exact demo_output_request | reflexivity | reflexivity | exact E].
  - unfold receive_text. rewrite Hs, Hb. split; [vm_compute|]; reflexivity.
Qed.
